(* ===== verification/_CoqProject ===== *)
-Q . S2P
Prelude.v
Machine.v
Str.v
Lock.v
Pmem.v
Kvm.v
KvmSpec.v
Mmap.v
Uvm.v
UvmSpec.v
DestroySpec.v
MmapSpec.v
CopySpec.v
Proc.v
ProcSpec.v
SleepSpec.v
SleepConc.v
WaitSpec.v
ForkSpec.v
Buf.v
BufSpec.v
Bitmap.v
BitmapSpec.v
Inode.v
InodeSpec.v
LocateSpec.v
Dir.v
DirSpec.v
PathSpec.v
File.v
Fs.v
Mkfs.v
FsSpec.v
Syscall.v
FileSpec.v
Print.v
PrintSpec.v
Asm.v
AsmSpec.v
Virtio.v
VirtioSpec.v
Trap.v
TrapSpec.v
Boot.v
BootSpec.v
UserLib.v
UserLibSpec.v
UserSys.v
UserSysSpec.v
UserProg.v
VmPrint.v
