(* ===== verification/Prelude.v ===== *)
(** * WhuOS-xv6: a verification development of the kernel whu-oslab-lab

    The repository holds three trees.  src/whu-oslab-lab is the project's own
    RISC-V kernel, in C with some assembly, its user programs and the tool that
    makes its disk image; this development is about it.  src/oslab-main and
    src/xv6-riscv are the kernels it was developed from.

    ** The program and its parts

    A kernel for two harts with 64 processes.  At the bottom are the page
    allocator (kernel/mem/pmem.c), Sv39 page tables (kvm.c), user address spaces
    (uvm.c) and a pool of nodes for the lists of mmap regions (mmap.c).  Processes
    (kernel/proc) use all of them; a process gives the CPU away through swtch and
    the scheduler gives it back.  The file system (kernel/fs) is layered: buffer
    cache over the disk driver (kernel/dev/virtio.c), bitmaps, inodes,
    directories, open files.  System calls (kernel/syscall) reach processes,
    memory and files; traps (kernel/trap) reach system calls, the clock, the disk
    and the console; the boot code sets everything up.

    ** How the code is modelled

    A routine is a function [M S A]: from a state [S] to an [outcome], which is a
    result with the new state, a panic with its message, an endless loop ([Spin]),
    a context switch ([Swtch], with what happens when the process is resumed), or
    [NoFuel].  A statement of the C code is a line of the definition, in the
    order of the source; a [lens] lets a routine on a part of the state run on the
    whole ([zoom]), as a C function reaches a global of its own file.  States
    nest as the components do:

      pmem (CPU, memory, allocator)  <  kstate (+ repository, process table)
        <  bstate (+ buffers, disk)  <  istate (+ inodes, super block)
        <  fstate (+ open files)  <  sysstate (+ clock)
        <  tstate (+ disk driver, console, interrupt controller, CSRs)

    Pointers into static arrays (processes, buffers, inodes, files, nodes) are
    indices, NULL is [None]; pointers into physical memory are addresses of a byte
    memory with little-endian loads and stores.  Page tables, free lists,
    trapframes and user memory live in that memory, so aliasing is the machine's.
    Integers have the width of the source: [u8] .. [u64], [i32] are written
    wherever a value can leave its range.

    ** Files

    - Prelude: outcomes, monad, loops, lenses, [bcase], [mstep] and the other
      tactics, lemmas on lists.
    - Machine (include/common.h, memlayout.h, riscv.h), Str (lib/str.c).
    - Lock (lib/spinlock.c, proc/cpu.h): the routines of one hart, and in Module
      Conc the interleaving of any number of harts as a step relation.
    - Pmem (mem/pmem.c).  Kvm, KvmSpec (mem/kvm.c), VmPrint (its listings).
    - Mmap (mem/mmap.c).  Uvm (mem/uvm.c), with UvmSpec on copies and heap,
      DestroySpec on uvm_destroy_pgtbl(), MmapSpec on the list of free regions,
      CopySpec on uvm_copy_pgtbl().
    - Proc (proc/proc.c, cpu.c, lib/sleeplock.c), ProcSpec on scheduling and the
      life cycle, SleepSpec on sleep locks, ForkSpec on proc_fork(), WaitSpec on
      proc_wait() and on how it meets proc_exit().  SleepConc: sleep locks, sleep, wakeup and the hand-over of the
      scheduler as a step relation of any number of processes.
    - Buf, BufSpec (fs/buf.c); Bitmap, BitmapSpec (fs/bitmap.c); Inode, InodeSpec
      (fs/inode.c), LocateSpec on the block tree of a file; Dir, DirSpec
      (fs/dir.c), PathSpec on path lookup; File (fs/file.c); Fs (fs/fs.c); Mkfs (mkfs/mkfs.c); FsSpec (image, mount and
      start-up test together).
    - Syscall (syscall/*.c, dev/timer.c), FileSpec on descriptors.
    - Print, PrintSpec (dev/uart.c, lib/print.c); Virtio, VirtioSpec (dev/virtio.c).
    - Asm, AsmSpec: entry.S, switch.S, trampoline.S, trap.S, instruction by
      instruction.
    - Trap, TrapSpec (trap/*.c, dev/plic.c); Boot, BootSpec (boot/*.c, dev/timer.c).
    - UserLib, UserLibSpec (user/user_lib.c); UserSys, UserSysSpec (the system
      call stubs); UserProg (user/test.c, user/initcode.c).

    ** Interfaces

    What is not code of the repository is a class whose laws state documented
    behaviour, with an instance that shows the laws can hold: [BlockDev] (Buf), a
    disk that returns what was last written; [VirtioBlk] (Virtio), a virtio block
    device that serves requests of its ring; [Uart16550] (Print); [Plic] (Trap).
    The buffer cache and everything above it are proved against [BlockDev], whose
    transfer is one step; VirtioSpec shows that the driver on any [VirtioBlk]
    performs it when no other spin lock is held.
    [LockIn] (ProcSpec) states where a lock sits in a state that holds the
    kernel; the locks proc_sleep() gives up and the sleep locks of buffers and
    inodes are its instances.  Addresses fixed by the linker, the bytes of the
    first program and the contents of uninitialised stack arrays are arguments.

    ** What the theorems show

    - Memory: the allocator refines a pair of lists and never hands out a page
      twice; mapping, unmapping and walking page tables are exact, for every
      address; the kernel page table has the documented entries; heap growth and
      its inverse, copies between user and kernel, and the mmap list as a set of
      addresses, with uvm_mmap() and uvm_munmap() inverse to one another; an
      address space is destroyed by freeing each of its pages once.
    - Concurrency: mutual exclusion of spin locks for every interleaving; for sleep
      locks mutual exclusion, no lost wakeup and no deadlock for every interleaving;
      and what is held and restored across each context switch, on both sides.
    - Processes: sleep, wakeup, exit, every branch of wait, and the whole of fork:
      slot, address space, registers, regions, and that the parent is untouched.
    - File system: the cache is write-through and, over any sequence of reads,
      writes and releases, recycles the least recently released buffer; bitmaps;
      inodes and file contents survive a write and a read; the blocks of a file
      form a tree that inode_locate_block() walks; directories are maps from names
      to inode numbers, and a path resolves to the inode its elements lead to, with
      one reference and no other; the image of mkfs is accepted by fs_init().
    - Devices: a disk request returns along every fair schedule and has moved its
      block; printf() transmits the rendering of its arguments.
    - Traps and assembly: a system call from its stub to the handler and back;
      registers across the trampoline and swtch; interrupts in user and kernel.
    - Boot: the invariants above hold once main() of CPU 0 has initialised.

    Some theorems state where the code falls short of its purpose: a wakeup lost
    between proc_exit() and proc_wait() (WaitSpec), a page freed twice by
    proc_free() (ProcSpec), index block entries that are not written back
    (LocateSpec), a disk request that waits for ever with a lock held (VirtioSpec).

    ** Bounds and fuel

    Loops over a range take the number of rounds from the range ([for_],
    [mappages_fuel], [pages_fuel], [region_fuel]).  Loops over a linked structure
    take the size of the array that holds it: [list_fuel] for 256 nodes, where a
    list without repetition has fewer; [ring_fuel] for 64 buffers and the head;
    [chain_fuel] for the descriptors.  The path walk takes the length of the path,
    printf() that of its format, the wait for the uart its [tx_delay].  The
    theorems that these routines return show that this is enough: none of them
    has [NoFuel] as a result.  Waiting for other processes has no bound in the
    source; sl_fuel (sleep locks), wait_fuel (proc_wait, sys_sleep) and the
    argument of proc_scheduler bound the number of wakeups looked at, and the
    theorems hold for each positive value.  The waits of the disk driver take a
    schedule of what the device does in each window.

    ** Not modelled

    - src/oslab-main and src/xv6-riscv: other kernels, kept for reference.
    - include/proc/initcode.h: generated bytes, an argument of proc_make_first().
    - printf() calls for debugging inside the other routines; printf() itself is
      modelled in Print.
    - Permission bits and instruction fetch in the address translation of Asm,
      and the UART while its divisor latch is open.
    - The file operations of mkfs on the host: the contents of the files are its
      argument. *)

From stdpp Require Export base tactics numbers list gmap strings.
From Stdlib Require Export ZArith Lia.
From Stdlib Require Import FunctionalExtensionality.

#[global] Open Scope Z_scope.
#[global] Set Default Goal Selector "!".

(** ** Machine integers

    C's unsigned types wrap; [u8] .. [u64] write the wrap-around out.  [i32] is
    the conversion of a wider value to [int]. *)

Definition u8 (x : Z) : Z := x mod 2 ^ 8.
Definition u16 (x : Z) : Z := x mod 2 ^ 16.
Definition u32 (x : Z) : Z := x mod 2 ^ 32.
Definition u64 (x : Z) : Z := x mod 2 ^ 64.
Definition i32 (x : Z) : Z :=
  let y := u32 x in if y <? 2 ^ 31 then y else y - 2 ^ 32.

Lemma u8_bound x : 0 <= u8 x < 256.
Proof. unfold u8. change (2 ^ 8) with 256. apply Z.mod_pos_bound. lia. Qed.
Lemma u8_small x : 0 <= x < 256 -> u8 x = x.
Proof. intros. unfold u8. apply Z.mod_small. lia. Qed.
Lemma u8_idem x : u8 (u8 x) = u8 x.
Proof. apply u8_small, u8_bound. Qed.
Lemma u32_small x : 0 <= x < 2 ^ 32 -> u32 x = x.
Proof. intros. unfold u32. apply Z.mod_small. lia. Qed.
Lemma u64_small x : 0 <= x < 2 ^ 64 -> u64 x = x.
Proof. intros. unfold u64. apply Z.mod_small. lia. Qed.

(** ** The kernel monad

    A kernel routine runs on one hart and threads a state [S].  It returns
    ([Ret]); or stops in panic(), which sets a flag and loops ([Panic], with
    the message); or busy-waits for something only another hart or a device can
    change ([Spin]); or gives the CPU away through swtch() and goes on from the
    state it is resumed in ([Swtch], with the continuation).  [NoFuel] is the
    outcome of a loop whose iteration bound was exhausted. *)

Inductive outcome (S A : Type) : Type :=
| Ret (a : A) (s : S)
| Panic (msg : string)
| Spin (s : S)
| Swtch (s : S) (k : S -> outcome S A)
| NoFuel.
Arguments Ret {S A} a s.
Arguments Panic {S A} msg.
Arguments Spin {S A} s.
Arguments Swtch {S A} s k.
Arguments NoFuel {S A}.

Definition M (S A : Type) : Type := S -> outcome S A.

Fixpoint obind {S A B} (o : outcome S A) (f : A -> M S B) : outcome S B :=
  match o with
  | Ret a s => f a s
  | Panic msg => Panic msg
  | Spin s => Spin s
  | Swtch s k => Swtch s (fun s' => obind (k s') f)
  | NoFuel => NoFuel
  end.

Definition ret {S A} (a : A) : M S A := fun s => Ret a s.
Definition bind {S A B} (m : M S A) (f : A -> M S B) : M S B :=
  fun s => obind (m s) f.
Definition panic {S A} (msg : string) : M S A := fun _ => Panic msg.
Definition get {S} : M S S := fun s => Ret s s.
Definition gets {S A} (g : S -> A) : M S A := fun s => Ret (g s) s.
Definition modify {S} (g : S -> S) : M S unit := fun s => Ret tt (g s).
Definition spin {S A} : M S A := fun s => Spin s.
Definition swtch {S} : M S unit := fun s => Swtch s (fun s' => Ret tt s').
Definition no_fuel {S A} : M S A := fun _ => NoFuel.
(** assert() of lib/print.c: panics with the message when the condition fails. *)
Definition assert_ {S} (condition : bool) (warning : string) : M S unit :=
  if condition then ret tt else panic warning.

Declare Scope kernel_scope.
Delimit Scope kernel_scope with kernel.
Notation "'let*' x := m 'in' k" := (bind m (fun x => k))
  (at level 200, x binder, m at level 100, k at level 200,
   format "'let*'  x  :=  m  'in' '//' k") : kernel_scope.
Notation "m ;;; k" := (bind m (fun _ => k))
  (at level 100, k at level 200, right associativity,
   format "m ;;; '//' k") : kernel_scope.
#[global] Open Scope kernel_scope.

Definition when {S} (b : bool) (m : M S unit) : M S unit :=
  if b then m else ret tt.

(** [for (i = i0; n more times; i += step) body(i)] *)
Fixpoint for_ {S} (n : nat) (i step : Z) (body : Z -> M S unit) : M S unit :=
  match n with
  | O => ret tt
  | Datatypes.S n => body i;;; for_ n (i + step) step body
  end.

(** The same loop with a body that may leave it by a return: [Some r]. *)
Fixpoint for_exit {S R} (n : nat) (i step : Z)
    (body : Z -> M S (option R)) : M S (option R) :=
  match n with
  | O => ret None
  | Datatypes.S n =>
      let* r := body i in
      match r with
      | Some r => ret (Some r)
      | None => for_exit n (i + step) step body
      end
  end.

(** [while (cond) body], at most [fuel] iterations. *)
Fixpoint while_ {S} (fuel : nat) (cond : M S bool) (body : M S unit) : M S unit :=
  match fuel with
  | O => no_fuel
  | Datatypes.S fuel =>
      let* b := cond in
      if b then body;;; while_ fuel cond body else ret tt
  end.

Lemma bind_run {S A B} (m : M S A) (f : A -> M S B) s a s' :
  m s = Ret a s' -> bind m f s = f a s'.
Proof. intros H. unfold bind. by rewrite H. Qed.
Lemma bind_panic {S A B} (m : M S A) (f : A -> M S B) s msg :
  m s = Panic msg -> bind m f s = Panic msg.
Proof. intros H. unfold bind. by rewrite H. Qed.
Lemma bind_spin {S A B} (m : M S A) (f : A -> M S B) s s' :
  m s = Spin s' -> bind m f s = Spin s'.
Proof. intros H. unfold bind. by rewrite H. Qed.
Lemma bind_ret {S A B} (a : A) (f : A -> M S B) s : bind (ret a) f s = f a s.
Proof. done. Qed.
Lemma bind_get {S B} (f : S -> M S B) s : bind get f s = f s s.
Proof. done. Qed.
Lemma bind_gets {S A B} (g : S -> A) (f : A -> M S B) s :
  bind (gets g) f s = f (g s) s.
Proof. done. Qed.
Lemma bind_modify {S B} (g : S -> S) (f : unit -> M S B) s :
  bind (modify g) f s = f tt (g s).
Proof. done. Qed.
Lemma bind_Panic {S A B} msg (f : A -> M S B) s :
  bind (panic msg) f s = Panic msg.
Proof. done. Qed.
Lemma bind_assoc {S A B C} (m : M S A) (f : A -> M S B) (g : B -> M S C) s :
  bind (bind m f) g s = bind m (fun a => bind (f a) g) s.
Proof.
  unfold bind. induction (m s) as [| | |s' k IH|]; try done.
  simpl. f_equal. apply functional_extensionality. intros s''. apply IH.
Qed.
(** Equal continuations, for the end of a routine. *)
Lemma bind_ext {S A B} (m : M S A) (f g : A -> M S B) s : (forall a s', f a s' = g a s') -> bind m f s = bind m g s.
Proof. intros H. f_equal. apply functional_extensionality. intros a. apply functional_extensionality. apply H. Qed.
Lemma bind_bind_ext {S A B C} (m : M S A) (f : A -> M S B) (g : B -> M S C) h s :
  (forall a s', bind (f a) g s' = h a s') -> bind (bind m f) g s = bind m h s.
Proof. intros H. rewrite bind_assoc. by apply bind_ext. Qed.

Lemma bind_ret_r {S A} (m : M S A) s : bind m ret s = m s.
Proof.
  unfold bind. induction (m s) as [| | |s' k IH|]; try done. cbn. f_equal. apply functional_extensionality. intros s''. apply IH.
Qed.
Lemma bind_assert_true {S B} warning (f : unit -> M S B) s :
  bind (assert_ true warning) f s = f tt s.
Proof. done. Qed.
Lemma bind_when_true {S B} (m : M S unit) (f : unit -> M S B) s :
  bind (when true m) f s = bind m f s.
Proof. done. Qed.
Lemma bind_when_false {S B} (m : M S unit) (f : unit -> M S B) s :
  bind (when false m) f s = f tt s.
Proof. done. Qed.
Lemma ret_run {S A} (a : A) (s : S) : ret a s = Ret a s.
Proof. done. Qed.
Lemma modify_run {S} (g : S -> S) s : modify g s = Ret tt (g s).
Proof. done. Qed.
Lemma gets_run {S A} (g : S -> A) s : gets g s = Ret (g s) s.
Proof. done. Qed.

Create HintDb kmonad.
#[export] Hint Rewrite @bind_ret @bind_get @bind_gets @bind_modify @bind_Panic @bind_assoc
  @bind_assert_true @bind_when_true @bind_when_false @ret_run @modify_run @gets_run
  : kmonad.

(** [mstep]: run the administrative steps of the monad.
    [mrun H]: run the next call with the equation [H : call s = Ret a s']. *)
Ltac mstep := repeat progress (autorewrite with kmonad; cbn beta iota).
Tactic Notation "mrun" uconstr(H) := erewrite bind_run; [| eapply H]; mstep.

(** ** Lenses: a component's routine run inside a larger state *)

Record lens (S T : Type) : Type := Lens { lget : S -> T; lset : T -> S -> S }.
Arguments Lens {S T} lget lset.
Arguments lget {S T} l s.
Arguments lset {S T} l t s.

Fixpoint ozoom {S T A} (l : lens S T) (s : S) (o : outcome T A) : outcome S A :=
  match o with
  | Ret a t => Ret a (lset l t s)
  | Panic msg => Panic msg
  | Spin t => Spin (lset l t s)
  | Swtch t k => Swtch (lset l t s) (fun s' => ozoom l s' (k (lget l s')))
  | NoFuel => NoFuel
  end.
Definition zoom {S T A} (l : lens S T) (m : M T A) : M S A :=
  fun s => ozoom l s (m (lget l s)).

Lemma zoom_run {S T A} (l : lens S T) (m : M T A) s a t :
  m (lget l s) = Ret a t -> zoom l m s = Ret a (lset l t s).
Proof. intros H. unfold zoom. by rewrite H. Qed.

#[global] Arguments bind : simpl never.
#[global] Arguments zoom : simpl never.
#[global] Arguments u8 : simpl never.
#[global] Arguments u16 : simpl never.
#[global] Arguments u32 : simpl never.
#[global] Arguments u64 : simpl never.

(** The loop rule for [for_]: an invariant indexed by the iteration count. *)
Lemma for_inv {S} (I : nat -> S -> Prop) n i0 step (body : Z -> M S unit) s :
  I O s ->
  (forall k s, (k < n)%nat -> I k s ->
     exists s', body (i0 + Z.of_nat k * step) s = Ret tt s' /\ I (Datatypes.S k) s') ->
  exists s', for_ n i0 step body s = Ret tt s' /\ I n s'.
Proof.
  revert i0 I s. induction n as [|n IH]; intros i0 I s HI Hstep.
  { exists s. done. }
  destruct (Hstep O s) as (s1 & Hb & HI1); [lia|done|].
  rewrite Z.mul_0_l, Z.add_0_r in Hb.
  destruct (IH (i0 + step) (fun k => I (Datatypes.S k)) s1) as (s2 & Hl & HI2); [done| |].
  { intros k s' Hk HIk. destruct (Hstep (Datatypes.S k) s') as (s3 & Hb3 & HI3); [lia|done|].
    exists s3. split; [|done]. rewrite <- Hb3. f_equal. lia. }
  exists s2. split; [|done]. simpl. erewrite bind_run by done. done.
Qed.

(** ** Generic facts *)

Lemma div_mul_le a b : 0 < b -> b * (a / b) <= a < b * (a / b) + b.
Proof. intros. pose proof (Z.mul_div_le a b). pose proof (Z.mul_succ_div_gt a b). lia. Qed.

Lemma Zeqb_ext a b c d : (a = b <-> c = d) -> (a =? b) = (c =? d).
Proof. intros H. destruct (Z.eqb_spec a b), (Z.eqb_spec c d); tauto. Qed.

(** [bprop]: turn the boolean tests of the source into propositions. *)
Ltac bprop :=
  repeat match goal with
  | H : (_ =? _) = true |- _ => apply Z.eqb_eq in H
  | H : (_ =? _) = false |- _ => apply Z.eqb_neq in H
  | H : (_ <? _) = true |- _ => apply Z.ltb_lt in H
  | H : (_ <? _) = false |- _ => apply Z.ltb_ge in H
  | H : (_ <=? _) = true |- _ => apply Z.leb_le in H
  | H : (_ <=? _) = false |- _ => apply Z.leb_gt in H
  | H : (_ && _) = true |- _ => apply andb_true_iff in H; destruct H
  | H : (_ && _) = false |- _ => apply andb_false_iff in H; destruct H
  | H : (_ || _) = false |- _ => apply orb_false_iff in H; destruct H
  | H : (_ || _) = true |- _ => apply orb_true_iff in H; destruct H
  | H : negb _ = true |- _ => apply negb_true_iff in H
  | H : negb _ = false |- _ => apply negb_false_iff in H
  end.
Ltac bif :=
  match goal with
  | |- context [if ?b then _ else _] => let E := fresh "E" in destruct b eqn:E; bprop
  end.
Ltac bsolve := repeat bif; try done; try lia; try (f_equal; lia).
Tactic Notation "bcase" constr(b) := let E := fresh "E" in destruct b eqn:E; bprop.
