(* ===== verification/Machine.v ===== *)
(** * Machine constants and byte memory

    The constants of include/common.h, include/memlayout.h and the page macros
    of include/riscv.h, the [sstatus] interrupt bit behind intr_on / intr_off /
    intr_get, and physical memory as a finite map from addresses to bytes with
    little-endian loads and stores of the widths the kernel uses. *)

From S2P Require Import Prelude.

(** ** Constants *)

Definition NULL : Z := 0.
Definition NCPU : Z := 2.
Definition PGSIZE : Z := 4096.
Definition KERNEL_PAGES : Z := 1024.
Definition BLOCK_SIZE : Z := 1024.

Definition KERNEL_BASE : Z := 0x80000000.
Definition UART_BASE : Z := 0x10000000.
Definition UART_IRQ : Z := 10.
Definition PLIC_BASE : Z := 0x0c000000.
Definition CLINT_BASE : Z := 0x2000000.
Definition VIRTIO_BASE : Z := 0x10001000.
Definition VIRTIO_IRQ : Z := 1.
Definition PHYSTOP : Z := KERNEL_BASE + 128 * 1024 * 1024.
Definition VA_MAX : Z := Z.shiftl 1 38.
Definition TRAMPOLINE : Z := VA_MAX - PGSIZE.
Definition TRAPFRAME : Z := TRAMPOLINE - PGSIZE.
Definition KSTACK (cpu : Z) : Z := TRAMPOLINE - (cpu + 1) * 2 * PGSIZE.

(** ** Page rounding: the macros of riscv.h on a 64-bit operand *)

Definition PG_ROUND_UP (sz : Z) : Z := Z.land (u64 (sz + PGSIZE - 1)) (Z.lnot (PGSIZE - 1)).
Definition PG_ROUND_DOWN (a : Z) : Z := Z.land a (Z.lnot (PGSIZE - 1)).
(** ALIGN_DOWN / ALIGN_UP of common.h. *)
Definition ALIGN_DOWN (x align : Z) : Z := Z.land x (Z.lnot (align - 1)).
Definition ALIGN_UP (x align : Z) : Z := Z.land (u64 (x + align - 1)) (Z.lnot (align - 1)).

Lemma land_lnot_ones x n : 0 <= n -> Z.land x (Z.lnot (2 ^ n - 1)) = x / 2 ^ n * 2 ^ n.
Proof.
  intros Hn. replace (2 ^ n - 1) with (Z.ones n) by (rewrite Z.ones_equiv; lia).
  rewrite <- Z.ldiff_land, Z.ldiff_ones_r by done.
  by rewrite Z.shiftl_mul_pow2, Z.shiftr_div_pow2 by done.
Qed.
Lemma PG_ROUND_DOWN_eq a : PG_ROUND_DOWN a = a / 4096 * 4096.
Proof. apply (land_lnot_ones a 12). lia. Qed.
Lemma PG_ROUND_UP_eq a : 0 <= a -> a + 4095 < 2 ^ 64 ->
  PG_ROUND_UP a = (a + 4095) / 4096 * 4096.
Proof.
  intros. unfold PG_ROUND_UP. replace (a + PGSIZE - 1) with (a + 4095) by (unfold PGSIZE; lia).
  rewrite u64_small by lia. apply (land_lnot_ones _ 12). lia.
Qed.
Lemma PG_ROUND_UP_bounds a : 0 <= a -> a + 4095 < 2 ^ 64 ->
  a <= PG_ROUND_UP a < a + 4096 /\ PG_ROUND_UP a mod 4096 = 0.
Proof.
  intros. rewrite PG_ROUND_UP_eq by done.
  pose proof (div_mul_le (a + 4095) 4096). split; [lia|]. apply Z.mod_mul. lia.
Qed.
Lemma PG_ROUND_DOWN_bounds a :
  a - 4096 < PG_ROUND_DOWN a <= a /\ PG_ROUND_DOWN a mod 4096 = 0.
Proof.
  rewrite PG_ROUND_DOWN_eq. pose proof (div_mul_le a 4096).
  split; [lia|]. apply Z.mod_mul. lia.
Qed.
Lemma PG_ROUND_DOWN_aligned a : a mod 4096 = 0 -> PG_ROUND_DOWN a = a.
Proof. intros. rewrite PG_ROUND_DOWN_eq. pose proof (Z.div_mod a 4096). lia. Qed.
Lemma PG_ROUND_UP_aligned a : a mod 4096 = 0 -> 0 <= a -> a + 4095 < 2 ^ 64 -> PG_ROUND_UP a = a.
Proof.
  intros. rewrite PG_ROUND_UP_eq by done.
  pose proof (Z.div_mod a 4096). pose proof (Z.div_mod (a + 4095) 4096).
  pose proof (Z.mod_pos_bound (a + 4095) 4096). lia.
Qed.

(** ** Physical memory

    A cell holds 8 bits; an address never written reads as 0. *)

Abbreviation memory := (gmap Z Z).

Definition ld8 (m : memory) (a : Z) : Z := u8 (default 0 (m !! a)).
Definition st8 (m : memory) (a v : Z) : memory := <[a := u8 v]> m.

(** Little-endian access of [n] bytes. *)
Fixpoint ld (n : nat) (m : memory) (a : Z) : Z :=
  match n with
  | O => 0
  | S n => ld8 m a + 256 * ld n m (a + 1)
  end.
Fixpoint st (n : nat) (m : memory) (a v : Z) : memory :=
  match n with
  | O => m
  | S n => st n (st8 m a v) (a + 1) (v / 256)
  end.
Abbreviation ld64 := (ld 8).
Abbreviation st64 := (st 8).
Abbreviation ld32 := (ld 4).
Abbreviation st32 := (st 4).

Lemma ld_range n m a : 0 <= ld n m a < 256 ^ Z.of_nat n.
Proof.
  revert a. induction n as [|n IH]; intros a; [done|]. change (ld (Datatypes.S n) m a) with (ld8 m a + 256 * ld n m (a + 1)). pose proof (u8_bound (default 0 (m !! a))) as Hb.
  rewrite Nat2Z.inj_succ, Z.pow_succ_r by lia. specialize (IH (a + 1)). unfold ld8. lia.
Qed.
Lemma ld8_st8 m a b v : ld8 (st8 m a v) b = if a =? b then u8 v else ld8 m b.
Proof.
  unfold ld8, st8. bcase (a =? b).
  - subst. rewrite lookup_insert_eq. simpl. apply u8_idem.
  - by rewrite lookup_insert_ne.
Qed.
Lemma ld8_st8_eq m a v : ld8 (st8 m a v) a = u8 v.
Proof. by rewrite ld8_st8, Z.eqb_refl. Qed.
Lemma ld8_st8_ne m a b v : a <> b -> ld8 (st8 m a v) b = ld8 m b.
Proof. intros. rewrite ld8_st8. by bcase (a =? b). Qed.

(** A load depends only on the cells it reads. *)
Lemma ld_ext n m m' a :
  (forall b, a <= b < a + Z.of_nat n -> ld8 m b = ld8 m' b) -> ld n m a = ld n m' a.
Proof.
  revert a. induction n as [|n IH]; intros a H; [done|]. simpl.
  rewrite (H a), (IH (a + 1)); [done| |lia]. intros b Hb. apply H. lia.
Qed.
Lemma ld8_st_ne n m a v b :
  b < a \/ a + Z.of_nat n <= b -> ld8 (st n m a v) b = ld8 m b.
Proof.
  revert m a v. induction n as [|n IH]; intros m a v H; [done|]. simpl.
  rewrite IH by lia. apply ld8_st8_ne. lia.
Qed.
Lemma ld_st_ne k n m a v b :
  b + Z.of_nat k <= a \/ a + Z.of_nat n <= b -> ld k (st n m a v) b = ld k m b.
Proof. intros H. apply ld_ext. intros c Hc. apply ld8_st_ne. lia. Qed.
Lemma ld_st_eq n m a v : ld n (st n m a v) a = v mod 256 ^ Z.of_nat n.
Proof.
  revert m a v. induction n as [|n IH]; intros m a v; [simpl; by rewrite Z.mod_1_r|].
  cbn [ld st]. rewrite IH, ld8_st_ne, ld8_st8_eq by lia.
  rewrite Nat2Z.inj_succ, Z.pow_succ_r by lia. unfold u8. change (2 ^ 8) with 256.
  rewrite Z.rem_mul_r by lia. done.
Qed.
Lemma ld64_st64_eq m a v : 0 <= v < 2 ^ 64 -> ld64 (st64 m a v) a = v.
Proof.
  intros. rewrite ld_st_eq. change (256 ^ Z.of_nat 8) with (2 ^ 64). by apply Z.mod_small.
Qed.
Lemma ld64_st64_ne m a v b : b + 8 <= a \/ a + 8 <= b -> ld64 (st64 m a v) b = ld64 m b.
Proof. intros. apply ld_st_ne. simpl. lia. Qed.
Lemma ld_zero n m a : (forall b, a <= b < a + Z.of_nat n -> ld8 m b = 0) -> ld n m a = 0.
Proof.
  revert a. induction n as [|n IH]; intros a H; [done|]. simpl.
  rewrite (H a) by lia. rewrite IH; [lia|]. intros. apply H. lia.
Qed.

#[global] Arguments ld : simpl never.
#[global] Arguments st : simpl never.
#[global] Arguments ld8 : simpl never.
#[global] Arguments st8 : simpl never.
