(* ===== verification/Str.v ===== *)
(** * lib/str.c: byte and string routines

    Each routine is the source's loop on byte memory.  Reading routines take
    readers ([fun i => *(p + i)]) so that the file system can run them on block
    buffers and name arrays as well as on kernel memory. *)

From S2P Require Import Prelude Machine.

(** ** The loops *)

(** [for(i = 0; i < n; i++) cdst[i] = c;] *)
Fixpoint memset_loop (n : nat) (m : memory) (cdst c : Z) : memory :=
  match n with
  | O => m
  | S n => memset_loop n (st8 m cdst c) (cdst + 1) c
  end.
Definition memset (m : memory) (dst c n : Z) : memory :=
  memset_loop (Z.to_nat n) m dst c.

Fixpoint memcmp_loop (n : nat) (s1 s2 : Z -> Z) (i : Z) : Z :=
  match n with
  | O => 0
  | S n => if s1 i =? s2 i then memcmp_loop n s1 s2 (i + 1) else s1 i - s2 i
  end.
Definition memcmp (v1 v2 : Z -> Z) (n : Z) : Z := memcmp_loop (Z.to_nat n) v1 v2 0.

(** [while(n-- > 0) *d++ = *s++;] *)
Fixpoint copy_up (n : nat) (m : memory) (d s : Z) : memory :=
  match n with
  | O => m
  | S n => copy_up n (st8 m d (ld8 m s)) (d + 1) (s + 1)
  end.
(** [while(n-- > 0) *--d = *--s;] *)
Fixpoint copy_down (n : nat) (m : memory) (d s : Z) : memory :=
  match n with
  | O => m
  | S n => copy_down n (st8 m (d - 1) (ld8 m (s - 1))) (d - 1) (s - 1)
  end.
Definition memmove (m : memory) (dst src n : Z) : memory :=
  if n =? 0 then m
  else if (src <? dst) && (dst <? src + n)
  then copy_down (Z.to_nat n) m (dst + n) (src + n)
  else copy_up (Z.to_nat n) m dst src.
Definition memcpy (m : memory) (dst src n : Z) : memory := memmove m dst src n.

(** [while(n > 0 && *p && *p == *q) n--, p++, q++;
     if(n == 0) return 0; return (char)*p - (char)*q;]  (char is unsigned on RISC-V) *)
Fixpoint strncmp_loop (n : nat) (p q : Z -> Z) (i : Z) : Z :=
  match n with
  | O => 0
  | S n' => if negb (p i =? 0) && (p i =? q i)
            then strncmp_loop n' p q (i + 1)
            else u8 (p i) - u8 (q i)
  end.
Definition strncmp (p q : Z -> Z) (n : Z) : Z := strncmp_loop (Z.to_nat n) p q 0.

(** [while(n-- > 0 && ( *s++ = *t++) != 0); while(n-- > 0) *s++ = 0;] *)
Fixpoint strncpy_loop (n : nat) (m : memory) (s t : Z) : memory :=
  match n with
  | O => m
  | S n' =>
      let c := ld8 m t in
      let m' := st8 m s c in
      if c =? 0 then memset_loop n' m' (s + 1) 0
      else strncpy_loop n' m' (s + 1) (t + 1)
  end.
Definition strncpy (m : memory) (s t n : Z) : memory := strncpy_loop (Z.to_nat n) m s t.

(** [while(--n > 0 && ( *s++ = *t++) != 0); *s = 0;] with [n] = --n at the test *)
Fixpoint safestrcpy_loop (n : nat) (m : memory) (s t : Z) : memory :=
  match n with
  | O => st8 m s 0
  | S n' =>
      let c := ld8 m t in
      let m' := st8 m s c in
      if c =? 0 then st8 m' (s + 1) 0
      else safestrcpy_loop n' m' (s + 1) (t + 1)
  end.
Definition safestrcpy (m : memory) (s t n : Z) : memory :=
  if n <=? 0 then m else safestrcpy_loop (Z.to_nat (n - 1)) m s t.

(** [for(n = 0; s[n]; n++);] within [fuel] characters. *)
Fixpoint strlen_loop (fuel : nat) (s : Z -> Z) (n : Z) : option Z :=
  match fuel with
  | O => None
  | S fuel => if s n =? 0 then Some n else strlen_loop fuel s (n + 1)
  end.
Definition strlen (fuel : nat) (s : Z -> Z) : option Z := strlen_loop fuel s 0.

(** The array contents strncpy leaves in its destination: the characters of [t]
    up to the terminator, padded with zeros to [n]. *)
Fixpoint strncpy_bytes (n : nat) (t : list Z) : list Z :=
  match n, t with
  | O, _ => []
  | S n', c :: t' => if c =? 0 then replicate (S n') 0 else c :: strncpy_bytes n' t'
  | S n', [] => replicate (S n') 0
  end.

#[global] Arguments memset : simpl never.
#[global] Arguments memmove : simpl never.
#[global] Strategy 100 [memset memmove].

(** ** memset and memmove against their reference definitions *)

Lemma memset_loop_spec n m d c a :
  ld8 (memset_loop n m d c) a =
  if (d <=? a) && (a <? d + Z.of_nat n) then u8 c else ld8 m a.
Proof.
  revert m d. induction n as [|n IH]; intros m d; cbn [memset_loop]; [bsolve|].
  rewrite IH, ld8_st8. bsolve.
Qed.
Lemma memset_spec m d c n a : 0 <= n ->
  ld8 (memset m d c n) a = if (d <=? a) && (a <? d + n) then u8 c else ld8 m a.
Proof. intros. unfold memset. rewrite memset_loop_spec. by rewrite Z2Nat.id. Qed.
Lemma memset_in m d c n a : d <= a < d + n -> ld8 (memset m d c n) a = u8 c.
Proof. intros. rewrite memset_spec by lia. bsolve. Qed.
Lemma memset_out m d c n a : 0 <= n -> a < d \/ d + n <= a ->
  ld8 (memset m d c n) a = ld8 m a.
Proof. intros. rewrite memset_spec by lia. bsolve. Qed.

Lemma u8_ld8 m a : u8 (ld8 m a) = ld8 m a.
Proof. apply u8_idem. Qed.

Lemma copy_up_spec n m d s a :
  d <= s \/ s + Z.of_nat n <= d ->
  ld8 (copy_up n m d s) a =
  if (d <=? a) && (a <? d + Z.of_nat n) then ld8 m (s + (a - d)) else ld8 m a.
Proof.
  revert m d s. induction n as [|n IH]; intros m d s H; cbn [copy_up]; [bsolve|].
  rewrite IH by lia. rewrite !ld8_st8, u8_ld8. bsolve.
Qed.
Lemma copy_down_spec n m d s a :
  s <= d ->
  ld8 (copy_down n m (d + Z.of_nat n) (s + Z.of_nat n)) a =
  if (d <=? a) && (a <? d + Z.of_nat n) then ld8 m (s + (a - d)) else ld8 m a.
Proof.
  revert m. induction n as [|n IH]; intros m H; cbn [copy_down]; [bsolve|].
  replace (d + Z.of_nat (S n) - 1) with (d + Z.of_nat n) by lia.
  replace (s + Z.of_nat (S n) - 1) with (s + Z.of_nat n) by lia.
  rewrite IH by done. rewrite !ld8_st8, u8_ld8. bsolve.
Qed.

Lemma memmove_at m dst src n a : 0 <= n ->
  ld8 (memmove m dst src n) a =
  if (dst <=? a) && (a <? dst + n) then ld8 m (src + (a - dst)) else ld8 m a.
Proof.
  intros Hn. unfold memmove. bcase (n =? 0); [bsolve|].
  destruct ((src <? dst) && (dst <? src + n)) eqn:E0.
  - bprop. rewrite <- (Z2Nat.id n) at 2 3 by lia. rewrite copy_down_spec by lia.
    by rewrite Z2Nat.id by lia.
  - rewrite copy_up_spec; rewrite ?Z2Nat.id by lia; [done|]. bprop; lia.
Qed.
Lemma memmove_out m dst src n a : 0 <= n -> a < dst \/ dst + n <= a ->
  ld8 (memmove m dst src n) a = ld8 m a.
Proof. intros. rewrite memmove_at by done. bsolve. Qed.
Lemma memmove_in m dst src n a : dst <= a < dst + n ->
  ld8 (memmove m dst src n) a = ld8 m (src + (a - dst)).
Proof. intros. rewrite memmove_at by lia. bsolve. Qed.

(** ** The string routines *)

(** What the characters of two C strings agree on: the first [n] positions up to
    and including the first terminator. *)
Definition str_eq_upto (n : Z) (p q : Z -> Z) : Prop :=
  forall i, 0 <= i < n -> (forall j, 0 <= j < i -> p j <> 0) -> p i = q i.

Lemma strncmp_loop_zero n p q i :
  (forall j, 0 <= p j < 256) -> (forall j, 0 <= q j < 256) ->
  strncmp_loop n p q i = 0 <->
  (forall k, i <= k < i + Z.of_nat n -> (forall j, i <= j < k -> p j <> 0) -> p k = q k).
Proof.
  intros Hp Hq. revert i. induction n as [|n IH]; intros i; cbn [strncmp_loop].
  { split; [lia|done]. }
  rewrite !u8_small by done.
  destruct (negb (p i =? 0) && (p i =? q i)) eqn:E; bprop.
  - rewrite IH. split; intros Heq k Hk Hj.
    + destruct (decide (k = i)) as [->|]; [done|]. apply Heq; [lia|]. intros. apply Hj. lia.
    + apply Heq; [lia|]. intros j Hj'. destruct (decide (j = i)) as [->|]; [done|]. apply Hj. lia.
  - split; intros Heq.
    + assert (p i = 0 /\ q i = 0) as [H0 H1] by lia.
      intros k Hk Hj. destruct (decide (k = i)) as [->|]; [lia|]. destruct (Hj i); lia.
    + rewrite (Heq i); lia.
  - split; intros Heq; [lia|]. rewrite (Heq i); lia.
Qed.
Lemma strncmp_zero_iff p q n :
  (forall j, 0 <= p j < 256) -> (forall j, 0 <= q j < 256) -> 0 <= n ->
  strncmp p q n = 0 <-> str_eq_upto n p q.
Proof.
  intros Hp Hq Hn. unfold strncmp, str_eq_upto. rewrite strncmp_loop_zero by done.
  by rewrite Z.add_0_l, Z2Nat.id by lia.
Qed.

(** *** strncpy and safestrcpy *)

Definition bytes_at (m : memory) (a : Z) (n : nat) : list Z :=
  (fun i => ld8 m (a + i)) <$> seqZ 0 (Z.of_nat n).

Lemma bytes_at_S m a n : bytes_at m a (S n) = ld8 m a :: bytes_at m (a + 1) n.
Proof.
  unfold bytes_at. rewrite Nat2Z.inj_succ, seqZ_cons, Z.pred_succ by lia.
  change (Z.succ 0) with (1 + 0). rewrite <- fmap_add_seqZ, fmap_cons, Z.add_0_r, <- list_fmap_compose. f_equal.
  apply list_fmap_ext. intros ? x _. unfold compose. f_equal. lia.
Qed.
Lemma bytes_at_ext m m' a n :
  (forall b, a <= b < a + Z.of_nat n -> ld8 m b = ld8 m' b) -> bytes_at m a n = bytes_at m' a n.
Proof.
  intros H. apply list_fmap_ext. intros i x Hi%list_elem_of_lookup_2.
  apply elem_of_seqZ in Hi. apply H. lia.
Qed.
Lemma bytes_at_zero n m a : (forall b, a <= b < a + Z.of_nat n -> ld8 m b = 0) ->
  bytes_at m a n = replicate n 0.
Proof.
  revert a. induction n as [|n IH]; intros a H; [done|].
  rewrite bytes_at_S, (H a), IH; [done| |lia]. intros b Hb. apply H. lia.
Qed.

Lemma strncpy_loop_out n m s t a : a < s \/ s + Z.of_nat n <= a -> ld8 (strncpy_loop n m s t) a = ld8 m a.
Proof.
  revert m s t. induction n as [|n IH]; intros m s t Ha; [done|]. cbn [strncpy_loop].
  bcase (ld8 m t =? 0).
  - rewrite memset_loop_spec. bcase (s + 1 <=? a); bcase (a <? s + 1 + Z.of_nat n); cbn [andb];
      try lia; apply ld8_st8_ne; lia.
  - rewrite IH by lia. apply ld8_st8_ne. lia.
Qed.
Lemma strncpy_loop_bytes n m s t :
  s + Z.of_nat n <= t \/ t + Z.of_nat n <= s ->
  bytes_at (strncpy_loop n m s t) s n = strncpy_bytes n (bytes_at m t n).
Proof.
  revert m s t. induction n as [|n IH]; intros m s t Hd; [done|].
  cbn [strncpy_loop]. rewrite (bytes_at_S m t). cbn [strncpy_bytes].
  bcase (ld8 m t =? 0).
  - rewrite E. apply (bytes_at_zero (S n)). intros b Hb. rewrite memset_loop_spec.
    bcase (s + 1 <=? b); bcase (b <? s + 1 + Z.of_nat n); cbn [andb]; try done; try lia.
    assert (b = s) as -> by lia. by rewrite ld8_st8_eq.
  - rewrite bytes_at_S, strncpy_loop_out, ld8_st8_eq, u8_ld8, IH by lia. do 2 f_equal.
    apply bytes_at_ext. intros b Hb. apply ld8_st8_ne. lia.
Qed.

Lemma safestrcpy_loop_out n m s t a : a < s \/ s + Z.of_nat n < a -> ld8 (safestrcpy_loop n m s t) a = ld8 m a.
Proof.
  revert m s t. induction n as [|n IH]; intros m s t Ha; cbn [safestrcpy_loop].
  - apply ld8_st8_ne. lia.
  - bcase (ld8 m t =? 0); [rewrite !ld8_st8_ne by lia; done|].
    rewrite IH by lia. apply ld8_st8_ne. lia.
Qed.
(** The copy is terminated, and its characters up to there are the source's. *)
Lemma safestrcpy_loop_prefix n m s t :
  s + Z.of_nat n < t \/ t + Z.of_nat n <= s ->
  exists k, 0 <= k <= Z.of_nat n /\ ld8 (safestrcpy_loop n m s t) (s + k) = 0 /\
    (forall i, 0 <= i < k -> ld8 (safestrcpy_loop n m s t) (s + i) = ld8 m (t + i) /\ ld8 m (t + i) <> 0) /\
    (k = Z.of_nat n \/ ld8 m (t + k) = 0).
Proof.
  revert m s t. induction n as [|n IH]; intros m s t Hd; cbn [safestrcpy_loop].
  - exists 0. rewrite Z.add_0_r, ld8_st8_eq. split_and!; [lia|lia|done| |by left]. lia.
  - bcase (ld8 m t =? 0).
    + exists 0. rewrite !Z.add_0_r, ld8_st8_ne, ld8_st8_eq, u8_ld8 by lia.
      split_and!; lia.
    + destruct (IH (st8 m s (ld8 m t)) (s + 1) (t + 1)) as (k & Hk & Hz & Hc & He); [lia|].
      exists (k + 1). replace (s + (k + 1)) with (s + 1 + k) by lia.
      replace (t + (k + 1)) with (t + 1 + k) by lia.
      split_and!; try lia.
      * intros i Hi. destruct (decide (i = 0)) as [->|].
        { rewrite !Z.add_0_r, safestrcpy_loop_out, ld8_st8_eq, u8_ld8 by lia. done. }
        destruct (Hc (i - 1)) as [H1 H2]; [lia|]. rewrite ld8_st8_ne in H1, H2 by lia.
        replace (s + i) with (s + 1 + (i - 1)) by lia. by replace (t + i) with (t + 1 + (i - 1)) by lia.
      * destruct (decide (k = Z.of_nat n)) as [->|]; [left; lia|right].
        destruct He as [->|He]; [lia|]. by rewrite ld8_st8_ne in He by lia.
Qed.

(** ** Properties *)

(** memmove copies exactly as if the source were read in full before the
    destination is written, for every overlap of the two ranges (the optimised
    up/down loops against the reference definition), and writes nothing outside
    the destination. *)
Theorem memmove_correct m dst src n a : 0 <= n ->
  ld8 (memmove m dst src n) a =
  if (dst <=? a) && (a <? dst + n) then ld8 m (src + (a - dst)) else ld8 m a.
Proof. apply memmove_at. Qed.
Lemma memmove_correct_witness :
  let m := st8 (st8 (st8 ∅ 100 7) 101 8) 102 9 in
  ld8 (memmove m 101 100 3) 103 = 9 /\ ld8 (memmove m 101 100 3) 101 = 7.
Proof.
  intros m. split.
  - rewrite (memmove_correct m 101 100 3 103) by lia. reflexivity.
  - rewrite (memmove_correct m 101 100 3 101) by lia. reflexivity.
Defined.

(** strncpy fills the n bytes of its destination with the source string,
    zero-padded (no terminator when the source has n characters or more), and
    safestrcpy always terminates: its result is the longest prefix of the source
    that fits in n - 1 characters.  Neither writes outside the n bytes. *)
Theorem strcpy_family m s t n :
  0 < n -> s + n <= t \/ t + n <= s ->
  bytes_at (strncpy m s t n) s (Z.to_nat n) = strncpy_bytes (Z.to_nat n) (bytes_at m t (Z.to_nat n)) /\
  (forall a, a < s \/ s + n <= a ->
     ld8 (strncpy m s t n) a = ld8 m a /\ ld8 (safestrcpy m s t n) a = ld8 m a) /\
  exists k, 0 <= k < n /\ ld8 (safestrcpy m s t n) (s + k) = 0 /\
    (forall i, 0 <= i < k -> ld8 (safestrcpy m s t n) (s + i) = ld8 m (t + i) /\ ld8 m (t + i) <> 0) /\
    (k = n - 1 \/ ld8 m (t + k) = 0).
Proof.
  intros Hn Hd. unfold strncpy, safestrcpy. bcase (n <=? 0); [lia|]. split_and!.
  - apply strncpy_loop_bytes. lia.
  - intros a Ha. split; [apply strncpy_loop_out|apply safestrcpy_loop_out]; lia.
  - destruct (safestrcpy_loop_prefix (Z.to_nat (n - 1)) m s t) as (k & Hk & H); [lia|].
    rewrite Z2Nat.id in * by lia. exists k. split; [lia|done].
Qed.
Lemma strcpy_family_witness :
  let m := st8 (st8 (st8 ∅ 100 65) 101 66) 102 67 in
  bytes_at (strncpy m 200 100 2) 200 2 = [65; 66] /\ bytes_at (safestrcpy m 200 100 2) 200 2 = [65; 0].
Proof.
  intros m. pose proof (strcpy_family m 200 100 2 ltac:(lia) ltac:(lia)) as (H & _ & _).
  split; [exact H|reflexivity].
Defined.

(** strncmp returns 0 exactly when the two strings agree on their first n
    characters up to the first terminator. *)
Theorem strncmp_equality p q n :
  (forall j, 0 <= p j < 256) -> (forall j, 0 <= q j < 256) -> 0 <= n ->
  strncmp p q n = 0 <-> str_eq_upto n p q.
Proof. apply strncmp_zero_iff. Qed.
Lemma strncmp_equality_witness :
  str_eq_upto 5 (fun i => if i <? 2 then 97 else 0) (fun i => if i <? 2 then 97 else if i =? 2 then 0 else 98).
Proof.
  apply (strncmp_equality (fun i => if i <? 2 then 97 else 0)
           (fun i => if i <? 2 then 97 else if i =? 2 then 0 else 98) 5).
  - intros j. destruct (j <? 2); lia.
  - intros j. destruct (j <? 2); [lia|]. destruct (j =? 2); lia.
  - lia.
  - reflexivity.
Defined.
