(* ===== verification/Lock.v ===== *)
(** * lib/spinlock.c and the per-CPU interrupt nesting of proc/cpu.h

    Two views.  The sequential view gives push_off / pop_off / spinlock_* as
    routines of the running hart, used by every component that takes a lock.
    The concurrent view breaks acquire and release into their memory accesses
    and interleaves any number of harts over one lock. *)

From S2P Require Import Prelude.

(** ** State *)

(** The running CPU: cpus[r_tp()] (noff, origin, proc) with its id and its
    sstatus.SIE bit.  [cproc] is the index in procs[] of the current process.
    The saved scheduler context is not data here: see [Swtch]. *)
Record cpu : Type := mkCpu {
  cpu_id : Z;
  noff : Z;
  origin : bool;
  sie : bool;
  cproc : option nat;
}.
Record spinlock : Type := mkLock {
  locked : bool;
  lname : string;
  lcpuid : Z;
}.

Definition set_noff (n : Z) (c : cpu) : cpu := mkCpu (cpu_id c) n (origin c) (sie c) (cproc c).
Definition set_origin (b : bool) (c : cpu) : cpu := mkCpu (cpu_id c) (noff c) b (sie c) (cproc c).
Definition set_sie (b : bool) (c : cpu) : cpu := mkCpu (cpu_id c) (noff c) (origin c) b (cproc c).
Definition set_cproc (p : option nat) (c : cpu) : cpu :=
  mkCpu (cpu_id c) (noff c) (origin c) (sie c) p.

(** ** Sequential view *)

Definition intr_get : M cpu bool := gets sie.
Definition intr_on : M cpu unit := modify (set_sie true).
Definition intr_off : M cpu unit := modify (set_sie false).

Definition push_off : M cpu unit :=
  let* old := intr_get in
  intr_off;;;
  let* c := get in
  when (noff c =? 0) (modify (set_origin old));;;
  modify (fun c => set_noff (noff c + 1) c).

Definition pop_off : M cpu unit :=
  let* on := intr_get in
  when on (panic "pop_off - interruptible");;;
  let* c := get in
  when (noff c <? 1) (panic "pop_off");;;
  modify (fun c => set_noff (noff c - 1) c);;;
  let* c := get in
  when ((noff c =? 0) && origin c) intr_on.

Definition spinlock_holding (c : cpu) (lk : spinlock) : bool :=
  locked lk && (lcpuid lk =? cpu_id c).

Definition spinlock_init (name : string) : spinlock := mkLock false name (-1).

Definition fst_lens {A B} : lens (A * B) A := Lens fst (fun a p => (a, snd p)).

(** The test-and-set loop leaves at once on a free lock; on a lock held by
    another hart it spins until that hart acts. *)
Definition spinlock_acquire : M (cpu * spinlock) unit :=
  zoom fst_lens push_off;;;
  let* p := get in
  if spinlock_holding (fst p) (snd p) then panic "spinlock_acquire"
  else if locked (snd p) then spin
  else modify (fun p => (fst p, mkLock true (lname (snd p)) (cpu_id (fst p)))).

Definition spinlock_release : M (cpu * spinlock) unit :=
  let* p := get in
  if spinlock_holding (fst p) (snd p) then
    modify (fun p => (fst p, mkLock false (lname (snd p)) (-1)));;;
    zoom fst_lens pop_off
  else panic "spinlock_release".

(** ** What one push_off / pop_off and one acquire / release do *)

Definition pushed (c : cpu) : cpu :=
  mkCpu (cpu_id c) (noff c + 1) (if noff c =? 0 then sie c else origin c) false (cproc c).
Definition popped (c : cpu) : cpu :=
  mkCpu (cpu_id c) (noff c - 1) (origin c)
    (if (noff c =? 1) && origin c then true else sie c) (cproc c).

(** The hart is between critical sections consistently: a positive depth means
    interrupts are off. *)
Definition cpu_wf (c : cpu) : Prop := 0 <= noff c /\ (0 < noff c -> sie c = false).

(** A balanced push/pop pair changes at most the remembered state [origin], and
    only at depth 0. *)
Definition synced (c : cpu) : cpu :=
  if noff c =? 0 then set_origin (sie c) c else c.

Definition lk_free (l : spinlock) : Prop := locked l = false /\ lcpuid l = -1.
Definition lk_held (c : cpu) (l : spinlock) : spinlock := mkLock true (lname l) (cpu_id c).

Lemma push_off_run c : push_off c = Ret tt (pushed c).
Proof.
  unfold push_off, pushed, intr_get, intr_off. mstep. cbn.
  destruct (noff c =? 0); done.
Qed.
Lemma pop_off_run c : sie c = false -> 1 <= noff c -> pop_off c = Ret tt (popped c).
Proof.
  intros Hs Hn. unfold pop_off, popped, intr_get, intr_on. mstep. cbn. rewrite Hs. mstep.
  bcase (noff c <? 1); [lia|]. mstep. cbn.
  rewrite (Zeqb_ext (noff c - 1) 0 (noff c) 1) by lia.
  destruct ((noff c =? 1) && origin c); cbn; unfold set_sie, set_noff; cbn; by rewrite ?Hs.
Qed.

Lemma pushed_cproc c : cproc (pushed c) = cproc c.
Proof. done. Qed.
Lemma pushed_wf c : cpu_wf c -> cpu_wf (pushed c).
Proof. unfold cpu_wf. cbn. intros []. split; [lia|done]. Qed.
Lemma popped_pushed c : cpu_wf c -> popped (pushed c) = synced c.
Proof.
  intros [Hn Hs]. destruct c as [i n o b p]; cbn in *. unfold popped, pushed, synced; cbn.
  rewrite (Zeqb_ext (n + 1) 1 n 0) by lia.
  bcase (n =? 0); cbn.
  - unfold set_origin; cbn. f_equal; [lia|]. by destruct b.
  - f_equal; [lia|]. rewrite Hs; [done|lia].
Qed.
Lemma synced_idem c : synced (synced c) = synced c.
Proof. destruct c as [i n o b p]. unfold synced; cbn. by destruct (n =? 0) eqn:E; cbn; rewrite E. Qed.
Lemma synced_wf c : cpu_wf c -> cpu_wf (synced c).
Proof. unfold cpu_wf, synced. by destruct (noff c =? 0). Qed.
Lemma synced_cproc c : cproc (synced c) = cproc c.
Proof. unfold synced. by destruct (noff c =? 0). Qed.
Lemma synced_noff c : noff (synced c) = noff c.
Proof. unfold synced. by destruct (noff c =? 0). Qed.
Lemma synced_sie c : sie (synced c) = sie c.
Proof. unfold synced. by destruct (noff c =? 0). Qed.
Lemma synced_pushed c : cpu_wf c -> synced (pushed c) = pushed c.
Proof. intros []. unfold synced. cbn. bcase (noff c + 1 =? 0); [lia|done]. Qed.

Lemma spinlock_acquire_run c l : lk_free l ->
  spinlock_acquire (c, l) = Ret tt (pushed c, lk_held c l).
Proof.
  intros [Hl Hc]. unfold spinlock_acquire.
  mrun (zoom_run fst_lens push_off (c, l) tt (pushed c) (push_off_run c)).
  cbn. unfold spinlock_holding. by rewrite Hl.
Qed.
Lemma lk_free_eta l : lk_free l -> mkLock false (lname l) (-1) = l.
Proof. destruct l as [b n i]. intros [Hb Hi]. cbn in *. by subst. Qed.
Lemma spinlock_release_run c l : cpu_wf c -> lk_free l ->
  spinlock_release (pushed c, lk_held c l) = Ret tt (synced c, l).
Proof.
  intros Hc Hl. unfold spinlock_release. mstep. cbn. unfold spinlock_holding. cbn.
  rewrite Z.eqb_refl. mstep. cbn. rewrite (lk_free_eta l Hl).
  erewrite zoom_run; [|apply pop_off_run; cbn; destruct Hc; done || lia].
  cbn. by rewrite popped_pushed.
Qed.
Lemma spinlock_acquire_held c l : locked l = true -> lcpuid l = cpu_id c ->
  spinlock_acquire (c, l) = Panic "spinlock_acquire".
Proof.
  intros Hl Hc. unfold spinlock_acquire.
  mrun (zoom_run fst_lens push_off (c, l) tt (pushed c) (push_off_run c)).
  cbn. unfold spinlock_holding. cbn. by rewrite Hl, Hc, Z.eqb_refl.
Qed.
Lemma spinlock_acquire_busy c l : locked l = true -> lcpuid l <> cpu_id c ->
  spinlock_acquire (c, l) = Spin (pushed c, l).
Proof.
  intros Hl Hc. unfold spinlock_acquire.
  mrun (zoom_run fst_lens push_off (c, l) tt (pushed c) (push_off_run c)).
  cbn. unfold spinlock_holding. cbn. rewrite Hl. cbn. bcase (lcpuid l =? cpu_id c); done.
Qed.
Lemma spinlock_release_not_held c l : spinlock_holding c l = false ->
  spinlock_release (c, l) = Panic "spinlock_release".
Proof. intros H. unfold spinlock_release. mstep. cbn. by rewrite H. Qed.

(** ** Nesting: [n] acquisitions of distinct locks and as many releases *)

Fixpoint iter_m {S} (n : nat) (m : M S unit) : M S unit :=
  match n with
  | O => ret tt
  | Datatypes.S n => m;;; iter_m n m
  end.

Lemma push_off_iter n c : 0 <= noff c ->
  exists c', iter_m n push_off c = Ret tt c' /\ noff c' = noff c + Z.of_nat n /\
    cpu_id c' = cpu_id c /\ cproc c' = cproc c /\
    (n <> O -> sie c' = false) /\ (n = O -> sie c' = sie c) /\
    origin c' = (if (noff c =? 0) && negb (Nat.eqb n 0) then sie c else origin c).
Proof.
  revert c. induction n as [|n IH]; intros c Hc; cbn [iter_m].
  { exists c. rewrite andb_false_r. repeat split; try done. lia. }
  mrun (push_off_run c).
  destruct (IH (pushed c)) as (c' & -> & Hn & Hi & Hp & Hs & Hs0 & Ho); [cbn; lia|].
  exists c'. split; [done|]. cbn in Hn, Hi, Hp, Ho, Hs0. repeat split; try done; try lia.
  - intros _. destruct n; [by apply Hs0|by apply Hs].
  - rewrite Ho, andb_true_r. bcase (noff c + 1 =? 0); cbn; [lia|done].
Qed.
Lemma pop_off_iter n c : sie c = false -> Z.of_nat n <= noff c ->
  exists c', iter_m n pop_off c = Ret tt c' /\ noff c' = noff c - Z.of_nat n /\
    cpu_id c' = cpu_id c /\ cproc c' = cproc c /\ origin c' = origin c /\
    sie c' = (if (noff c =? Z.of_nat n) && negb (Nat.eqb n 0) then origin c else false).
Proof.
  revert c. induction n as [|n IH]; intros c Hs Hn; cbn [iter_m].
  { exists c. rewrite andb_false_r. repeat split; try done. lia. }
  assert (1 <= noff c) as Hn1 by lia. mrun (pop_off_run c Hs Hn1).
  destruct (decide (n = O)) as [->|Hn0].
  { eexists. split; [done|]. cbn. rewrite Hs. repeat split; try done; try lia.
    change (Z.of_nat 1) with 1. by destruct (noff c =? 1), (origin c). }
  assert (noff c =? 1 = false) as E by (apply Z.eqb_neq; lia).
  destruct (IH (popped c)) as (c' & -> & Hn' & Hi & Hp & Ho & Hs'); [cbn; by rewrite E|cbn; lia|].
  exists c'. split; [done|]. cbn in *. repeat split; try done; try lia.
  rewrite Hs'. destruct n; [done|]. cbn. rewrite !andb_true_r.
  by rewrite (Zeqb_ext (noff c - 1) (Z.of_nat (S n)) (noff c) (Z.of_nat (S (S n)))) by lia.
Qed.

(** ** Concurrent view

    Any number of harts contend for one lock.  A hart's phase names the next
    memory access of spinlock_acquire / spinlock_release it is about to make;
    harts are numbered by their ids. *)

Module Conc.

Inductive phase : Type :=
| Idle        (* outside acquire and release *)
| RdLocked    (* acquire: spinlock_holding, about to read lk->locked *)
| RdCpuid     (* acquire: locked was 1, about to read lk->cpuid *)
| Trying      (* acquire: in the test-and-set loop *)
| Got         (* acquire: test-and-set returned 0, cpuid not yet written *)
| InCS        (* acquire returned: the critical section *)
| RelLocked   (* release: spinlock_holding, about to read lk->locked *)
| RelCpuid    (* release: locked was 1, about to read lk->cpuid *)
| RelClear    (* release: check passed, about to write cpuid = -1 *)
| Unlocking   (* release: cpuid is -1, about to store locked = 0 *)
| Panicked.   (* stopped in panic() *)

Definition upd {A} (i : nat) (p : A) (f : nat -> A) : nat -> A :=
  fun j => if decide (i = j) then p else f j.
Lemma upd_at {A} i (p : A) f j : upd i p f j = if decide (i = j) then p else f j.
Proof. done. Qed.
Lemma upd_eq {A} i (p : A) f : upd i p f i = p.
Proof. unfold upd. by case_decide. Qed.
#[local] Opaque upd.

Record sys : Type := mkSys { phases : nat -> phase; slocked : bool; scpuid : Z }.

Definition at_phase (i : nat) (p : phase) (s : sys) : sys :=
  mkSys (upd i p (phases s)) (slocked s) (scpuid s).

Inductive step : sys -> sys -> Prop :=
| s_call i s : phases s i = Idle -> step s (at_phase i RdLocked s)
| s_rd_locked i s : phases s i = RdLocked ->
    step s (at_phase i (if slocked s then RdCpuid else Trying) s)
| s_rd_cpuid i s : phases s i = RdCpuid ->
    step s (at_phase i (if scpuid s =? Z.of_nat i then Panicked else Trying) s)
| s_tas_fail i s : phases s i = Trying -> slocked s = true -> step s s
| s_tas_win i s : phases s i = Trying -> slocked s = false ->
    step s (mkSys (upd i Got (phases s)) true (scpuid s))
| s_set_cpuid i s : phases s i = Got ->
    step s (mkSys (upd i InCS (phases s)) (slocked s) (Z.of_nat i))
| s_unlock_call i s : phases s i = InCS -> step s (at_phase i RelLocked s)
| s_rel_locked i s : phases s i = RelLocked ->
    step s (at_phase i (if slocked s then RelCpuid else Panicked) s)
| s_rel_cpuid i s : phases s i = RelCpuid ->
    step s (at_phase i (if scpuid s =? Z.of_nat i then RelClear else Panicked) s)
| s_rel_clear i s : phases s i = RelClear ->
    step s (mkSys (upd i Unlocking (phases s)) (slocked s) (-1))
| s_store_locked i s : phases s i = Unlocking ->
    step s (mkSys (upd i Idle (phases s)) false (scpuid s)).

(** A lock fresh from spinlock_init, every hart outside. *)
Definition init : sys := mkSys (fun _ => Idle) false (-1).

Definition owns (p : phase) : bool :=
  match p with
  | Got | InCS | RelLocked | RelCpuid | RelClear | Unlocking => true
  | _ => false
  end.
Definition cpuid_set (p : phase) : bool :=
  match p with InCS | RelLocked | RelCpuid | RelClear => true | _ => false end.

(** The lock word is 1 exactly when one hart owns the lock, at most one does,
    and cpuid names a hart only while that hart has its id stored. *)
Definition inv (s : sys) : Prop :=
  (forall i j, owns (phases s i) = true -> owns (phases s j) = true -> i = j) /\
  (slocked s = true <-> exists i, owns (phases s i) = true) /\
  (forall i, cpuid_set (phases s i) = true <-> scpuid s = Z.of_nat i) /\
  (forall i, phases s i <> Panicked).

Lemma inv_init : inv init.
Proof.
  unfold inv, init; cbn. split_and!; try done.
  - split; [done|]. by intros [].
  - intros i. split; [done|lia].
Qed.

(** A move that keeps a hart's ownership keeps the invariant. *)
Lemma inv_same i p s : inv s ->
  owns p = owns (phases s i) -> cpuid_set p = cpuid_set (phases s i) -> p <> Panicked ->
  inv (at_phase i p s).
Proof.
  intros (Huniq & Hlk & Hid & Hnp) Ho Hc Hp.
  assert (forall j, owns (upd i p (phases s) j) = owns (phases s j)) as Ho'.
  { intros j. rewrite upd_at. case_decide; by subst. }
  assert (forall j, cpuid_set (upd i p (phases s) j) = cpuid_set (phases s j)) as Hc'.
  { intros j. rewrite upd_at. case_decide; by subst. }
  unfold inv; cbn. setoid_rewrite Ho'. setoid_rewrite Hc'. split_and!; try done.
  intros j. rewrite upd_at. by case_decide.
Qed.

Lemma inv_cpuid s i : inv s -> scpuid s = Z.of_nat i -> owns (phases s i) = true.
Proof. intros (_ & _ & Hid & _) H%Hid. by destruct (phases s i). Qed.

(** Phases change only at [i]; an owner stays an owner. *)
Lemma owner_kept i p s : owns (phases s i) = true -> owns p = true -> inv s ->
  (forall a b, owns (upd i p (phases s) a) = true -> owns (upd i p (phases s) b) = true -> a = b) /\
  (slocked s = true <-> exists a, owns (upd i p (phases s) a) = true).
Proof.
  intros Hi Hp (Huniq & Hlk & _). assert (forall a, owns (upd i p (phases s) a) = owns (phases s a)) as Ho.
  { intros a. rewrite upd_at. case_decide; [subst; by rewrite Hi|done]. }
  setoid_rewrite Ho. by split.
Qed.
Lemma calm_upd i p s : inv s -> p <> Panicked -> forall a, upd i p (phases s) a <> Panicked.
Proof. intros (_ & _ & _ & Hnp) Hp a. rewrite upd_at. case_decide; [done|apply Hnp]. Qed.
(** While [i] owns the lock no other hart does. *)
Lemma others_out i j s : inv s -> owns (phases s i) = true -> i <> j -> owns (phases s j) = false.
Proof. intros (Huniq & _) Hi Hj. destruct (owns (phases s j)) eqn:E; [|done]. destruct Hj. by apply Huniq. Qed.
Lemma cpuid_owner j s : cpuid_set (phases s j) = true -> owns (phases s j) = true.
Proof. by destruct (phases s j). Qed.

Lemma inv_tas i s : inv s -> phases s i = Trying -> slocked s = false -> inv (mkSys (upd i Got (phases s)) true (scpuid s)).
Proof.
  intros Hinv Hp Hl. pose proof Hinv as (_ & Hlk & Hid & _). assert (forall j, owns (phases s j) = false) as Hno.
  { intros j. destruct (owns (phases s j)) eqn:E; [|done]. rewrite (proj2 Hlk) in Hl; [done|by exists j]. }
  unfold inv; cbn. split_and!; [| | |by apply calm_upd].
  - intros a b. rewrite !upd_at. repeat case_decide; subst; try done; by rewrite Hno.
  - split; [|done]. intros _. exists i. by rewrite upd_eq.
  - intros a. rewrite <- Hid, upd_at. case_decide; subst; [by rewrite Hp|done].
Qed.
Lemma inv_set_cpuid i s : inv s -> phases s i = Got -> inv (mkSys (upd i InCS (phases s)) (slocked s) (Z.of_nat i)).
Proof.
  intros Hinv Hp. assert (owns (phases s i) = true) as Hi by (by rewrite Hp).
  destruct (owner_kept i InCS s Hi eq_refl Hinv) as [H1 H2]. unfold inv; cbn. split_and!; [done|done| |by apply calm_upd].
  intros a. rewrite upd_at. case_decide as Ha; subst; [done|]. split; [|lia]. intros Hc%cpuid_owner.
  by rewrite (others_out i a s Hinv Hi Ha) in Hc.
Qed.
Lemma inv_rel_clear i s : inv s -> phases s i = RelClear -> inv (mkSys (upd i Unlocking (phases s)) (slocked s) (-1)).
Proof.
  intros Hinv Hp. assert (owns (phases s i) = true) as Hi by (by rewrite Hp).
  destruct (owner_kept i Unlocking s Hi eq_refl Hinv) as [H1 H2]. unfold inv; cbn. split_and!; [done|done| |by apply calm_upd].
  intros a. rewrite upd_at. case_decide as Ha; subst; [by split; [|lia]|]. split; [|lia]. intros Hc%cpuid_owner.
  by rewrite (others_out i a s Hinv Hi Ha) in Hc.
Qed.
Lemma inv_store i s : inv s -> phases s i = Unlocking -> inv (mkSys (upd i Idle (phases s)) false (scpuid s)).
Proof.
  intros Hinv Hp. assert (owns (phases s i) = true) as Hi by (by rewrite Hp). pose proof Hinv as (_ & _ & Hid & _).
  assert (forall a, owns (upd i Idle (phases s) a) = false) as Hno.
  { intros a. rewrite upd_at. case_decide as Ha; [done|by apply (others_out i)]. }
  unfold inv; cbn. split_and!; [| | |by apply calm_upd].
  - intros a b. by rewrite Hno.
  - split; [done|]. intros [a Ha]. by rewrite Hno in Ha.
  - intros a. rewrite <- Hid, upd_at. case_decide; subst; [by rewrite Hp|done].
Qed.

Lemma inv_step s s' : inv s -> step s s' -> inv s'.
Proof.
  intros Hinv Hst. pose proof Hinv as (_ & Hlk & Hid & _).
  destruct Hst as [i s Hp|i s Hp|i s Hp|i s Hp Hl|i s Hp Hl|i s Hp|i s Hp|i s Hp|i s Hp|i s Hp|i s Hp]; try done.
  - apply inv_same; by rewrite ?Hp.
  - destruct (slocked s); apply inv_same; by rewrite ?Hp.
  - bcase (scpuid s =? Z.of_nat i); [|apply inv_same; by rewrite ?Hp].
    apply (inv_cpuid _ _ Hinv) in E. by rewrite Hp in E.
  - by apply inv_tas.
  - by apply inv_set_cpuid.
  - apply inv_same; by rewrite ?Hp.
  - rewrite (proj2 Hlk) by (exists i; by rewrite Hp). apply inv_same; by rewrite ?Hp.
  - rewrite (proj1 (Hid i)) by (by rewrite Hp). rewrite Z.eqb_refl. apply inv_same; by rewrite ?Hp.
  - by apply inv_rel_clear.
  - by apply inv_store.
Qed.

Lemma inv_reach s : rtc step init s -> inv s.
Proof.
  intros H. assert (forall a, rtc step a s -> inv a -> inv s) as Hr.
  { clear H. induction 1 as [|a b c Hab _ IH]; [done|]. intros Ha. apply IH. by eapply inv_step. }
  by eapply Hr; [|apply inv_init].
Qed.

End Conc.

(** ** Properties *)

(** C7 mutual exclusion of spinlock_acquire / spinlock_release over any number
    of harts and any interleaving of their memory accesses: at most one hart is
    between its winning test-and-set and the store that releases the lock, and
    neither the "already holding" check of acquire nor the "not holding" check of
    release ever panics for a hart that pairs the calls. *)
Theorem spinlock_mutual_exclusion s :
  rtc Conc.step Conc.init s ->
  (forall i j, Conc.phases s i = Conc.InCS -> Conc.owns (Conc.phases s j) = true -> i = j) /\
  (forall i, Conc.phases s i <> Conc.Panicked) /\
  (forall i, Conc.phases s i = Conc.InCS -> Conc.slocked s = true /\ Conc.scpuid s = Z.of_nat i).
Proof.
  intros (Hu & Hl & Hid & Hp)%Conc.inv_reach. split_and!; try done.
  - intros i j Hi Hj. apply Hu; [by rewrite Hi|done].
  - intros i Hi. split; [apply Hl; exists i; by rewrite Hi|apply Hid; by rewrite Hi].
Qed.
Lemma spinlock_mutual_exclusion_witness :
  exists s, rtc Conc.step Conc.init s /\ Conc.phases s 3%nat = Conc.InCS /\ Conc.slocked s = true.
Proof.
  assert (exists s, rtc Conc.step Conc.init s /\ Conc.phases s 3%nat = Conc.InCS) as (s & Hr & Hs).
  { eexists. split.
    - eapply rtc_l; [apply (Conc.s_call 3); reflexivity|].
      eapply rtc_l; [apply (Conc.s_rd_locked 3); reflexivity|].
      eapply rtc_l; [apply (Conc.s_tas_win 3); reflexivity|].
      eapply rtc_l; [apply (Conc.s_set_cpuid 3); reflexivity|].
      apply rtc_refl.
    - reflexivity. }
  exists s. split; [exact Hr|]. split; [exact Hs|].
  destruct (spinlock_mutual_exclusion s Hr) as (_ & _ & H). apply (H 3%nat Hs).
Defined.

(** Interrupt nesting is balanced: after n push_offs interrupts are off and
    stay off until the matching n-th pop_off, which restores exactly the
    interrupt enable bit there was before the outermost push_off. *)
Theorem push_pop_off_balanced n k c : noff c = 0 -> (k <= n)%nat -> (0 < n)%nat ->
  exists c1 c2, iter_m n push_off c = Ret tt c1 /\ iter_m k pop_off c1 = Ret tt c2 /\
    sie c1 = false /\ noff c2 = Z.of_nat n - Z.of_nat k /\
    sie c2 = (if Nat.eqb k n then sie c else false).
Proof.
  intros H0 Hk Hn. destruct (push_off_iter n c) as (c1 & Hr1 & Hn1 & _ & _ & Hs1 & _ & Ho1); [lia|].
  destruct (pop_off_iter k c1) as (c2 & Hr2 & Hn2 & _ & _ & _ & Hs2); [apply Hs1; lia|lia|].
  exists c1, c2. split_and!; try done; [apply Hs1; lia|lia|].
  rewrite Hs2, Ho1, Hn1, H0. cbn [Z.eqb andb]. destruct n as [|n]; [lia|]. cbn [negb].
  destruct (Nat.eqb_spec k (S n)) as [->|Hne].
  - by rewrite Z.add_0_l, Z.eqb_refl.
  - bcase (0 + Z.of_nat (S n) =? Z.of_nat k); [lia|done].
Qed.
Lemma push_pop_off_balanced_witness :
  exists c1 c2, iter_m 3 push_off (mkCpu 1 0 false true None) = Ret tt c1 /\
    iter_m 3 pop_off c1 = Ret tt c2 /\ sie c1 = false /\ sie c2 = true.
Proof.
  destruct (push_pop_off_balanced 3 3 (mkCpu 1 0 false true None)) as (c1 & c2 & H1 & H2 & H3 & _ & H4);
    [reflexivity|lia|lia|].
  exists c1, c2. split; [exact H1|]. split; [exact H2|]. split; [exact H3|exact H4].
Defined.

(** The sequential outcomes of spinlock_acquire and spinlock_release: a free
    lock is taken and a matched release gives back the same lock and the CPU up
    to the remembered interrupt state; a lock this hart holds makes acquire
    panic, one another hart holds makes it spin with interrupts off, and
    releasing a lock this hart does not hold panics. *)
Theorem spinlock_outcomes c l : cpu_wf c ->
  (lk_free l -> spinlock_acquire (c, l) = Ret tt (pushed c, lk_held c l) /\
     spinlock_release (pushed c, lk_held c l) = Ret tt (synced c, l)) /\
  (locked l = true -> lcpuid l = cpu_id c -> spinlock_acquire (c, l) = Panic "spinlock_acquire") /\
  (locked l = true -> lcpuid l <> cpu_id c ->
     spinlock_acquire (c, l) = Spin (pushed c, l) /\ sie (pushed c) = false) /\
  (spinlock_holding c l = false -> spinlock_release (c, l) = Panic "spinlock_release").
Proof.
  intros Hc. split_and!.
  - intros Hl. split; [by apply spinlock_acquire_run|by apply spinlock_release_run].
  - apply spinlock_acquire_held.
  - intros. split; [by apply spinlock_acquire_busy|done].
  - apply spinlock_release_not_held.
Qed.
Lemma spinlock_outcomes_witness :
  let c := mkCpu 0 0 false true None in
  spinlock_acquire (c, spinlock_init "k") = Ret tt (pushed c, lk_held c (spinlock_init "k")) /\
  spinlock_release (c, spinlock_init "k") = Panic "spinlock_release".
Proof.
  intros c. assert (cpu_wf c) as Hc by (unfold cpu_wf, c; cbn; lia).
  destruct (spinlock_outcomes c (spinlock_init "k") Hc) as (H1 & _ & _ & H4).
  split; [apply H1; split; reflexivity|apply H4; reflexivity].
Defined.
