(* ===== verification/Pmem.v ===== *)
(** * mem/pmem.c: the physical page allocator

    Two regions, kernel and user, each with a free list threaded through the
    first eight bytes of its free pages and a counter.  The state [pmem] is
    the running CPU, physical memory and the two regions. *)

From S2P Require Import Prelude Machine Str Lock.

(** ** State *)

(** struct alloc_region; [rhead] is list_head.next. *)
Record alloc_region : Type := mkRegion {
  rbegin : Z;
  rend : Z;
  rlk : spinlock;
  allocable : Z;
  rhead : Z;
}.
Record pmem : Type := mkPmem {
  pcpu : cpu;
  pm : memory;
  kern_region : alloc_region;
  user_region : alloc_region;
}.

Definition set_pm (m : memory) (s : pmem) : pmem :=
  mkPmem (pcpu s) m (kern_region s) (user_region s).
Definition region (in_kernel : bool) (s : pmem) : alloc_region :=
  if in_kernel then kern_region s else user_region s.
Definition set_region (in_kernel : bool) (r : alloc_region) (s : pmem) : pmem :=
  if in_kernel then mkPmem (pcpu s) (pm s) r (user_region s)
  else mkPmem (pcpu s) (pm s) (kern_region s) r.
Definition set_rlk (lk : spinlock) (r : alloc_region) : alloc_region :=
  mkRegion (rbegin r) (rend r) lk (allocable r) (rhead r).
Definition set_free (head n : Z) (r : alloc_region) : alloc_region :=
  mkRegion (rbegin r) (rend r) (rlk r) n head.

(** &region->lk, with the CPU that operates on it. *)
Definition region_lock (b : bool) : lens pmem (cpu * spinlock) :=
  Lens (fun s => (pcpu s, rlk (region b s)))
       (fun p s => set_region b (set_rlk (snd p) (region b s))
                     (mkPmem (fst p) (pm s) (kern_region s) (user_region s))).

(** ** Operations *)

(** The loop of region_init: [for (; p + PGSIZE <= end; p += PGSIZE)]. *)
Fixpoint region_fill (fuel : nat) (p end_ : Z) : M (memory * alloc_region) unit :=
  match fuel with
  | O => no_fuel
  | S fuel =>
      if p + PGSIZE <=? end_ then
        modify (fun '(m, r) => (st64 m p (rhead r), set_free p (u32 (allocable r + 1)) r));;;
        region_fill fuel (p + PGSIZE) end_
      else ret tt
  end.
(** One iteration per whole page of [start, end), and the final test. *)
Definition region_fuel (start end_ : Z) : nat := Z.to_nat ((end_ - start) / PGSIZE + 1).

Definition region_init (name : string) (start end_ : Z) : M (memory * alloc_region) unit :=
  modify (fun '(m, r) => (m, mkRegion start end_ (rlk r) 0 NULL));;;
  modify (fun '(m, r) => (m, set_rlk (spinlock_init name) r));;;
  let p := PG_ROUND_UP start in
  region_fill (region_fuel p end_) p end_.

Definition region_lens (b : bool) : lens pmem (memory * alloc_region) :=
  Lens (fun s => (pm s, region b s)) (fun x s => set_region b (snd x) (set_pm (fst x) s)).

(** ALLOC_BEGIN and ALLOC_END are symbols of kernel.ld. *)
Definition pmem_init (ALLOC_BEGIN ALLOC_END : Z) : M pmem unit :=
  let kern_end := u64 (ALLOC_BEGIN + KERNEL_PAGES * PGSIZE) in
  let kern_end := if ALLOC_END <? kern_end then ALLOC_END else kern_end in
  zoom (region_lens true) (region_init "kern_pmem" ALLOC_BEGIN kern_end);;;
  zoom (region_lens false) (region_init "user_pmem" kern_end ALLOC_END).

Definition pmem_alloc (in_kernel : bool) : M pmem Z :=
  zoom (region_lock in_kernel) spinlock_acquire;;;
  let* page := gets (fun s => rhead (region in_kernel s)) in
  when (negb (page =? NULL))
    (modify (fun s => let r := region in_kernel s in
       set_region in_kernel (set_free (ld64 (pm s) page) (u32 (allocable r - 1)) r) s));;;
  zoom (region_lock in_kernel) spinlock_release;;;
  when (negb (page =? NULL)) (modify (fun s => set_pm (memset (pm s) page 0 PGSIZE) s));;;
  ret page.

Definition pmem_free (page : Z) (in_kernel : bool) : M pmem unit :=
  when (negb (page mod PGSIZE =? 0)) (panic "pmem_free: page not aligned");;;
  let* r := gets (region in_kernel) in
  when ((page <? rbegin r) || (rend r <=? page)) (panic "pmem_free: page out of region bounds");;;
  modify (fun s => set_pm (memset (pm s) page 1 PGSIZE) s);;;
  zoom (region_lock in_kernel) spinlock_acquire;;;
  modify (fun s => set_pm (st64 (pm s) page (rhead (region in_kernel s))) s);;;
  modify (fun s => let r := region in_kernel s in
    set_region in_kernel (set_free page (u32 (allocable r + 1)) r) s);;;
  zoom (region_lock in_kernel) spinlock_release.

(** ** The free list *)

(** The pages of the list that starts at [h], in order. *)
Fixpoint freelist (m : memory) (h : Z) (l : list Z) : Prop :=
  match l with
  | [] => h = NULL
  | p :: l => h = p /\ p <> NULL /\ freelist m (ld64 m p) l
  end.

Definition page_in (r : alloc_region) (p : Z) : Prop :=
  p mod PGSIZE = 0 /\ rbegin r <= p /\ p + PGSIZE <= rend r.

(** A region in order: page-aligned bounds above address 0 and below 2^44, a
    free list without repetition of pages of the region, counted exactly, and
    the lock free. *)
Record region_ok (m : memory) (r : alloc_region) (l : list Z) : Prop := {
  rok_begin : 0 < rbegin r /\ rbegin r mod PGSIZE = 0;
  rok_end : rend r <= 2 ^ 43 /\ rend r mod PGSIZE = 0;
  rok_list : freelist m (rhead r) l;
  rok_nodup : NoDup l;
  rok_pages : Forall (page_in r) l;
  rok_count : allocable r = Z.of_nat (length l);
  rok_lock : lk_free (rlk r);
}.

(** Both regions in order and apart; [fl true] and [fl false] are their lists. *)
Record pmem_ok (s : pmem) (fl : bool -> list Z) : Prop := {
  pok_regions : forall b, region_ok (pm s) (region b s) (fl b);
  pok_apart : rend (kern_region s) <= rbegin (user_region s);
  pok_cpu : cpu_wf (pcpu s);
}.

Lemma freelist_ext m m' h l :
  (forall p, p ∈ l -> ld64 m p = ld64 m' p) -> freelist m h l -> freelist m' h l.
Proof.
  revert h. induction l as [|p l IH]; intros h H; [done|]. intros (-> & Hp & Hl).
  split_and!; [done|done|]. rewrite <- (H p) by set_solver.
  apply IH; [|done]. intros. apply H. set_solver.
Qed.

Lemma nodup_bounded (l : list Z) n :
  NoDup l -> Forall (fun x => 0 <= x < n) l -> Z.of_nat (length l) <= Z.max 0 n.
Proof.
  intros Hnd Hb. assert (l ⊆+ seqZ 0 n) as Hs.
  { apply NoDup_submseteq; [done|]. intros x Hx. apply elem_of_seqZ.
    rewrite Forall_forall in Hb. specialize (Hb x Hx). lia. }
  apply submseteq_length in Hs. rewrite length_seqZ in Hs. lia.
Qed.
Lemma region_length m r l : region_ok m r l -> Z.of_nat (length l) < 2 ^ 32 - 1.
Proof.
  intros [[Hb _] [He _] _ Hnd Hp _ _].
  pose proof (nodup_bounded ((fun p => p / PGSIZE) <$> l) (2 ^ 31)) as H.
  rewrite length_fmap in H. apply Z.le_lt_trans with (2 ^ 31); [|done].
  apply H.
  - apply NoDup_fmap_2_strong; [|done]. rewrite Forall_forall in Hp.
    intros x y Hx Hy Hxy. destruct (Hp x Hx) as [Hx0 _], (Hp y Hy) as [Hy0 _].
    unfold PGSIZE in *. pose proof (Z.div_mod x 4096). pose proof (Z.div_mod y 4096). lia.
  - apply Forall_fmap. eapply Forall_impl; [done|]. intros p (Hm & H1 & H2). simpl.
    unfold PGSIZE in *. split; [apply Z.div_pos; lia|]. apply Z.div_lt_upper_bound; lia.
Qed.

(** Pages of one list, or of the two regions, do not overlap. *)
Lemma pages_apart p q : p mod PGSIZE = 0 -> q mod PGSIZE = 0 -> p <> q ->
  p + PGSIZE <= q \/ q + PGSIZE <= p.
Proof.
  unfold PGSIZE. intros. pose proof (Z.div_mod p 4096). pose proof (Z.div_mod q 4096). lia.
Qed.
Lemma page_in_bounds m r l p : region_ok m r l -> page_in r p -> 0 < p < 2 ^ 43.
Proof. intros [[] [] _ _ _ _ _] (_ & ? & ?). unfold PGSIZE in *. lia. Qed.

(** Pushing a page of the region that is not on its list. *)
Lemma region_push m m' r l p :
  region_ok m r l -> page_in r p -> p ∉ l ->
  (forall q, q ∈ l -> ld64 m' q = ld64 m q) -> ld64 m' p = rhead r ->
  region_ok m' (set_free p (u32 (allocable r + 1)) r) (p :: l).
Proof.
  intros Hr Hp Hnin Hext Hhd. pose proof (region_length _ _ _ Hr) as Hlen.
  pose proof (page_in_bounds _ _ _ _ Hr Hp). destruct Hr as [Hb He Hl Hnd Hps Hc Hlk].
  constructor; try done.
  - cbn. split_and!; [done|unfold NULL; lia|]. rewrite Hhd.
    eapply freelist_ext; [|done]. intros q Hq. by rewrite Hext.
  - by apply NoDup_cons_2.
  - by apply Forall_cons_2.
  - cbn. rewrite u32_small; lia.
Qed.
(** Popping the first page. *)
Lemma region_pop m r p l :
  region_ok m r (p :: l) ->
  region_ok m (set_free (ld64 m p) (u32 (allocable r - 1)) r) l.
Proof.
  intros Hr. pose proof (region_length _ _ _ Hr) as Hlen. destruct Hr as [Hb He Hl Hnd Hps Hc Hlk].
  destruct Hl as (_ & _ & Hl). apply NoDup_cons in Hnd as [_ Hnd].
  apply Forall_cons in Hps as [_ Hps]. cbn [length] in Hc, Hlen.
  constructor; try done. cbn. rewrite u32_small; lia.
Qed.
(** Writes that miss the list pages keep a region in order. *)
Lemma region_frame m m' r l :
  (forall q, q ∈ l -> ld64 m' q = ld64 m q) -> region_ok m r l -> region_ok m' r l.
Proof.
  intros Hext [Hb He Hl Hnd Hps Hc Hlk]. constructor; try done.
  eapply freelist_ext; [|done]. intros q Hq. by rewrite Hext.
Qed.

Lemma ld64_memset_out m p c q : p mod PGSIZE = 0 -> q mod PGSIZE = 0 -> p <> q ->
  ld64 (memset m p c PGSIZE) q = ld64 m q.
Proof.
  intros Hp Hq Hne. apply ld_ext. intros b Hb. apply memset_out; [done|].
  pose proof (pages_apart p q Hp Hq Hne). unfold PGSIZE in *. lia.
Qed.
Lemma ld64_st64_page m p v q : p mod PGSIZE = 0 -> q mod PGSIZE = 0 -> p <> q ->
  ld64 (st64 m p v) q = ld64 m q.
Proof.
  intros Hp Hq Hne. apply ld64_st64_ne.
  pose proof (pages_apart p q Hp Hq Hne). unfold PGSIZE in *. lia.
Qed.
Lemma rhead_bound m r l : region_ok m r l -> 0 <= rhead r < 2 ^ 64.
Proof.
  intros Hr. destruct l as [|p l].
  - destruct Hr as [_ _ Hl _ _ _ _]. cbn in Hl. rewrite Hl. unfold NULL. lia.
  - pose proof (rok_pages _ _ _ Hr) as [Hp _]%Forall_cons.
    pose proof (page_in_bounds _ _ _ _ Hr Hp). destruct (rok_list _ _ _ Hr) as [-> _]. lia.
Qed.

(** *** region_init *)

(** The pages region_fill puts on the list, last page first. *)
Fixpoint page_run (n : nat) (p : Z) (acc : list Z) : list Z :=
  match n with
  | O => acc
  | S n => page_run n (p + PGSIZE) (p :: acc)
  end.

Lemma region_fill_ok n fuel p end_ m r l :
  p mod PGSIZE = 0 -> rbegin r <= p -> end_ = rend r ->
  n = Z.to_nat ((end_ - p) / PGSIZE) -> (n < fuel)%nat -> p <= end_ ->
  region_ok m r l -> Forall (fun q => q < p) l ->
  exists m' r', region_fill fuel p end_ (m, r) = Ret tt (m', r') /\
    region_ok m' r' (page_run n p l) /\ rbegin r' = rbegin r /\ rend r' = rend r /\
    (forall a, a < p \/ end_ <= a -> ld8 m' a = ld8 m a).
Proof.
  revert fuel p m r l. induction n as [|n IH]; intros [|fuel] p m r l Hp Hb -> Hn Hf Hpe Hr Hl; try lia;
    cbn [region_fill page_run].
  - bcase (p + PGSIZE <=? rend r).
    { assert (1 <= (rend r - p) / PGSIZE) by (apply Z.div_le_lower_bound; unfold PGSIZE in *; lia). lia. }
    exists m, r. done.
  - assert (p + PGSIZE <= rend r) as Hle.
    { assert (1 <= (rend r - p) / PGSIZE) as H by lia.
      pose proof (Z.mul_div_le (rend r - p) PGSIZE). unfold PGSIZE in *. lia. }
    bcase (p + PGSIZE <=? rend r); [|lia]. mstep.
    assert (region_ok (st64 m p (rhead r)) (set_free p (u32 (allocable r + 1)) r) (p :: l)) as Hr'.
    { eapply region_push; [done|by split_and!| | |].
      - intros Hin. rewrite Forall_forall in Hl. specialize (Hl p Hin). lia.
      - intros q Hq. rewrite Forall_forall in Hl. specialize (Hl q Hq).
        pose proof (rok_pages _ _ _ Hr) as Hps. rewrite Forall_forall in Hps.
        destruct (Hps q Hq) as [Hqm _]. apply ld64_st64_page; [done|done|lia].
      - apply ld64_st64_eq. by eapply rhead_bound. }
    destruct (IH fuel (p + PGSIZE) (st64 m p (rhead r)) (set_free p (u32 (allocable r + 1)) r) (p :: l))
      as (m' & r' & Hrun & Hok & Hb' & He' & Hfr); try done.
    + rewrite Z.add_mod, Hp by done. done.
    + cbn. unfold PGSIZE in *. lia.
    + replace (rend r - (p + PGSIZE)) with (rend r - p + (-1) * PGSIZE) by (unfold PGSIZE; lia).
      rewrite Z.div_add by done. lia.
    + lia.
    + apply Forall_cons_2; [unfold PGSIZE; lia|].
      eapply Forall_impl; [done|]. unfold PGSIZE. cbn. lia.
    + exists m', r'. split_and!; try done. intros a Ha. rewrite Hfr by (unfold PGSIZE in *; lia).
      apply ld8_st_ne. unfold PGSIZE in *. lia.
Qed.

Lemma region_init_ok name start end_ m r :
  0 < start -> start mod PGSIZE = 0 -> end_ mod PGSIZE = 0 -> start <= end_ -> end_ <= 2 ^ 43 ->
  exists m' r', region_init name start end_ (m, r) = Ret tt (m', r') /\
    region_ok m' r' (page_run (Z.to_nat ((end_ - start) / PGSIZE)) start []) /\
    rbegin r' = start /\ rend r' = end_ /\
    (forall a, a < start \/ end_ <= a -> ld8 m' a = ld8 m a).
Proof.
  intros H0 Hs He Hse Hmax. unfold region_init. mstep.
  rewrite (PG_ROUND_UP_aligned start) by (unfold PGSIZE in *; lia).
  unfold set_rlk; cbn [rbegin rend allocable rhead].
  destruct (region_fill_ok (Z.to_nat ((end_ - start) / PGSIZE)) (region_fuel start end_)
              start end_ m (mkRegion start end_ (spinlock_init name) 0 NULL) [])
    as (m' & r' & Hrun & Hok & Hb & Hr & Hfr); try done.
  - unfold region_fuel. assert (0 <= (end_ - start) / PGSIZE) by (apply Z.div_pos; unfold PGSIZE; lia). lia.
  - constructor; try done; constructor.
  - exists m', r'. by split_and!.
Qed.

(** *** pmem_alloc and pmem_free *)

Definition set_pcpu (c : cpu) (s : pmem) : pmem :=
  mkPmem c (pm s) (kern_region s) (user_region s).

Lemma region_set_region b r s : region b (set_region b r s) = r.
Proof. by destruct b. Qed.
Lemma region_set_other b b' r s : b <> b' -> region b' (set_region b r s) = region b' s.
Proof. by destruct b, b'. Qed.
Lemma region_set_pm b m s : region b (set_pm m s) = region b s.
Proof. by destruct b. Qed.

Lemma pmem_alloc_nil b s fl : pmem_ok s fl -> fl b = [] ->
  pmem_alloc b s = Ret NULL (set_pcpu (synced (pcpu s)) s).
Proof.
  intros [Hr _ Hc] Hfl. specialize (Hr b). rewrite Hfl in Hr.
  pose proof (rok_lock _ _ _ Hr) as Hl. pose proof (rok_list _ _ _ Hr) as Hh. cbn in Hh.
  unfold pmem_alloc. mrun (zoom_run _ _ _ _ _ (spinlock_acquire_run _ _ Hl)).
  replace (rhead (region b _)) with NULL by (by destruct b). mstep.
  destruct b; (erewrite bind_run; [|eapply zoom_run; cbn; by apply spinlock_release_run]);
    by destruct s as [c m [] []].
Qed.

Definition alloc_post (b : bool) (p : Z) (s : pmem) : pmem :=
  set_pm (memset (pm s) p 0 PGSIZE)
    (set_region b (set_free (ld64 (pm s) p) (u32 (allocable (region b s) - 1)) (region b s))
       (set_pcpu (synced (pcpu s)) s)).

Lemma pmem_alloc_head b s p : cpu_wf (pcpu s) -> lk_free (rlk (region b s)) ->
  rhead (region b s) = p -> p <> NULL -> pmem_alloc b s = Ret p (alloc_post b p s).
Proof.
  intros Hc Hl Hh Hp.
  unfold pmem_alloc. mrun (zoom_run _ _ _ _ _ (spinlock_acquire_run _ _ Hl)).
  replace (rhead (region b _)) with p by (by destruct b).
  apply Z.eqb_neq in Hp. rewrite Hp. mstep.
  destruct b; (erewrite bind_run; [|eapply zoom_run; cbn; by apply spinlock_release_run]);
    by destruct s as [c m [] []].
Qed.
Lemma pmem_alloc_cons b s fl p l : pmem_ok s fl -> fl b = p :: l ->
  pmem_alloc b s = Ret p (alloc_post b p s).
Proof.
  intros [Hr _ Hc] Hfl. specialize (Hr b). rewrite Hfl in Hr.
  destruct (rok_list _ _ _ Hr) as (Hh & Hp & _). apply pmem_alloc_head; try done. apply Hr.
Qed.

Lemma pmem_ok_disjoint s fl b b' p q : pmem_ok s fl -> p ∈ fl b -> q ∈ fl b' -> b <> b' -> p <> q.
Proof.
  intros [Hr Ha _] Hp Hq Hb. pose proof (rok_pages _ _ _ (Hr b)) as H1.
  pose proof (rok_pages _ _ _ (Hr b')) as H2. rewrite Forall_forall in H1, H2.
  destruct (H1 p Hp) as (_ & ? & ?), (H2 q Hq) as (_ & ? & ?). unfold PGSIZE in *.
  destruct b, b'; cbn in *; try done; lia.
Qed.
Lemma pmem_ok_page s fl b p : pmem_ok s fl -> p ∈ fl b ->
  p mod PGSIZE = 0 /\ 0 < p < 2 ^ 43 /\ page_in (region b s) p.
Proof.
  intros [Hr _ _] Hp. pose proof (rok_pages _ _ _ (Hr b)) as H1. rewrite Forall_forall in H1.
  split_and!; [by apply H1|by eapply page_in_bounds, H1..|by apply H1].
Qed.

(** The list of the region that was popped or pushed is replaced. *)
Definition fl_set (b : bool) (l : list Z) (fl : bool -> list Z) : bool -> list Z :=
  fun b' => if Bool.eqb b b' then l else fl b'.
Lemma fl_set_eq b l fl : fl_set b l fl b = l.
Proof. unfold fl_set. by rewrite eqb_reflx. Qed.
Lemma fl_set_ne b b' l fl : b <> b' -> fl_set b l fl b' = fl b'.
Proof. unfold fl_set. by destruct b, b'. Qed.

Lemma pmem_alloc_ok b s fl p l : pmem_ok s fl -> fl b = p :: l ->
  pmem_ok (alloc_post b p s) (fl_set b l fl).
Proof.
  intros Hs Hfl. pose proof Hs as [Hr Ha Hc].
  assert (p ∈ fl b) as Hpin by (rewrite Hfl; set_solver).
  destruct (pmem_ok_page _ _ _ _ Hs Hpin) as (Hpm & _ & _).
  constructor.
  - intros b'. destruct (decide (b = b')) as [<-|Hne].
    + rewrite fl_set_eq. unfold alloc_post. rewrite region_set_pm, region_set_region. cbn [pm set_pm].
      pose proof (Hr b) as Hrb. rewrite Hfl in Hrb.
      eapply region_frame; [|apply region_pop, Hrb].
      intros q Hq. apply ld64_memset_out; [done| |].
      * eapply (pmem_ok_page s fl b); [done|]. rewrite Hfl. set_solver.
      * pose proof (rok_nodup _ _ _ Hrb) as [Hn _]%NoDup_cons. set_solver.
    + rewrite fl_set_ne by done. unfold alloc_post.
      rewrite region_set_pm, region_set_other by done. cbn [pm set_pm].
      replace (region b' (set_pcpu _ s)) with (region b' s) by (by destruct b').
      eapply region_frame; [|apply Hr]. intros q Hq. apply ld64_memset_out; [done| |].
      * by eapply pmem_ok_page.
      * by eapply (pmem_ok_disjoint s fl b b').
  - unfold alloc_post. by destruct b.
  - unfold alloc_post. destruct b; cbn; by apply synced_wf.
Qed.

Definition free_post (b : bool) (p : Z) (s : pmem) : pmem :=
  set_pm (st64 (memset (pm s) p 1 PGSIZE) p (rhead (region b s)))
    (set_region b (set_free p (u32 (allocable (region b s) + 1)) (region b s))
       (set_pcpu (synced (pcpu s)) s)).

Lemma pmem_free_run b s p : cpu_wf (pcpu s) -> lk_free (rlk (region b s)) ->
  p mod PGSIZE = 0 -> rbegin (region b s) <= p < rend (region b s) ->
  pmem_free p b s = Ret tt (free_post b p s).
Proof.
  intros Hc Hl Hp Hb. unfold pmem_free. rewrite Hp. mstep.
  bcase (p <? rbegin (region b s)); [lia|]. bcase (rend (region b s) <=? p); [lia|]. cbn [orb]. mstep.
  set (s1 := set_pm _ s).
  assert (lk_free (rlk (region b s1))) as Hl1 by (by destruct b).
  mrun (zoom_run (region_lock b) spinlock_acquire s1 _ _ (spinlock_acquire_run _ _ Hl1)).
  destruct b; (erewrite zoom_run; [|cbn; by apply spinlock_release_run]);
    by destruct s as [c m [] []].
Qed.

Lemma pmem_free_ok b s fl p : pmem_ok s fl -> page_in (region b s) p -> p ∉ fl b ->
  pmem_ok (free_post b p s) (fl_set b (p :: fl b) fl).
Proof.
  intros Hs Hp Hnin. pose proof Hs as [Hr Ha Hc]. pose proof Hp as (Hpm & Hp1 & Hp2).
  assert (forall b' q, q ∈ fl b' -> p <> q) as Hpq.
  { intros b' q Hq ->. destruct (decide (b = b')) as [->|Hne]; [done|].
    destruct (pmem_ok_page _ _ _ _ Hs Hq) as (_ & _ & _ & ? & ?).
    unfold PGSIZE in *. destruct b, b'; cbn in *; try done; lia. }
  assert (forall b' q, q ∈ fl b' ->
    ld64 (st64 (memset (pm s) p 1 PGSIZE) p (rhead (region b s))) q = ld64 (pm s) q) as Hfr.
  { intros b' q Hq. pose proof (Hpq _ _ Hq). pose proof (pmem_ok_page _ _ _ _ Hs Hq) as (Hqm & _).
    rewrite ld64_st64_page by done. by apply ld64_memset_out. }
  constructor.
  - intros b'. destruct (decide (b = b')) as [<-|Hne].
    + rewrite fl_set_eq. unfold free_post. rewrite region_set_pm, region_set_region. cbn [pm set_pm].
      eapply region_push; [apply Hr|done|done| |].
      * intros q Hq. by eapply Hfr.
      * apply ld64_st64_eq. by eapply rhead_bound.
    + rewrite fl_set_ne by done. unfold free_post. rewrite region_set_pm, region_set_other by done.
      cbn [pm set_pm]. replace (region b' (set_pcpu _ s)) with (region b' s) by (by destruct b').
      eapply region_frame; [|apply Hr]. intros q Hq. by eapply Hfr.
  - unfold free_post. by destruct b.
  - unfold free_post. destruct b; cbn; by apply synced_wf.
Qed.

(** *** pmem_init *)

Lemma page_run_elem n p acc q :
  q ∈ page_run n p acc <-> q ∈ acc \/ exists k, 0 <= k < Z.of_nat n /\ q = p + k * PGSIZE.
Proof.
  revert p acc. induction n as [|n IH]; intros p acc; cbn [page_run].
  - split; [by left|]. intros [?|(k & ? & _)]; [done|lia].
  - rewrite IH, elem_of_cons. split.
    + intros [[->|?]|(k & Hk & ->)]; [right; exists 0; lia|by left|right; exists (k + 1); lia].
    + intros [?|(k & Hk & ->)]; [by left; right|].
      destruct (decide (k = 0)) as [->|]; [left; left; lia|right; exists (k - 1); lia].
Qed.

(** The boundary pmem_init puts between the two regions, and the lists it builds. *)
Definition kern_end_of (B E : Z) : Z := Z.min E (B + KERNEL_PAGES * PGSIZE).
Definition init_lists (B E : Z) (in_kernel : bool) : list Z :=
  let start := if in_kernel then B else kern_end_of B E in
  let end_ := if in_kernel then kern_end_of B E else E in
  page_run (Z.to_nat ((end_ - start) / PGSIZE)) start [].

Lemma pmem_init_ok B E s :
  0 < B -> B mod PGSIZE = 0 -> E mod PGSIZE = 0 -> B <= E -> E <= 2 ^ 43 -> cpu_wf (pcpu s) ->
  exists s', pmem_init B E s = Ret tt s' /\ pmem_ok s' (init_lists B E) /\ pcpu s' = pcpu s /\
    rbegin (kern_region s') = B /\ rend (kern_region s') = kern_end_of B E /\
    rbegin (user_region s') = kern_end_of B E /\ rend (user_region s') = E /\
    (forall a, a < B \/ E <= a -> ld8 (pm s') a = ld8 (pm s) a).
Proof.
  intros HB HBm HEm HBE HE Hc. unfold pmem_init. rewrite u64_small by (unfold KERNEL_PAGES, PGSIZE; lia).
  replace (if E <? B + KERNEL_PAGES * PGSIZE then E else B + KERNEL_PAGES * PGSIZE) with (kern_end_of B E)
    by (unfold kern_end_of; bsolve).
  set (K := kern_end_of B E).
  assert (K mod PGSIZE = 0 /\ B <= K <= E) as [HKm HK].
  { unfold K, kern_end_of. split; [|unfold KERNEL_PAGES, PGSIZE; lia].
    destruct (Z.min_spec E (B + KERNEL_PAGES * PGSIZE)) as [[_ ->]|[_ ->]]; [done|].
    by rewrite Z.mod_add. }
  destruct (region_init_ok "kern_pmem" B K (pm s) (region true s)) as (m1 & r1 & H1 & Hr1 & Hb1 & He1 & Hf1);
    try (done || lia).
  mrun (zoom_run (region_lens true) _ s _ _ H1).
  set (s1 := lset (region_lens true) (m1, r1) s).
  destruct (region_init_ok "user_pmem" K E (pm s1) (region false s1)) as (m2 & r2 & H2 & Hr2 & Hb2 & He2 & Hf2);
    try (done || lia).
  exists (lset (region_lens false) (m2, r2) s1).
  split; [by erewrite zoom_run by apply H2|]. cbn. split_and!; try done.
  - constructor; cbn; [|lia|done]. intros [|]; cbn; [|done].
    eapply region_frame; [|apply Hr1]. intros q Hq. apply ld_ext. intros b Hbb. rewrite Hf2; [done|].
    pose proof (rok_pages _ _ _ Hr1) as Hps. rewrite Forall_forall in Hps.
    destruct (Hps q Hq) as (_ & _ & Hq2). unfold PGSIZE in Hq2. simpl in Hbb. lia.
  - intros a Ha. rewrite Hf2 by lia. apply Hf1. lia.
Qed.

(** ** A concrete allocator: 1024 kernel pages and 16 user pages *)

Definition demo_cpu : cpu := mkCpu 0 0 false true None.
Lemma demo_cpu_wf : cpu_wf demo_cpu.
Proof. unfold cpu_wf, demo_cpu. cbn. lia. Qed.
Definition blank_pmem : pmem :=
  mkPmem demo_cpu ∅ (mkRegion 0 0 (spinlock_init "") 0 0) (mkRegion 0 0 (spinlock_init "") 0 0).
Definition demo_begin : Z := 0x80010000.
Definition demo_end : Z := 0x80420000.
Definition demo_pmem : pmem :=
  match pmem_init demo_begin demo_end blank_pmem with Ret _ s => s | _ => blank_pmem end.
Lemma demo_pmem_ok : pmem_ok demo_pmem (init_lists demo_begin demo_end).
Proof.
  destruct (pmem_init_ok demo_begin demo_end blank_pmem) as (s & Hrun & Hs & _);
    [unfold demo_begin; lia|reflexivity|reflexivity|unfold demo_begin, demo_end; lia|unfold demo_end; lia
    |exact demo_cpu_wf|].
  unfold demo_pmem. rewrite Hrun. exact Hs.
Qed.

(** ** Properties *)

(** C35 pmem_init on page-aligned linker bounds returns (its loops terminate),
    writes nothing outside [ALLOC_BEGIN, ALLOC_END), and puts every page of that
    range on exactly one of the two free lists, without repetition and with exact
    counters: pages below ALLOC_BEGIN + 1024 pages on the kernel list, the others
    on the user list. *)
Theorem pmem_init_partitions B E s :
  0 < B -> B mod PGSIZE = 0 -> E mod PGSIZE = 0 -> B <= E -> E <= 2 ^ 43 -> cpu_wf (pcpu s) ->
  exists s' fl, pmem_init B E s = Ret tt s' /\ pmem_ok s' fl /\
    (forall p, p mod PGSIZE = 0 -> B <= p < E ->
       (p ∈ fl true <-> p < B + KERNEL_PAGES * PGSIZE) /\
       (p ∈ fl false <-> B + KERNEL_PAGES * PGSIZE <= p)) /\
    (forall a, a < B \/ E <= a -> ld8 (pm s') a = ld8 (pm s) a).
Proof.
  intros HB HBm HEm HBE HE Hc.
  destruct (pmem_init_ok B E s) as (s' & Hrun & Hs & _ & Hkb & Hke & Hub & Hue & Hf); try done.
  exists s', (init_lists B E). split_and!; try done. intros p Hpm Hp.
  assert (forall b, p ∈ init_lists B E b <-> rbegin (region b s') <= p < rend (region b s')) as Hin.
  { intros b. split.
    - intros Hq. destruct (pmem_ok_page _ _ _ _ Hs Hq) as (_ & _ & _ & ? & ?). unfold PGSIZE in *. lia.
    - intros Hq. unfold init_lists. apply page_run_elem. right.
      set (st := if b then B else kern_end_of B E). set (en := if b then kern_end_of B E else E).
      assert (rbegin (region b s') = st /\ rend (region b s') = en) as [Hst Hen] by (by destruct b).
      pose proof (rok_begin _ _ _ (pok_regions _ _ Hs b)) as [_ Hbm].
      pose proof (rok_end _ _ _ (pok_regions _ _ Hs b)) as [_ Hem]. rewrite Hst, Hen in *.
      exists ((p - st) / PGSIZE). unfold PGSIZE in *.
      pose proof (Z.div_mod p 4096). pose proof (Z.div_mod st 4096). pose proof (Z.div_mod en 4096).
      assert (p - st = (p / 4096 - st / 4096) * 4096) as E1 by lia.
      assert (en - st = (en / 4096 - st / 4096) * 4096) as E2 by lia.
      rewrite E1, E2, !Z.div_mul by lia. lia. }
  rewrite !Hin. cbn [region]. rewrite Hkb, Hke, Hub, Hue. unfold kern_end_of. lia.
Qed.
Lemma pmem_init_partitions_witness :
  exists s' fl, pmem_init demo_begin demo_end blank_pmem = Ret tt s' /\ pmem_ok s' fl /\
    0x80410000 ∈ fl false /\ 0x80010000 ∈ fl true.
Proof.
  destruct (pmem_init_partitions demo_begin demo_end blank_pmem) as (s' & fl & H1 & H2 & H3 & _).
  1-5: unfold demo_begin, demo_end; first [lia|reflexivity].
  - exact demo_cpu_wf.
  - exists s', fl. split; [exact H1|]. split; [exact H2|]. split.
    + apply (H3 0x80410000); [reflexivity|split; [cbv; discriminate|reflexivity]|cbv; discriminate].
    + apply (H3 0x80010000); [reflexivity|split; [cbv; discriminate|reflexivity]|reflexivity].
Defined.

(** C12 pmem_alloc implements "take the first free page": on an empty list it
    returns NULL and leaves both lists as they were; otherwise it returns the
    first page of the region's list, which has been taken off the list and filled
    with zeros, and no byte outside that page and no page of the other list
    changed.  The lock is free again and the allocator invariant holds after. *)
Theorem pmem_alloc_refines b s fl : pmem_ok s fl ->
  match fl b with
  | [] => exists s', pmem_alloc b s = Ret NULL s' /\ pmem_ok s' fl /\ pm s' = pm s
  | p :: l => exists s', pmem_alloc b s = Ret p s' /\ pmem_ok s' (fl_set b l fl) /\
      page_in (region b s') p /\ (forall b', p ∉ fl_set b l fl b') /\
      (forall a, p <= a < p + PGSIZE -> ld8 (pm s') a = 0) /\
      (forall a, ~ p <= a < p + PGSIZE -> ld8 (pm s') a = ld8 (pm s) a)
  end.
Proof.
  intros Hs. destruct (fl b) as [|p l] eqn:Hfl.
  - eexists. split; [by eapply pmem_alloc_nil|]. split; [|done].
    destruct Hs as [Hr Ha Hc]. constructor; [intros []; [apply (Hr true)|apply (Hr false)]|done|by apply synced_wf].
  - exists (alloc_post b p s). assert (p ∈ fl b) as Hp by (rewrite Hfl; set_solver). split_and!.
    + by eapply pmem_alloc_cons.
    + by eapply pmem_alloc_ok.
    + destruct (pmem_ok_page _ _ _ _ Hs Hp) as (_ & _ & ?). unfold alloc_post.
      by rewrite region_set_pm, region_set_region.
    + intros b'. destruct (decide (b = b')) as [<-|Hne].
      * rewrite fl_set_eq. pose proof (rok_nodup _ _ _ (pok_regions _ _ Hs b)) as Hnd.
        rewrite Hfl in Hnd. by apply NoDup_cons in Hnd as [? _].
      * rewrite fl_set_ne by done. intros Hq. by apply (pmem_ok_disjoint _ _ _ _ _ _ Hs Hp Hq).
    + intros a Ha. apply (memset_in _ p 0 PGSIZE a Ha).
    + intros a Ha. apply memset_out; [done|lia].
Qed.
Lemma pmem_alloc_refines_witness :
  exists s', pmem_alloc false demo_pmem = Ret 0x8041f000 s' /\ ld8 (pm s') 0x8041f123 = 0.
Proof.
  destruct (pmem_alloc_refines false demo_pmem (init_lists demo_begin demo_end) demo_pmem_ok)
    as (s' & Hrun & _ & _ & _ & Hz & _).
  exists s'. split; [exact Hrun|]. apply Hz. split; [cbv; discriminate|reflexivity].
Defined.

(** pmem_free on every input: an address that is not page aligned, or lies
    outside the region, panics; a page of the region that is not on the list is
    put in front of it, no byte outside the page changes, and the invariant
    holds after; the very next pmem_alloc of that region returns this page. *)
Theorem pmem_free_cases b s fl p : pmem_ok s fl ->
  (p mod PGSIZE <> 0 -> pmem_free p b s = Panic "pmem_free: page not aligned") /\
  (p mod PGSIZE = 0 -> ~ rbegin (region b s) <= p < rend (region b s) ->
     pmem_free p b s = Panic "pmem_free: page out of region bounds") /\
  (p mod PGSIZE = 0 -> rbegin (region b s) <= p < rend (region b s) -> p ∉ fl b ->
     exists s', pmem_free p b s = Ret tt s' /\ pmem_ok s' (fl_set b (p :: fl b) fl) /\
       (forall a, ~ p <= a < p + PGSIZE -> ld8 (pm s') a = ld8 (pm s) a) /\
       exists s'', pmem_alloc b s' = Ret p s'' /\ pmem_ok s'' (fl_set b (fl b) (fl_set b (p :: fl b) fl))).
Proof.
  intros Hs. split_and!.
  - intros Hm. unfold pmem_free. by bcase (p mod PGSIZE =? 0).
  - intros Hm Hb. unfold pmem_free. rewrite Hm. mstep.
    bcase (p <? rbegin (region b s)); [done|]. bcase (rend (region b s) <=? p); [done|lia].
  - intros Hm Hb Hn. pose proof (pok_regions _ _ Hs b) as Hr. exists (free_post b p s).
    assert (page_in (region b s) p) as Hp.
    { split_and!; [done|lia|]. pose proof (rok_end _ _ _ Hr) as [_ He]. unfold PGSIZE in *.
      pose proof (Z.div_mod p 4096). pose proof (Z.div_mod (rend (region b s)) 4096). lia. }
    assert (pmem_ok (free_post b p s) (fl_set b (p :: fl b) fl)) as Hs' by (by apply pmem_free_ok).
    split_and!; try done.
    + apply pmem_free_run; try done; [apply Hs|apply Hr].
    + intros a Ha. unfold free_post. cbn [pm set_pm]. rewrite ld8_st_ne; [apply memset_out; [done|]|];
        unfold PGSIZE in *; simpl; lia.
    + exists (alloc_post b p (free_post b p s)). split.
      * eapply pmem_alloc_cons; [done|]. apply fl_set_eq.
      * eapply pmem_alloc_ok; [done|]. apply fl_set_eq.
Qed.
Lemma pmem_free_cases_witness :
  pmem_free 0x80410001 false demo_pmem = Panic "pmem_free: page not aligned" /\
  pmem_free 0x80010000 false demo_pmem = Panic "pmem_free: page out of region bounds" /\
  exists s' s'', pmem_free 0x8041f000 false (alloc_post false 0x8041f000 demo_pmem) = Ret tt s' /\
    pmem_alloc false s' = Ret 0x8041f000 s''.
Proof.
  pose proof (pmem_free_cases false demo_pmem _ 0x80410001 demo_pmem_ok) as (H1 & _).
  pose proof (pmem_free_cases false demo_pmem _ 0x80010000 demo_pmem_ok) as (_ & H2 & _).
  pose proof (pmem_free_cases false (alloc_post false 0x8041f000 demo_pmem) _ 0x8041f000
    (pmem_alloc_ok false demo_pmem _ 0x8041f000 _ demo_pmem_ok eq_refl)) as (_ & _ & H3).
  split; [apply H1; discriminate|]. split.
  { apply H2; [reflexivity|]. replace (rbegin (region false demo_pmem)) with 0x80410000 by (vm_compute; reflexivity).
    lia. }
  destruct H3 as (s' & Hf & _ & _ & s'' & Ha & _).
  - reflexivity.
  - replace (rbegin _) with 0x80410000 by (vm_compute; reflexivity).
    replace (rend _) with 0x80420000 by (vm_compute; reflexivity). lia.
  - rewrite fl_set_eq. vm_compute. intros H. repeat (apply elem_of_cons in H as [H|H]; [discriminate|]).
    by apply elem_of_nil in H.
  - exists s', s''. split; assumption.
Defined.

(** pmem_free has no double-free check: freeing the page that heads the list
    again returns normally, after which the list is a one-page cycle, so that two
    consecutive pmem_allocs hand out the same page. *)
Theorem pmem_double_free b s fl p l : pmem_ok s fl -> fl b = p :: l ->
  exists s1 s2 s3, pmem_free p b s = Ret tt s1 /\ pmem_alloc b s1 = Ret p s2 /\ pmem_alloc b s2 = Ret p s3.
Proof.
  intros Hs Hfl. pose proof (pok_regions _ _ Hs b) as Hr. pose proof Hs as [_ _ Hc].
  assert (p ∈ fl b) as Hp by (rewrite Hfl; set_solver).
  destruct (pmem_ok_page _ _ _ _ Hs Hp) as (Hm & Hpos & (_ & Hb & He)).
  assert (rhead (region b s) = p) as Hh by (pose proof (rok_list _ _ _ Hr) as Hl; rewrite Hfl in Hl; apply Hl).
  assert (pmem_free p b s = Ret tt (free_post b p s)) as Hrun.
  { apply pmem_free_run; [done|apply Hr|done|]. unfold PGSIZE in *. lia. }
  assert (rhead (region b (free_post b p s)) = p /\ ld64 (pm (free_post b p s)) p = p /\
    rlk (region b (free_post b p s)) = rlk (region b s) /\
    pcpu (free_post b p s) = synced (pcpu s)) as (Hh1 & Hl1 & Hk1 & Hc1).
  { unfold free_post. rewrite Hh, region_set_pm, region_set_region. cbn [pm set_pm rhead set_free rlk].
    split_and!; [done|apply ld64_st64_eq; lia|done|by destruct b]. }
  exists (free_post b p s). generalize dependent (free_post b p s). intros s1 Hrun Hh1 Hl1 Hk1 Hc1.
  exists (alloc_post b p s1), (alloc_post b p (alloc_post b p s1)). split_and!; [done| |].
  - apply pmem_alloc_head; [rewrite Hc1; by apply synced_wf|rewrite Hk1; apply Hr|done|unfold NULL; lia].
  - apply pmem_alloc_head.
    + unfold alloc_post. destruct b; cbn [pcpu set_pm set_region set_pcpu]; (rewrite Hc1); repeat apply synced_wf; done.
    + unfold alloc_post. rewrite region_set_pm, region_set_region. cbn [rlk set_free]. rewrite Hk1. apply Hr.
    + unfold alloc_post. by rewrite region_set_pm, region_set_region.
    + unfold NULL. lia.
Qed.
Lemma pmem_double_free_witness :
  exists s1 s2 s3, pmem_free 0x8041f000 false demo_pmem = Ret tt s1 /\
    pmem_alloc false s1 = Ret 0x8041f000 s2 /\ pmem_alloc false s2 = Ret 0x8041f000 s3.
Proof.
  eapply (pmem_double_free false demo_pmem _ 0x8041f000); [exact demo_pmem_ok|].
  vm_compute. reflexivity.
Defined.
