(* ===== verification/Kvm.v ===== *)
(** * mem/kvm.c: Sv39 page tables

    The macros of include/mem/vmem.h and the routines that walk, extend and cut
    page tables held in physical memory, on the allocator's state [pmem]. *)

From S2P Require Import Prelude Machine Str Lock Pmem.

(** ** Macros of vmem.h *)

Definition VA_SHIFT (level : Z) : Z := 12 + 9 * level.
Definition VA_TO_VPN (va level : Z) : Z := Z.land (Z.shiftr va (VA_SHIFT level)) 0x1FF.
Definition PA_TO_PTE (pa : Z) : Z := u64 (Z.shiftl (Z.shiftr pa 12) 10).
Definition PTE_TO_PA (pte : Z) : Z := u64 (Z.shiftl (Z.shiftr pte 10) 12).
Definition PTE_V : Z := Z.shiftl 1 0.
Definition PTE_R : Z := Z.shiftl 1 1.
Definition PTE_W : Z := Z.shiftl 1 2.
Definition PTE_X : Z := Z.shiftl 1 3.
Definition PTE_U : Z := Z.shiftl 1 4.
Definition PTE_CHECK (pte : Z) : bool := Z.land pte (Z.lor (Z.lor PTE_R PTE_W) PTE_X) =? 0.
Definition PTE_FLAGS (pte : Z) : Z := Z.land pte 0x3FF.
Definition SATP_SV39 : Z := Z.shiftl 8 60.
Definition MAKE_SATP (pagetable : Z) : Z := Z.lor SATP_SV39 (Z.shiftr pagetable 12).

(** [*pte & PTE_V] as a condition. *)
Definition pte_valid (pte : Z) : bool := negb (Z.land pte PTE_V =? 0).

(** ** Walking: vm_getpte *)

Definition peek64 (a : Z) : M pmem Z := gets (fun s => ld64 (pm s) a).
Definition poke64 (a v : Z) : M pmem unit := modify (fun s => set_pm (st64 (pm s) a v) s).
Definition zero_page (a : Z) : M pmem unit :=
  modify (fun s => set_pm (memset (pm s) a 0 PGSIZE) s).

(** [for (int level = 2; level > 0; level--)]: the level-0 table, or the early
    [return NULL] as [None].  &pgtbl[index] is at byte offset 8 * index. *)
Fixpoint getpte_loop (level : nat) (pgtbl va : Z) (alloc : bool) : M pmem (option Z) :=
  match level with
  | O => ret (Some pgtbl)
  | S level' =>
      let index := VA_TO_VPN va (Z.of_nat level) in
      let pte := pgtbl + 8 * index in
      let* v := peek64 pte in
      if pte_valid v then getpte_loop level' (PTE_TO_PA v) va alloc
      else if negb alloc then ret None
      else
        let* new_table := pmem_alloc false in
        if new_table =? NULL then ret None
        else
          zero_page new_table;;;
          poke64 pte (Z.lor (PA_TO_PTE new_table) PTE_V);;;
          getpte_loop level' new_table va alloc
  end.
Definition vm_getpte (pgtbl va : Z) (alloc : bool) : M pmem Z :=
  if VA_MAX <=? va then panic "vm_getpte: virtual address too large"
  else
    let* t := getpte_loop 2 pgtbl va alloc in
    match t with
    | None => ret NULL
    | Some t => ret (t + 8 * VA_TO_VPN va 0)
    end.

(** ** Mapping *)

(** The [for (;;)] of vm_mappages.  Both arms of its inner test store the same
    entry. *)
Fixpoint mappages_loop (fuel : nat) (pgtbl current_va end_va pa perm : Z) : M pmem unit :=
  match fuel with
  | O => no_fuel
  | S fuel =>
      let* pte := vm_getpte pgtbl current_va true in
      if pte =? NULL then panic "vm_mappages: failed to get PTE"
      else
        let* v := peek64 pte in
        (if pte_valid v
         then poke64 pte (Z.lor (Z.lor (PA_TO_PTE pa) perm) PTE_V)
         else poke64 pte (Z.lor (Z.lor (PA_TO_PTE pa) perm) PTE_V));;;
        if current_va =? end_va then ret tt
        else mappages_loop fuel pgtbl (u64 (current_va + PGSIZE)) end_va (u64 (pa + PGSIZE)) perm
  end.
(** One iteration per page up to end_va; a range that wraps runs into the
    VA_MAX check instead. *)
Definition mappages_fuel (current_va end_va : Z) : nat :=
  if current_va <=? end_va then Z.to_nat ((end_va - current_va) / PGSIZE + 1)
  else Z.to_nat ((VA_MAX - current_va) / PGSIZE + 2).
Definition vm_mappages (pgtbl va pa len perm : Z) : M pmem unit :=
  if len =? 0 then panic "vm_mappages: size cannot be zero"
  else
    let current_va := PG_ROUND_DOWN va in
    let end_va := PG_ROUND_DOWN (u64 (va + len - 1)) in
    mappages_loop (mappages_fuel current_va end_va) pgtbl current_va end_va pa perm.

(** ** Unmapping *)

Fixpoint unmappages_loop (fuel : nat) (pgtbl current_va end_va : Z) (freeit : bool) : M pmem unit :=
  match fuel with
  | O => no_fuel
  | S fuel =>
      if current_va <? end_va then
        let* pte := vm_getpte pgtbl current_va false in
        when (pte =? NULL) (panic "vm_unmappages: walk failed");;;
        let* v := peek64 pte in
        when (negb (pte_valid v)) (panic "vm_unmappages: page not mapped");;;
        when (PTE_FLAGS v =? PTE_V) (panic "vm_unmappages: not a leaf page");;;
        when freeit (pmem_free (PTE_TO_PA v) false);;;
        poke64 pte 0;;;
        unmappages_loop fuel pgtbl (u64 (current_va + PGSIZE)) end_va freeit
      else ret tt
  end.
Definition vm_unmappages (pgtbl va len : Z) (freeit : bool) : M pmem unit :=
  if negb (va mod PGSIZE =? 0) then panic "vm_unmappages: address not page aligned"
  else
    let npages := PG_ROUND_UP len / PGSIZE in
    let npages := if npages =? 0 then 1 else npages in
    unmappages_loop (Z.to_nat npages + 1) pgtbl va (u64 (va + npages * PGSIZE)) freeit.

(** ** The kernel page table *)

Definition kvm_map (kpgtbl va pa sz perm : Z) : M pmem unit := vm_mappages kpgtbl va pa sz perm.

(** etext (kernel.ld) and trampoline (trampoline.S) are link-time addresses. *)
Definition kvm_make (etext trampoline : Z) : M pmem Z :=
  let* kpgtbl := pmem_alloc false in
  when (kpgtbl =? NULL) (panic "kvm_make: failed to allocate kernel page table");;;
  zero_page kpgtbl;;;
  kvm_map kpgtbl UART_BASE UART_BASE PGSIZE (Z.lor PTE_R PTE_W);;;
  kvm_map kpgtbl PLIC_BASE PLIC_BASE 0x400000 (Z.lor PTE_R PTE_W);;;
  kvm_map kpgtbl CLINT_BASE CLINT_BASE 0x10000 (Z.lor PTE_R PTE_W);;;
  kvm_map kpgtbl VIRTIO_BASE VIRTIO_BASE PGSIZE (Z.lor PTE_R PTE_W);;;
  kvm_map kpgtbl KERNEL_BASE KERNEL_BASE (u64 (etext - KERNEL_BASE)) (Z.lor PTE_R PTE_X);;;
  kvm_map kpgtbl etext etext (u64 (PHYSTOP - etext)) (Z.lor PTE_R PTE_W);;;
  kvm_map kpgtbl TRAMPOLINE trampoline PGSIZE (Z.lor PTE_R PTE_X);;;
  for_ (Z.to_nat NCPU) 0 1 (fun i =>
    let* pa := pmem_alloc false in
    when (pa =? 0) (panic "kvm_make: failed to allocate kernel stack");;;
    kvm_map kpgtbl (KSTACK i) pa PGSIZE (Z.lor PTE_R PTE_W));;;
  ret kpgtbl.

(** ** The tables as the walk sees them *)

(** The table reached from [t] along a list of indices, top level first. *)
Fixpoint tbl_at (m : memory) (t : Z) (pr : list Z) : option Z :=
  match pr with
  | [] => Some t
  | i :: pr =>
      let e := ld64 m (t + 8 * i) in
      if pte_valid e then tbl_at m (PTE_TO_PA e) pr else None
  end.
(** Reference walk: the address of the leaf entry for [va], and the entry (0,
    which is not valid, when a table is missing). *)
Definition walk (m : memory) (root va : Z) : option Z :=
  t ← tbl_at m root [VA_TO_VPN va 2; VA_TO_VPN va 1]; Some (t + 8 * VA_TO_VPN va 0).
Definition pte_of (m : memory) (root va : Z) : Z :=
  match walk m root va with Some a => ld64 m a | None => 0 end.

(** Indices of at most two levels of non-leaf tables. *)
Definition prefix_ok (pr : list Z) : Prop :=
  (length pr <= 2)%nat /\ Forall (fun i => 0 <= i < 512) pr.

(** A page table in order: its tables are distinct pages of [r], none of them on
    the free list [l]. *)
Record pt_ok (m : memory) (root : Z) (r : alloc_region) (l : list Z) : Prop := {
  pt_inj : forall pr pr' t, prefix_ok pr -> prefix_ok pr' ->
    tbl_at m root pr = Some t -> tbl_at m root pr' = Some t -> pr = pr';
  pt_page : forall pr t, prefix_ok pr -> tbl_at m root pr = Some t ->
    page_in r t /\ t ∉ l;
}.

(** ** Arithmetic of entries *)

Lemma VPN_bound va level : 0 <= VA_TO_VPN va level < 512.
Proof.
  unfold VA_TO_VPN. change 0x1FF with (Z.ones 9). rewrite Z.land_ones by lia.
  by apply Z.mod_pos_bound.
Qed.
Lemma VPN_eq va level : 0 <= level -> VA_TO_VPN va level = (va / 2 ^ (12 + 9 * level)) mod 512.
Proof.
  intros. unfold VA_TO_VPN, VA_SHIFT. change 0x1FF with (Z.ones 9).
  rewrite Z.land_ones, Z.shiftr_div_pow2 by lia. done.
Qed.

Lemma lor_add a b n : 0 <= n -> 0 <= b < 2 ^ n -> Z.lor (a * 2 ^ n) b = a * 2 ^ n + b.
Proof.
  intros Hn Hb. assert (Z.land (a * 2 ^ n) b = 0) as H0.
  { apply Z.bits_inj'. intros k Hk. rewrite Z.land_spec, Z.bits_0.
    destruct (decide (k < n)).
    - rewrite Z.mul_pow2_bits_low by lia. done.
    - rewrite <- (Z.mod_small b (2 ^ n)) by done.
      rewrite (Z.mod_pow2_bits_high b n k) by lia. apply andb_false_r. }
  rewrite Z.add_nocarry_lxor by done. by rewrite Z.lxor_lor.
Qed.

(** The entry for a page: page number and ten flag bits. *)
Lemma PA_TO_PTE_eq pa : 0 <= pa < 2 ^ 64 -> PA_TO_PTE pa = pa / 4096 * 1024.
Proof.
  intros. unfold PA_TO_PTE. rewrite Z.shiftl_mul_pow2, Z.shiftr_div_pow2 by lia.
  change (2 ^ 12) with 4096. change (2 ^ 10) with 1024. apply u64_small.
  assert (0 <= pa / 4096 < 2 ^ 52); [|lia].
  split; [apply Z.div_pos; lia|]. apply Z.div_lt_upper_bound; lia.
Qed.
Lemma mk_pte pa f : 0 <= pa < 2 ^ 64 -> 0 <= f < 1024 ->
  Z.lor (PA_TO_PTE pa) f = pa / 4096 * 1024 + f.
Proof. intros. rewrite PA_TO_PTE_eq by done. by apply (lor_add _ f 10). Qed.
Lemma pte_valid_odd v : pte_valid v = Z.odd v.
Proof.
  unfold pte_valid, PTE_V. change (Z.shiftl 1 0) with (Z.ones 1).
  rewrite Z.land_ones by lia. change (2 ^ 1) with 2. rewrite Zmod_odd.
  by destruct (Z.odd v).
Qed.
Lemma pte_valid_mk n f : pte_valid (n * 1024 + f) = Z.odd f.
Proof.
  rewrite pte_valid_odd, Z.odd_add, Z.odd_mul. change (Z.odd 1024) with false.
  rewrite andb_false_r. by destruct (Z.odd f).
Qed.
Lemma PTE_TO_PA_mk pa f : 0 <= pa < 2 ^ 64 -> pa mod 4096 = 0 -> 0 <= f < 1024 ->
  PTE_TO_PA (pa / 4096 * 1024 + f) = pa.
Proof.
  intros Hpa Hm Hf. unfold PTE_TO_PA. rewrite Z.shiftl_mul_pow2, Z.shiftr_div_pow2 by lia.
  change (2 ^ 12) with 4096. change (2 ^ 10) with 1024.
  rewrite Z.div_add_l by lia. rewrite (Z.div_small f) by done. rewrite Z.add_0_r.
  rewrite u64_small; pose proof (Z.div_mod pa 4096); lia.
Qed.
Lemma PTE_FLAGS_mk n f : 0 <= f < 1024 -> PTE_FLAGS (n * 1024 + f) = f.
Proof.
  intros. unfold PTE_FLAGS. change 0x3FF with (Z.ones 10). rewrite Z.land_ones by lia.
  change (2 ^ 10) with 1024. rewrite Z.add_comm, Z.mod_add by lia. by apply Z.mod_small.
Qed.
Lemma lor_flag_bound a b : 0 <= a < 1024 -> 0 <= b < 1024 -> 0 <= Z.lor a b < 1024.
Proof.
  intros Ha Hb. split; [apply Z.lor_nonneg; lia|].
  destruct (decide (Z.lor a b = 0)) as [->|H0]; [lia|].
  apply Z.log2_lt_cancel. change (Z.log2 1024) with 10. rewrite Z.log2_lor by lia.
  destruct (decide (a = 0)) as [->|], (decide (b = 0)) as [->|]; cbn -[Z.log2];
    rewrite ?Z.max_lub_lt_iff; try (split; [|]); try (apply Z.log2_lt_pow2; lia); try (cbn; lia).
Qed.

(** ** How tables change *)

Lemma tbl_at_app m t p q :
  tbl_at m t (p ++ q) = t' ← tbl_at m t p; tbl_at m t' q.
Proof.
  revert t. induction p as [|i p IH]; intros t; [done|]. cbn.
  destruct (pte_valid _); [apply IH|done].
Qed.

(** The tables on a path do not change when the entries on it do not. *)
Lemma tbl_at_frame m m' t q :
  (forall q1 j q2 t', q = q1 ++ j :: q2 -> tbl_at m t q1 = Some t' ->
     ld64 m' (t' + 8 * j) = ld64 m (t' + 8 * j)) ->
  tbl_at m' t q = tbl_at m t q.
Proof.
  revert t. induction q as [|i q IH]; intros t H; [done|]. cbn.
  rewrite (H [] i q t) by done. destruct (pte_valid (ld64 m (t + 8 * i))) eqn:E; [|done].
  apply IH. intros q1 j q2 t' -> Ht. apply (H (i :: q1) j q2); [done|]. cbn. by rewrite E.
Qed.

Lemma prefix_ok_app p q : prefix_ok (p ++ q) -> prefix_ok p.
Proof.
  unfold prefix_ok. rewrite length_app, Forall_app. intros [? [? ?]]. split; [lia|done].
Qed.
Lemma prefix_ok_mid p j q : prefix_ok (p ++ j :: q) -> 0 <= j < 512.
Proof. intros [_ H]. apply Forall_app in H as [_ H]. by apply Forall_cons in H as [? _]. Qed.

(** Two entries of page-aligned tables coincide or do not overlap. *)
Lemma entry_apart t i t' j : t mod PGSIZE = 0 -> t' mod PGSIZE = 0 ->
  0 <= i < 512 -> 0 <= j < 512 -> (t <> t' \/ i <> j) ->
  t' + 8 * j + 8 <= t + 8 * i \/ t + 8 * i + 8 <= t' + 8 * j.
Proof.
  intros Ht Ht' Hi Hj Hne. destruct (decide (t = t')) as [->|Htt]; [lia|].
  pose proof (pages_apart t t' Ht Ht' Htt). unfold PGSIZE in *. lia.
Qed.

(** Storing a leaf entry, or any entry of a table at the bottom level, moves no
    table; storing a non-leaf entry moves only what lies under it. *)
Lemma tbl_at_store m root r l pr t i v q :
  pt_ok m root r l -> prefix_ok pr -> tbl_at m root pr = Some t -> 0 <= i < 512 ->
  prefix_ok q -> ~ (pr ++ [i]) `prefix_of` q ->
  tbl_at (st64 m (t + 8 * i) v) root q = tbl_at m root q.
Proof.
  intros Hpt Hpr Ht Hi Hq Hnp. apply tbl_at_frame. intros q1 j q2 t' -> Ht'.
  pose proof (prefix_ok_app _ _ Hq) as Hq1. pose proof (prefix_ok_mid _ _ _ Hq) as Hj.
  destruct (pt_page _ _ _ _ Hpt _ _ Hpr Ht) as [(Htm & _) _].
  destruct (pt_page _ _ _ _ Hpt _ _ Hq1 Ht') as [(Htm' & _) _].
  apply ld64_st64_ne. apply (entry_apart t i t' j); try done.
  destruct (decide (t = t')) as [->|]; [right|by left]. intros ->.
  apply Hnp. rewrite (pt_inj _ _ _ _ Hpt _ _ _ Hpr Hq1 Ht Ht'). exists q2. by rewrite <- app_assoc.
Qed.

(** Filling a page that is not a table moves nothing. *)
Lemma tbl_at_fill m root r l p m' q :
  pt_ok m root r l -> p mod PGSIZE = 0 ->
  (forall pr t, prefix_ok pr -> tbl_at m root pr = Some t -> t <> p) ->
  (forall a, a < p \/ p + PGSIZE <= a -> ld8 m' a = ld8 m a) ->
  prefix_ok q -> tbl_at m' root q = tbl_at m root q.
Proof.
  intros Hpt Hp Hfresh Hm Hq. apply tbl_at_frame. intros q1 j q2 t' -> Ht'.
  pose proof (prefix_ok_app _ _ Hq) as Hq1. pose proof (prefix_ok_mid _ _ _ Hq) as Hj.
  destruct (pt_page _ _ _ _ Hpt _ _ Hq1 Ht') as [(Htm' & _) _].
  apply ld_ext. intros b Hb. apply Hm.
  pose proof (pages_apart t' p Htm' Hp (Hfresh _ _ Hq1 Ht')). unfold PGSIZE in *. simpl in Hb. lia.
Qed.

(** The same two frames for leaf entries. *)
Definition vpns (va : Z) : list Z := [VA_TO_VPN va 2; VA_TO_VPN va 1].
Lemma vpns_ok va : prefix_ok (vpns va).
Proof. split; [done|]. repeat constructor; apply VPN_bound. Qed.

Lemma walk_tbl m root va :
  walk m root va = t ← tbl_at m root (vpns va); Some (t + 8 * VA_TO_VPN va 0).
Proof. done. Qed.

(** Two virtual addresses of different pages differ in some index. *)
Lemma vpns_inj va va' : 0 <= va < VA_MAX -> 0 <= va' < VA_MAX ->
  vpns va = vpns va' -> VA_TO_VPN va 0 = VA_TO_VPN va' 0 -> va / PGSIZE = va' / PGSIZE.
Proof.
  unfold vpns. intros H H' [= H2 H1] H0. rewrite !VPN_eq in H0, H1, H2 by lia. simpl in *.
  change (2 ^ (12 + 9 * 0)) with 4096 in H0. change (2 ^ (12 + 9 * 1)) with (4096 * 512) in H1.
  change (2 ^ (12 + 9 * 2)) with (4096 * (512 * 512)) in H2.
  rewrite <- (Z.div_div va 4096), <- (Z.div_div va' 4096) in H1, H2 by lia.
  rewrite <- (Z.div_div (va / 4096) 512), <- (Z.div_div (va' / 4096) 512) in H2 by lia.
  unfold PGSIZE. change VA_MAX with (4096 * (512 * 512 * 256)) in *.
  assert (forall x, 0 <= x < 4096 * (512 * 512 * 256) -> 0 <= x / 4096 / 512 / 512 < 512) as Hb.
  { intros x Hx. split; [repeat apply Z.div_pos; lia|].
    repeat (apply Z.div_lt_upper_bound; [lia|]). lia. }
  rewrite !(Z.mod_small (_ / 4096 / 512 / 512)) in H2 by (by apply Hb). clear Hb H H'.
  set (x := va / 4096) in *. set (y := va' / 4096) in *.
  pose proof (Z.div_mod x 512). pose proof (Z.div_mod y 512).
  pose proof (Z.div_mod (x / 512) 512). pose proof (Z.div_mod (y / 512) 512). lia.
Qed.

(** ** vm_getpte without allocation is the reference walk *)

Fixpoint idx_from (level : nat) (va : Z) : list Z :=
  match level with
  | O => []
  | S level' => VA_TO_VPN va (Z.of_nat level) :: idx_from level' va
  end.

Lemma getpte_loop_read level t va s :
  getpte_loop level t va false s = Ret (tbl_at (pm s) t (idx_from level va)) s.
Proof.
  revert t. induction level as [|level IH]; intros t; [done|].
  cbn [getpte_loop idx_from tbl_at]. unfold peek64. mstep.
  destruct (pte_valid _); [apply IH|done].
Qed.
Lemma vm_getpte_read root va s : va < VA_MAX ->
  vm_getpte root va false s = Ret (default NULL (walk (pm s) root va)) s.
Proof.
  intros Hva. unfold vm_getpte. bcase (VA_MAX <=? va); [lia|].
  mrun (getpte_loop_read 2 root va s). rewrite walk_tbl. change (idx_from 2 va) with (vpns va).
  by destruct (tbl_at (pm s) root (vpns va)).
Qed.

(** ** vm_getpte with allocation *)

Section extend.
Context (m : memory) (root : Z) (r : alloc_region) (l : list Z).
Context (pr : list Z) (t i p : Z) (m1 : memory).
Hypothesis Hpt : pt_ok m root r (p :: l).
Hypothesis Hpr : prefix_ok (pr ++ [i]).
Hypothesis Ht : tbl_at m root pr = Some t.
Hypothesis Hinv : pte_valid (ld64 m (t + 8 * i)) = false.
Hypothesis Hp : page_in r p.
Hypothesis Hpb : 0 < p < 2 ^ 43.
Hypothesis Hz : forall a, p <= a < p + PGSIZE -> ld8 m1 a = 0.
Hypothesis Hm1 : forall a, a < p \/ p + PGSIZE <= a -> ld8 m1 a = ld8 m a.
Let e := Z.lor (PA_TO_PTE p) PTE_V.
Let m' := st64 m1 (t + 8 * i) e.

Local Lemma ext_entry : pte_valid e = true /\ PTE_TO_PA e = p /\ 0 <= e < 2 ^ 64.
Proof.
  destruct Hp as [Hpm _]. unfold PGSIZE in Hpm. unfold e, PTE_V. change (Z.shiftl 1 0) with 1.
  rewrite mk_pte by lia. rewrite pte_valid_mk, PTE_TO_PA_mk by (done || lia).
  split_and!; try done; pose proof (Z.div_mod p 4096); lia.
Qed.
Local Lemma ext_idx : 0 <= i < 512 /\ prefix_ok pr.
Proof. split; [by eapply (prefix_ok_mid pr i [])|by eapply prefix_ok_app]. Qed.
Local Lemma ext_fresh q u : prefix_ok q -> tbl_at m root q = Some u -> u <> p.
Proof. intros Hq Hu ->. destruct (pt_page _ _ _ _ Hpt _ _ Hq Hu) as [_ Hn]. set_solver. Qed.
Local Lemma ext_fill q : prefix_ok q -> tbl_at m1 root q = tbl_at m root q.
Proof. destruct Hp as [Hpm _]. intros. eapply tbl_at_fill; eauto using ext_fresh. Qed.
Local Lemma ext_pt1 : pt_ok m1 root r (p :: l).
Proof.
  split; intros *.
  - intros Hq Hq'. rewrite !ext_fill by done. by eapply pt_inj.
  - intros Hq. rewrite ext_fill by done. by eapply pt_page.
Qed.
Local Lemma ext_other q : prefix_ok q -> ~ (pr ++ [i]) `prefix_of` q ->
  tbl_at m' root q = tbl_at m root q.
Proof.
  intros Hq Hn. destruct ext_idx. rewrite <- ext_fill by done. unfold m'.
  eapply tbl_at_store; eauto using ext_pt1. by rewrite ext_fill.
Qed.
Local Lemma ext_table : tbl_at m' root pr = Some t.
Proof.
  destruct ext_idx. rewrite ext_other; [done|done|].
  intros [k Hk]. apply (f_equal length) in Hk. rewrite !length_app in Hk. cbn in Hk. lia.
Qed.
Local Lemma ext_zero j : 0 <= j < 512 -> ld64 m' (p + 8 * j) = 0.
Proof.
  intros Hj. destruct ext_idx as [Hi Hpr']. destruct Hp as [Hpm _].
  destruct (pt_page _ _ _ _ Hpt _ _ Hpr' Ht) as [[Htm _] _].
  pose proof (ext_fresh _ _ Hpr' Ht). unfold m'. rewrite ld64_st64_ne.
  - apply ld_zero. intros b Hb. apply Hz. unfold PGSIZE. simpl in Hb. lia.
  - apply (entry_apart t i p j); auto.
Qed.
Local Lemma ext_new : tbl_at m' root (pr ++ [i]) = Some p.
Proof.
  rewrite tbl_at_app, ext_table. cbn. unfold m'. destruct ext_entry as (Hv & Hpa & Hb).
  rewrite ld64_st64_eq by done. by rewrite Hv, Hpa.
Qed.
Local Lemma ext_under j q : prefix_ok (pr ++ i :: j :: q) -> tbl_at m' root (pr ++ i :: j :: q) = None.
Proof.
  intros Hq. replace (pr ++ i :: j :: q) with ((pr ++ [i]) ++ j :: q) in * by (by rewrite <- app_assoc).
  rewrite tbl_at_app, ext_new. cbn. rewrite ext_zero; [done|]. by eapply prefix_ok_mid.
Qed.
Local Lemma ext_old q : (pr ++ [i]) `prefix_of` q -> tbl_at m root q = None.
Proof. intros [k ->]. rewrite <- app_assoc, tbl_at_app, Ht. cbn. by rewrite Hinv. Qed.
Local Lemma ext_cases q : prefix_ok q ->
  (~ (pr ++ [i]) `prefix_of` q /\ tbl_at m' root q = tbl_at m root q) \/
  (tbl_at m root q = None /\ (q = pr ++ [i] /\ tbl_at m' root q = Some p \/ tbl_at m' root q = None)).
Proof.
  intros Hq. destruct (decide ((pr ++ [i]) `prefix_of` q)) as [Hpre|Hn].
  - right. split; [by apply ext_old|]. destruct Hpre as [[|j k] ->].
    + left. rewrite app_nil_r in *. split; [done|apply ext_new].
    + right. rewrite <- app_assoc in *. by apply ext_under.
  - left. split; [done|by apply ext_other].
Qed.

Lemma extend_pt_ok r' : rbegin r' = rbegin r -> rend r' = rend r -> NoDup (p :: l) ->
  pt_ok m' root r' l.
Proof.
  intros Hb He [Hpl _]%NoDup_cons. split.
  - intros q q' u Hq Hq' H1 H2.
    destruct (ext_cases q Hq) as [[_ E1]|[N1 [[Q1 E1]|E1]]], (ext_cases q' Hq') as [[_ E2]|[N2 [[Q2 E2]|E2]]];
      try congruence.
    + rewrite E1 in H1. rewrite E2 in H2. by eapply pt_inj.
    + exfalso. rewrite E1 in H1. apply (ext_fresh _ _ Hq H1). congruence.
    + exfalso. rewrite E2 in H2. apply (ext_fresh _ _ Hq' H2). congruence.
  - intros q u Hq H1. unfold page_in. rewrite Hb, He. fold (page_in r u).
    destruct (ext_cases q Hq) as [[_ E1]|[N1 [[Q1 E1]|E1]]]; [| |congruence].
    + rewrite E1 in H1. destruct (pt_page _ _ _ _ Hpt _ _ Hq H1) as [? Hn]. split; [done|set_solver].
    + rewrite E1 in H1. injection H1 as <-. done.
Qed.
Lemma extend_tables q u : prefix_ok q -> tbl_at m root q = Some u -> tbl_at m' root q = Some u.
Proof. intros Hq Hu. destruct (ext_cases q Hq) as [[_ E]|[N _]]; congruence. Qed.
Lemma extend_new_tables q u : prefix_ok q -> tbl_at m' root q = Some u ->
  tbl_at m root q = Some u \/ u = p.
Proof.
  intros Hq Hu. destruct (ext_cases q Hq) as [[_ E]|[N [[_ E]|E]]].
  - left. congruence.
  - right. congruence.
  - congruence.
Qed.
Lemma extend_new : tbl_at m' root (pr ++ [i]) = Some p.
Proof. apply ext_new. Qed.
Lemma extend_leaf va : pte_of m' root va = pte_of m root va.
Proof.
  unfold pte_of. rewrite !walk_tbl. pose proof (vpns_ok va) as Hq. destruct ext_idx as [Hi Hpr'].
  destruct (ext_cases _ Hq) as [[Hn E]|[N [[Q E]|E]]].
  - rewrite E. destruct (tbl_at m root (vpns va)) as [u|] eqn:Hu; [|done]. cbn.
    pose proof (VPN_bound va 0).
    destruct (pt_page _ _ _ _ Hpt _ _ Hq Hu) as [[Hum _] _].
    destruct (pt_page _ _ _ _ Hpt _ _ Hpr' Ht) as [[Htm _] _].
    pose proof (ext_fresh _ _ Hq Hu) as Hup. destruct Hp as [Hpm _].
    unfold m'. rewrite ld64_st64_ne.
    + apply ld_ext. intros b Hb. apply Hm1. pose proof (pages_apart u p Hum Hpm Hup).
      unfold PGSIZE in *. simpl in Hb. lia.
    + apply (entry_apart t i u _); try done. left. intros ->.
      pose proof (pt_inj _ _ _ _ Hpt _ _ _ Hpr' Hq Ht Hu) as ->.
      destruct Hpr as [Hlen _]. rewrite length_app in Hlen. cbn in Hlen. lia.
  - rewrite N, E. cbn. apply ext_zero, VPN_bound.
  - by rewrite N, E.
Qed.
Lemma extend_frame a : ~ (t <= a < t + PGSIZE) -> ~ (p <= a < p + PGSIZE) -> ld8 m' a = ld8 m a.
Proof.
  intros Ha Hpa. destruct ext_idx. unfold m'. rewrite ld8_st_ne; [apply Hm1|]; unfold PGSIZE in *; simpl; lia.
Qed.
End extend.

(** What a page-table routine may change besides entries: it may take pages off
    the front of the user free list, add tables, and write only in table pages
    and in the pages it took. *)
Record vm_step (root : Z) (s : pmem) (l : list Z) (s' : pmem) (l' : list Z) : Prop := {
  vs_list : exists l0, l = l0 ++ l';
  vs_kern : kern_region s' = kern_region s;
  vs_begin : rbegin (user_region s') = rbegin (user_region s);
  vs_end : rend (user_region s') = rend (user_region s);
  vs_cpu : synced (pcpu s') = synced (pcpu s);
  vs_tables : forall q t, prefix_ok q -> tbl_at (pm s) root q = Some t ->
    tbl_at (pm s') root q = Some t;
  vs_new : forall q t, prefix_ok q -> tbl_at (pm s') root q = Some t ->
    tbl_at (pm s) root q = Some t \/ t ∈ l;
  vs_frame : forall a,
    (forall q t, prefix_ok q -> tbl_at (pm s) root q = Some t -> ~ t <= a < t + PGSIZE) ->
    (forall p, p ∈ l -> p ∉ l' -> ~ p <= a < p + PGSIZE) ->
    ld8 (pm s') a = ld8 (pm s) a;
}.

Lemma vm_step_refl root s l : vm_step root s l s l.
Proof. constructor; try done; [by exists []|by left]. Qed.

Lemma vm_step_trans root s l s1 l1 s2 l2 :
  pt_ok (pm s1) root (user_region s1) l1 ->
  vm_step root s l s1 l1 -> vm_step root s1 l1 s2 l2 -> vm_step root s l s2 l2.
Proof.
  intros Hpt [[l0 Hl] Hk Hb He Hc Ht Hn Hf] [[l0' Hl'] Hk' Hb' He' Hc' Ht' Hn' Hf'].
  subst l l1. constructor; try congruence.
  - exists (l0 ++ l0'). by rewrite <- app_assoc.
  - eauto.
  - intros q t Hq Hq2. destruct (Hn' q t Hq Hq2) as [H|H]; [by apply Hn|right; set_solver].
  - intros a Ha Hp. rewrite Hf'.
    + apply Hf; [done|]. intros p Hp1 Hp2. apply Hp; set_solver.
    + intros q t Hq Hq1. destruct (Hn q t Hq Hq1) as [H|H]; [by eapply Ha|].
      apply Hp; [done|]. destruct (pt_page _ _ _ _ Hpt _ _ Hq Hq1) as [_ Hnin]. set_solver.
    + intros p Hp1 Hp2. apply Hp; set_solver.
Qed.

(** Memory writes outside the free pages keep the allocator in order. *)
Lemma pmem_ok_set_pm s fl m :
  (forall b q, q ∈ fl b -> ld64 m q = ld64 (pm s) q) -> pmem_ok s fl -> pmem_ok (set_pm m s) fl.
Proof.
  intros Hm [Hr Ha Hc]. constructor; try done.
  intros b. rewrite region_set_pm. eapply region_frame; [|apply Hr]. intros q Hq. by apply (Hm b).
Qed.
Lemma page_not_free s fl p : pmem_ok s fl -> page_in (user_region s) p -> p ∉ fl false ->
  forall b q, q ∈ fl b -> p <> q.
Proof.
  intros Hs (Hm & Hb & He) Hn [] q Hq ->; [|done].
  destruct (pmem_ok_page _ _ _ _ Hs Hq) as (_ & _ & _ & ? & ?). pose proof (pok_apart _ _ Hs).
  cbn in *. unfold PGSIZE in *. lia.
Qed.
(** Storing an entry of a table keeps the allocator in order. *)
Lemma pmem_ok_entry s fl t i v : pmem_ok s fl -> page_in (user_region s) t -> t ∉ fl false ->
  0 <= i < 512 -> pmem_ok (set_pm (st64 (pm s) (t + 8 * i) v) s) fl.
Proof.
  intros Hs Ht Hn Hi. apply pmem_ok_set_pm; [|done]. intros b q Hq.
  pose proof (page_not_free _ _ _ Hs Ht Hn b q Hq) as Hne. destruct Ht as [Htm _].
  destruct (pmem_ok_page _ _ _ _ Hs Hq) as (Hqm & _). apply ld64_st64_ne.
  pose proof (entry_apart t i q 0 Htm Hqm Hi). lia.
Qed.

Lemma alloc_post_user p s : alloc_post false p s =
  mkPmem (synced (pcpu s)) (memset (pm s) p 0 PGSIZE) (kern_region s)
    (set_free (ld64 (pm s) p) (u32 (allocable (user_region s) - 1)) (user_region s)).
Proof. by destruct s. Qed.

Lemma getpte_extend root s fl pr t i p l :
  pmem_ok s fl -> fl false = p :: l -> pt_ok (pm s) root (user_region s) (p :: l) ->
  prefix_ok (pr ++ [i]) -> tbl_at (pm s) root pr = Some t ->
  pte_valid (ld64 (pm s) (t + 8 * i)) = false ->
  exists s', (forall k : Z -> M pmem (option Z), (let* n := pmem_alloc false in
     if n =? NULL then ret None
     else zero_page n;;; poke64 (t + 8 * i) (Z.lor (PA_TO_PTE n) PTE_V);;; k n) s = k p s') /\
    pmem_ok s' (fl_set false l fl) /\ pt_ok (pm s') root (user_region s') l /\
    vm_step root s (p :: l) s' l /\ tbl_at (pm s') root (pr ++ [i]) = Some p /\
    (forall va, pte_of (pm s') root va = pte_of (pm s) root va).
Proof.
  intros Hs Hfl Hpt Hpr Ht Hinv.
  assert (p ∈ fl false) as Hpin by (rewrite Hfl; set_solver).
  destruct (pmem_ok_page _ _ _ _ Hs Hpin) as (Hpm & Hpb & Hpg).
  pose proof (pmem_alloc_ok _ _ _ _ _ Hs Hfl) as Hs1. rewrite alloc_post_user in *.
  pose proof (prefix_ok_app _ _ Hpr) as Hpr'. pose proof (prefix_ok_mid _ _ [] Hpr) as Hi.
  destruct (pt_page _ _ _ _ Hpt _ _ Hpr' Ht) as [Htp Htn].
  set (m1 := memset (memset (pm s) p 0 PGSIZE) p 0 PGSIZE).
  assert (forall a, p <= a < p + PGSIZE -> ld8 m1 a = 0) as Hz.
  { intros a Ha. unfold m1. by rewrite memset_in. }
  assert (forall a, a < p \/ p + PGSIZE <= a -> ld8 m1 a = ld8 (pm s) a) as Hm1.
  { intros a Ha. unfold m1. by rewrite !memset_out. }
  pose proof (rok_nodup _ _ _ (pok_regions _ _ Hs false)) as Hnd. rewrite Hfl in Hnd.
  eexists. split.
  { intros k. mrun (pmem_alloc_cons false s fl p l Hs Hfl). rewrite alloc_post_user.
    bcase (p =? NULL); [unfold NULL in *; lia|]. unfold zero_page, poke64. mstep. done. }
  cbn [pm set_pm pcpu kern_region user_region]. split_and!.
  - eapply (pmem_ok_set_pm _ (fl_set false l fl)) with (m := m1) in Hs1.
    + eapply (pmem_ok_entry _ _ t i) in Hs1; [done|by cbn| |done]. rewrite fl_set_eq. set_solver.
    + apply NoDup_cons in Hnd as [Hnin _]. intros b q Hq.
      assert (q ∈ fl b /\ p <> q) as [Hq' Hne].
      { destruct b; cbn in Hq.
        - split; [done|]. by eapply (pmem_ok_disjoint s fl false true).
        - rewrite Hfl. set_solver. }
      cbn. apply ld64_memset_out; [done| |done]. by eapply pmem_ok_page.
  - by eapply extend_pt_ok.
  - constructor; cbn; try done.
    + by exists [p].
    + apply synced_idem.
    + intros q u Hq Hu. by eapply extend_tables.
    + intros q u Hq Hu. apply (extend_new_tables (pm s) root (user_region s) l pr t i p m1) in Hu; eauto.
      destruct Hu as [Hu| ->]; [by left|right; set_solver].
    + intros a Ha Hp. eapply extend_frame; eauto. apply Hp; [set_solver|].
      by apply NoDup_cons in Hnd as [? _].
  - by eapply extend_new.
  - intros va. by eapply extend_leaf.
Qed.

Lemma prefix_ok_snoc pr i : (length pr < 2)%nat -> prefix_ok pr -> 0 <= i < 512 -> prefix_ok (pr ++ [i]).
Proof.
  intros Hl [_ Hf] Hi. split; [rewrite length_app; cbn; lia|]. apply Forall_app. split; [done|by constructor].
Qed.
Lemma tbl_at_snoc m root pr t i : tbl_at m root pr = Some t ->
  tbl_at m root (pr ++ [i]) =
    let e := ld64 m (t + 8 * i) in if pte_valid e then Some (PTE_TO_PA e) else None.
Proof. intros H. by rewrite tbl_at_app, H. Qed.
Lemma fl_set_set b l l' fl b' : fl_set b l (fl_set b l' fl) b' = fl_set b l fl b'.
Proof. unfold fl_set. by destruct b, b'. Qed.
Lemma pmem_ok_ext s fl fl' : (forall b, fl b = fl' b) -> pmem_ok s fl -> pmem_ok s fl'.
Proof. intros H [Hr Ha Hc]. constructor; try done. intros b. by rewrite <- H. Qed.

(** With enough free pages the walk always ends in a table: the missing tables
    are taken from the front of the free list, and no leaf entry changes. *)
Lemma getpte_loop_alloc level root s fl pr t va :
  pmem_ok s fl -> pt_ok (pm s) root (user_region s) (fl false) ->
  prefix_ok pr -> (length pr + level = 2)%nat -> tbl_at (pm s) root pr = Some t ->
  (level <= length (fl false))%nat ->
  exists t' s' l', getpte_loop level t va true s = Ret (Some t') s' /\
    pmem_ok s' (fl_set false l' fl) /\ pt_ok (pm s') root (user_region s') l' /\
    vm_step root s (fl false) s' l' /\ tbl_at (pm s') root (pr ++ idx_from level va) = Some t' /\
    (length (fl false) <= length l' + level)%nat /\
    (forall va', pte_of (pm s') root va' = pte_of (pm s) root va').
Proof.
  revert s fl pr t. induction level as [|level IH]; intros s fl pr t Hs Hpt Hpr Hlen Ht Hfree.
  { exists t, s, (fl false). cbn. rewrite app_nil_r. split_and!; try done; [|apply vm_step_refl|lia].
    eapply pmem_ok_ext; [|done]. intros []; done. }
  cbn [getpte_loop idx_from]. set (i := VA_TO_VPN va (Z.of_nat (S level))).
  assert (prefix_ok (pr ++ [i])) as Hpri by (apply prefix_ok_snoc; [lia|done|apply VPN_bound]).
  unfold peek64. mstep. pose proof (tbl_at_snoc _ _ _ _ i Ht) as Hsn. cbv zeta in Hsn.
  destruct (pte_valid (ld64 (pm s) (t + 8 * i))) eqn:Hv.
  - destruct (IH s fl (pr ++ [i]) (PTE_TO_PA (ld64 (pm s) (t + 8 * i))))
      as (t' & s' & l' & Hrun & Hs' & Hpt' & Hst & Ht' & Hl' & Hleaf);
      [done|done|done|rewrite length_app; cbn; lia|done|lia|].
    exists t', s', l'. rewrite <- app_assoc in Ht'. split_and!; try done. lia.
  - cbn [negb]. destruct (fl false) as [|p l] eqn:Hfl; [cbn in Hfree; lia|].
    destruct (getpte_extend root s fl pr t i p l) as (s1 & Hrun1 & Hs1 & Hpt1 & Hst1 & Ht1 & Hleaf1); try done.
    rewrite (Hrun1 (fun n => getpte_loop level n va true)).
    destruct (IH s1 (fl_set false l fl) (pr ++ [i]) p)
      as (t' & s' & l' & Hrun & Hs' & Hpt' & Hst & Ht' & Hl' & Hleaf);
      rewrite ?fl_set_eq; try done; [rewrite length_app; cbn; lia|cbn in Hfree; lia|].
    rewrite fl_set_eq in Hst, Hl'. exists t', s', l'. rewrite <- app_assoc in Ht'. split_and!; try done.
    + eapply pmem_ok_ext; [|done]. intros b. apply fl_set_set.
    + exact (vm_step_trans _ _ _ _ _ _ _ Hpt1 Hst1 Hst).
    + cbn. lia.
    + intros va'. by rewrite Hleaf, Hleaf1.
Qed.

Lemma vm_getpte_alloc root s fl va :
  pmem_ok s fl -> pt_ok (pm s) root (user_region s) (fl false) ->
  va < VA_MAX -> (2 <= length (fl false))%nat ->
  exists t s' l', vm_getpte root va true s = Ret (t + 8 * VA_TO_VPN va 0) s' /\
    pmem_ok s' (fl_set false l' fl) /\ pt_ok (pm s') root (user_region s') l' /\
    vm_step root s (fl false) s' l' /\ tbl_at (pm s') root (vpns va) = Some t /\
    (length (fl false) <= length l' + 2)%nat /\
    (forall va', pte_of (pm s') root va' = pte_of (pm s) root va').
Proof.
  intros Hs Hpt Hva Hfree.
  destruct (getpte_loop_alloc 2 root s fl [] root va) as (t & s' & l' & Hrun & H); try done.
  { split; [cbn; lia|constructor]. }
  exists t, s', l'. split; [|done]. unfold vm_getpte. bcase (VA_MAX <=? va); [lia|]. by mrun Hrun.
Qed.

(** A walk that finds its tables allocates nothing. *)
Lemma getpte_loop_present level root s pr t va t' :
  tbl_at (pm s) root pr = Some t -> tbl_at (pm s) root (pr ++ idx_from level va) = Some t' ->
  getpte_loop level t va true s = Ret (Some t') s.
Proof.
  revert pr t. induction level as [|level IH]; intros pr t Ht Ht'; cbn [getpte_loop idx_from] in *.
  { rewrite app_nil_r, Ht in Ht'. by injection Ht' as ->. }
  unfold peek64. mstep. rewrite tbl_at_app, Ht in Ht'. cbn in Ht'.
  destruct (pte_valid _) eqn:Hv; [|done].
  eapply (IH (pr ++ [_])).
  - rewrite (tbl_at_snoc _ _ _ _ _ Ht). cbv zeta. by rewrite Hv.
  - rewrite tbl_at_app, (tbl_at_snoc _ _ _ _ _ Ht). cbv zeta. by rewrite Hv.
Qed.
Lemma vm_getpte_present root s va t : va < VA_MAX -> tbl_at (pm s) root (vpns va) = Some t ->
  vm_getpte root va true s = Ret (t + 8 * VA_TO_VPN va 0) s.
Proof.
  intros Hva Ht. unfold vm_getpte. bcase (VA_MAX <=? va); [lia|].
  by mrun (getpte_loop_present 2 root s [] root va t eq_refl Ht).
Qed.

(** ** Storing a leaf entry *)

Section leaf.
Context (m : memory) (root : Z) (r : alloc_region) (l : list Z) (va t v : Z).
Hypothesis Hpt : pt_ok m root r l.
Hypothesis Ht : tbl_at m root (vpns va) = Some t.
Let m' := st64 m (t + 8 * VA_TO_VPN va 0) v.

Lemma leaf_tables q : prefix_ok q -> tbl_at m' root q = tbl_at m root q.
Proof.
  intros Hq. eapply (tbl_at_store m root r l (vpns va)); try done; [apply vpns_ok|apply VPN_bound|].
  intros [k ->]. destruct Hq as [Hl _]. rewrite !length_app in Hl. cbn in Hl. lia.
Qed.
Lemma leaf_pt_ok : pt_ok m' root r l.
Proof.
  split; intros *.
  - intros Hq Hq'. rewrite !leaf_tables by done. by eapply pt_inj.
  - intros Hq. rewrite leaf_tables by done. by eapply pt_page.
Qed.
Lemma leaf_same va' : 0 <= v < 2 ^ 64 -> vpns va' = vpns va -> VA_TO_VPN va' 0 = VA_TO_VPN va 0 ->
  pte_of m' root va' = v.
Proof.
  intros Hv Hq H0. unfold pte_of. rewrite walk_tbl, leaf_tables, Hq, Ht by apply vpns_ok.
  cbn. rewrite H0. by apply ld64_st64_eq.
Qed.
Lemma leaf_other va' : 0 <= va < VA_MAX -> 0 <= va' < VA_MAX -> va / PGSIZE <> va' / PGSIZE ->
  pte_of m' root va' = pte_of m root va'.
Proof.
  intros Hva Hva' Hne. unfold pte_of. rewrite !walk_tbl, leaf_tables by apply vpns_ok.
  destruct (tbl_at m root (vpns va')) as [t'|] eqn:Ht'; [|done]. cbn.
  destruct (pt_page _ _ _ _ Hpt _ _ (vpns_ok va) Ht) as [[Htm _] _].
  destruct (pt_page _ _ _ _ Hpt _ _ (vpns_ok va') Ht') as [[Htm' _] _].
  apply ld64_st64_ne. apply entry_apart; try done; try apply VPN_bound.
  destruct (decide (t = t')) as [->|]; [right|by left]. intros H0.
  pose proof (pt_inj _ _ _ _ Hpt _ _ _ (vpns_ok va) (vpns_ok va') Ht Ht') as Hq.
  by apply Hne, vpns_inj.
Qed.
End leaf.

Lemma vpns_same va va' : va / 2 ^ 21 = va' / 2 ^ 21 -> vpns va = vpns va'.
Proof.
  intros H. unfold vpns. rewrite !VPN_eq by lia.
  change (2 ^ (12 + 9 * 2)) with (2 ^ 21 * 512). change (2 ^ (12 + 9 * 1)) with (2 ^ 21).
  rewrite <- !Z.div_div by lia. by rewrite H.
Qed.
Lemma VPN0_same va va' : va / PGSIZE = va' / PGSIZE -> VA_TO_VPN va 0 = VA_TO_VPN va' 0.
Proof. intros H. rewrite !VPN_eq by lia. change (2 ^ (12 + 9 * 0)) with PGSIZE. by rewrite H. Qed.
Lemma page_region va va' : va / PGSIZE = va' / PGSIZE -> va / 2 ^ 21 = va' / 2 ^ 21.
Proof.
  intros H. change (2 ^ 21) with (PGSIZE * 512). rewrite <- !Z.div_div by (unfold PGSIZE; lia). by rewrite H.
Qed.

(** The leaf entry vm_mappages stores. *)
Definition leaf_pte (pa perm : Z) : Z := Z.lor (Z.lor (PA_TO_PTE pa) perm) PTE_V.
Lemma leaf_pte_eq pa perm : 0 <= pa < 2 ^ 56 -> 0 <= perm < 1024 ->
  leaf_pte pa perm = pa / 4096 * 1024 + Z.lor perm 1 /\ 0 <= Z.lor perm 1 < 1024 /\
  0 <= leaf_pte pa perm < 2 ^ 64.
Proof.
  intros Hpa Hperm. unfold leaf_pte, PTE_V. change (Z.shiftl 1 0) with 1.
  rewrite <- Z.lor_assoc. pose proof (lor_flag_bound perm 1 Hperm).
  rewrite mk_pte by lia. assert (0 <= pa / 4096 < 2 ^ 44).
  { split; [apply Z.div_pos; lia|]. apply Z.div_lt_upper_bound; lia. }
  split_and!; lia.
Qed.
Lemma leaf_pte_valid pa perm : 0 <= pa < 2 ^ 56 -> 0 <= perm < 1024 ->
  pte_valid (leaf_pte pa perm) = true.
Proof.
  intros Hpa Hperm. destruct (leaf_pte_eq pa perm Hpa Hperm) as (-> & _ & _).
  rewrite pte_valid_mk. rewrite <- Z.bit0_odd, Z.lor_spec. apply orb_true_r.
Qed.
Lemma leaf_pte_pa pa perm : 0 <= pa < 2 ^ 56 -> pa mod PGSIZE = 0 -> 0 <= perm < 1024 ->
  PTE_TO_PA (leaf_pte pa perm) = pa.
Proof.
  intros Hpa Hm Hperm. destruct (leaf_pte_eq pa perm Hpa Hperm) as (-> & ? & _).
  apply PTE_TO_PA_mk; [lia|done|done].
Qed.
Lemma leaf_pte_flags pa perm : 0 <= pa < 2 ^ 56 -> 0 <= perm < 1024 ->
  PTE_FLAGS (leaf_pte pa perm) = Z.lor perm 1.
Proof.
  intros Hpa Hperm. destruct (leaf_pte_eq pa perm Hpa Hperm) as (-> & ? & _).
  by apply PTE_FLAGS_mk.
Qed.

(** ** vm_mappages *)

(** [vm_getpte] with allocation, with the pages it needs counted exactly: none
    when the tables are there. *)
Lemma vm_getpte_budget root s fl va n :
  pmem_ok s fl -> pt_ok (pm s) root (user_region s) (fl false) -> va < VA_MAX ->
  (is_Some (tbl_at (pm s) root (vpns va)) /\ (n <= length (fl false))%nat \/
   (2 + n <= length (fl false))%nat) ->
  exists t s' l', vm_getpte root va true s = Ret (t + 8 * VA_TO_VPN va 0) s' /\
    pmem_ok s' (fl_set false l' fl) /\ pt_ok (pm s') root (user_region s') l' /\
    vm_step root s (fl false) s' l' /\ tbl_at (pm s') root (vpns va) = Some t /\
    (n <= length l')%nat /\
    (forall va', pte_of (pm s') root va' = pte_of (pm s) root va').
Proof.
  intros Hs Hpt Hva [[[t Ht] Hn]|Hn].
  - exists t, s, (fl false). split_and!; try done; [by apply vm_getpte_present| |apply vm_step_refl].
    eapply pmem_ok_ext; [|done]. by intros [].
  - destruct (vm_getpte_alloc root s fl va) as (t & s' & l' & Hrun & Hs' & Hpt' & Hst & Ht & Hl & Hleaf);
      try done; [lia|].
    exists t, s', l'. split_and!; try done. lia.
Qed.

(** Storing the leaf entry after the walk. *)
Lemma leaf_step root s fl va t v :
  pmem_ok s fl -> pt_ok (pm s) root (user_region s) (fl false) ->
  tbl_at (pm s) root (vpns va) = Some t ->
  let s' := set_pm (st64 (pm s) (t + 8 * VA_TO_VPN va 0) v) s in
  pmem_ok s' fl /\ pt_ok (pm s') root (user_region s') (fl false) /\
  vm_step root s (fl false) s' (fl false).
Proof.
  intros Hs Hpt Ht s'. destruct (pt_page _ _ _ _ Hpt _ _ (vpns_ok va) Ht) as [Htp Htn].
  split_and!.
  - apply pmem_ok_entry; try done. apply VPN_bound.
  - by eapply leaf_pt_ok.
  - constructor; try done.
    + by exists [].
    + intros q u Hq Hu. cbn. by erewrite leaf_tables.
    + intros q u Hq Hu. left. cbn in Hu. by erewrite leaf_tables in Hu.
    + intros a Ha _. cbn. apply ld8_st_ne. specialize (Ha _ _ (vpns_ok va) Ht).
      pose proof (VPN_bound va 0). unfold PGSIZE in Ha. simpl. lia.
Qed.

(** What the entries are after mapping [n] pages from [va] to [pa]. *)
Definition mapped (m m' : memory) (root va n pa perm : Z) : Prop :=
  forall va', 0 <= va' < VA_MAX ->
    pte_of m' root va' =
      if (va <=? va') && (va' <? va + n * PGSIZE)
      then leaf_pte (pa + (va' - va) / PGSIZE * PGSIZE) perm
      else pte_of m root va'.

(** 2 MiB regions between two addresses: each needs at most two new tables. *)
Definition regions (va va' : Z) : Z := va' / 2 ^ 21 - va / 2 ^ 21.

Lemma mapped_cons m m1 m2 m3 root cur n pa perm t :
  cur mod PGSIZE = 0 -> 0 <= cur -> cur + (n + 1) * PGSIZE <= VA_MAX -> 0 <= n ->
  0 <= pa < 2 ^ 56 -> 0 <= perm < 1024 ->
  (exists r l, pt_ok m1 root r l) -> tbl_at m1 root (vpns cur) = Some t ->
  (forall va', pte_of m1 root va' = pte_of m root va') ->
  m2 = st64 m1 (t + 8 * VA_TO_VPN cur 0) (leaf_pte pa perm) ->
  mapped m2 m3 root (cur + PGSIZE) n (pa + PGSIZE) perm ->
  mapped m m3 root cur (n + 1) pa perm.
Proof.
  intros Hc H0 Hmax Hn Hpa Hperm (r & l & Hpt) Ht Hl -> Hm va' Hva'. rewrite (Hm va' Hva').
  destruct (leaf_pte_eq pa perm Hpa Hperm) as (_ & _ & Hb).
  destruct (decide (cur <= va' < cur + PGSIZE)) as [Hin|Hout].
  - assert (va' / PGSIZE = cur / PGSIZE) as Hpg.
    { unfold PGSIZE in *. pose proof (Z.div_mod cur 4096). pose proof (Z.div_mod va' 4096).
      pose proof (Z.mod_pos_bound va' 4096). lia. }
    bcase (cur + PGSIZE <=? va'); [lia|]. cbn [andb].
    bcase (cur <=? va'); [|lia]. bcase (va' <? cur + (n + 1) * PGSIZE); [|unfold PGSIZE in *; lia].
    cbn [andb]. rewrite (leaf_same _ _ _ _ cur t _ Hpt Ht va') by (done || auto using vpns_same, page_region, VPN0_same).
    f_equal. rewrite Z.div_small by lia. lia.
  - rewrite (leaf_other _ _ _ _ cur t _ Hpt Ht va'); [|unfold PGSIZE in *; lia|done|].
    + rewrite Hl. replace (cur + (n + 1) * PGSIZE) with (cur + PGSIZE + n * PGSIZE) by lia.
      bcase (cur + PGSIZE <=? va'); bcase (va' <? cur + PGSIZE + n * PGSIZE); bcase (cur <=? va'); cbn [andb];
        try (unfold PGSIZE in *; lia); try done.
      f_equal. replace (va' - cur) with (va' - (cur + PGSIZE) + 1 * PGSIZE) by lia.
      rewrite Z.div_add by done. lia.
    + intros Hpg. apply Hout. unfold PGSIZE in *. pose proof (Z.div_mod cur 4096).
      pose proof (Z.div_mod va' 4096). pose proof (Z.mod_pos_bound va' 4096). lia.
Qed.

(** One iteration of vm_mappages: walk, then store the leaf entry. *)
Lemma map_one root s fl cur pa perm n :
  pmem_ok s fl -> pt_ok (pm s) root (user_region s) (fl false) ->
  0 <= cur < VA_MAX -> 0 <= pa < 2 ^ 56 -> 0 <= perm < 1024 ->
  (is_Some (tbl_at (pm s) root (vpns cur)) /\ (n <= length (fl false))%nat \/
   (2 + n <= length (fl false))%nat) ->
  exists t s1 s2 l', (forall k : M pmem unit,
      (let* pte := vm_getpte root cur true in
       if pte =? NULL then panic "vm_mappages: failed to get PTE"
       else let* v := peek64 pte in
         (if pte_valid v then poke64 pte (leaf_pte pa perm) else poke64 pte (leaf_pte pa perm));;; k) s
      = k s2) /\
    s2 = set_pm (st64 (pm s1) (t + 8 * VA_TO_VPN cur 0) (leaf_pte pa perm)) s1 /\
    pmem_ok s2 (fl_set false l' fl) /\ pt_ok (pm s2) root (user_region s2) l' /\
    vm_step root s (fl false) s2 l' /\ (n <= length l')%nat /\
    pt_ok (pm s1) root (user_region s1) l' /\ tbl_at (pm s1) root (vpns cur) = Some t /\
    tbl_at (pm s2) root (vpns cur) = Some t /\
    (forall va', pte_of (pm s1) root va' = pte_of (pm s) root va').
Proof.
  intros Hs Hpt Hcur Hpa Hperm Hbud.
  destruct (vm_getpte_budget root s fl cur n Hs Hpt ltac:(lia) Hbud)
    as (t & s1 & l' & Hrun & Hs1 & Hpt1 & Hst1 & Ht1 & Hn1 & Hleaf1).
  destruct (leaf_step root s1 (fl_set false l' fl) cur t (leaf_pte pa perm)) as (Hs2 & Hpt2 & Hst2);
    rewrite ?fl_set_eq in *; try done.
  destruct (pt_page _ _ _ _ Hpt1 _ _ (vpns_ok cur) Ht1) as [Htp _].
  assert (0 < t) as Htpos.
  { destruct Htp as (_ & ? & _). pose proof (rok_begin _ _ _ (pok_regions _ _ Hs1 false)) as [? _]. cbn in *. lia. }
  exists t, s1, (set_pm (st64 (pm s1) (t + 8 * VA_TO_VPN cur 0) (leaf_pte pa perm)) s1), l'.
  split_and!; try done.
  - intros k. mrun Hrun. pose proof (VPN_bound cur 0).
    bcase (t + 8 * VA_TO_VPN cur 0 =? NULL); [unfold NULL in *; lia|]. unfold peek64, poke64. mstep.
    by destruct (pte_valid _).
  - exact (vm_step_trans _ _ _ _ _ _ _ Hpt1 Hst1 Hst2).
  - cbn [pm set_pm]. erewrite leaf_tables; eauto using vpns_ok.
Qed.

Lemma mapped_zero m root va pa perm : mapped m m root va 0 pa perm.
Proof. intros va' _. rewrite Z.mul_0_l, Z.add_0_r. bsolve. Qed.

Lemma regions_next cur e : cur mod PGSIZE = 0 ->
  (cur + PGSIZE) / 2 ^ 21 = cur / 2 ^ 21 /\ regions (cur + PGSIZE) e = regions cur e \/
  1 + regions (cur + PGSIZE) e = regions cur e.
Proof.
  intros Hc. unfold regions, PGSIZE in *. change (2 ^ 21) with (4096 * 512).
  rewrite <- !Z.div_div by lia. pose proof (Z.div_mod cur 4096).
  replace (cur + 4096) with ((cur / 4096 + 1) * 4096) by lia. rewrite Z.div_mul by lia.
  set (x := cur / 4096) in *. pose proof (Z.div_mod x 512). pose proof (Z.div_mod (x + 1) 512).
  pose proof (Z.mod_pos_bound x 512). pose proof (Z.mod_pos_bound (x + 1) 512). lia.
Qed.

Lemma mappages_loop_ok n fuel root s fl cur pa perm x :
  pmem_ok s fl -> pt_ok (pm s) root (user_region s) (fl false) ->
  cur mod PGSIZE = 0 -> 0 <= cur -> cur + (Z.of_nat n + 1) * PGSIZE <= VA_MAX ->
  0 <= pa -> pa + (Z.of_nat n + 1) * PGSIZE <= 2 ^ 56 -> 0 <= perm < 1024 -> (n < fuel)%nat -> 0 <= x ->
  (is_Some (tbl_at (pm s) root (vpns cur)) /\
     2 * regions cur (cur + Z.of_nat n * PGSIZE) + x <= Z.of_nat (length (fl false)) \/
   2 + 2 * regions cur (cur + Z.of_nat n * PGSIZE) + x <= Z.of_nat (length (fl false))) ->
  exists s' l', mappages_loop fuel root cur (cur + Z.of_nat n * PGSIZE) pa perm s = Ret tt s' /\
    pmem_ok s' (fl_set false l' fl) /\ pt_ok (pm s') root (user_region s') l' /\
    vm_step root s (fl false) s' l' /\ x <= Z.of_nat (length l') /\
    mapped (pm s) (pm s') root cur (Z.of_nat n + 1) pa perm.
Proof.
  revert fuel s fl cur pa. induction n as [|n IH];
    intros [|fuel] s fl cur pa Hs Hpt Hc H0 Hmax Hpa Hpm Hperm Hf Hx Hbud; try lia;
    cbn [mappages_loop]; fold (leaf_pte pa perm).
  - destruct (map_one root s fl cur pa perm (Z.to_nat x))
      as (t & s1 & s2 & l' & Hrun & Heq & Hs2 & Hpt2 & Hst & Hn & Hpt1 & Ht1 & _ & Hl); try done.
    { unfold PGSIZE in *. lia. } { unfold PGSIZE in *. lia. }
    { unfold regions in Hbud. rewrite Z.mul_0_l, Z.add_0_r in Hbud. destruct Hbud as [[? ?]|?]; [left|right]; [split; [done|]|]; lia. }
    exists s2, l'. rewrite Hrun, Z.mul_0_l, Z.add_0_r, Z.eqb_refl. split_and!; try done; [lia|].
    apply (mapped_cons (pm s) (pm s1) (pm s2) (pm s2) root cur 0 pa perm t); try done; try lia.
    { unfold PGSIZE in *; lia. } { by eexists _, _. } { by rewrite Heq. } apply mapped_zero.
  - set (e := cur + Z.of_nat (S n) * PGSIZE) in *.
    destruct (map_one root s fl cur pa perm (Z.to_nat (2 * regions cur e + x)))
      as (t & s1 & s2 & l1 & Hrun & Heq & Hs2 & Hpt2 & Hst & Hn & Hpt1 & Ht1 & Ht2 & Hl); try done.
    { unfold PGSIZE in *. lia. } { unfold PGSIZE in *. lia. }
    { assert (0 <= regions cur e) by (unfold regions, e, PGSIZE; apply Zle_minus_le_0, Z.div_le_mono; lia).
      destruct Hbud as [[? ?]|?]; [left|right]; [split; [done|]|]; lia. }
    rewrite Hrun. bcase (cur =? e); [unfold e, PGSIZE in *; lia|].
    rewrite (u64_small (cur + PGSIZE)), (u64_small (pa + PGSIZE))
      by (change VA_MAX with (2 ^ 38) in Hmax; unfold PGSIZE in *; lia).
    assert (e = cur + PGSIZE + Z.of_nat n * PGSIZE) as He by (unfold e; lia).
    assert (0 <= regions cur e) by (unfold regions, e, PGSIZE; apply Zle_minus_le_0, Z.div_le_mono; lia).
    rewrite He.
    destruct (IH fuel s2 (fl_set false l1 fl) (cur + PGSIZE) (pa + PGSIZE))
      as (s' & l' & Hrun' & Hs' & Hpt' & Hst' & Hx' & Hm); rewrite ?fl_set_eq in *; try done;
      try (unfold PGSIZE in *; lia).
    { rewrite Z.add_mod, Hc by done. done. }
    { rewrite <- He. destruct (regions_next cur e Hc) as [[Hsame Hr]|Hr].
      - left. split; [|lia]. exists t. by rewrite (vpns_same _ _ Hsame).
      - right. lia. }
    exists s', l'. split_and!; try done.
    + eapply pmem_ok_ext; [|done]. intros b. apply fl_set_set.
    + exact (vm_step_trans _ _ _ _ _ _ _ Hpt2 Hst Hst').
    + replace (Z.of_nat (S n) + 1) with (Z.of_nat n + 1 + 1) by lia.
      apply (mapped_cons (pm s) (pm s1) (pm s2) (pm s') root cur (Z.of_nat n + 1) pa perm t); try done; try lia.
      { unfold PGSIZE in *; lia. } { by eexists _, _. } { by rewrite Heq. }
Qed.

(** Whole-routine statement: every page that [va, va + len) touches. *)
Definition npages_of (va len : Z) : Z :=
  (PG_ROUND_DOWN (va + len - 1) - PG_ROUND_DOWN va) / PGSIZE + 1.

Lemma npages_spec va len : 0 <= va -> 0 < len ->
  PG_ROUND_DOWN (va + len - 1) = PG_ROUND_DOWN va + (npages_of va len - 1) * PGSIZE /\
  1 <= npages_of va len /\ PG_ROUND_DOWN va + npages_of va len * PGSIZE < va + len + PGSIZE /\
  0 <= PG_ROUND_DOWN va.
Proof.
  intros Hva Hlen. unfold npages_of. rewrite !PG_ROUND_DOWN_eq. unfold PGSIZE.
  rewrite <- Z.mul_sub_distr_r, Z.div_mul by lia.
  pose proof (Z.div_mod va 4096). pose proof (Z.div_mod (va + len - 1) 4096).
  pose proof (Z.mod_pos_bound va 4096). pose proof (Z.mod_pos_bound (va + len - 1) 4096).
  pose proof (Z.div_le_mono va (va + len - 1) 4096). pose proof (Z.div_pos va 4096). lia.
Qed.

Lemma vm_mappages_ok root s fl va pa len perm x :
  pmem_ok s fl -> pt_ok (pm s) root (user_region s) (fl false) ->
  0 <= va -> 0 < len -> va + len <= VA_MAX ->
  0 <= pa -> pa + npages_of va len * PGSIZE <= 2 ^ 56 -> 0 <= perm < 1024 -> 0 <= x ->
  2 + 2 * regions va (va + len - 1) + x <= Z.of_nat (length (fl false)) ->
  exists s' l', vm_mappages root va pa len perm s = Ret tt s' /\
    pmem_ok s' (fl_set false l' fl) /\ pt_ok (pm s') root (user_region s') l' /\
    vm_step root s (fl false) s' l' /\ x <= Z.of_nat (length l') /\
    mapped (pm s) (pm s') root (PG_ROUND_DOWN va) (npages_of va len) pa perm.
Proof.
  intros Hs Hpt Hva Hlen Hmax Hpa Hpm Hperm Hx Hbud.
  destruct (npages_spec va len Hva Hlen) as (He & Hn & Hlt & H0).
  unfold vm_mappages. bcase (len =? 0); [lia|]. change VA_MAX with (2 ^ 38) in Hmax.
  rewrite (u64_small (va + len - 1)) by lia. rewrite He.
  set (cur := PG_ROUND_DOWN va) in *. set (n := Z.to_nat (npages_of va len - 1)).
  assert (cur mod PGSIZE = 0) as Hcm by apply PG_ROUND_DOWN_bounds.
  assert (cur + npages_of va len * PGSIZE <= 2 ^ 38) as Hend.
  { pose proof (Z.div_mod cur 4096). unfold PGSIZE in *. lia. }
  destruct (mappages_loop_ok n (mappages_fuel cur (cur + (npages_of va len - 1) * PGSIZE)) root s fl cur pa perm x)
    as (s' & l' & Hrun & Hs' & Hpt' & Hst & Hx' & Hm); try done; try (change VA_MAX with (2 ^ 38); unfold n, PGSIZE in *; lia).
  - unfold mappages_fuel, n, PGSIZE. bcase (cur <=? cur + (npages_of va len - 1) * 4096); [|lia].
    replace (cur + (npages_of va len - 1) * 4096 - cur) with ((npages_of va len - 1) * 4096) by lia.
    rewrite Z.div_mul by lia. lia.
  - right. unfold n. rewrite Z2Nat.id by lia. rewrite <- He.
    replace (regions cur (PG_ROUND_DOWN (va + len - 1))) with (regions va (va + len - 1)); [done|].
    unfold regions. f_equal; apply page_region; unfold cur; rewrite PG_ROUND_DOWN_eq; unfold PGSIZE; rewrite Z.div_mul; lia.
  - unfold n in *. rewrite Z2Nat.id in * by lia. exists s', l'.
    replace (npages_of va len - 1 + 1) with (npages_of va len) in Hm by lia. by split_and!.
Qed.

(** Panics: a zero length, and an address beyond VA_MAX. *)
Lemma vm_mappages_zero root va pa perm s :
  vm_mappages root va pa 0 perm s = Panic "vm_mappages: size cannot be zero".
Proof. done. Qed.
Lemma vm_getpte_high root va alloc s : VA_MAX <= va ->
  vm_getpte root va alloc s = Panic "vm_getpte: virtual address too large".
Proof. intros. unfold vm_getpte. bcase (VA_MAX <=? va); [done|lia]. Qed.

(** ** vm_unmappages *)

(** A page of the region that is neither free nor a table of [root]. *)
Definition loose (s : pmem) (root : Z) (l : list Z) (p : Z) : Prop :=
  page_in (user_region s) p /\ p ∉ l /\
  forall q t, prefix_ok q -> tbl_at (pm s) root q = Some t -> t <> p.

Lemma free_post_user p s : free_post false p s =
  mkPmem (synced (pcpu s)) (st64 (memset (pm s) p 1 PGSIZE) p (rhead (user_region s))) (kern_region s)
    (set_free p (u32 (allocable (user_region s) + 1)) (user_region s)).
Proof. by destruct s. Qed.

Lemma pmem_free_user s fl p : pmem_ok s fl -> page_in (user_region s) p -> p ∉ fl false ->
  pmem_free p false s = Ret tt (free_post false p s).
Proof.
  intros Hs (Hm & Hb & He) Hn. pose proof Hs as [Hr _ Hc]. apply pmem_free_run; try done.
  - apply (rok_lock _ _ _ (Hr false)).
  - cbn. unfold PGSIZE in *. lia.
Qed.

Section free_page.
Context (s : pmem) (fl : bool -> list Z) (root p : Z).
Hypothesis Hs : pmem_ok s fl.
Hypothesis Hpt : pt_ok (pm s) root (user_region s) (fl false).
Hypothesis Hp : loose s root (fl false) p.
Let s' := free_post false p s.

Lemma free_mem a : a < p \/ p + PGSIZE <= a -> ld8 (pm s') a = ld8 (pm s) a.
Proof.
  intros Ha. unfold s'. rewrite free_post_user. cbn [pm]. rewrite ld8_st_ne.
  - apply memset_out; [done|exact Ha].
  - unfold PGSIZE in *. simpl. lia.
Qed.
Lemma free_tables q : prefix_ok q -> tbl_at (pm s') root q = tbl_at (pm s) root q.
Proof.
  destruct Hp as ((Hm & _) & _ & Ht). intros Hq. eapply (tbl_at_fill _ _ _ _ p); eauto using free_mem.
Qed.
Lemma free_pt_ok : pt_ok (pm s') root (user_region s') (p :: fl false).
Proof.
  destruct Hp as (_ & _ & Ht). split; intros *.
  - intros Hq Hq'. rewrite !free_tables by done. by eapply pt_inj.
  - intros Hq. rewrite free_tables by done. intros Hu.
    destruct (pt_page _ _ _ _ Hpt _ _ Hq Hu) as [Hin Hn]. unfold s'. rewrite free_post_user. cbn.
    split; [done|]. pose proof (Ht _ _ Hq Hu). set_solver.
Qed.
Lemma free_leaf va : pte_of (pm s') root va = pte_of (pm s) root va.
Proof.
  unfold pte_of. rewrite !walk_tbl, free_tables by apply vpns_ok.
  destruct (tbl_at (pm s) root (vpns va)) as [t|] eqn:Ht; [|done]. cbn [mbind option_bind].
  apply ld_ext. intros b Hb. apply free_mem. destruct Hp as ((Hm & _) & _ & Hnt).
  pose proof (Hnt _ _ (vpns_ok va) Ht) as Hne.
  destruct (pt_page _ _ _ _ Hpt _ _ (vpns_ok va) Ht) as [(Htm & _) _].
  pose proof (pages_apart t p Htm Hm Hne). pose proof (VPN_bound va 0).
  unfold PGSIZE in *. simpl in Hb. lia.
Qed.
End free_page.

(** The physical pages behind [n] consecutive virtual pages. *)
Fixpoint leaf_pages (n : nat) (m : memory) (root va : Z) : list Z :=
  match n with
  | O => []
  | S n => PTE_TO_PA (pte_of m root va) :: leaf_pages n m root (va + PGSIZE)
  end.
(** The pages are mapped by leaf entries. *)
Fixpoint leaves (n : nat) (m : memory) (root va : Z) : Prop :=
  match n with
  | O => True
  | S n => pte_valid (pte_of m root va) = true /\ PTE_FLAGS (pte_of m root va) <> PTE_V /\
      leaves n m root (va + PGSIZE)
  end.
(** The entries of a range are cleared and the others kept. *)
Definition unmapped (m m' : memory) (root va n : Z) : Prop :=
  forall va', 0 <= va' < VA_MAX ->
    pte_of m' root va' = if (va <=? va') && (va' <? va + n * PGSIZE) then 0 else pte_of m root va'.

Lemma leaf_pages_ext n m m' root va :
  (forall k, 0 <= k < Z.of_nat n -> pte_of m' root (va + k * PGSIZE) = pte_of m root (va + k * PGSIZE)) ->
  leaf_pages n m' root va = leaf_pages n m root va /\ (leaves n m root va -> leaves n m' root va).
Proof.
  revert va. induction n as [|n IH]; intros va H; [done|]. cbn.
  pose proof (H 0 ltac:(lia)) as H1. rewrite Z.mul_0_l, Z.add_0_r in H1. rewrite H1.
  destruct (IH (va + PGSIZE)) as [-> Hl].
  { intros k Hk. specialize (H (k + 1)). replace (va + PGSIZE + k * PGSIZE) with (va + (k + 1) * PGSIZE) by lia.
    apply H. lia. }
  split; [done|]. intros (? & ? & ?). auto.
Qed.

Lemma pte_of_walk m root va : pte_valid (pte_of m root va) = true ->
  exists t, tbl_at m root (vpns va) = Some t /\ pte_of m root va = ld64 m (t + 8 * VA_TO_VPN va 0).
Proof.
  unfold pte_of. rewrite walk_tbl. destruct (tbl_at m root (vpns va)) as [t|]; [|done]. by exists t.
Qed.

(** Effects of one iteration, with or without giving the page back. *)
Definition free_list_after (freeit : bool) (p : Z) (l : list Z) : list Z := if freeit then p :: l else l.

Lemma unmap_one root s fl cur (freeit : bool) :
  pmem_ok s fl -> pt_ok (pm s) root (user_region s) (fl false) -> 0 <= cur < VA_MAX ->
  pte_valid (pte_of (pm s) root cur) = true -> PTE_FLAGS (pte_of (pm s) root cur) <> PTE_V ->
  let p := PTE_TO_PA (pte_of (pm s) root cur) in
  (freeit = true -> loose s root (fl false) p) ->
  exists s', (forall k : M pmem unit,
      (let* pte := vm_getpte root cur false in
       when (pte =? NULL) (panic "vm_unmappages: walk failed");;;
       let* v := peek64 pte in
       when (negb (pte_valid v)) (panic "vm_unmappages: page not mapped");;;
       when (PTE_FLAGS v =? PTE_V) (panic "vm_unmappages: not a leaf page");;;
       when freeit (pmem_free (PTE_TO_PA v) false);;;
       poke64 pte 0;;; k) s = k s') /\
    pmem_ok s' (fl_set false (free_list_after freeit p (fl false)) fl) /\
    pt_ok (pm s') root (user_region s') (free_list_after freeit p (fl false)) /\
    (forall q, prefix_ok q -> tbl_at (pm s') root q = tbl_at (pm s) root q) /\
    rbegin (user_region s') = rbegin (user_region s) /\ rend (user_region s') = rend (user_region s) /\
    (forall va', 0 <= va' < VA_MAX ->
       pte_of (pm s') root va' = if cur / PGSIZE =? va' / PGSIZE then 0 else pte_of (pm s) root va') /\
    (forall t a, tbl_at (pm s) root (vpns cur) = Some t -> ~ t + 8 * VA_TO_VPN cur 0 <= a < t + 8 * VA_TO_VPN cur 0 + 8 ->
       (freeit = true -> ~ p <= a < p + PGSIZE) -> ld8 (pm s') a = ld8 (pm s) a).
Proof.
  intros Hs Hpt Hcur Hv Hfl p Hloose.
  destruct (pte_of_walk _ _ _ Hv) as (t & Ht & Hpte).
  destruct (pt_page _ _ _ _ Hpt _ _ (vpns_ok cur) Ht) as [Htp Htn].
  assert (0 < t) as Htpos.
  { destruct Htp as (_ & ? & _). pose proof (rok_begin _ _ _ (pok_regions _ _ Hs false)) as [? _]. cbn in *. lia. }
  pose proof (VPN_bound cur 0) as Hi.
  set (s1 := if freeit then free_post false p s else s).
  assert (pmem_ok s1 (fl_set false (free_list_after freeit p (fl false)) fl) /\
    pt_ok (pm s1) root (user_region s1) (free_list_after freeit p (fl false)) /\
    (forall q, prefix_ok q -> tbl_at (pm s1) root q = tbl_at (pm s) root q) /\
    (forall va', pte_of (pm s1) root va' = pte_of (pm s) root va') /\
    rbegin (user_region s1) = rbegin (user_region s) /\ rend (user_region s1) = rend (user_region s))
    as (Hs1 & Hpt1 & Htb1 & Hl1 & Hb1 & He1).
  { unfold s1, free_list_after. destruct freeit.
    - pose proof (Hloose eq_refl) as Hp. split_and!.
      + apply pmem_free_ok; [done|apply Hp|apply Hp].
      + by apply free_pt_ok.
      + intros q Hq. by eapply free_tables.
      + intros va'. by eapply free_leaf.
      + by rewrite free_post_user.
      + by rewrite free_post_user.
    - split_and!; try done. eapply pmem_ok_ext; [|done]. by intros []. }
  assert (tbl_at (pm s1) root (vpns cur) = Some t) as Ht1 by (by rewrite Htb1 by apply vpns_ok).
  exists (set_pm (st64 (pm s1) (t + 8 * VA_TO_VPN cur 0) 0) s1).
  destruct (leaf_step root s1 (fl_set false (free_list_after freeit p (fl false)) fl) cur t 0)
    as (Hs2 & Hpt2 & _); rewrite ?fl_set_eq in *; try done.
  split_and!; try done.
  - intros k. mrun (vm_getpte_read root cur s ltac:(lia)). rewrite walk_tbl, Ht. cbn [mbind option_bind default from_option id].
    bcase (t + 8 * VA_TO_VPN cur 0 =? NULL); [unfold NULL in *; lia|]. unfold peek64, poke64. mstep.
    rewrite <- Hpte, Hv. cbn [negb]. mstep.
    bcase (PTE_FLAGS (pte_of (pm s) root cur) =? PTE_V); [done|]. mstep. fold p.
    subst s1. destruct freeit; mstep; [|done].
    pose proof (Hloose eq_refl) as (Hin & Hn & _). mrun (pmem_free_user s fl p Hs Hin Hn). done.
  - intros q Hq. cbn [pm set_pm]. rewrite <- Htb1 by done. by eapply leaf_tables.
  - intros va' Hva'. cbn [pm set_pm]. bcase (cur / PGSIZE =? va' / PGSIZE).
    + eapply leaf_same; try done; [by apply vpns_same, page_region|by apply VPN0_same].
    + rewrite <- Hl1. by eapply leaf_other.
  - intros t' a Ht' Ha Hf. rewrite Ht in Ht'. injection Ht' as <-. cbn [pm set_pm]. rewrite ld8_st_ne by (simpl; lia).
    unfold s1. destruct freeit; [|done]. pose proof (Hf eq_refl). eapply free_mem; lia.
Qed.

(** The free list after unmapping: each page is pushed as it is reached. *)
Definition freed (freeit : bool) (ps l : list Z) : list Z := if freeit then reverse ps ++ l else l.

Lemma loose_ext s s' root l l' p :
  rbegin (user_region s') = rbegin (user_region s) -> rend (user_region s') = rend (user_region s) ->
  (forall q, prefix_ok q -> tbl_at (pm s') root q = tbl_at (pm s) root q) ->
  p ∉ l' -> loose s root l p -> loose s' root l' p.
Proof.
  intros Hb He Ht Hn (Hp & _ & Hq). split_and!; [|done|].
  - unfold page_in in *. by rewrite Hb, He.
  - intros q t Hok. rewrite Ht by done. by apply Hq.
Qed.

(** Pages behind different virtual pages of an unmapped range. *)
Lemma unmapped_cons m m1 m2 root cur n :
  cur mod PGSIZE = 0 -> 0 <= cur -> 0 <= n ->
  (forall va', 0 <= va' < VA_MAX -> pte_of m1 root va' = if cur / PGSIZE =? va' / PGSIZE then 0 else pte_of m root va') ->
  unmapped m1 m2 root (cur + PGSIZE) n -> unmapped m m2 root cur (n + 1).
Proof.
  intros Hc H0 Hn Hm1 Hu va' Hva'. rewrite (Hu va' Hva'), (Hm1 va' Hva').
  replace (cur + (n + 1) * PGSIZE) with (cur + PGSIZE + n * PGSIZE) by lia. unfold PGSIZE in *.
  pose proof (Z.div_mod cur 4096). pose proof (Z.div_mod va' 4096). pose proof (Z.mod_pos_bound va' 4096).
  bcase (cur / 4096 =? va' / 4096); bcase (cur + 4096 <=? va'); bcase (cur <=? va');
    bcase (va' <? cur + 4096 + n * 4096); cbn [andb]; done || lia.
Qed.

(** The first [n] rounds. *)
Lemma unmappages_loop_steps n fuel root s fl cur e freeit :
  pmem_ok s fl -> pt_ok (pm s) root (user_region s) (fl false) ->
  cur mod PGSIZE = 0 -> 0 <= cur -> cur + Z.of_nat n * PGSIZE <= e -> e <= VA_MAX ->
  leaves n (pm s) root cur ->
  (freeit = true -> NoDup (leaf_pages n (pm s) root cur) /\
     Forall (loose s root (fl false)) (leaf_pages n (pm s) root cur)) ->
  exists s', unmappages_loop (n + fuel) root cur e freeit s = unmappages_loop fuel root (cur + Z.of_nat n * PGSIZE) e freeit s' /\
    let l' := freed freeit (leaf_pages n (pm s) root cur) (fl false) in
    pmem_ok s' (fl_set false l' fl) /\ pt_ok (pm s') root (user_region s') l' /\
    (forall q, prefix_ok q -> tbl_at (pm s') root q = tbl_at (pm s) root q) /\
    unmapped (pm s) (pm s') root cur (Z.of_nat n).
Proof.
  revert s fl cur. induction n as [|n IH]; intros s fl cur Hs Hpt Hc H0 Hn Hmax Hl Hfree; cbn [unmappages_loop Nat.add].
  - rewrite Z.mul_0_l, Z.add_0_r. exists s. cbn.
    assert (freed freeit [] (fl false) = fl false) as -> by (by destruct freeit).
    split_and!; try done; [eapply pmem_ok_ext; [|done]; by intros []|].
    intros va' _. rewrite Z.mul_0_l, Z.add_0_r. bsolve.
  - destruct Hl as (Hv & Hfl & Hl). set (p := PTE_TO_PA (pte_of (pm s) root cur)).
    bcase (cur <? e); [|unfold PGSIZE in *; lia].
    destruct (unmap_one root s fl cur freeit Hs Hpt ltac:(unfold PGSIZE in *; lia) Hv Hfl)
      as (s1 & Hrun & Hs1 & Hpt1 & Ht1 & Hb1 & He1 & Hl1 & _).
    { intros ->. by destruct (Hfree eq_refl) as [_ [? _]%Forall_cons]. }
    rewrite Hrun. fold p in Hs1, Hpt1. rewrite u64_small by (change VA_MAX with (2 ^ 38) in *; unfold PGSIZE in *; lia).
    destruct (leaf_pages_ext n (pm s) (pm s1) root (cur + PGSIZE)) as [Hlp Hlv].
    { intros k Hk. rewrite Hl1 by (unfold PGSIZE in *; lia).
      bcase (cur / PGSIZE =? (cur + PGSIZE + k * PGSIZE) / PGSIZE); [|done].
      replace (cur + PGSIZE + k * PGSIZE) with (cur + (k + 1) * PGSIZE) in E0 by lia.
      rewrite Z.div_add in E0 by done. lia. }
    replace (cur + Z.of_nat (S n) * PGSIZE) with (cur + PGSIZE + Z.of_nat n * PGSIZE) by lia.
    destruct (IH s1 (fl_set false (free_list_after freeit p (fl false)) fl) (cur + PGSIZE))
      as (s' & Hrun' & Hs' & Hpt' & Ht' & Hu); rewrite ?fl_set_eq in *; try done;
      try (unfold PGSIZE in *; lia).
    { rewrite Z.add_mod, Hc by done. done. }
    { auto. }
    { intros ->. destruct (Hfree eq_refl) as [[Hnp Hnd]%NoDup_cons [_ Hlo]%Forall_cons].
      rewrite Hlp. split; [done|]. rewrite Forall_forall in Hlo |- *. intros q Hq.
      eapply loose_ext; eauto. cbn. pose proof (Hlo q Hq) as (_ & ? & _). set_solver. }
    exists s'. rewrite Hlp in *.
    assert (freed freeit (leaf_pages n (pm s) root (cur + PGSIZE)) (free_list_after freeit p (fl false)) =
            freed freeit (leaf_pages (S n) (pm s) root cur) (fl false)) as Hfe.
    { unfold freed, free_list_after. destruct freeit; [|done]. cbn [leaf_pages]. rewrite reverse_cons, <- app_assoc. done. }
    rewrite Hfe in *. split_and!; try done.
    + eapply pmem_ok_ext; [|done]. intros b. apply fl_set_set.
    + intros q Hq. by rewrite Ht', Ht1.
    + replace (Z.of_nat (S n)) with (Z.of_nat n + 1) by lia. apply (unmapped_cons _ (pm s1)); try done; lia.
Qed.
(** The first page that is not mapped by a leaf entry stops the loop. *)
Lemma unmappages_loop_stop fuel root s cur e freeit : 0 <= cur -> cur < e -> e <= VA_MAX ->
  (walk (pm s) root cur = None -> unmappages_loop (S fuel) root cur e freeit s = Panic "vm_unmappages: walk failed") /\
  (walk (pm s) root cur <> None -> walk (pm s) root cur <> Some NULL -> pte_valid (pte_of (pm s) root cur) = false ->
     unmappages_loop (S fuel) root cur e freeit s = Panic "vm_unmappages: page not mapped") /\
  (walk (pm s) root cur <> Some NULL -> pte_valid (pte_of (pm s) root cur) = true -> PTE_FLAGS (pte_of (pm s) root cur) = PTE_V ->
     unmappages_loop (S fuel) root cur e freeit s = Panic "vm_unmappages: not a leaf page").
Proof.
  intros H0 He Hm. cbn [unmappages_loop]. bcase (cur <? e); [|lia]. unfold pte_of.
  split_and!; intros Hw; rewrite (bind_run _ _ _ _ _ (vm_getpte_read root cur s ltac:(lia))).
  - by rewrite Hw.
  - destruct (walk (pm s) root cur) as [a|]; [|done]. intros Hz Hv. cbn [default from_option id]. rewrite (proj2 (Z.eqb_neq a NULL)) by congruence.
    unfold peek64. mstep. by rewrite Hv.
  - destruct (walk (pm s) root cur) as [a|]; [|done]. intros Hv Hf. cbn [default from_option id]. rewrite (proj2 (Z.eqb_neq a NULL)) by congruence.
    unfold peek64. mstep. rewrite Hv. mstep. by rewrite Hf.
Qed.

(** The rounded range. *)
Lemma unmap_range va len : va mod PGSIZE = 0 -> 0 <= va -> 0 < len -> va + len <= VA_MAX ->
  let n := Z.to_nat (PG_ROUND_UP len / PGSIZE) in
  (0 < n)%nat /\ va + Z.of_nat n * PGSIZE <= VA_MAX /\ u64 (va + PG_ROUND_UP len / PGSIZE * PGSIZE) = va + Z.of_nat n * PGSIZE.
Proof.
  intros Hm H0 Hlen Hmax. change VA_MAX with (2 ^ 38) in *.
  destruct (PG_ROUND_UP_bounds len) as [Hb Hr]; try lia.
  assert (1 <= PG_ROUND_UP len / PGSIZE) as Hn by (apply Z.div_le_lower_bound; unfold PGSIZE; [lia|];
    pose proof (Z.div_mod (PG_ROUND_UP len) 4096); lia).
  assert (PG_ROUND_UP len / PGSIZE * PGSIZE = PG_ROUND_UP len) as Hmul
    by (unfold PGSIZE in *; pose proof (Z.div_mod (PG_ROUND_UP len) 4096); lia).
  assert (va + PG_ROUND_UP len <= 2 ^ 38) as Hend.
  { unfold PGSIZE in *. pose proof (Z.div_mod va 4096). pose proof (Z.div_mod (PG_ROUND_UP len) 4096). lia. }
  cbn zeta. rewrite Z2Nat.id, Hmul, u64_small by lia. lia.
Qed.
Lemma walk_nonzero root s fl va : pmem_ok s fl -> pt_ok (pm s) root (user_region s) (fl false) -> walk (pm s) root va <> Some NULL.
Proof.
  intros Hs Hpt. rewrite walk_tbl. destruct (tbl_at (pm s) root (vpns va)) as [t|] eqn:Ht; [|done]. cbn [mbind option_bind].
  destruct (pt_page _ _ _ _ Hpt _ _ (vpns_ok va) Ht) as [(_ & Hp & _) _].
  pose proof (rok_begin _ _ _ (pok_regions _ _ Hs false)) as [? _]. cbn in *. pose proof (VPN_bound va 0). unfold NULL. intros [= E]. lia.
Qed.
Lemma vm_unmappages_ok root s fl va len freeit n :
  pmem_ok s fl -> pt_ok (pm s) root (user_region s) (fl false) ->
  va mod PGSIZE = 0 -> 0 <= va -> 0 < len -> va + len <= VA_MAX ->
  n = Z.to_nat (PG_ROUND_UP len / PGSIZE) ->
  leaves n (pm s) root va ->
  (freeit = true -> NoDup (leaf_pages n (pm s) root va) /\
     Forall (loose s root (fl false)) (leaf_pages n (pm s) root va)) ->
  exists s', vm_unmappages root va len freeit s = Ret tt s' /\
    let l' := freed freeit (leaf_pages n (pm s) root va) (fl false) in
    pmem_ok s' (fl_set false l' fl) /\ pt_ok (pm s') root (user_region s') l' /\
    (forall q, prefix_ok q -> tbl_at (pm s') root q = tbl_at (pm s) root q) /\
    unmapped (pm s) (pm s') root va (Z.of_nat n).
Proof.
  intros Hs Hpt Hm H0 Hlen Hmax -> Hl Hfree. destruct (unmap_range va len Hm H0 Hlen Hmax) as (Hn & Hend & Hu).
  unfold vm_unmappages. rewrite Hm. cbn [Z.eqb negb].
  bcase (PG_ROUND_UP len / PGSIZE =? 0); [lia|]. rewrite Hu.
  destruct (unmappages_loop_steps (Z.to_nat (PG_ROUND_UP len / PGSIZE)) 1 root s fl va
    (va + Z.of_nat (Z.to_nat (PG_ROUND_UP len / PGSIZE)) * PGSIZE) freeit) as (s' & Hrun & Hrest); try done.
  exists s'. rewrite Hrun. cbn [unmappages_loop]. by rewrite Z.ltb_irrefl.
Qed.
