(* ===== verification/KvmSpec.v ===== *)
(** * The kernel page table and the properties of mem/kvm.c

    kvm_make is a sequence of vm_mappages calls on a fresh root; its result is
    described by a reference table [kvm_table], a function from virtual
    addresses to entries.  The properties of the page-table routines follow. *)

From S2P Require Import Prelude Machine Str Lock Pmem Kvm.

(** ** Fresh roots and pages taken from the allocator *)

(** A zeroed page is a table without subtables. *)
Lemma tbl_zero m root : (forall a, root <= a < root + PGSIZE -> ld8 m a = 0) ->
  (forall i, 0 <= i < 512 -> ld64 m (root + 8 * i) = 0) /\
  forall q t, prefix_ok q -> tbl_at m root q = Some t -> q = [] /\ t = root.
Proof.
  intros Hz. assert (forall i, 0 <= i < 512 -> ld64 m (root + 8 * i) = 0) as Hld.
  { intros i Hi. apply ld_zero. intros b Hb. apply Hz. unfold PGSIZE. simpl in Hb. lia. }
  split; [done|]. intros [|i q] t [_ Hq]; cbn; [by intros [= ->]|]. apply Forall_cons in Hq as [Hi _]. by rewrite Hld.
Qed.
Lemma pt_ok_fresh m root r l :
  page_in r root -> root ∉ l -> (forall a, root <= a < root + PGSIZE -> ld8 m a = 0) ->
  pt_ok m root r l /\ forall va, pte_of m root va = 0.
Proof.
  intros Hp Hn Hz. destruct (tbl_zero m root Hz) as [Hld Hroot].
  split; [split|].
  - intros q q' t Hq Hq' H H'. destruct (Hroot _ _ Hq H) as [-> _], (Hroot _ _ Hq' H') as [-> _]. done.
  - intros q t Hq H. by destruct (Hroot _ _ Hq H) as [_ ->].
  - intros va. unfold pte_of. rewrite walk_tbl. cbn. by rewrite Hld by apply VPN_bound.
Qed.

Lemma alloc_frame p s a : ~ p <= a < p + PGSIZE -> ld8 (pm (alloc_post false p s)) a = ld8 (pm s) a.
Proof. intros Ha. rewrite alloc_post_user. cbn [pm]. apply memset_out; [done|lia]. Qed.

Lemma alloc_pt root s fl p l :
  pmem_ok s fl -> fl false = p :: l -> pt_ok (pm s) root (user_region s) (p :: l) ->
  let s' := alloc_post false p s in
  pmem_ok s' (fl_set false l fl) /\ pt_ok (pm s') root (user_region s') l /\
  (forall q, prefix_ok q -> tbl_at (pm s') root q = tbl_at (pm s) root q) /\
  (forall va, pte_of (pm s') root va = pte_of (pm s) root va).
Proof.
  intros Hs Hfl Hpt s'. assert (p ∈ fl false) as Hp by (rewrite Hfl; set_solver).
  destruct (pmem_ok_page _ _ _ _ Hs Hp) as (Hpm & _ & _).
  assert (forall q t, prefix_ok q -> tbl_at (pm s) root q = Some t -> t <> p) as Hne.
  { intros q t Hq Ht ->. destruct (pt_page _ _ _ _ Hpt _ _ Hq Ht) as [_ Hn]. set_solver. }
  assert (forall a, a < p \/ p + PGSIZE <= a -> ld8 (pm s') a = ld8 (pm s) a) as Hm.
  { intros a Ha. apply alloc_frame. lia. }
  assert (forall q, prefix_ok q -> tbl_at (pm s') root q = tbl_at (pm s) root q) as Htb.
  { intros q Hq. eapply tbl_at_fill; eauto. }
  split_and!; try done.
  - by apply pmem_alloc_ok.
  - split; intros *.
    + intros Hq Hq'. rewrite !Htb by done. by eapply pt_inj.
    + intros Hq. rewrite Htb by done. intros Ht. destruct (pt_page _ _ _ _ Hpt _ _ Hq Ht) as [Hin Hn].
      unfold s'. rewrite alloc_post_user. split; [done|set_solver].
  - intros va. unfold pte_of. rewrite !walk_tbl, Htb by apply vpns_ok.
    destruct (tbl_at (pm s) root (vpns va)) as [t|] eqn:Ht; [|done]. cbn [mbind option_bind].
    apply ld_ext. intros b Hb. apply Hm. pose proof (Hne _ _ (vpns_ok va) Ht) as Htp.
    destruct (pt_page _ _ _ _ Hpt _ _ (vpns_ok va) Ht) as [(Htm & _) _].
    pose proof (pages_apart t p Htm Hpm Htp). pose proof (VPN_bound va 0).
    unfold PGSIZE in *. simpl in Hb. lia.
Qed.

(** A page just allocated is an empty page table. *)
Lemma fresh_vm s fl p l : pmem_ok s fl -> fl false = p :: l ->
  pmem_ok (alloc_post false p s) (fl_set false l fl) /\
  pt_ok (pm (alloc_post false p s)) p (user_region (alloc_post false p s)) l /\
  forall va, pte_of (pm (alloc_post false p s)) p va = 0.
Proof.
  intros Hs Hd. assert (p ∈ fl false) as Hin by (rewrite Hd; set_solver).
  destruct (pmem_ok_page _ _ _ _ Hs Hin) as (_ & _ & Hpg).
  split; [by apply pmem_alloc_ok|]. rewrite alloc_post_user. cbn [user_region pm].
  apply pt_ok_fresh; [exact Hpg| |].
  - pose proof (rok_nodup _ _ _ (pok_regions _ _ Hs false)) as Hnd. rewrite Hd in Hnd.
    by apply NoDup_cons in Hnd as [? _].
  - intros a Ha. apply memset_in. exact Ha.
Qed.

(** ** Reference tables *)

(** A table as a function, and the effect of mapping [n] pages on it. *)
Definition vtable := Z -> Z.
Definition put (va n pa perm : Z) (f : vtable) : vtable := fun va' =>
  if (va <=? va') && (va' <? va + n * PGSIZE) then leaf_pte (pa + (va' - va) / PGSIZE * PGSIZE) perm
  else f va'.
(** The page table at [root] holds the entries of [f]. *)
Definition holds (s : pmem) (root : Z) (f : vtable) : Prop :=
  forall va, 0 <= va < VA_MAX -> pte_of (pm s) root va = f va.

Lemma put_out va n pa perm f va' : va' < va \/ va + n * PGSIZE <= va' -> put va n pa perm f va' = f va'.
Proof. intros H. unfold put. bcase (va <=? va'); bcase (va' <? va + n * PGSIZE); (done || lia). Qed.
(** Pages from one aligned address to another. *)
Lemma span_pages a b : a mod PGSIZE = 0 -> b mod PGSIZE = 0 -> a < b ->
  a + ((b - a - 1) / PGSIZE + 1) * PGSIZE = b /\ 0 < (b - a - 1) / PGSIZE + 1.
Proof.
  intros Ha Hb Hab. unfold PGSIZE in *. pose proof (Z.div_mod a 4096). pose proof (Z.div_mod b 4096).
  replace (b - a - 1) with (4095 + (b / 4096 - a / 4096 - 1) * 4096) by lia.
  rewrite Z.div_add by lia. change (4095 / 4096) with 0. lia.
Qed.
(** A range mapped to itself. *)
Lemma put_identity va n perm f va' :
  va mod PGSIZE = 0 -> 0 <= va -> va <= va' < va + n * PGSIZE -> va' < 2 ^ 55 -> 0 <= perm < 1024 ->
  PTE_TO_PA (put va n va perm f va') = PG_ROUND_DOWN va' /\
  PTE_FLAGS (put va n va perm f va') = Z.lor perm PTE_V.
Proof.
  intros Hm H0 Hin Hb Hp. unfold put. bcase (va <=? va'); [|lia]. bcase (va' <? va + n * PGSIZE); [|lia]. cbn [andb].
  unfold PGSIZE in *. pose proof (div_mul_le (va' - va) 4096).
  assert (0 <= (va' - va) / 4096) by (apply Z.div_pos; lia).
  rewrite leaf_pte_flags, leaf_pte_pa by (try lia; unfold PGSIZE; rewrite Z.mod_add; done).
  split; [|done]. rewrite PG_ROUND_DOWN_eq. pose proof (Z.div_mod va 4096).
  replace va' with (va' - va + va / 4096 * 4096) at 2 by lia. rewrite Z.div_add by lia. lia.
Qed.

(** [kvm_st c s fl root f x]: the allocator and the table under construction are
    in order, the table holds [f], [x] pages are left, and the hart is [c]. *)
Record kvm_st (c : cpu) (s : pmem) (fl : bool -> list Z) (root : Z) (f : vtable) (x : Z) : Prop := {
  ks_pmem : pmem_ok s fl;
  ks_pt : pt_ok (pm s) root (user_region s) (fl false);
  ks_holds : holds s root f;
  ks_left : x <= Z.of_nat (length (fl false));
  ks_cpu : synced (pcpu s) = c;
}.

Lemma kvm_map_ok c s fl root f va pa len perm x y :
  kvm_st c s fl root f y -> 2 + 2 * regions va (va + len - 1) + x <= y ->
  va mod PGSIZE = 0 -> 0 <= va -> 0 < len -> va + len <= VA_MAX ->
  0 <= pa -> pa + len <= 2 ^ 55 -> 0 <= perm < 1024 -> 0 <= x ->
  exists s' fl', kvm_map root va pa len perm s = Ret tt s' /\
    kvm_st c s' fl' root (put va ((len - 1) / PGSIZE + 1) pa perm f) x.
Proof.
  intros [Hs Hpt Hh Hx Hcp] Hy Hm Hva Hlen Hmax Hpa Hpm Hperm Hx0. unfold kvm_map.
  assert (npages_of va len = (len - 1) / PGSIZE + 1) as Hn.
  { unfold npages_of. rewrite !PG_ROUND_DOWN_eq. unfold PGSIZE in *.
    rewrite <- Z.mul_sub_distr_r, Z.div_mul by lia.
    replace (va + len - 1) with (len - 1 + va / 4096 * 4096) by (pose proof (Z.div_mod va 4096); lia).
    rewrite Z.div_add by lia. lia. }
  destruct (vm_mappages_ok root s fl va pa len perm x) as (s' & l' & Hrun & Hs' & Hpt' & Hvs & Hx' & Hmap);
    try done; try lia.
  { rewrite Hn. unfold PGSIZE. pose proof (div_mul_le (len - 1) 4096). lia. }
  exists s', (fl_set false l' fl). split; [done|].
  constructor; rewrite ?fl_set_eq; try done; [|by rewrite (vs_cpu _ _ _ _ _ Hvs)].
  intros va' Hva'. rewrite (Hmap va' Hva'), Hn, PG_ROUND_DOWN_aligned by done.
  unfold put. destruct (_ && _); [done|]. by apply Hh.
Qed.

Lemma kvm_alloc c s fl root f x :
  kvm_st c s fl root f (1 + x) -> 0 <= x ->
  exists p s' fl', pmem_alloc false s = Ret p s' /\ kvm_st c s' fl' root f x /\
    p mod PGSIZE = 0 /\ 0 < p < 2 ^ 43.
Proof.
  intros [Hs Hpt Hh Hx Hcp] Hx0. destruct (fl false) as [|p l] eqn:Hfl; [cbn in Hx; lia|].
  assert (p ∈ fl false) as Hp by (rewrite Hfl; set_solver).
  destruct (pmem_ok_page _ _ _ _ Hs Hp) as (Hpm & Hpb & _).
  destruct (alloc_pt root s fl p l) as (Hs' & Hpt' & _ & Hl); try done.
  exists p, (alloc_post false p s), (fl_set false l fl).
  split_and!; try done; try lia; [by eapply pmem_alloc_cons|].
  constructor; rewrite ?fl_set_eq; try done.
  - intros va Hva. rewrite Hl. by apply Hh.
  - cbn [length] in Hx. lia.
  - rewrite <- Hcp. apply synced_idem.
Qed.

Definition RW : Z := Z.lor PTE_R PTE_W.
Definition RX : Z := Z.lor PTE_R PTE_X.
(** The kernel's table: devices, text and data by identity, the trampoline, and
    the two kernel stacks on pages [k0] and [k1]. *)
Definition kvm_table (etext trampoline k0 k1 : Z) : vtable :=
  put (KSTACK 1) 1 k1 RW (put (KSTACK 0) 1 k0 RW
  (put TRAMPOLINE 1 trampoline RX
  (put etext ((PHYSTOP - etext - 1) / PGSIZE + 1) etext RW
  (put KERNEL_BASE ((etext - KERNEL_BASE - 1) / PGSIZE + 1) KERNEL_BASE RX
  (put VIRTIO_BASE 1 VIRTIO_BASE RW
  (put CLINT_BASE 16 CLINT_BASE RW
  (put PLIC_BASE 1024 PLIC_BASE RW
  (put UART_BASE 1 UART_BASE RW (fun _ => 0))))))))).

Lemma kvm_root (msg : string) s fl x :
  pmem_ok s fl -> 1 + x <= Z.of_nat (length (fl false)) -> 0 <= x ->
  exists root s' fl', (forall k : Z -> M pmem Z, (let* kpgtbl := pmem_alloc false in
      when (kpgtbl =? NULL) (panic msg);;;
      zero_page kpgtbl;;; k kpgtbl) s = k root s') /\
    kvm_st (synced (pcpu s)) s' fl' root (fun _ => 0) x /\ page_in (user_region s) root.
Proof.
  intros Hs Hx Hx0. destruct (fl false) as [|p l] eqn:Hfl; [cbn in Hx; lia|].
  assert (p ∈ fl false) as Hp by (rewrite Hfl; set_solver).
  destruct (pmem_ok_page _ _ _ _ Hs Hp) as (Hpm & Hpb & Hpg).
  pose proof (pmem_alloc_ok _ _ _ _ _ Hs Hfl) as Hs1.
  pose proof (rok_nodup _ _ _ (pok_regions _ _ Hs false)) as Hnd. rewrite Hfl in Hnd.
  apply NoDup_cons in Hnd as [Hnin Hnd].
  set (s1 := alloc_post false p s) in *. set (s2 := set_pm (memset (pm s1) p 0 PGSIZE) s1).
  exists p, s2, (fl_set false l fl). split_and!; [|constructor|done].
  - intros k. mrun (pmem_alloc_cons false s fl p l Hs Hfl). bcase (p =? NULL); [unfold NULL in *; lia|].
    unfold zero_page. mstep. done.
  - apply pmem_ok_set_pm; [|done]. intros b q Hq.
    assert (q ∈ fl b /\ p <> q) as [Hq' Hne].
    { destruct b; cbn in Hq.
      - split; [done|]. by eapply (pmem_ok_disjoint s fl false true).
      - rewrite Hfl. set_solver. }
    apply ld64_memset_out; [done| |done]. by eapply pmem_ok_page.
  - rewrite fl_set_eq. apply pt_ok_fresh; [|done|].
    + unfold s2, s1. rewrite alloc_post_user. done.
    + intros a Ha. apply (memset_in _ p 0 PGSIZE a Ha).
  - intros va _. apply (pt_ok_fresh (pm s2) p (user_region s2) l); [|done|].
    + unfold s2, s1. rewrite alloc_post_user. done.
    + intros a Ha. apply (memset_in _ p 0 PGSIZE a Ha).
  - rewrite fl_set_eq. cbn [length] in Hx. lia.
  - apply synced_idem.
Qed.

(** One [kvm_map] of kvm_make, leaving [x] pages. *)
Ltac kvm_next H x :=
  match type of H with kvm_st ?c ?s ?fl ?root ?f ?y =>
  match goal with
  | |- context [kvm_map root ?va ?pa ?len ?perm] =>
      let s' := fresh "s" in let fl' := fresh "fl" in let Hr := fresh "Hr" in let H' := fresh "K" in
      destruct (kvm_map_ok c s fl root f va pa len perm x y H) as (s' & fl' & Hr & H');
      [first [lia | assumption | (change VA_MAX with (2 ^ 38); lia) | (unfold PGSIZE; lia) | reflexivity | (vm_compute; congruence) | (vm_compute; split; congruence)]..|
       rewrite (bind_run _ _ _ _ _ Hr); clear Hr H; rename H' into H; cbn beta]
  end end.

Lemma region_span a b n : a <= b -> b < a + n * 2 ^ 21 -> 0 <= n -> 0 <= regions a b <= n.
Proof.
  intros Hab Hb Hn. unfold regions. pose proof (Z.div_le_mono a b (2 ^ 21)).
  assert (b / 2 ^ 21 <= a / 2 ^ 21 + n); [|lia].
  rewrite <- Z.div_add by lia. apply Z.div_le_mono; lia.
Qed.

Lemma kvm_make_ok etext trampoline s fl :
  pmem_ok s fl -> etext mod PGSIZE = 0 -> KERNEL_BASE < etext < PHYSTOP ->
  0 <= trampoline < 2 ^ 43 -> 300 <= Z.of_nat (length (fl false)) ->
  exists root k0 k1 s' fl', kvm_make etext trampoline s = Ret root s' /\
    pmem_ok s' fl' /\ pt_ok (pm s') root (user_region s') (fl' false) /\
    holds s' root (kvm_table etext trampoline k0 k1) /\
    (0 < k0 < 2 ^ 43 /\ k0 mod PGSIZE = 0) /\ (0 < k1 < 2 ^ 43 /\ k1 mod PGSIZE = 0) /\
    synced (pcpu s') = synced (pcpu s).
Proof.
  intros Hs Het Hetb Htr Hlen. unfold kvm_make.
  destruct (kvm_root "kvm_make: failed to allocate kernel page table" s fl 299 Hs ltac:(lia) ltac:(lia)) as (root & s0 & fl0 & Hrun & K & _).
  rewrite Hrun. clear Hrun. change PHYSTOP with 0x88000000 in *. change KERNEL_BASE with 0x80000000 in *.
  rewrite (u64_small (etext - _)), (u64_small (_ - etext)) by lia.
  kvm_next K 297. kvm_next K 293. kvm_next K 291. kvm_next K 289.
  pose proof (region_span 0x80000000 (0x80000000 + (etext - 0x80000000) - 1) 64 ltac:(lia) ltac:(lia) ltac:(lia)).
  pose proof (region_span etext (etext + (0x88000000 - etext) - 1) 64 ltac:(lia) ltac:(lia) ltac:(lia)).
  kvm_next K 159. kvm_next K 29. kvm_next K 27.
  change (Z.to_nat NCPU) with 2%nat. cbn [for_]. mstep.
  destruct (kvm_alloc _ _ _ _ _ 26 K) as (k0 & s8 & fl8 & Hr0 & K' & Hk0m & Hk0); [lia|].
  mrun Hr0. bcase (k0 =? 0); [lia|]. mstep. kvm_next K' 24.
  mstep. destruct (kvm_alloc _ _ _ _ _ 23 K') as (k1 & s10 & fl10 & Hr1 & K1 & Hk1m & Hk1); [lia|].
  mrun Hr1. bcase (k1 =? 0); [lia|]. mstep. kvm_next K1 21. mstep.
  destruct K1 as [Hs' Hpt' Hh' _ Hc']. exists root, k0, k1. do 2 eexists. split; [reflexivity|].
  split; [exact Hs'|]. split; [exact Hpt'|]. split; [exact Hh'|]. done.
Qed.

(** ** Concrete tables *)

(** The demonstration allocator after one allocation; the page is an empty table. *)
Definition demo_root : Z := 0x8041f000.
Definition demo_vm : pmem := alloc_post false demo_root demo_pmem.
Definition demo_fl : bool -> list Z :=
  fl_set false (tail (init_lists demo_begin demo_end false)) (init_lists demo_begin demo_end).
Lemma demo_split : init_lists demo_begin demo_end false = demo_root :: demo_fl false.
Proof. vm_compute. reflexivity. Qed.
Lemma demo_vm_ok : pmem_ok demo_vm demo_fl /\ pt_ok (pm demo_vm) demo_root (user_region demo_vm) (demo_fl false) /\
  forall va, pte_of (pm demo_vm) demo_root va = 0.
Proof.
  exact (fresh_vm demo_pmem _ demo_root _ demo_pmem_ok demo_split).
Qed.

(** ** Properties *)

(** C28 vm_getpte without the alloc flag is the three-level reference walk and
    changes nothing; an address at or above VA_MAX panics; with the alloc flag
    and two free pages it always finds an entry, adds at most the missing tables
    (fresh, zeroed pages of the free list), changes no existing translation, and
    keeps allocator and page table in order. *)
Theorem vm_getpte_walks root s fl va :
  pmem_ok s fl -> pt_ok (pm s) root (user_region s) (fl false) ->
  (va < VA_MAX -> vm_getpte root va false s = Ret (default NULL (walk (pm s) root va)) s) /\
  (VA_MAX <= va -> forall alloc, vm_getpte root va alloc s = Panic "vm_getpte: virtual address too large") /\
  (va < VA_MAX -> (2 <= length (fl false))%nat ->
     exists a s' l', vm_getpte root va true s = Ret a s' /\ walk (pm s') root va = Some a /\
       pmem_ok s' (fl_set false l' fl) /\ pt_ok (pm s') root (user_region s') l' /\
       (length (fl false) <= length l' + 2)%nat /\
       (forall va', pte_of (pm s') root va' = pte_of (pm s) root va')).
Proof.
  intros Hs Hpt. split_and!.
  - apply vm_getpte_read.
  - intros Hva alloc. by apply vm_getpte_high.
  - intros Hva Hn. destruct (vm_getpte_alloc root s fl va) as (t & s' & l' & Hrun & Hs' & Hpt' & Hst & Ht & Hl & Hleaf);
      try done.
    exists (t + 8 * VA_TO_VPN va 0), s', l'. split_and!; try done. by rewrite walk_tbl, Ht.
Qed.
Lemma vm_getpte_walks_witness :
  vm_getpte demo_root 0x1000 false demo_vm = Ret NULL demo_vm /\
  exists a s', vm_getpte demo_root 0x1000 true demo_vm = Ret a s' /\ walk (pm s') demo_root 0x1000 = Some a.
Proof.
  destruct demo_vm_ok as (H1 & H2 & _).
  destruct (vm_getpte_walks demo_root demo_vm demo_fl 0x1000 H1 H2) as (Hr & _ & Ha). split.
  - rewrite Hr by reflexivity. vm_compute (walk _ _ _). reflexivity.
  - destruct Ha as (a & s' & _ & Hrun & Hw & _); [reflexivity|vm_compute; lia|]. exists a, s'. split; assumption.
Defined.

(** C1 vm_mappages on a range below VA_MAX, with enough free pages for the
    tables (two per 2 MiB touched), returns, and afterwards the walk translates
    every address the range touches to pa + (distance from the start of the
    first page), with the requested permission bits and the valid bit, while
    every other translation of the table is unchanged; a zero length panics. *)
Theorem vm_mappages_translates root s fl va pa len perm :
  pmem_ok s fl -> pt_ok (pm s) root (user_region s) (fl false) ->
  0 <= va -> 0 < len -> va + len <= VA_MAX -> 0 <= pa -> pa mod PGSIZE = 0 ->
  pa + npages_of va len * PGSIZE <= 2 ^ 56 -> 0 <= perm < 1024 ->
  2 + 2 * regions va (va + len - 1) <= Z.of_nat (length (fl false)) ->
  vm_mappages root va pa 0 perm s = Panic "vm_mappages: size cannot be zero" /\
  exists s' l', vm_mappages root va pa len perm s = Ret tt s' /\
    pmem_ok s' (fl_set false l' fl) /\ pt_ok (pm s') root (user_region s') l' /\
    forall va', 0 <= va' < VA_MAX ->
      if (PG_ROUND_DOWN va <=? va') && (va' <? PG_ROUND_DOWN va + npages_of va len * PGSIZE)
      then PTE_TO_PA (pte_of (pm s') root va') + va' mod PGSIZE = pa + (va' - PG_ROUND_DOWN va) /\
           PTE_FLAGS (pte_of (pm s') root va') = Z.lor perm PTE_V
      else pte_of (pm s') root va' = pte_of (pm s) root va'.
Proof.
  intros Hs Hpt Hva Hlen Hmax Hpa Hpm Hpe Hperm Hbud. split; [apply vm_mappages_zero|].
  destruct (vm_mappages_ok root s fl va pa len perm 0) as (s' & l' & Hrun & Hs' & Hpt' & _ & _ & Hm);
    try done; [lia|]. exists s', l'. split_and!; try done. intros va' Hva'. specialize (Hm va' Hva').
  destruct (_ && _) eqn:E; [|done]. bprop. rewrite Hm.
  pose proof (PG_ROUND_DOWN_bounds va) as [_ Hcm]. set (cur := PG_ROUND_DOWN va) in *.
  unfold PGSIZE in *. pose proof (div_mul_le (va' - cur) 4096).
  assert ((va' - cur) / 4096 < npages_of va len) by (apply Z.div_lt_upper_bound; lia).
  assert (0 <= (va' - cur) / 4096) by (apply Z.div_pos; lia).
  rewrite leaf_pte_flags, leaf_pte_pa by (try lia; unfold PGSIZE; rewrite Z.mod_add; done).
  split; [|done]. pose proof (Z.div_mod cur 4096) as Hc. rewrite Hcm in Hc.
  replace va' with (va' - cur + cur / 4096 * 4096) at 2 by lia. rewrite Z.mod_add by lia.
  pose proof (Z.div_mod (va' - cur) 4096). lia.
Qed.
Lemma vm_mappages_translates_witness :
  exists s', vm_mappages demo_root 0x3800 0x80300000 0x1000 (Z.lor PTE_R PTE_U) demo_vm = Ret tt s' /\
    PTE_TO_PA (pte_of (pm s') demo_root 0x4123) = 0x80301000 /\ pte_of (pm s') demo_root 0x5000 = 0.
Proof.
  destruct demo_vm_ok as (H1 & H2 & H3).
  destruct (vm_mappages_translates demo_root demo_vm demo_fl 0x3800 0x80300000 0x1000 (Z.lor PTE_R PTE_U) H1 H2)
    as (_ & s' & _ & Hrun & _ & _ & Hm).
  1-8: first [lia | reflexivity | (vm_compute; congruence) | (vm_compute; split; congruence)].
  exists s'. split; [exact Hrun|]. split.
  - specialize (Hm 0x4123 ltac:(vm_compute; split; congruence)). cbn in Hm. destruct Hm as [Hm _].
    change (0x4123 mod PGSIZE) with 0x123 in Hm. change (PG_ROUND_DOWN 0x3800) with 0x3000 in Hm. lia.
  - specialize (Hm 0x5000 ltac:(vm_compute; split; congruence)). cbn in Hm. rewrite Hm. apply H3.
Defined.

(** The loop over the first [k] pages of a range, up to a page that stops it. *)
Lemma vm_unmappages_stops root s fl va len freeit k :
  pmem_ok s fl -> pt_ok (pm s) root (user_region s) (fl false) -> va mod PGSIZE = 0 ->
  0 <= va -> 0 < len -> va + len <= VA_MAX -> (k < Z.to_nat (PG_ROUND_UP len / PGSIZE))%nat ->
  leaves k (pm s) root va ->
  (freeit = true -> NoDup (leaf_pages k (pm s) root va) /\ Forall (loose s root (fl false)) (leaf_pages k (pm s) root va)) ->
  let at_k := va + Z.of_nat k * PGSIZE in
  (walk (pm s) root at_k = None -> vm_unmappages root va len freeit s = Panic "vm_unmappages: walk failed") /\
  (walk (pm s) root at_k <> None -> pte_valid (pte_of (pm s) root at_k) = false ->
     vm_unmappages root va len freeit s = Panic "vm_unmappages: page not mapped") /\
  (pte_valid (pte_of (pm s) root at_k) = true -> PTE_FLAGS (pte_of (pm s) root at_k) = PTE_V ->
     vm_unmappages root va len freeit s = Panic "vm_unmappages: not a leaf page").
Proof.
  intros Hs Hpt Hm Hva Hlen Hmax Hk Hl Hfree at_k.
  destruct (unmap_range va len Hm Hva Hlen Hmax) as (Hn & Hend & Hu). set (n := Z.to_nat (PG_ROUND_UP len / PGSIZE)) in *.
  destruct (unmappages_loop_steps k (S (n - k)) root s fl va (va + Z.of_nat n * PGSIZE) freeit) as (s' & Hrun & _ & Hpt' & Ht & Hun); try done.
  { unfold PGSIZE. lia. }
  assert (vm_unmappages root va len freeit s = unmappages_loop (S (n - k)) root at_k (va + Z.of_nat n * PGSIZE) freeit s') as ->.
  { fold at_k in Hrun. rewrite <- Hrun. unfold vm_unmappages. rewrite Hm. cbn [negb Z.eqb]. bcase (PG_ROUND_UP len / PGSIZE =? 0); [unfold n in *; lia|].
    rewrite Hu. fold n. by replace (n + 1)%nat with (k + S (n - k))%nat by lia. }
  assert (walk (pm s') root at_k = walk (pm s) root at_k) as Hw by (rewrite !walk_tbl, Ht; [done|apply vpns_ok]).
  assert (at_k < va + Z.of_nat n * PGSIZE) as Hlt by (unfold at_k, PGSIZE; lia).
  assert (pte_of (pm s') root at_k = pte_of (pm s) root at_k) as Hp.
  { rewrite Hun by (unfold at_k, PGSIZE in *; lia). fold at_k. rewrite Z.ltb_irrefl. by rewrite andb_false_r. }
  assert (walk (pm s) root at_k <> Some NULL) as Hz by (by eapply walk_nonzero).
  destruct (unmappages_loop_stop (n - k) root s' at_k (va + Z.of_nat n * PGSIZE) freeit) as (H1 & H2 & H3);
    [unfold at_k, PGSIZE; lia|lia|lia|]. rewrite Hw, Hp in *. auto.
Qed.

(** C2 vm_unmappages on a page-aligned range whose pages are all mapped by leaf
    entries returns, clears exactly the entries of the range, frees no table, and
    with freeit puts exactly the mapped physical pages back on the free list (the
    last one first), provided they are distinct pages of the user region that are
    neither free nor tables.  Each of its panics: a misaligned start, and the first
    page of the range that has no table, is not mapped, or whose entry is a pointer
    to a table. *)
Theorem vm_unmappages_clears root s fl va len freeit n :
  pmem_ok s fl -> pt_ok (pm s) root (user_region s) (fl false) ->
  0 <= va -> 0 < len -> va + len <= VA_MAX -> n = Z.to_nat (PG_ROUND_UP len / PGSIZE) ->
  let freeable k := freeit = true -> NoDup (leaf_pages k (pm s) root va) /\
      Forall (loose s root (fl false)) (leaf_pages k (pm s) root va) in
  (va mod PGSIZE <> 0 -> vm_unmappages root va len freeit s = Panic "vm_unmappages: address not page aligned") /\
  (va mod PGSIZE = 0 -> forall k, (k < n)%nat -> leaves k (pm s) root va -> freeable k ->
     let at_k := va + Z.of_nat k * PGSIZE in
     (walk (pm s) root at_k = None -> vm_unmappages root va len freeit s = Panic "vm_unmappages: walk failed") /\
     (walk (pm s) root at_k <> None -> pte_valid (pte_of (pm s) root at_k) = false ->
        vm_unmappages root va len freeit s = Panic "vm_unmappages: page not mapped") /\
     (pte_valid (pte_of (pm s) root at_k) = true -> PTE_FLAGS (pte_of (pm s) root at_k) = PTE_V ->
        vm_unmappages root va len freeit s = Panic "vm_unmappages: not a leaf page")) /\
  (va mod PGSIZE = 0 -> leaves n (pm s) root va -> freeable n ->
   exists s', vm_unmappages root va len freeit s = Ret tt s' /\
     let l' := freed freeit (leaf_pages n (pm s) root va) (fl false) in
     pmem_ok s' (fl_set false l' fl) /\ pt_ok (pm s') root (user_region s') l' /\
     (forall q, prefix_ok q -> tbl_at (pm s') root q = tbl_at (pm s) root q) /\
     unmapped (pm s) (pm s') root va (Z.of_nat n)).
Proof.
  intros Hs Hpt Hva Hlen Hmax Hn freeable. split_and!.
  - intros Hm. unfold vm_unmappages. by bcase (va mod PGSIZE =? 0).
  - intros Hm k Hk Hl Hfree. apply (vm_unmappages_stops root s fl); subst; done.
  - intros Hm Hl Hfree. by apply vm_unmappages_ok.
Qed.

(** A page taken from the allocator and mapped. *)
Lemma alloc_map_one root s fl p l va perm :
  pmem_ok s fl -> fl false = p :: l -> pt_ok (pm s) root (user_region s) (fl false) ->
  0 <= va -> va mod PGSIZE = 0 -> va + PGSIZE <= VA_MAX ->
  0 <= perm < 1024 -> Z.lor perm PTE_V <> PTE_V -> (2 <= length l)%nat ->
  exists s1 s2 l' tables, pmem_alloc false s = Ret p s1 /\ vm_mappages root va p PGSIZE perm s1 = Ret tt s2 /\
    l = tables ++ l' /\ pmem_ok s2 (fl_set false l' fl) /\ pt_ok (pm s2) root (user_region s2) l' /\
    leaves 1 (pm s2) root va /\ leaf_pages 1 (pm s2) root va = [p] /\ loose s2 root l' p /\
    forall va', 0 <= va' < VA_MAX -> pte_of (pm s2) root va' =
      if (va <=? va') && (va' <? va + PGSIZE) then leaf_pte p perm else pte_of (pm s) root va'.
Proof.
  intros Hs Hfl Hpt Hva Hm Hmax Hperm Hflag Hlen.
  assert (p ∈ fl false) as Hp by (rewrite Hfl; set_solver).
  destruct (pmem_ok_page _ _ _ _ Hs Hp) as (Hpm & Hpb & Hpg).
  pose proof (rok_nodup _ _ _ (pok_regions _ _ Hs false)) as Hnd. rewrite Hfl in Hnd, Hpt.
  apply NoDup_cons in Hnd as [Hnin _].
  destruct (alloc_pt root s fl p l Hs Hfl Hpt) as (Hs1 & Hpt1 & Ht1 & Hl1).
  pose proof (alloc_post_user p s) as Hap. pose proof (pmem_alloc_cons false s fl p l Hs Hfl) as Hr1.
  generalize dependent (alloc_post false p s). intros s1 Hs1 Hpt1 Ht1 Hl1 Hap Hr1.
  assert (npages_of va PGSIZE = 1) as Hnp.
  { unfold npages_of. rewrite !PG_ROUND_DOWN_eq. unfold PGSIZE in *.
    pose proof (Z.div_mod va 4096). replace (va + 4096 - 1) with (4095 + va / 4096 * 4096) by lia.
    rewrite Z.div_add by lia. change (4095 / 4096) with 0. rewrite Z.add_0_l, Z.sub_diag. done. }
  assert (regions va (va + PGSIZE - 1) = 0) as Hreg.
  { unfold regions. rewrite (page_region (va + PGSIZE - 1) va); [lia|]. unfold PGSIZE in *.
    pose proof (Z.div_mod va 4096). replace (va + 4096 - 1) with (4095 + va / 4096 * 4096) at 1 by lia.
    rewrite Z.div_add by lia. done. }
  destruct (vm_mappages_ok root s1 (fl_set false l fl) va p PGSIZE perm 0)
    as (s2 & l' & Hr2 & Hs2 & Hpt2 & Hst & _ & Hmap);
    rewrite ?fl_set_eq, ?Hnp, ?Hreg in *; [assumption..| | |assumption|lia| |assumption|lia|lia|].
  1-3: unfold PGSIZE in *; lia.
  rewrite PG_ROUND_DOWN_aligned in Hmap by done. destruct (vs_list _ _ _ _ _ Hst) as [tables Htab].
  assert (pte_of (pm s2) root va = leaf_pte p perm) as Hpte.
  { rewrite Hmap by (unfold PGSIZE in *; lia). rewrite Z.sub_diag, Z.mul_1_l.
    bcase (va <=? va); [|lia]. bcase (va <? va + PGSIZE); [|unfold PGSIZE in *; lia]. cbn [andb].
    f_equal. change (0 / PGSIZE) with 0. lia. }
  assert (leaf_pages 1 (pm s2) root va = [p]) as Hlp by (cbn; rewrite Hpte, leaf_pte_pa; (done || lia)).
  exists s1, s2, l', tables. split_and!; try done.
  - eapply pmem_ok_ext; [|exact Hs2]. intros b. by rewrite !fl_set_set.
  - cbn. rewrite Hpte, leaf_pte_valid, leaf_pte_flags by (done || lia). by split_and!.
  - split_and!.
    + unfold page_in. rewrite (vs_begin _ _ _ _ _ Hst), (vs_end _ _ _ _ _ Hst), Hap. exact Hpg.
    + subst l. set_solver.
    + intros q t Hq Ht ->. destruct (vs_new _ _ _ _ _ Hst q p Hq Ht) as [Ho|Ho]; [|done].
      rewrite Ht1 in Ho by done. destruct (pt_page _ _ _ _ Hpt _ _ Hq Ho) as [_ Hn]. set_solver.
  - intros va' Hva'. rewrite (Hmap va' Hva'), Hl1, Z.mul_1_l.
    bcase (va <=? va'); bcase (va' <? va + PGSIZE); cbn [andb]; try done.
    f_equal. rewrite Z.div_small by lia. lia.
Qed.

(** A page taken from the allocator, mapped and unmapped again with freeit
    is back at the head of the free list; the only pages the round trip consumed
    are tables, and every translation other than the one of its page is as before. *)
Theorem map_unmap_roundtrip root s fl p l va perm :
  pmem_ok s fl -> fl false = p :: l -> pt_ok (pm s) root (user_region s) (fl false) ->
  0 <= va -> va mod PGSIZE = 0 -> va + PGSIZE <= VA_MAX ->
  0 <= perm < 1024 -> Z.lor perm PTE_V <> PTE_V -> (2 <= length l)%nat ->
  exists s1 s2 s3 l' tables, pmem_alloc false s = Ret p s1 /\
    vm_mappages root va p PGSIZE perm s1 = Ret tt s2 /\
    vm_unmappages root va PGSIZE true s2 = Ret tt s3 /\
    l = tables ++ l' /\ pmem_ok s3 (fl_set false (p :: l') fl) /\
    pt_ok (pm s3) root (user_region s3) (p :: l') /\
    forall va', 0 <= va' < VA_MAX ->
      pte_of (pm s3) root va' =
        if (va <=? va') && (va' <? va + PGSIZE) then 0 else pte_of (pm s) root va'.
Proof.
  intros Hs Hfl Hpt Hva Hm Hmax Hperm Hflag Hlen.
  destruct (alloc_map_one root s fl p l va perm) as (s1 & s2 & l' & tables & Hr1 & Hr2 & Htab & Hs2 & Hpt2 & Hlv & Hlp & Hlo & Hmap); try done.
  destruct (vm_unmappages_ok root s2 (fl_set false l' fl) va PGSIZE true 1)
    as (s3 & Hr3 & Hs3 & Hpt3 & _ & Hun); rewrite ?fl_set_eq in *; try done.
  - intros _. rewrite Hlp. split; [apply NoDup_singleton|by apply Forall_singleton].
  - rewrite Hlp in Hs3, Hpt3. cbn in Hs3, Hpt3. exists s1, s2, s3, l', tables. split_and!; try done.
    + eapply pmem_ok_ext; [|exact Hs3]. intros b. by rewrite !fl_set_set.
    + intros va' Hva'. rewrite (Hun va' Hva'), (Hmap va' Hva'). change (Z.of_nat 1) with 1.
      rewrite !Z.mul_1_l. by destruct (_ && _).
Qed.
Lemma map_unmap_roundtrip_witness :
  exists s1 s2 s3, pmem_alloc false demo_vm = Ret 0x8041e000 s1 /\
    vm_mappages demo_root 0x3000 0x8041e000 PGSIZE (Z.lor PTE_R PTE_U) s1 = Ret tt s2 /\
    vm_unmappages demo_root 0x3000 PGSIZE true s2 = Ret tt s3 /\ pte_of (pm s3) demo_root 0x3000 = 0.
Proof.
  destruct demo_vm_ok as (H1 & H2 & H3).
  destruct (map_unmap_roundtrip demo_root demo_vm demo_fl 0x8041e000 (tail (demo_fl false)) 0x3000
    (Z.lor PTE_R PTE_U) H1) as (s1 & s2 & s3 & l' & tb & Hr1 & Hr2 & Hr3 & _ & _ & _ & He).
  1: vm_compute; reflexivity.
  1: exact H2.
  1-6: first [lia | (vm_compute; reflexivity) | (vm_compute; congruence) | (vm_compute; split; congruence) | (vm_compute; lia)].
  exists s1, s2, s3. split; [exact Hr1|]. split; [exact Hr2|]. split; [exact Hr3|].
  rewrite He by (vm_compute; split; congruence). reflexivity.
Defined.

Lemma vm_unmappages_clears_witness :
  vm_unmappages demo_root 0x3800 0x1000 true demo_vm = Panic "vm_unmappages: address not page aligned" /\
  vm_unmappages demo_root 0x3000 0x1000 true demo_vm = Panic "vm_unmappages: walk failed" /\
  exists s1 s2 s3, pmem_alloc false demo_vm = Ret 0x8041e000 s1 /\
    vm_mappages demo_root 0x3000 0x8041e000 PGSIZE (Z.lor PTE_R PTE_U) s1 = Ret tt s2 /\
    vm_unmappages demo_root 0x3000 0x2000 true s2 = Panic "vm_unmappages: page not mapped" /\
    vm_unmappages demo_root 0x3000 0x1000 true s2 = Ret tt s3 /\ pte_of (pm s3) demo_root 0x3000 = 0 /\
    exists fl, pmem_ok s3 fl /\ head (fl false) = Some 0x8041e000.
Proof.
  destruct demo_vm_ok as (H1 & H2 & H3). split; [|split].
  - destruct (vm_unmappages_clears demo_root demo_vm demo_fl 0x3800 0x1000 true 1 H1 H2) as (Ha & _ & _).
    1-4: first [lia | reflexivity | (vm_compute; congruence)].
    apply Ha. vm_compute. congruence.
  - destruct (vm_unmappages_clears demo_root demo_vm demo_fl 0x3000 0x1000 true 1 H1 H2) as (_ & Ha & _).
    1-4: first [lia | reflexivity | (vm_compute; congruence)].
    destruct (Ha eq_refl 0%nat) as (Hw & _); [lia|exact I|intros _; split; [apply NoDup_nil_2|apply Forall_nil_2]|].
    apply Hw. vm_compute. reflexivity.
  - destruct (alloc_map_one demo_root demo_vm demo_fl 0x8041e000 (tail (demo_fl false)) 0x3000 (Z.lor PTE_R PTE_U) H1)
      as (s1 & s2 & l' & tb & Hr1 & Hr2 & Htb & Hs2 & Hpt2 & Hlv & Hlp & Hlo & Hm).
    1: vm_compute; reflexivity.
    1: exact H2.
    1-6: first [lia | (vm_compute; reflexivity) | (vm_compute; congruence) | (vm_compute; split; congruence) | (vm_compute; lia)].
    assert (pte_of (pm s2) demo_root 0x4000 = 0) as H4 by (rewrite Hm by (vm_compute; split; congruence); apply H3).
    destruct (vm_unmappages_clears demo_root s2 (fl_set false l' demo_fl) 0x3000 0x1000 true 1 Hs2 Hpt2) as (_ & _ & Hc).
    1-4: first [lia | reflexivity | (vm_compute; congruence)].
    destruct (vm_unmappages_clears demo_root s2 (fl_set false l' demo_fl) 0x3000 0x2000 true 2 Hs2 Hpt2) as (_ & Hst & _).
    1-4: first [lia | reflexivity | (vm_compute; congruence)].
    destruct (Hc eq_refl Hlv) as (s3 & Hr3 & Hs3 & _ & _ & Hun).
    { intros _. rewrite Hlp. split; [apply NoDup_singleton|apply Forall_singleton; exact Hlo]. }
    exists s1, s2, s3. split; [exact Hr1|]. split; [exact Hr2|]. split; [|split; [exact Hr3|split]].
    + destruct (Hst eq_refl 1%nat ltac:(lia) Hlv) as (_ & Hnm & _).
      { intros _. rewrite Hlp. split; [apply NoDup_singleton|apply Forall_singleton; exact Hlo]. }
      apply Hnm; [|change (0x3000 + Z.of_nat 1 * PGSIZE) with 0x4000; rewrite H4; reflexivity].
      change (walk (pm s2) demo_root 0x4000) with (walk (pm s2) demo_root (0x3000 + Z.of_nat 1 * PGSIZE)). rewrite walk_tbl.
      change (vpns (0x3000 + Z.of_nat 1 * PGSIZE)) with (vpns 0x3000).
      destruct Hlv as [Hv _]. unfold pte_of in Hv. rewrite walk_tbl in Hv. destruct (tbl_at (pm s2) demo_root (vpns 0x3000)); discriminate.
    + rewrite Hun by (vm_compute; split; congruence). reflexivity.
    + exists (fl_set false (freed true (leaf_pages 1 (pm s2) demo_root 0x3000) (fl_set false l' demo_fl false)) (fl_set false l' demo_fl)).
      split; [exact Hs3|]. rewrite fl_set_eq, Hlp. reflexivity.
Defined.

(** The demonstration machine for kvm_make: 400 user pages. *)
Definition big_pmem : pmem :=
  match pmem_init demo_begin 0x805a0000 blank_pmem with Ret _ s => s | _ => blank_pmem end.
Lemma big_pmem_ok : pmem_ok big_pmem (init_lists demo_begin 0x805a0000).
Proof.
  destruct (pmem_init_ok demo_begin 0x805a0000 blank_pmem) as (s & Hrun & Hs & _);
    [unfold demo_begin; lia|reflexivity|reflexivity|unfold demo_begin; lia|lia|exact demo_cpu_wf|].
  unfold big_pmem. rewrite Hrun. exact Hs.
Qed.

(** C27 kvm_make, with 300 free pages, returns a page table in order in which
    every address below VA_MAX has exactly the entry of the reference table:
    UART, PLIC, CLINT, virtio, kernel text (R X) and the rest of RAM (R W) mapped
    to themselves, the trampoline at the top, stacks for CPU 0 and 1, and nothing
    else; in particular the kernel stacks that proc_init gives to processes
    2 .. NPROC-1 are not mapped. *)
Theorem kvm_make_maps etext trampoline s fl :
  pmem_ok s fl -> etext mod PGSIZE = 0 -> KERNEL_BASE < etext < PHYSTOP ->
  0 <= trampoline < 2 ^ 43 -> 300 <= Z.of_nat (length (fl false)) ->
  exists root k0 k1 s' fl', kvm_make etext trampoline s = Ret root s' /\
    pmem_ok s' fl' /\ pt_ok (pm s') root (user_region s') (fl' false) /\
    (forall va, 0 <= va < VA_MAX -> pte_of (pm s') root va = kvm_table etext trampoline k0 k1 va) /\
    (forall va, KERNEL_BASE <= va < PHYSTOP -> PTE_TO_PA (pte_of (pm s') root va) = PG_ROUND_DOWN va /\
       PTE_FLAGS (pte_of (pm s') root va) = Z.lor (if va <? etext then RX else RW) PTE_V) /\
    (forall i, 2 <= i < 64 -> pte_of (pm s') root (KSTACK i) = 0).
Proof.
  intros Hs Het Hetb Htr Hlen.
  destruct (kvm_make_ok etext trampoline s fl Hs Het Hetb Htr Hlen)
    as (root & k0 & k1 & s' & fl' & Hrun & Hs' & Hpt' & Hh & _ & _).
  exists root, k0, k1, s', fl'. change PHYSTOP with 0x88000000 in *. change KERNEL_BASE with 0x80000000 in *.
  split_and!; try done.
  - intros va Hva. rewrite Hh by (change VA_MAX with (2 ^ 38); lia). unfold kvm_table.
    change PHYSTOP with 0x88000000. change KERNEL_BASE with 0x80000000.
    rewrite (put_out (KSTACK 1)), (put_out (KSTACK 0)), (put_out TRAMPOLINE) by (left; unfold KSTACK, TRAMPOLINE; change VA_MAX with (2 ^ 38); unfold PGSIZE; lia).
    destruct (span_pages etext 0x88000000) as [Hn1 _]; [done|done|lia|].
    destruct (span_pages 0x80000000 etext) as [Hn2 _]; [done|done|lia|].
    bcase (va <? etext).
    + rewrite put_out by lia. apply put_identity; try done; lia.
    + apply put_identity; try done; lia.
  - intros i Hi. rewrite Hh by (unfold KSTACK, TRAMPOLINE; change VA_MAX with (2 ^ 38); unfold PGSIZE; lia).
    assert (2 ^ 38 - 0x81000 <= KSTACK i < 2 ^ 38 - 4096 * 5 + 1) as Hk
      by (unfold KSTACK, TRAMPOLINE; change VA_MAX with (2 ^ 38); unfold PGSIZE; lia).
    destruct (span_pages etext 0x88000000) as [Hn1 _]; [done|done|lia|].
    destruct (span_pages 0x80000000 etext) as [Hn2 _]; [done|done|lia|].
    unfold kvm_table. change PHYSTOP with 0x88000000. change KERNEL_BASE with 0x80000000.
    rewrite (put_out (KSTACK 1)) by (left; change (KSTACK 1) with (2 ^ 38 - 4096 * 5); 
      unfold KSTACK, TRAMPOLINE in *; change VA_MAX with (2 ^ 38) in *; unfold PGSIZE in *; lia).
    rewrite (put_out (KSTACK 0)) by (left; change (KSTACK 0) with (2 ^ 38 - 4096 * 3); lia).
    rewrite (put_out TRAMPOLINE) by (left; change TRAMPOLINE with (2 ^ 38 - 4096); lia).
    rewrite !put_out; [done|right..]; unfold UART_BASE, PLIC_BASE, CLINT_BASE, VIRTIO_BASE, PGSIZE in *; lia.
Qed.
Lemma kvm_make_maps_witness :
  exists root s', kvm_make 0x80008000 0x80007000 big_pmem = Ret root s' /\
    PTE_TO_PA (pte_of (pm s') root 0x80012345) = 0x80012000 /\ pte_of (pm s') root (KSTACK 2) = 0.
Proof.
  destruct (kvm_make_maps 0x80008000 0x80007000 big_pmem _ big_pmem_ok)
    as (root & k0 & k1 & s' & fl' & Hrun & _ & _ & _ & Hid & Hst).
  1-4: first [reflexivity | (vm_compute; split; congruence) | (vm_compute; congruence)].
  exists root, s'. split; [exact Hrun|]. split.
  - apply (Hid 0x80012345). vm_compute. split; congruence.
  - apply Hst. lia.
Defined.
