(* ===== verification/Mmap.v ===== *)
(** * mem/mmap.c: the repository of mmap_region nodes

    A static array of 256 nodes; node 0 is the reserved head of the free chain,
    linked by [nnext].  A node that has been handed out is a [mmap_region] linked
    into a process's list by [mnext].  A mmap_region pointer is an index into the
    array: the region is the first member of its node, so the two pointers are
    the same address. *)

From S2P Require Import Prelude Machine Lock Pmem.

Record mmap_region : Type := mkMmap { mbegin : Z; mnpages : Z; mnext : option nat }.
Record mmap_region_node : Type := mkNode { mmap : mmap_region; nnext : option nat }.
Definition N_MMAP : Z := 256.
Record mrepo : Type := mkRepo {
  list_mmap_region_node : list mmap_region_node;
  list_head : option nat;
  list_lk : spinlock;
}.
(** The repository with the CPU that operates on it. *)
Definition mstate : Type := (cpu * mrepo)%type.

(** A load or store through a null pointer: page 0 is not mapped, and a page
    fault in the kernel ends in a panic of trap_kernel_handler. *)
Definition fault {S A} : M S A := panic "kernel page fault".

Definition node (i : option nat) : M mstate mmap_region_node := fun s =>
  match i ≫= fun i => list_mmap_region_node (snd s) !! i with
  | Some n => Ret n s
  | None => fault s
  end.
Definition set_nodes (f : list mmap_region_node -> list mmap_region_node) (r : mrepo) : mrepo :=
  mkRepo (f (list_mmap_region_node r)) (list_head r) (list_lk r).
Definition upd_node (i : option nat) (f : mmap_region_node -> mmap_region_node) : M mstate unit :=
  let* n := node i in
  modify (fun s => (fst s, set_nodes (fun l => <[default O i := f n]> l) (snd s))).

Definition set_nnext (p : option nat) (n : mmap_region_node) : mmap_region_node := mkNode (mmap n) p.
Definition set_mmap (r : mmap_region) (n : mmap_region_node) : mmap_region_node := mkNode r (nnext n).
Definition upd_mmap (f : mmap_region -> mmap_region) (n : mmap_region_node) : mmap_region_node :=
  mkNode (f (mmap n)) (nnext n).
Definition set_mbegin (b : Z) (r : mmap_region) : mmap_region := mkMmap b (mnpages r) (mnext r).
Definition set_mnpages (n : Z) (r : mmap_region) : mmap_region := mkMmap (mbegin r) n (mnext r).
Definition set_mnext (p : option nat) (r : mmap_region) : mmap_region := mkMmap (mbegin r) (mnpages r) p.

Definition list_lock : lens mstate (cpu * spinlock) :=
  Lens (fun s => (fst s, list_lk (snd s)))
       (fun p s => (fst p, mkRepo (list_mmap_region_node (snd s)) (list_head (snd s)) (snd p))).

Definition head_next : M mstate (option nat) :=
  let* h := gets (fun s => list_head (snd s)) in
  let* n := node h in ret (nnext n).
Definition set_head_next (p : option nat) : M mstate unit :=
  let* h := gets (fun s => list_head (snd s)) in upd_node h (set_nnext p).

(** ** Operations *)

Definition mmap_init : M mstate unit :=
  modify (fun s => (fst s, mkRepo (list_mmap_region_node (snd s)) (list_head (snd s)) (spinlock_init "mmap_list")));;;
  modify (fun s => (fst s, mkRepo (list_mmap_region_node (snd s)) (Some O) (list_lk (snd s))));;;
  set_head_next None;;;
  for_ (Z.to_nat (N_MMAP - 1)) 1 1 (fun i =>
    let* n := head_next in
    upd_node (Some (Z.to_nat i)) (set_nnext n);;;
    set_head_next (Some (Z.to_nat i))).

Definition mmap_region_alloc : M mstate (option nat) :=
  zoom list_lock spinlock_acquire;;;
  let* n := head_next in
  (match n with
   | None =>
       zoom list_lock spinlock_release;;;
       panic "mmap_region_alloc: no available mmap_region"
   | Some _ => ret tt
   end);;;
  let* nd := head_next in
  let* n := node nd in
  set_head_next (nnext n);;;
  zoom list_lock spinlock_release;;;
  upd_node nd (upd_mmap (set_mbegin 0));;;
  upd_node nd (upd_mmap (set_mnpages 0));;;
  upd_node nd (upd_mmap (set_mnext None));;;
  ret nd.

Definition mmap_region_free (mmap : option nat) : M mstate unit :=
  match mmap with
  | None => ret tt
  | Some _ =>
      zoom list_lock spinlock_acquire;;;
      let* n := head_next in
      upd_node mmap (set_nnext n);;;
      set_head_next mmap;;;
      zoom list_lock spinlock_release
  end.

(** What mmap_show_mmaplist prints: the indices of the chain from the head. *)
Fixpoint show_loop (fuel : nat) (tmp : option nat) : M mstate (list nat) :=
  match fuel, tmp with
  | O, _ => no_fuel
  | _, None => ret []
  | S fuel, Some i =>
      let* n := node tmp in
      let* l := show_loop fuel (nnext n) in
      ret (i :: l)
  end.
Definition mmap_show_mmaplist : M mstate (list nat) :=
  zoom list_lock spinlock_acquire;;;
  let* h := gets (fun s => list_head (snd s)) in
  let* l := show_loop (S (Z.to_nat N_MMAP)) h in
  zoom list_lock spinlock_release;;;
  ret l.

(** ** Chains *)

Fixpoint chain (next : mmap_region_node -> option nat) (ns : list mmap_region_node)
    (h : option nat) (l : list nat) : Prop :=
  match l with
  | [] => h = None
  | i :: l => h = Some i /\ exists n, ns !! i = Some n /\ chain next ns (next n) l
  end.

(** The repository in order: the head node is node 0 and the free chain behind
    it lists each of [fr], distinct nodes of the array other than the head. *)
Record repo_ok (r : mrepo) (fr : list nat) : Prop := {
  ro_head : list_head r = Some O;
  ro_chain : chain nnext (list_mmap_region_node r) (Some O) (O :: fr);
  ro_nodup : NoDup (O :: fr);
  ro_lock : lk_free (list_lk r);
  ro_len : length (list_mmap_region_node r) = Z.to_nat N_MMAP;
}.

(** A change to nodes outside the chain, or to other fields, keeps it. *)
Lemma chain_frame next ns ns' h l :
  (forall i n, i ∈ l -> ns !! i = Some n -> exists n', ns' !! i = Some n' /\ next n' = next n) ->
  chain next ns h l -> chain next ns' h l.
Proof.
  revert h. induction l as [|i l IH]; intros h H; [done|]. intros (-> & n & Hn & Hc).
  split; [done|]. destruct (H i n) as (n' & Hn' & Hnx); [set_solver|done|].
  exists n'. split; [done|]. rewrite Hnx. apply IH; [|done]. intros j m Hj. apply H. set_solver.
Qed.
Lemma chain_insert_out next ns h l i n :
  i ∉ l -> chain next ns h l -> chain next (<[i := n]> ns) h l.
Proof.
  intros Hi. apply chain_frame. intros j m Hj Hm. exists m. split; [|done].
  rewrite list_lookup_insert_ne; [done|]. intros ->. done.
Qed.

Lemma node_run i n c r : list_mmap_region_node r !! i = Some n -> node (Some i) (c, r) = Ret n (c, r).
Proof. intros H. unfold node. cbn. by rewrite H. Qed.
Lemma upd_node_run i n f c r : list_mmap_region_node r !! i = Some n ->
  upd_node (Some i) f (c, r) = Ret tt (c, set_nodes (fun l => <[i := f n]> l) r).
Proof. intros H. unfold upd_node. by mrun (node_run i n c r H). Qed.
Lemma head_next_run n c r : list_head r = Some O -> list_mmap_region_node r !! O = Some n ->
  head_next (c, r) = Ret (nnext n) (c, r).
Proof. intros Hh Hn. unfold head_next. mstep. cbn. rewrite Hh. by mrun (node_run O n c r Hn). Qed.
Lemma set_head_next_run n p c r : list_head r = Some O -> list_mmap_region_node r !! O = Some n ->
  set_head_next p (c, r) = Ret tt (c, set_nodes (fun l => <[O := set_nnext p n]> l) r).
Proof. intros Hh Hn. unfold set_head_next. mstep. cbn. rewrite Hh. by apply upd_node_run. Qed.

Lemma list_lock_acquire c ns h l : lk_free l ->
  zoom list_lock spinlock_acquire (c, mkRepo ns h l) = Ret tt (pushed c, mkRepo ns h (lk_held c l)).
Proof. intros H. by erewrite zoom_run by (by apply spinlock_acquire_run). Qed.
Lemma list_lock_release c ns h l : cpu_wf c -> lk_free l ->
  zoom list_lock spinlock_release (pushed c, mkRepo ns h (lk_held c l)) = Ret tt (synced c, mkRepo ns h l).
Proof. intros Hc Hl. by erewrite zoom_run by (by apply spinlock_release_run). Qed.

(** The state mmap_region_alloc leaves, for a chain that starts with [i]. *)
Definition alloc_nodes (i : nat) (n0 ni : mmap_region_node) (ns : list mmap_region_node) :=
  <[i := mkNode (mkMmap 0 0 None) (nnext ni)]> (<[O := set_nnext (nnext ni) n0]> ns).

Lemma mmap_region_alloc_run c r i fr n0 ni : cpu_wf c -> repo_ok r (i :: fr) ->
  list_mmap_region_node r !! O = Some n0 -> list_mmap_region_node r !! i = Some ni ->
  mmap_region_alloc (c, r) = Ret (Some i) (synced c, set_nodes (alloc_nodes i n0 ni) r).
Proof.
  intros Hc [Hh (_ & n0' & Hn0' & Hnx & _) Hnd Hl Hlen] Hn0 Hni. rewrite Hn0 in Hn0'. injection Hn0' as <-.
  destruct r as [ns h lk]. cbn in *. subst h.
  assert (i <> O) as Hi0 by (apply NoDup_cons in Hnd as [Hnd _]; set_solver).
  unfold mmap_region_alloc. mrun (list_lock_acquire c ns (Some O) lk Hl).
  mrun (head_next_run n0 _ (mkRepo ns (Some O) _) eq_refl Hn0). rewrite Hnx. mstep.
  mrun (head_next_run n0 _ (mkRepo ns (Some O) _) eq_refl Hn0). rewrite Hnx.
  mrun (node_run i ni _ (mkRepo ns (Some O) _) Hni).
  mrun (set_head_next_run n0 _ _ (mkRepo ns (Some O) _) eq_refl Hn0). unfold set_nodes; cbn.
  mrun (list_lock_release c _ _ _ Hc Hl).
  set (ns1 := <[O := set_nnext (nnext ni) n0]> ns).
  assert (ns1 !! i = Some ni) as Hi1 by (unfold ns1; by rewrite list_lookup_insert_ne).
  assert (forall x, <[i := x]> ns1 !! i = Some x) as Hii
    by (intros x; apply list_lookup_insert_eq; by eapply lookup_lt_Some).
  mrun (upd_node_run i ni _ _ (mkRepo ns1 (Some O) lk) Hi1). unfold set_nodes; cbn.
  mrun (upd_node_run i _ _ _ (mkRepo _ (Some O) lk) (Hii _)). unfold set_nodes; cbn.
  rewrite list_insert_insert_eq.
  mrun (upd_node_run i _ _ _ (mkRepo _ (Some O) lk) (Hii _)). unfold set_nodes; cbn.
  rewrite list_insert_insert_eq. done.
Qed.

(** The mmap_region parts of the nodes. *)
Definition mmap_at (r : mrepo) (i : nat) : option mmap_region := mmap <$> list_mmap_region_node r !! i.

Lemma mmap_region_alloc_ok c r i fr : cpu_wf c -> repo_ok r (i :: fr) ->
  exists r', mmap_region_alloc (c, r) = Ret (Some i) (synced c, r') /\ repo_ok r' fr /\
    mmap_at r' i = Some (mkMmap 0 0 None) /\ forall j, j <> i -> mmap_at r' j = mmap_at r j.
Proof.
  intros Hc Hr. pose proof Hr as [Hh (_ & n0 & Hn0 & Hnx & ni & Hni & Hch) Hnd Hl Hlen].
  eexists. split; [by eapply mmap_region_alloc_run|].
  apply NoDup_cons in Hnd as [H0 Hnd]. apply NoDup_cons in Hnd as [Hi Hnd].
  assert (i <> O) as Hi0 by set_solver. assert (i < length (list_mmap_region_node r))%nat by (by eapply lookup_lt_Some).
  assert (O < length (list_mmap_region_node r))%nat by (by eapply lookup_lt_Some).
  split_and!.
  - constructor; try done.
    + cbn. split; [done|]. eexists. split.
      { unfold alloc_nodes. rewrite list_lookup_insert_ne by done. by rewrite list_lookup_insert_eq. }
      cbn. unfold alloc_nodes. apply chain_insert_out; [done|]. apply chain_insert_out; [set_solver|done].
    + apply NoDup_cons. split; [set_solver|done].
    + cbn. unfold alloc_nodes. by rewrite !length_insert.
  - unfold mmap_at, set_nodes, alloc_nodes. cbn. by rewrite list_lookup_insert_eq by (by rewrite length_insert).
  - intros j Hj. unfold mmap_at, set_nodes, alloc_nodes. cbn. rewrite list_lookup_insert_ne by done.
    destruct (decide (j = O)) as [->|]; [|by rewrite list_lookup_insert_ne].
    by rewrite list_lookup_insert_eq, Hn0.
Qed.

Lemma mmap_region_alloc_empty c r : cpu_wf c -> repo_ok r [] ->
  mmap_region_alloc (c, r) = Panic "mmap_region_alloc: no available mmap_region".
Proof.
  intros Hc [Hh (_ & n0 & Hn0 & Hnx) _ Hl _]. destruct r as [ns h lk]. cbn in *. subst h.
  unfold mmap_region_alloc. mrun (list_lock_acquire c ns (Some O) lk Hl).
  mrun (head_next_run n0 _ (mkRepo ns (Some O) _) eq_refl Hn0). rewrite Hnx. mstep.
  by mrun (list_lock_release c _ _ _ Hc Hl).
Qed.

Lemma mmap_region_free_ok c r i fr : cpu_wf c -> repo_ok r fr -> i ∉ O :: fr -> (i < Z.to_nat N_MMAP)%nat ->
  exists r', mmap_region_free (Some i) (c, r) = Ret tt (synced c, r') /\ repo_ok r' (i :: fr) /\
    forall j, mmap_at r' j = mmap_at r j.
Proof.
  intros Hc [Hh (_ & n0 & Hn0 & Hch) Hnd Hl Hlen] Hi Hlt. destruct r as [ns h lk]. cbn in *. subst h.
  assert (i <> O /\ i ∉ fr) as [Hi0 Hifr] by set_solver.
  destruct (lookup_lt_is_Some_2 ns i) as [ni Hni]; [lia|].
  set (ns1 := <[i := set_nnext (nnext n0) ni]> ns).
  assert (ns1 !! O = Some n0) as Hn01 by (unfold ns1; by rewrite list_lookup_insert_ne).
  exists (mkRepo (<[O := set_nnext (Some i) n0]> ns1) (Some O) lk). split_and!.
  - unfold mmap_region_free. mrun (list_lock_acquire c ns (Some O) lk Hl).
    mrun (head_next_run n0 _ (mkRepo ns (Some O) _) eq_refl Hn0).
    mrun (upd_node_run i ni _ _ (mkRepo ns (Some O) _) Hni). unfold set_nodes; cbn. fold ns1.
    mrun (set_head_next_run n0 _ _ (mkRepo ns1 (Some O) _) eq_refl Hn01). unfold set_nodes; cbn.
    by apply list_lock_release.
  - assert (O < length ns1)%nat by (by eapply lookup_lt_Some). constructor; try done.
    + cbn. split; [done|]. eexists. split; [by rewrite list_lookup_insert_eq|]. cbn. split; [done|].
      exists (set_nnext (nnext n0) ni). split.
      { rewrite list_lookup_insert_ne by done. unfold ns1. apply list_lookup_insert_eq. lia. }
      cbn. apply NoDup_cons in Hnd as [H0 _]. apply chain_insert_out; [done|]. by apply chain_insert_out.
    + apply NoDup_cons in Hnd as [H0 Hnd]. apply NoDup_cons. split; [set_solver|]. by apply NoDup_cons.
    + cbn. unfold ns1. by rewrite !length_insert.
  - intros j. unfold mmap_at. cbn. destruct (decide (j = O)) as [->|Hj0].
    + rewrite list_lookup_insert_eq by (by eapply lookup_lt_Some). by rewrite Hn0.
    + rewrite list_lookup_insert_ne by done. unfold ns1. destruct (decide (j = i)) as [->|Hji].
      * rewrite list_lookup_insert_eq by lia. by rewrite Hni.
      * by rewrite list_lookup_insert_ne.
Qed.

(** Pushing node [i] behind the head, as mmap_init does for each node. *)
Lemma push_node c r i fr : repo_ok r fr -> i ∉ O :: fr -> (i < Z.to_nat N_MMAP)%nat ->
  exists r', (let* n := head_next in upd_node (Some i) (set_nnext n);;; set_head_next (Some i)) (c, r) =
      Ret tt (c, r') /\ repo_ok r' (i :: fr).
Proof.
  intros [Hh (_ & n0 & Hn0 & Hch) Hnd Hl Hlen] Hi Hlt. destruct r as [ns h lk]. cbn in *. subst h.
  assert (i <> O /\ i ∉ fr) as [Hi0 Hifr] by set_solver.
  destruct (lookup_lt_is_Some_2 ns i) as [ni Hni]; [lia|].
  set (ns1 := <[i := set_nnext (nnext n0) ni]> ns).
  assert (ns1 !! O = Some n0) as Hn01 by (unfold ns1; by rewrite list_lookup_insert_ne).
  eexists. split.
  { mrun (head_next_run n0 _ (mkRepo ns (Some O) _) eq_refl Hn0).
    mrun (upd_node_run i ni _ _ (mkRepo ns (Some O) _) Hni). unfold set_nodes; cbn. fold ns1.
    by apply (set_head_next_run n0 _ _ (mkRepo ns1 (Some O) _)). }
  assert (O < length ns1)%nat by (by eapply lookup_lt_Some). constructor; try done.
  - cbn. split; [done|]. eexists. split; [by rewrite list_lookup_insert_eq|]. cbn. split; [done|].
    exists (set_nnext (nnext n0) ni). split.
    { rewrite list_lookup_insert_ne by done. unfold ns1. apply list_lookup_insert_eq. lia. }
    cbn. apply NoDup_cons in Hnd as [H0 _]. apply chain_insert_out; [done|]. by apply chain_insert_out.
  - apply NoDup_cons in Hnd as [H0 Hnd]. apply NoDup_cons. split; [set_solver|]. by apply NoDup_cons.
  - cbn. unfold ns1. by rewrite !length_insert.
Qed.

Lemma mmap_init_ok c r : length (list_mmap_region_node r) = Z.to_nat N_MMAP ->
  exists r', mmap_init (c, r) = Ret tt (c, r') /\ repo_ok r' (reverse (seq 1 255)).
Proof.
  intros Hlen. destruct r as [ns h lk]. cbn in Hlen. unfold mmap_init. mstep. cbn [fst snd list_mmap_region_node list_head list_lk].
  destruct (lookup_lt_is_Some_2 ns O) as [n0 Hn0]; [rewrite Hlen; vm_compute; lia|].
  mrun (set_head_next_run n0 None c (mkRepo ns (Some O) (spinlock_init "mmap_list")) eq_refl Hn0).
  unfold set_nodes; cbn [list_mmap_region_node list_head list_lk].
  destruct (for_inv (fun k s => exists r, s = (c, r) /\ repo_ok r (reverse (seq 1 k)))
    (Z.to_nat (N_MMAP - 1)) 1 1 (fun i => let* n := head_next in
      upd_node (Some (Z.to_nat i)) (set_nnext n);;; set_head_next (Some (Z.to_nat i)))
    (c, mkRepo (<[O := set_nnext None n0]> ns) (Some O) (spinlock_init "mmap_list")))
    as (s' & Hrun & r' & -> & Hr').
  - eexists. split; [done|]. constructor; try done.
    + cbn. split; [done|]. exists (set_nnext None n0). split; [|done].
      apply list_lookup_insert_eq. rewrite Hlen. vm_compute. lia.
    + apply NoDup_singleton.
    + cbn. by rewrite length_insert.
  - intros k s Hk (r & -> & Hr). cbn beta. change (Z.to_nat (N_MMAP - 1)) with 255%nat in Hk.
    replace (Z.to_nat (1 + Z.of_nat k * 1)) with (S k) by lia.
    destruct (push_node c r (S k) _ Hr) as (r1 & Hrun & Hr1).
    + rewrite not_elem_of_cons, elem_of_reverse, elem_of_seq. lia.
    + change (Z.to_nat N_MMAP) with 256%nat. lia.
    + eexists. split; [done|]. exists r1. split; [done|].
      by rewrite (seq_S k 1), reverse_snoc.
  - exists r'. split; [done|]. exact Hr'.
Qed.

(** ** Properties *)

(** the mmap_region repository is a pool of 255 nodes.  mmap_init (on the
    256-node array, whatever it holds) makes nodes 255 .. 1 the free chain; on a
    repository in order, mmap_region_alloc takes the first node and hands it out
    with a cleared region, or panics when the chain is empty; mmap_region_free
    of a node that is not on the chain puts it first.  No operation changes the
    region of any other node, and the order is kept. *)
Theorem mmap_repo_pool c r fr : cpu_wf c -> repo_ok r fr ->
  (exists r', mmap_init (c, r) = Ret tt (c, r') /\ repo_ok r' (reverse (seq 1 255))) /\
  match fr with
  | [] => mmap_region_alloc (c, r) = Panic "mmap_region_alloc: no available mmap_region"
  | i :: fr' => exists r', mmap_region_alloc (c, r) = Ret (Some i) (synced c, r') /\ repo_ok r' fr' /\
      mmap_at r' i = Some (mkMmap 0 0 None) /\ forall j, j <> i -> mmap_at r' j = mmap_at r j
  end /\
  (forall i, (0 < i < 256)%nat -> i ∉ fr ->
     exists r', mmap_region_free (Some i) (c, r) = Ret tt (synced c, r') /\ repo_ok r' (i :: fr) /\
       forall j, mmap_at r' j = mmap_at r j).
Proof.
  intros Hc Hr. split_and!.
  - apply mmap_init_ok, Hr.
  - destruct fr as [|i fr]; [by apply mmap_region_alloc_empty|by apply mmap_region_alloc_ok].
  - intros i Hi Hn. apply mmap_region_free_ok; try done; [set_solver by lia|apply Hi].
Qed.
Definition demo_repo : mrepo :=
  mkRepo (replicate 256 (mkNode (mkMmap 0 0 None) None)) None (spinlock_init "").
Lemma mmap_repo_pool_witness :
  exists r r', repo_ok r (reverse (seq 1 255)) /\
    mmap_region_alloc (demo_cpu, r) = Ret (Some 255%nat) (synced demo_cpu, r') /\ repo_ok r' (reverse (seq 1 254)).
Proof.
  destruct (mmap_init_ok demo_cpu demo_repo eq_refl) as (r & _ & Hr).
  destruct (mmap_repo_pool demo_cpu r _ demo_cpu_wf Hr) as (_ & H & _).
  destruct H as (r' & H1 & H2 & _). exists r, r'. split; [exact Hr|]. split; [exact H1|exact H2].
Defined.
