(* ===== verification/Uvm.v ===== *)
(** * mem/uvm.c: user address spaces

    Copying, growing, shrinking and destroying user page tables, the mmap list
    of a process, and the copies between user and kernel memory.  Page-table
    routines run on [pmem]; the mmap routines run on [vproc], the allocator, the
    node repository and the current process's mmap list head (p->mmap), with
    p->pgtbl as an argument: the caller resolves myproc(). *)

From S2P Require Import Prelude Machine Str Lock Pmem Kvm Mmap.

(** ** State of the mmap routines *)

Record vproc : Type := mkVproc { vpm : pmem; vrepo : mrepo; pmmap : option nat }.
Definition vp_pmem : lens vproc pmem :=
  Lens vpm (fun s v => mkVproc s (vrepo v) (pmmap v)).
Definition vp_repo : lens vproc mstate :=
  Lens (fun v => (pcpu (vpm v), vrepo v))
       (fun s v => mkVproc (set_pcpu (fst s) (vpm v)) (snd s) (pmmap v)).
Definition set_pmmap (p : option nat) (v : vproc) : vproc := mkVproc (vpm v) (vrepo v) p.

(** Field accesses through a mmap_region pointer. *)
Definition rd_region (i : option nat) : M vproc mmap_region :=
  let* n := zoom vp_repo (node i) in ret (mmap n).
Definition wr_region (i : option nat) (f : mmap_region -> mmap_region) : M vproc unit :=
  zoom vp_repo (upd_node i (upd_mmap f)).

(** npages * PGSIZE is computed in 32 bits. *)
Definition bytes_of (npages : Z) : Z := u32 (npages * PGSIZE).

(** ** Loops over pages *)

(** [for (va = begin; va < end; va += PGSIZE) body], at most [fuel] tests. *)
Fixpoint for_pages {S} (fuel : nat) (va end_ : Z) (body : Z -> M S unit) : M S unit :=
  match fuel with
  | O => no_fuel
  | Datatypes.S fuel =>
      if va <? end_ then body va;;; for_pages fuel (u64 (va + PGSIZE)) end_ body else ret tt
  end.
(** A page-aligned bound is hit exactly, so va does not wrap; with an unaligned
    bound above 2^64 - PGSIZE every body in this file has panicked at VA_MAX. *)
Definition pages_fuel (va end_ : Z) : nat := Z.to_nat ((end_ - va) / PGSIZE) + 2.

(** A store through the null page faults. *)
Definition memmove_m (dst src n : Z) : M pmem unit :=
  if dst =? NULL then fault else modify (fun s => set_pm (memmove (pm s) dst src n) s).

(** ** Copying page tables *)

Definition copy_range (old new begin end_ : Z) : M pmem unit :=
  for_pages (pages_fuel begin end_) begin end_ (fun va =>
    let* pte := vm_getpte old va false in
    assert_ (negb (pte =? NULL)) "uvm_copy_pgtbl: pte == NULL";;;
    let* v := peek64 pte in
    assert_ (pte_valid v) "uvm_copy_pgtbl: pte not valid";;;
    let pa := PTE_TO_PA v in
    let flags := PTE_FLAGS v in
    let* page := pmem_alloc false in
    memmove_m page pa PGSIZE;;;
    vm_mappages new va page PGSIZE flags).

Definition MMAP_END : Z := VA_MAX - 34 * PGSIZE.
Definition MMAP_BEGIN : Z := MMAP_END - 8096 * PGSIZE.

Definition uvm_copy_pgtbl (old new heap_top ustack_pages : Z) : M pmem unit :=
  copy_range old new PGSIZE heap_top;;;
  let ustack_begin := u64 (TRAPFRAME - bytes_of ustack_pages) in
  copy_range old new ustack_begin TRAPFRAME;;;
  for_pages (pages_fuel MMAP_BEGIN MMAP_END) MMAP_BEGIN MMAP_END (fun va =>
    let* pte := vm_getpte old va false in
    let* v := peek64 pte in
    when (negb (pte =? NULL) && pte_valid v)
      (let pa := PTE_TO_PA v in
       let flags := PTE_FLAGS v in
       let* page := pmem_alloc false in
       when (page =? 0) (panic "uvm_copy_pgtbl: out of memory for mmap");;;
       modify (fun s => set_pm (memmove (pm s) page pa PGSIZE) s);;;
       vm_mappages new va page PGSIZE flags)).

(** ** Destroying page tables *)

Fixpoint destroy_pgtbl (level : nat) (pgtbl : Z) : M pmem unit :=
  for_ 512 0 1 (fun i =>
    let* pte := peek64 (pgtbl + 8 * i) in
    if negb (pte_valid pte) then ret tt
    else
      match level with
      | O => pmem_free (PTE_TO_PA pte) false
      | S level' =>
          if PTE_CHECK pte then destroy_pgtbl level' (PTE_TO_PA pte)
          else pmem_free (PTE_TO_PA pte) false
      end);;;
  pmem_free pgtbl false.

Definition uvm_destroy_pgtbl (pgtbl : Z) : M pmem unit :=
  vm_unmappages pgtbl TRAMPOLINE PGSIZE false;;;
  vm_unmappages pgtbl TRAPFRAME PGSIZE true;;;
  destroy_pgtbl 2 pgtbl.

(** ** The heap *)

Definition uvm_heap_grow (pgtbl heap_top len : Z) : M pmem Z :=
  let new_heap_top := u64 (heap_top + len) in
  let old_aligned := PG_ROUND_UP heap_top in
  let new_aligned := PG_ROUND_UP new_heap_top in
  for_pages (pages_fuel old_aligned new_aligned) old_aligned new_aligned (fun va =>
    let* pa := pmem_alloc false in
    when (pa =? 0) (panic "uvm_heap_grow: out of memory");;;
    zero_page pa;;;
    vm_mappages pgtbl va pa PGSIZE (Z.lor (Z.lor PTE_R PTE_W) PTE_U));;;
  ret new_heap_top.

Definition uvm_heap_ungrow (pgtbl heap_top len : Z) : M pmem Z :=
  let new_heap_top := u64 (heap_top - len) in
  let old_aligned := PG_ROUND_UP heap_top in
  let new_aligned := PG_ROUND_UP new_heap_top in
  when (new_aligned <? old_aligned)
    (let npages := (old_aligned - new_aligned) / PGSIZE in
     vm_unmappages pgtbl new_aligned (npages * PGSIZE) true);;;
  ret new_heap_top.

(** ** Copies between user and kernel memory *)

(** Each iteration copies at least one byte, so [len] + 1 tests are enough. *)
Fixpoint copyin_loop (fuel : nat) (pgtbl dst src len : Z) : M pmem unit :=
  match fuel with
  | O => no_fuel
  | S fuel =>
      if 0 <? len then
        let va0 := PG_ROUND_DOWN src in
        let* pte := vm_getpte pgtbl va0 false in
        let* v := peek64 pte in
        when ((pte =? NULL) || negb (pte_valid v)) (panic "uvm_copyin: invalid page");;;
        let pa0 := PTE_TO_PA v in
        let n := PGSIZE - (src - va0) in
        let n := if len <? n then len else n in
        modify (fun s => set_pm (memmove (pm s) dst (u64 (pa0 + (src - va0))) n) s);;;
        copyin_loop fuel pgtbl (u64 (dst + n)) (u64 (va0 + PGSIZE)) (len - n)
      else ret tt
  end.
Definition uvm_copyin (pgtbl dst src len : Z) : M pmem unit :=
  copyin_loop (S (Z.to_nat len)) pgtbl dst src len.

Fixpoint copyout_loop (fuel : nat) (pgtbl dst src len : Z) : M pmem unit :=
  match fuel with
  | O => no_fuel
  | S fuel =>
      if 0 <? len then
        let va0 := PG_ROUND_DOWN dst in
        let* pte := vm_getpte pgtbl va0 false in
        let* v := peek64 pte in
        when ((pte =? NULL) || negb (pte_valid v)) (panic "uvm_copyout: invalid page");;;
        let pa0 := PTE_TO_PA v in
        let n := PGSIZE - (dst - va0) in
        let n := if len <? n then len else n in
        modify (fun s => set_pm (memmove (pm s) (u64 (pa0 + (dst - va0))) src n) s);;;
        copyout_loop fuel pgtbl (u64 (va0 + PGSIZE)) (u64 (src + n)) (len - n)
      else ret tt
  end.
Definition uvm_copyout (pgtbl dst src len : Z) : M pmem unit :=
  copyout_loop (S (Z.to_nat len)) pgtbl dst src len.

(** The inner byte loop of uvm_copyin_str: [n] bytes of this page at most;
    returns got_null with the advanced [dst] and the remaining [maxlen]. *)
Fixpoint str_page (n : nat) (m : memory) (p dst maxlen : Z) : memory * bool * Z * Z :=
  match n with
  | O => (m, false, dst, maxlen)
  | S n =>
      if ld8 m p =? 0 then (st8 m dst 0, true, dst, maxlen)
      else str_page n (st8 m dst (ld8 m p)) (p + 1) (dst + 1) (maxlen - 1)
  end.
Fixpoint copyin_str_loop (fuel : nat) (pgtbl dst src maxlen : Z) (got_null : bool) : M pmem unit :=
  match fuel with
  | O => no_fuel
  | S fuel =>
      if negb got_null && (0 <? maxlen) then
        let va0 := PG_ROUND_DOWN src in
        let* pte := vm_getpte pgtbl va0 false in
        let* v := peek64 pte in
        when ((pte =? NULL) || negb (pte_valid v)) (panic "uvm_copyin_str: invalid page");;;
        let pa0 := PTE_TO_PA v in
        let n := PGSIZE - (src - va0) in
        let n := if maxlen <? n then maxlen else n in
        let* s := get in
        let '(m, got_null, dst, maxlen) := str_page (Z.to_nat n) (pm s) (pa0 + (src - va0)) dst maxlen in
        modify (set_pm m);;;
        copyin_str_loop fuel pgtbl dst (u64 (va0 + PGSIZE)) maxlen got_null
      else ret tt
  end.
Definition uvm_copyin_str (pgtbl dst src maxlen : Z) : M pmem unit :=
  copyin_str_loop (S (Z.to_nat maxlen)) pgtbl dst src maxlen false.

(** ** The mmap list of a process *)

Definition mmap_merge (mmap_1 mmap_2 : option nat) (keep_mmap_1 : bool) : M vproc unit :=
  assert_ (bool_decide (mmap_1 <> None) && bool_decide (mmap_2 <> None)) "mmap_merge: NULL";;;
  let* r1 := rd_region mmap_1 in
  let* r2 := rd_region mmap_2 in
  assert_ (u64 (mbegin r1 + bytes_of (mnpages r1)) =? mbegin r2) "mmap_merge: check fail";;;
  if keep_mmap_1 then
    wr_region mmap_1 (set_mnpages (u32 (mnpages r1 + mnpages r2)));;;
    zoom vp_repo (mmap_region_free mmap_2)
  else
    wr_region mmap_2 (set_mbegin (u64 (mbegin r2 - bytes_of (mnpages r1))));;;
    wr_region mmap_2 (set_mnpages (u32 (mnpages r2 + mnpages r1)));;;
    zoom vp_repo (mmap_region_free mmap_1).

(** What uvm_show_mmaplist prints: the regions of the list. *)
Fixpoint uvm_show_mmaplist (fuel : nat) (mmap : option nat) : M vproc (list (Z * Z)) :=
  match fuel, mmap with
  | O, _ => no_fuel
  | _, None => ret []
  | S fuel, Some _ =>
      let* r := rd_region mmap in
      let* l := uvm_show_mmaplist fuel (mnext r) in
      ret ((mbegin r, u64 (mbegin r + bytes_of (mnpages r))) :: l)
  end.

(** The list loop of uvm_mmap: cut [begin, begin + len) out of the free region
    that contains it, if there is one. *)
Fixpoint mmap_carve (fuel : nat) (prev curr : option nat) (begin npages len : Z) : M vproc unit :=
  match fuel with
  | O => no_fuel
  | S fuel =>
      match curr with
      | None => ret tt
      | Some _ =>
          let* r := rd_region curr in
          let region_end := u64 (mbegin r + bytes_of (mnpages r)) in
          if (mbegin r <=? begin) && (u64 (begin + len) <=? region_end) then
            if (begin =? mbegin r) && (len =? bytes_of (mnpages r)) then
              (match prev with
               | None => modify (set_pmmap (mnext r))
               | Some _ => wr_region prev (set_mnext (mnext r))
               end);;;
              zoom vp_repo (mmap_region_free curr)
            else if begin =? mbegin r then
              wr_region curr (set_mbegin (u64 (mbegin r + len)));;;
              wr_region curr (set_mnpages (u32 (mnpages r - npages)))
            else if u64 (begin + len) =? region_end then
              wr_region curr (set_mnpages (u32 (mnpages r - npages)))
            else
              let* new_region := zoom vp_repo mmap_region_alloc in
              wr_region new_region (set_mbegin (u64 (begin + len)));;;
              wr_region new_region (set_mnpages (u32 (u64 (region_end - begin - len) / PGSIZE)));;;
              wr_region new_region (set_mnext (mnext r));;;
              wr_region curr (set_mnpages (u32 (u64 (begin - mbegin r) / PGSIZE)));;;
              wr_region curr (set_mnext new_region)
          else mmap_carve fuel curr (mnext r) begin npages len
      end
  end.
(** A list of distinct nodes has at most N_MMAP - 1 of them. *)
Definition list_fuel : nat := Z.to_nat N_MMAP.

Definition uvm_mmap (p_pgtbl begin npages perm : Z) : M vproc unit :=
  if npages =? 0 then ret tt
  else
    assert_ (begin mod PGSIZE =? 0) "uvm_mmap: begin not aligned";;;
    let len := bytes_of npages in
    let* h := gets pmmap in
    mmap_carve list_fuel None h begin npages len;;;
    for_ (Z.to_nat npages) 0 1 (fun i =>
      let va := u64 (begin + bytes_of i) in
      let* pa := zoom vp_pmem (pmem_alloc false) in
      when (pa =? 0) (panic "uvm_mmap: out of memory");;;
      zoom vp_pmem (zero_page pa);;;
      zoom vp_pmem (vm_mappages p_pgtbl va pa PGSIZE (Z.lor perm PTE_U))).

(** [while (curr->next != NULL && curr->next->begin < begin) curr = curr->next;] *)
Fixpoint insert_pos (fuel : nat) (curr : option nat) (begin : Z) : M vproc (option nat) :=
  match fuel with
  | O => no_fuel
  | S fuel =>
      let* r := rd_region curr in
      match mnext r with
      | None => ret curr
      | Some _ =>
          let* rn := rd_region (mnext r) in
          if mbegin rn <? begin then insert_pos fuel (mnext r) begin else ret curr
      end
  end.
(** [while (curr != new_region && curr != NULL) { prev = curr; curr = curr->next; }] *)
Fixpoint find_prev (fuel : nat) (prev curr new_region : option nat) : M vproc (option nat) :=
  match fuel with
  | O => no_fuel
  | S fuel =>
      if bool_decide (curr <> new_region) && bool_decide (curr <> None) then
        let* r := rd_region curr in
        find_prev fuel curr (mnext r) new_region
      else ret prev
  end.

(** The list part of uvm_munmap: insert the region in address order, then merge
    it with its successor and its predecessor. *)
Definition insert_region (new_region : option nat) (begin : Z) : M vproc unit :=
  let* h := gets pmmap in
  let* first := (match h with None => ret true | Some _ => let* r := rd_region h in ret (begin <? mbegin r) end) in
  if first then
    wr_region new_region (set_mnext h);;;
    modify (set_pmmap new_region)
  else
    let* curr := insert_pos list_fuel h begin in
    let* r := rd_region curr in
    wr_region new_region (set_mnext (mnext r));;;
    wr_region curr (set_mnext new_region).
Definition merge_next (new_region : option nat) : M vproc unit :=
  let* nr := rd_region new_region in
  let* join := (match mnext nr with
                | None => ret false
                | Some _ => let* rn := rd_region (mnext nr) in
                    ret (u64 (mbegin nr + bytes_of (mnpages nr)) =? mbegin rn)
                end) in
  when join
    (let to_merge := mnext nr in
     let* rm := rd_region to_merge in
     wr_region new_region (set_mnext (mnext rm));;;
     mmap_merge new_region to_merge true).
Definition merge_prev (new_region : option nat) : M vproc unit :=
  let* h := gets pmmap in
  let* prev := find_prev list_fuel None h new_region in
  match prev with
  | None => ret tt
  | Some _ =>
      let* rp := rd_region prev in
      let* nr := rd_region new_region in
      when (u64 (mbegin rp + bytes_of (mnpages rp)) =? mbegin nr)
        (wr_region prev (set_mnext (mnext nr));;;
         mmap_merge prev new_region true)
  end.
Definition munmap_insert (begin npages : Z) : M vproc unit :=
  let* new_region := zoom vp_repo mmap_region_alloc in
  wr_region new_region (set_mbegin begin);;;
  wr_region new_region (set_mnpages npages);;;
  wr_region new_region (set_mnext None);;;
  insert_region new_region begin;;;
  merge_next new_region;;;
  merge_prev new_region.

Definition uvm_munmap (p_pgtbl begin npages : Z) : M vproc unit :=
  if npages =? 0 then ret tt
  else
    assert_ (begin mod PGSIZE =? 0) "uvm_munmap: begin not aligned";;;
    munmap_insert begin npages;;;
    zoom vp_pmem (vm_unmappages p_pgtbl begin (bytes_of npages) true).
