(* ===== verification/UvmSpec.v ===== *)
(** * Properties of mem/uvm.c: copies between user and kernel, and the heap *)

From S2P Require Import Prelude Machine Str Lock Pmem Kvm KvmSpec Mmap Uvm.

(** ** User addresses *)

(** The physical address behind a user address, and whether it is mapped. *)
Definition upa (m : memory) (root va : Z) : Z := PTE_TO_PA (pte_of m root va) + va mod PGSIZE.
Definition uvalid (m : memory) (root va : Z) : bool := pte_valid (pte_of m root va).

(** A byte of some table of [root]. *)
Definition table_byte (m : memory) (root a : Z) : Prop :=
  exists q t, prefix_ok q /\ tbl_at m root q = Some t /\ t <= a < t + PGSIZE.

Lemma tbl_frame m m' root : (forall a, table_byte m root a -> ld8 m' a = ld8 m a) ->
  forall q, prefix_ok q -> tbl_at m' root q = tbl_at m root q.
Proof.
  intros H q Hq. apply tbl_at_frame. intros q1 j q2 t -> Ht.
  pose proof (prefix_ok_mid _ _ _ Hq). apply ld_ext. intros b Hb. apply H.
  exists q1, t. split_and!; [by eapply prefix_ok_app|done| |]; unfold PGSIZE; simpl in Hb; lia.
Qed.
Lemma pte_frame m m' root : (forall a, table_byte m root a -> ld8 m' a = ld8 m a) ->
  forall va, pte_of m' root va = pte_of m root va.
Proof.
  intros H va. unfold pte_of. rewrite !walk_tbl, (tbl_frame m m' root H) by apply vpns_ok.
  destruct (tbl_at m root (vpns va)) as [t|] eqn:Ht; [|done]. cbn [mbind option_bind].
  pose proof (VPN_bound va 0). apply ld_ext. intros b Hb. apply H.
  exists (vpns va), t. split_and!; [apply vpns_ok|done| |]; unfold PGSIZE; simpl in Hb; lia.
Qed.
Lemma table_byte_frame m m' root : (forall a, table_byte m root a -> ld8 m' a = ld8 m a) ->
  forall a, table_byte m' root a -> table_byte m root a.
Proof. intros H a (q & t & Hq & Ht & Ha). exists q, t. by rewrite (tbl_frame m m' root H) in Ht. Qed.

Lemma pte_page m root va va' : va / PGSIZE = va' / PGSIZE -> pte_of m root va = pte_of m root va'.
Proof.
  intros H. unfold pte_of. rewrite !walk_tbl. rewrite (vpns_same _ _ (page_region _ _ H)).
  by rewrite (VPN0_same _ _ H).
Qed.
Lemma pte_round m root va : pte_of m root (PG_ROUND_DOWN va) = pte_of m root va.
Proof. apply pte_page. rewrite PG_ROUND_DOWN_eq. unfold PGSIZE. by rewrite Z.div_mul. Qed.
Lemma PTE_TO_PA_bound v : 0 <= PTE_TO_PA v /\ PTE_TO_PA v + PGSIZE <= 2 ^ 64.
Proof.
  unfold PTE_TO_PA. rewrite Z.shiftl_mul_pow2 by lia. unfold u64. change (2 ^ 64) with (2 ^ 52 * 2 ^ 12).
  rewrite Z.mul_mod_distr_r by lia. pose proof (Z.mod_pos_bound (Z.shiftr v 10) (2 ^ 52)). unfold PGSIZE. lia.
Qed.

(** No table of [root] lies at address 0. *)
Definition tables_nonnull (m : memory) (root : Z) : Prop :=
  forall q t, prefix_ok q -> tbl_at m root q = Some t -> 0 < t.

(** One page of the copy loops: walk and check. *)
Lemma copy_walk root src s (msg : string) (k : Z -> M pmem unit) :
  0 <= src < VA_MAX -> tables_nonnull (pm s) root ->
  (let* pte := vm_getpte root (PG_ROUND_DOWN src) false in
   let* v := peek64 pte in
   when ((pte =? NULL) || negb (pte_valid v)) (panic msg);;; k v) s =
  if uvalid (pm s) root src then k (pte_of (pm s) root src) s else Panic msg.
Proof.
  intros Hsrc Hnn. destruct (PG_ROUND_DOWN_bounds src) as [Hb _].
  assert (PG_ROUND_DOWN src < VA_MAX) as Hlt by lia.
  mrun (vm_getpte_read root _ s Hlt). unfold peek64. mstep.
  unfold uvalid. rewrite <- (pte_round _ _ src). unfold pte_of. rewrite walk_tbl.
  destruct (tbl_at (pm s) root (vpns (PG_ROUND_DOWN src))) as [t|] eqn:Hw;
    cbn [mbind option_bind default from_option id]; [|done].
  pose proof (Hnn _ _ (vpns_ok _) Hw). pose proof (VPN_bound (PG_ROUND_DOWN src) 0).
  bcase (t + 8 * VA_TO_VPN (PG_ROUND_DOWN src) 0 =? NULL); [unfold NULL in *; lia|]. cbn [orb].
  by destruct (pte_valid _).
Qed.

(** The offset arithmetic of one iteration: [n] bytes, all of the page of [src]. *)
Definition chunk (src len : Z) : Z :=
  let n := PGSIZE - (src - PG_ROUND_DOWN src) in if len <? n then len else n.
Lemma chunk_spec src len : 0 < len ->
  1 <= chunk src len <= len /\ src mod PGSIZE + chunk src len <= PGSIZE /\
  (chunk src len < len -> src + chunk src len = PG_ROUND_DOWN src + PGSIZE) /\
  src - PG_ROUND_DOWN src = src mod PGSIZE /\
  (forall i, 0 <= i < chunk src len -> (src + i) / PGSIZE = src / PGSIZE /\
     (src + i) mod PGSIZE = src mod PGSIZE + i).
Proof.
  intros Hlen. unfold chunk. rewrite PG_ROUND_DOWN_eq. unfold PGSIZE.
  pose proof (Z.div_mod src 4096). pose proof (Z.mod_pos_bound src 4096).
  split_and!; [bcase (len <? 4096 - (src - src / 4096 * 4096)); lia..|].
  intros i Hi. assert (0 <= i /\ src mod 4096 + i < 4096) as [? ?]
    by (destruct (len <? 4096 - (src - src / 4096 * 4096)) eqn:E; bprop; lia).
  replace (src + i) with ((src mod 4096 + i) + src / 4096 * 4096) by lia.
  rewrite Z.div_add, Z.mod_add, Z.div_small, Z.mod_small by lia. lia.
Qed.

Lemma chunk_page m root src len i : 0 < len -> 0 <= i < chunk src len ->
  uvalid m root (src + i) = uvalid m root src /\ upa m root (src + i) = upa m root src + i.
Proof.
  intros Hlen Hi. destruct (chunk_spec src len Hlen) as (_ & _ & _ & _ & Hin). destruct (Hin i Hi) as [Hq Hm].
  unfold uvalid, upa. rewrite (pte_page _ _ _ _ Hq), Hm. split; [done|lia].
Qed.
(** Where the next iteration starts. *)
Lemma chunk_next src len : 0 < len -> 0 <= src -> src + len <= VA_MAX -> chunk src len < len ->
  u64 (PG_ROUND_DOWN src + PGSIZE) = src + chunk src len.
Proof.
  intros Hlen Hs Hm Hlt. destruct (chunk_spec src len Hlen) as (Hn & _ & Hnext & _). rewrite <- (Hnext Hlt).
  apply u64_small. change VA_MAX with (2 ^ 38) in Hm. lia.
Qed.
Lemma upa_bound m root src len : 0 < len -> 0 <= upa m root src /\ upa m root src + chunk src len <= 2 ^ 64.
Proof.
  intros Hlen. destruct (chunk_spec src len Hlen) as (Hn & Hpg & _). unfold upa.
  pose proof (PTE_TO_PA_bound (pte_of m root src)). pose proof (Z.mod_pos_bound src PGSIZE ltac:(done)). lia.
Qed.

(** ** Memory changed outside the tables *)

Definition tables_kept (m m1 : memory) (root : Z) : Prop := forall a, table_byte m root a -> ld8 m1 a = ld8 m a.

(** The kernel buffer shares no byte with the tables nor with the user range. *)
Definition kbuf_apart (m : memory) (root ubase kbase len : Z) : Prop :=
  forall a, kbase <= a < kbase + len -> ~ table_byte m root a /\
    forall i, 0 <= i < len -> upa m root (ubase + i) <> a.
(** The user range is backed by distinct bytes, none of them in a table or in
    the kernel buffer. *)
Definition ubuf_apart (m : memory) (root ubase kbase len : Z) : Prop :=
  forall i, 0 <= i < len -> uvalid m root (ubase + i) = true ->
    ~ table_byte m root (upa m root (ubase + i)) /\
    ~ kbase <= upa m root (ubase + i) < kbase + len /\
    forall j, 0 <= j < len -> uvalid m root (ubase + j) = true ->
      upa m root (ubase + i) = upa m root (ubase + j) -> i = j.

Section kept.
  Context (m m1 : memory) (root : Z) (K : tables_kept m m1 root).

Lemma upa_kept va : upa m1 root va = upa m root va.
Proof. unfold upa. by rewrite (pte_frame _ _ _ K). Qed.
Lemma uvalid_kept va : uvalid m1 root va = uvalid m root va.
Proof. unfold uvalid. by rewrite (pte_frame _ _ _ K). Qed.
Lemma nonnull_kept : tables_nonnull m root -> tables_nonnull m1 root.
Proof. intros Hnn q t Hq Ht. rewrite (tbl_frame _ _ _ K) in Ht by done. by eapply Hnn. Qed.
Lemma kbuf_apart_kept u k len n : 0 <= n ->
  kbuf_apart m root u k len -> kbuf_apart m1 root (u + n) (k + n) (len - n).
Proof.
  intros Hn Hap a Ha. destruct (Hap a ltac:(lia)) as [H1 H2]. split.
  - intros Hx. by apply H1, (table_byte_frame _ _ _ K).
  - intros i Hi. rewrite upa_kept, <- Z.add_assoc. apply H2. lia.
Qed.
Lemma ubuf_apart_kept u k len n : 0 <= n ->
  ubuf_apart m root u k len -> ubuf_apart m1 root (u + n) (k + n) (len - n).
Proof.
  intros Hn Hap i Hi. rewrite uvalid_kept, upa_kept, <- Z.add_assoc. intros Hvi.
  destruct (Hap (n + i) ltac:(lia) Hvi) as (H1 & H2 & H3). split_and!; [|lia|].
  - intros Hx. by apply H1, (table_byte_frame _ _ _ K).
  - intros j Hj. rewrite uvalid_kept, upa_kept, <- Z.add_assoc. intros Hvj Heq.
    pose proof (H3 (n + j) ltac:(lia) Hvj Heq). lia.
Qed.
End kept.

(** ** uvm_copyin *)

Lemma copyin_step fuel root dst src len s :
  (0 < fuel)%nat -> 0 < len -> 0 <= src -> src + len <= VA_MAX -> 0 <= dst -> dst + len < 2 ^ 64 ->
  tables_nonnull (pm s) root ->
  copyin_loop (S fuel) root dst src len s =
  if uvalid (pm s) root src
  then copyin_loop fuel root (dst + chunk src len) (src + chunk src len) (len - chunk src len)
         (set_pm (memmove (pm s) dst (upa (pm s) root src) (chunk src len)) s)
  else Panic "uvm_copyin: invalid page".
Proof.
  intros Hf Hlen Hsrc Hmax Hdst Hd64 Hnn. destruct (chunk_spec src len Hlen) as (Hn & _ & _ & Hoff & _).
  cbn [copyin_loop]. bcase (0 <? len); [|lia]. cbn zeta. fold (chunk src len).
  rewrite copy_walk by (done || lia). destruct (uvalid (pm s) root src); [|done].
  pose proof (upa_bound (pm s) root src len Hlen) as Hb. unfold upa in *.
  mstep. rewrite Hoff, (u64_small (PTE_TO_PA _ + _)), (u64_small (dst + _)) by lia.
  destruct (decide (chunk src len = len)) as [->|Hne].
  - destruct fuel as [|fuel]; [lia|]. cbn [copyin_loop]. by rewrite Z.sub_diag.
  - by rewrite (chunk_next src len) by lia.
Qed.

(** What one chunk of a copy into the kernel buffer leaves in memory. *)
Lemma copyin_chunk m root dst src len (m1 := memmove m dst (upa m root src) (chunk src len)) :
  0 < len -> kbuf_apart m root src dst len ->
  tables_kept m m1 root /\
  (forall i, 0 <= i < chunk src len -> ld8 m1 (dst + i) = ld8 m (upa m root (src + i))) /\
  (forall a, ~ dst <= a < dst + chunk src len -> ld8 m1 a = ld8 m a).
Proof.
  intros Hlen Hap. destruct (chunk_spec src len Hlen) as (Hn & _).
  assert (forall a, ~ dst <= a < dst + chunk src len -> ld8 m1 a = ld8 m a) as Hout by (intros a Ha; apply memmove_out; lia).
  split_and!; [| |done].
  - intros a Ha. apply Hout. intros Hr. by destruct (Hap a ltac:(lia)).
  - intros i Hi. destruct (chunk_page m root src len i Hlen Hi) as [_ ->]. unfold m1. rewrite memmove_in by lia.
    f_equal. lia.
Qed.

Lemma copyin_loop_ok fuel root dst src len s :
  (Z.to_nat len < fuel)%nat -> 0 <= len -> 0 <= src -> src + len <= VA_MAX -> 0 <= dst -> dst + len < 2 ^ 64 ->
  tables_nonnull (pm s) root -> kbuf_apart (pm s) root src dst len ->
  ((forall i, 0 <= i < len -> uvalid (pm s) root (src + i) = true) ->
     exists m', copyin_loop fuel root dst src len s = Ret tt (set_pm m' s) /\
       (forall i, 0 <= i < len -> ld8 m' (dst + i) = ld8 (pm s) (upa (pm s) root (src + i))) /\
       (forall a, ~ dst <= a < dst + len -> ld8 m' a = ld8 (pm s) a)) /\
  ((exists i, 0 <= i < len /\ uvalid (pm s) root (src + i) = false) ->
     copyin_loop fuel root dst src len s = Panic "uvm_copyin: invalid page").
Proof.
  revert dst src len s. induction fuel as [|fuel IH]; intros dst src len s Hf Hlen Hsrc Hmax Hdst Hd64 Hnn Hap; [lia|].
  destruct (decide (len = 0)) as [->|Hne].
  { split; [|intros (i & Hi & _); lia]. intros _. exists (pm s). split_and!; [by destruct s|lia|done]. }
  rewrite copyin_step by (done || lia). pose proof (chunk_page (pm s) root src len) as Hpg.
  destruct (chunk_spec src len ltac:(lia)) as (Hn & _).
  destruct (copyin_chunk (pm s) root dst src len ltac:(lia) Hap) as (K & Hcp & Hout).
  destruct (uvalid (pm s) root src) eqn:Hv.
  2:{ split; [|done]. intros Hall. specialize (Hall 0 ltac:(lia)). rewrite Z.add_0_r in Hall. congruence. }
  set (n := chunk src len) in *. set (m1 := memmove _ _ _ _) in *.
  destruct (IH (dst + n) (src + n) (len - n) (set_pm m1 s)) as [IHok IHbad];
    [lia..|by apply (nonnull_kept _ _ _ K)|apply (kbuf_apart_kept _ _ _ K); (done || lia)|].
  cbn [pm set_pm] in *. split.
  - intros Hall. destruct IHok as (m' & Hrun & Hcp' & Hout').
    { intros i Hi. rewrite (uvalid_kept _ _ _ K), <- Z.add_assoc. apply Hall. lia. }
    exists m'. split_and!; [done| |intros a Ha; rewrite Hout' by lia; apply Hout; lia].
    intros i Hi. destruct (decide (i < n)); [rewrite Hout' by lia; apply Hcp; lia|].
    replace (dst + i) with (dst + n + (i - n)) by lia. rewrite Hcp', (upa_kept _ _ _ K) by lia.
    replace (src + n + (i - n)) with (src + i) by lia. apply Hout.
    intros Hr. destruct (Hap (upa (pm s) root (src + i)) ltac:(lia)) as [_ H2]. by apply (H2 i).
  - intros (i & Hi & Hf0). apply IHbad. exists (i - n).
    destruct (decide (i < n)); [destruct (Hpg i); [lia..|congruence]|].
    split; [lia|]. rewrite (uvalid_kept _ _ _ K). by replace (src + n + (i - n)) with (src + i) by lia.
Qed.

(** ** uvm_copyout *)

Lemma copyout_step fuel root dst src len s :
  (0 < fuel)%nat -> 0 < len -> 0 <= dst -> dst + len <= VA_MAX -> 0 <= src -> src + len < 2 ^ 64 ->
  tables_nonnull (pm s) root ->
  copyout_loop (S fuel) root dst src len s =
  if uvalid (pm s) root dst
  then copyout_loop fuel root (dst + chunk dst len) (src + chunk dst len) (len - chunk dst len)
         (set_pm (memmove (pm s) (upa (pm s) root dst) src (chunk dst len)) s)
  else Panic "uvm_copyout: invalid page".
Proof.
  intros Hf Hlen Hdst Hmax Hsrc Hs64 Hnn. destruct (chunk_spec dst len Hlen) as (Hn & _ & _ & Hoff & _).
  cbn [copyout_loop]. bcase (0 <? len); [|lia]. cbn zeta. fold (chunk dst len).
  rewrite copy_walk by (done || lia). destruct (uvalid (pm s) root dst); [|done].
  pose proof (upa_bound (pm s) root dst len Hlen) as Hb. unfold upa in *.
  mstep. rewrite Hoff, (u64_small (PTE_TO_PA _ + _)), (u64_small (src + _)) by lia.
  destruct (decide (chunk dst len = len)) as [->|Hne].
  - destruct fuel as [|fuel]; [lia|]. cbn [copyout_loop]. by rewrite Z.sub_diag.
  - by rewrite (chunk_next dst len) by lia.
Qed.

(** What one chunk of a copy into user memory leaves in memory. *)
Lemma copyout_chunk m root dst src len (m1 := memmove m (upa m root dst) src (chunk dst len)) :
  0 < len -> uvalid m root dst = true -> ubuf_apart m root dst src len ->
  tables_kept m m1 root /\
  (forall i, 0 <= i < chunk dst len -> ld8 m1 (upa m root (dst + i)) = ld8 m (src + i)) /\
  (forall a, (forall i, 0 <= i < chunk dst len -> upa m root (dst + i) <> a) -> ld8 m1 a = ld8 m a) /\
  (forall i, 0 <= i < len -> ld8 m1 (src + i) = ld8 m (src + i)).
Proof.
  intros Hlen Hv Hap. destruct (chunk_spec dst len Hlen) as (Hn & _).
  pose proof (fun i => chunk_page m root dst len i Hlen) as Hpg.
  assert (forall a, (forall i, 0 <= i < chunk dst len -> upa m root (dst + i) <> a) -> ld8 m1 a = ld8 m a) as Hout.
  { intros a Ha. apply memmove_out; [lia|].
    destruct (decide (upa m root dst <= a < upa m root dst + chunk dst len)); [|lia].
    destruct (Ha (a - upa m root dst)); [lia|]. rewrite (proj2 (Hpg (a - upa m root dst) ltac:(lia))). lia. }
  split_and!; [| |done|].
  - intros a Ha. apply Hout. intros i Hi <-. destruct (Hap i ltac:(lia)) as [Hno _]; [by rewrite (proj1 (Hpg i Hi))|done].
  - intros i Hi. rewrite (proj2 (Hpg i Hi)). unfold m1. rewrite memmove_in by lia. f_equal. lia.
  - intros i Hi. apply Hout. intros j Hj Heq.
    destruct (Hap j ltac:(lia)) as (_ & Hno & _); [by rewrite (proj1 (Hpg j Hj))|lia].
Qed.

Lemma copyout_loop_ok fuel root dst src len s :
  (Z.to_nat len < fuel)%nat -> 0 <= len -> 0 <= dst -> dst + len <= VA_MAX -> 0 <= src -> src + len < 2 ^ 64 ->
  tables_nonnull (pm s) root -> ubuf_apart (pm s) root dst src len ->
  ((forall i, 0 <= i < len -> uvalid (pm s) root (dst + i) = true) ->
     exists m', copyout_loop fuel root dst src len s = Ret tt (set_pm m' s) /\
       (forall i, 0 <= i < len -> ld8 m' (upa (pm s) root (dst + i)) = ld8 (pm s) (src + i)) /\
       (forall a, (forall i, 0 <= i < len -> upa (pm s) root (dst + i) <> a) -> ld8 m' a = ld8 (pm s) a)) /\
  ((exists i, 0 <= i < len /\ uvalid (pm s) root (dst + i) = false) ->
     copyout_loop fuel root dst src len s = Panic "uvm_copyout: invalid page").
Proof.
  revert dst src len s. induction fuel as [|fuel IH]; intros dst src len s Hf Hlen Hdst Hmax Hsrc Hs64 Hnn Hap; [lia|].
  destruct (decide (len = 0)) as [->|Hne].
  { split; [|intros (i & Hi & _); lia]. intros _. exists (pm s). split_and!; [by destruct s|lia|done]. }
  rewrite copyout_step by (done || lia). pose proof (chunk_page (pm s) root dst len) as Hpg.
  destruct (chunk_spec dst len ltac:(lia)) as (Hn & _).
  destruct (uvalid (pm s) root dst) eqn:Hv.
  2:{ split; [|done]. intros Hall. specialize (Hall 0 ltac:(lia)). rewrite Z.add_0_r in Hall. congruence. }
  destruct (copyout_chunk (pm s) root dst src len ltac:(lia) Hv Hap) as (K & Hcp & Hout & Hsrc1).
  set (n := chunk dst len) in *. set (m1 := memmove _ _ _ _) in *.
  destruct (IH (dst + n) (src + n) (len - n) (set_pm m1 s)) as [IHok IHbad];
    [lia..|by apply (nonnull_kept _ _ _ K)|apply (ubuf_apart_kept _ _ _ K); (done || lia)|].
  cbn [pm set_pm] in *. split.
  - intros Hall. destruct IHok as (m' & Hrun & Hcp' & Hout').
    { intros i Hi. rewrite (uvalid_kept _ _ _ K), <- Z.add_assoc. apply Hall. lia. }
    exists m'. split_and!; [done| |].
    + intros i Hi. destruct (decide (i < n)).
      * rewrite Hout'; [apply Hcp; lia|]. intros j Hj. rewrite (upa_kept _ _ _ K), <- Z.add_assoc. intros Heq.
        destruct (Hap (n + j) ltac:(lia)) as (_ & _ & H3); [apply Hall; lia|].
        pose proof (H3 i ltac:(lia) (Hall i Hi) Heq). lia.
      * specialize (Hcp' (i - n) ltac:(lia)). rewrite (upa_kept _ _ _ K) in Hcp'.
        replace (dst + n + (i - n)) with (dst + i) in Hcp' by lia. rewrite Hcp'.
        replace (src + n + (i - n)) with (src + i) by lia. apply Hsrc1. lia.
    + intros a Ha. rewrite Hout'; [apply Hout; intros i Hi; apply Ha; lia|].
      intros i Hi. rewrite (upa_kept _ _ _ K), <- Z.add_assoc. apply Ha. lia.
  - intros (i & Hi & Hf0). apply IHbad. exists (i - n).
    destruct (decide (i < n)); [destruct (Hpg i); [lia..|congruence]|].
    split; [lia|]. rewrite (uvalid_kept _ _ _ K). by replace (dst + n + (i - n)) with (dst + i) by lia.
Qed.

(** ** uvm_copyin_str *)

Lemma str_page_spec n m p dst maxlen :
  (forall i j, 0 <= i < Z.of_nat n -> 0 <= j < Z.of_nat n -> p + i <> dst + j) ->
  exists k m' g, str_page n m p dst maxlen = (m', g, dst + k, maxlen - k) /\
    0 <= k <= Z.of_nat n /\ (forall i, 0 <= i < k -> ld8 m (p + i) <> 0) /\
    (if g then k < Z.of_nat n /\ ld8 m (p + k) = 0 /\ ld8 m' (dst + k) = 0 else k = Z.of_nat n) /\
    (forall i, 0 <= i < k -> ld8 m' (dst + i) = ld8 m (p + i)) /\
    (forall a, ~ dst <= a < dst + k + (if g then 1 else 0) -> ld8 m' a = ld8 m a).
Proof.
  revert m p dst maxlen. induction n as [|n IH]; intros m p dst maxlen Hd; cbn [str_page].
  - exists 0, m, false. rewrite !Z.add_0_r, Z.sub_0_r. split_and!; (done || lia).
  - bcase (ld8 m p =? 0).
    + exists 0, (st8 m dst 0), true. rewrite !Z.add_0_r, Z.sub_0_r. split_and!; try (done || lia).
      * by rewrite ld8_st8_eq.
      * intros a Ha. apply ld8_st8_ne. lia.
    + set (m1 := st8 m dst (ld8 m p)).
      assert (forall i, 0 <= i <= Z.of_nat n -> ld8 m1 (p + i) = ld8 m (p + i)) as Hsame.
      { intros i Hi. apply ld8_st8_ne. pose proof (Hd i 0). lia. }
      destruct (IH m1 (p + 1) (dst + 1) (maxlen - 1)) as (k & m' & g & Hrun & Hk & Hnz & Hg & Hcp & Hout).
      { intros i j Hi Hj. pose proof (Hd (i + 1) (j + 1)). lia. }
      exists (k + 1), m', g. rewrite Hrun.
      assert (forall i, p + 1 + i = p + (i + 1)) as Hp1 by (intros; lia).
      assert (forall i, dst + 1 + i = dst + (i + 1)) as Hd1 by (intros; lia).
      split_and!; try lia; [rewrite Hd1; f_equal; lia| | | |].
      * intros i Hi. destruct (decide (i = 0)) as [->|]; [by rewrite Z.add_0_r|].
        specialize (Hnz (i - 1) ltac:(lia)). rewrite Hp1, Hsame in Hnz by lia. by replace (i - 1 + 1) with i in Hnz by lia.
      * destruct g; [|lia]. destruct Hg as (? & Hz & Hz'). rewrite Hp1, Hsame in Hz by lia. rewrite Hd1 in Hz'.
        split_and!; [lia|done|done].
      * intros i Hi. destruct (decide (i = 0)) as [->|].
        { rewrite Hout by (destruct g; lia). rewrite !Z.add_0_r. unfold m1. by rewrite ld8_st8_eq, u8_ld8. }
        specialize (Hcp (i - 1) ltac:(lia)). rewrite Hp1, Hd1, Hsame in Hcp by lia.
        by replace (i - 1 + 1) with i in Hcp by lia.
      * intros a Ha. rewrite Hout by (destruct g; lia). apply ld8_st8_ne. destruct g; lia.
Qed.

(** The characters of the user string. *)
Definition ubyte (m : memory) (root va : Z) : Z := ld8 m (upa m root va).

Lemma copyin_str_step fuel root dst src len s :
  (0 < fuel)%nat -> 0 < len -> 0 <= src -> src + len <= VA_MAX -> tables_nonnull (pm s) root ->
  uvalid (pm s) root src = true ->
  copyin_str_loop (S fuel) root dst src len false s =
  let '(m1, g, dst1, len1) := str_page (Z.to_nat (chunk src len)) (pm s) (upa (pm s) root src) dst len in
  copyin_str_loop fuel root dst1 (u64 (PG_ROUND_DOWN src + PGSIZE)) len1 g (set_pm m1 s).
Proof.
  intros Hf Hlen Hsrc Hmax Hnn Hv. destruct (chunk_spec src len Hlen) as (Hn & _ & _ & Hoff & _).
  cbn [copyin_str_loop negb andb]. bcase (0 <? len); [|lia]. cbn zeta. fold (chunk src len).
  rewrite copy_walk by (done || lia). rewrite Hv. mstep. rewrite Hoff. fold (upa (pm s) root src).
  by destruct (str_page _ _ _ _ _) as [[[m1 g] d1] l1].
Qed.
(** A loop that has seen the terminator, or has no byte left, returns. *)
Lemma copyin_str_stop fuel root dst src len g s : (0 < fuel)%nat -> g = true \/ len = 0 ->
  copyin_str_loop fuel root dst src len g s = Ret tt s.
Proof. intros Hf Hg. destruct fuel as [|fuel]; [lia|]. cbn [copyin_str_loop]. by destruct Hg as [->| ->]; [|destruct g]. Qed.

Definition str_post (root dst src len k : Z) (m m' : memory) : Prop :=
  0 <= k <= len /\ (forall i, 0 <= i < k -> ubyte m root (src + i) <> 0) /\
  (k < len -> ubyte m root (src + k) = 0 /\ ld8 m' (dst + k) = 0) /\
  (forall i, 0 <= i < k -> ld8 m' (dst + i) = ubyte m root (src + i)) /\
  (forall a, ~ dst <= a < dst + Z.min (k + 1) len -> ld8 m' a = ld8 m a).

(** A chunk of nonzero characters followed by a copy of the rest. *)
Lemma str_post_app root dst src len n k m m1 m' : 0 <= n <= len ->
  tables_kept m m1 root -> kbuf_apart m root src dst len ->
  (forall i, 0 <= i < n -> ubyte m root (src + i) <> 0) ->
  (forall i, 0 <= i < n -> ld8 m1 (dst + i) = ubyte m root (src + i)) ->
  (forall a, ~ dst <= a < dst + n -> ld8 m1 a = ld8 m a) ->
  str_post root (dst + n) (src + n) (len - n) k m1 m' -> str_post root dst src len (n + k) m m'.
Proof.
  intros Hn K Hap Hnz Hcp Hout (Hk & Hnz' & Hz' & Hcp' & Hout').
  assert (forall i, 0 <= i < len -> ubyte m1 root (src + i) = ubyte m root (src + i)) as Hub.
  { intros i Hi. unfold ubyte. rewrite (upa_kept _ _ _ K). apply Hout. intros Hr.
    destruct (Hap (upa m root (src + i)) ltac:(lia)) as [_ Hno]. by apply (Hno i). }
  assert (forall i, src + n + i = src + (n + i)) as Hsh by (intros; lia).
  assert (forall i, dst + n + i = dst + (n + i)) as Hdh by (intros; lia).
  split_and!; try lia.
  - intros i Hi. destruct (decide (i < n)); [apply Hnz; lia|].
    specialize (Hnz' (i - n) ltac:(lia)). rewrite Hsh, Hub in Hnz' by lia. by replace (n + (i - n)) with i in Hnz' by lia.
  - intros Hlt. destruct (Hz' ltac:(lia)) as [Hza Hzb]. rewrite Hsh, Hub in Hza by lia. by rewrite Hdh in Hzb.
  - intros i Hi. destruct (decide (i < n)); [rewrite Hout' by lia; apply Hcp; lia|].
    specialize (Hcp' (i - n) ltac:(lia)). rewrite Hsh, Hdh, Hub in Hcp' by lia.
    by replace (n + (i - n)) with i in Hcp' by lia.
  - intros a Ha. rewrite Hout' by lia. apply Hout. lia.
Qed.

Lemma copyin_str_ok fuel root dst src len s :
  (Z.to_nat len < fuel)%nat -> 0 <= len -> 0 <= src -> src + len <= VA_MAX ->
  tables_nonnull (pm s) root -> kbuf_apart (pm s) root src dst len ->
  (forall i, 0 <= i < len -> (forall j, 0 <= j < i -> ubyte (pm s) root (src + j) <> 0) ->
     uvalid (pm s) root (src + i) = true) ->
  exists k m', copyin_str_loop fuel root dst src len false s = Ret tt (set_pm m' s) /\
    str_post root dst src len k (pm s) m'.
Proof.
  revert dst src len s. induction fuel as [|fuel IH]; intros dst src len s Hf Hlen Hsrc Hmax Hnn Hap Hval; [lia|].
  destruct (decide (len = 0)) as [->|Hne].
  { exists 0, (pm s). rewrite copyin_str_stop by (auto; lia). unfold str_post. split_and!; try (lia || done). by destruct s. }
  assert (0 < len) as Hlen' by lia. pose proof (Hval 0 ltac:(lia) ltac:(lia)) as Hv. rewrite Z.add_0_r in Hv.
  rewrite copyin_str_step by (done || lia). destruct (chunk_spec src len Hlen') as (Hn & _).
  pose proof (fun i Hi => proj2 (chunk_page (pm s) root src len i Hlen' Hi)) as Hpai.
  destruct (str_page_spec (Z.to_nat (chunk src len)) (pm s) (upa (pm s) root src) dst len)
    as (k & m1 & g & Hrun & Hk & Hnz & Hg & Hcp & Hout).
  { intros i j Hi Hj Heq. rewrite Z2Nat.id in * by lia. rewrite <- Hpai in Heq by lia.
    destruct (Hap (dst + j) ltac:(lia)) as [_ Hno]. by apply (Hno i ltac:(lia)). }
  rewrite Hrun. rewrite Z2Nat.id in * by lia. set (n := chunk src len) in *.
  assert (forall i, 0 <= i < n -> ubyte (pm s) root (src + i) = ld8 (pm s) (upa (pm s) root src + i)) as Hub
    by (intros i Hi; unfold ubyte; by rewrite Hpai).
  destruct g.
  { (* the terminator is in this page *)
    rewrite copyin_str_stop by (auto; lia). destruct Hg as (Hkn & Hz & Hz'). exists k, m1. unfold str_post.
    split_and!; try done; try lia.
    - intros i Hi. rewrite Hub by lia. by apply Hnz.
    - intros _. by rewrite Hub by lia.
    - intros i Hi. rewrite Hub by lia. by apply Hcp.
    - intros a Ha. apply Hout. lia. }
  subst k. rewrite Z.add_0_r in Hout.
  assert (tables_kept (pm s) m1 root) as K by (intros a Ha; apply Hout; intros Hr; by destruct (Hap a ltac:(lia))).
  assert (exists k m', copyin_str_loop fuel root (dst + n) (u64 (PG_ROUND_DOWN src + PGSIZE)) (len - n) false (set_pm m1 s)
    = Ret tt (set_pm m' s) /\ str_post root (dst + n) (src + n) (len - n) k m1 m') as (k & m' & Hrun' & Hpost).
  { destruct (decide (n = len)) as [Hnl|Hnl].
    - rewrite copyin_str_stop by (lia || right; lia). exists 0, m1. unfold str_post. split_and!; (done || lia).
    - rewrite (chunk_next src len) by lia. apply (IH (dst + n) (src + n) (len - n) (set_pm m1 s)); try lia;
        [by apply (nonnull_kept _ _ _ K)|apply (kbuf_apart_kept _ _ _ K); (done || lia)|].
      intros i Hi Hpre. cbn [pm set_pm] in *. rewrite (uvalid_kept _ _ _ K), <- Z.add_assoc. apply Hval; [lia|].
      intros j Hj. destruct (decide (j < n)); [rewrite Hub by lia; apply Hnz; lia|].
      specialize (Hpre (j - n) ltac:(lia)). replace (src + n + (j - n)) with (src + j) in Hpre by lia.
      unfold ubyte in *. rewrite (upa_kept _ _ _ K), Hout in Hpre; [done|].
      intros Hr. destruct (Hap (upa (pm s) root (src + j)) ltac:(lia)) as [_ Hno]. by apply (Hno j ltac:(lia)). }
  exists (n + k), m'. split; [done|]. apply (str_post_app _ _ _ _ n k _ m1); try done; try lia.
  - intros i Hi. rewrite Hub by done. by apply Hnz.
  - intros i Hi. rewrite Hub by done. by apply Hcp.
Qed.

(** ** Mapping a page fresh from the allocator *)

(** Memory that differs from the allocator's only inside the page [p]. *)
Definition fills (p : Z) (m m1 : memory) : Prop :=
  forall a, ~ p <= a < p + PGSIZE -> ld8 m1 a = ld8 m a.

Record fresh_map (root : Z) (s : pmem) (l : list Z) (p va perm : Z) (m1 : memory) (s2 : pmem) (l2 : list Z) : Prop := {
  fm_list : exists tables, l = tables ++ l2;
  fm_left : (length l <= length l2 + 2)%nat;
  fm_pte : forall va', 0 <= va' < VA_MAX ->
    pte_of (pm s2) root va' = if (va <=? va') && (va' <? va + PGSIZE) then leaf_pte p perm else pte_of (pm s) root va';
  fm_page : forall a, p <= a < p + PGSIZE -> ld8 (pm s2) a = ld8 m1 a;
  fm_notable : forall q t, prefix_ok q -> tbl_at (pm s2) root q = Some t -> t <> p;
  fm_tables : forall q t, prefix_ok q -> tbl_at (pm s2) root q = Some t ->
    tbl_at (pm s) root q = Some t \/ t ∈ l /\ t ∉ l2;
  fm_frame : forall a, ~ table_byte (pm s) root a ->
    (forall t, t ∈ p :: l -> t ∉ l2 -> ~ t <= a < t + PGSIZE) -> ld8 (pm s2) a = ld8 (pm s) a;
  fm_begin : rbegin (user_region s2) = rbegin (user_region s);
  fm_end : rend (user_region s2) = rend (user_region s);
}.

Lemma npages_one va : va mod PGSIZE = 0 -> npages_of va PGSIZE = 1 /\ regions va (va + PGSIZE - 1) = 0.
Proof.
  intros Hm. unfold npages_of, regions. rewrite !PG_ROUND_DOWN_eq.
  assert ((va + PGSIZE - 1) / PGSIZE = va / PGSIZE) as Hd.
  { unfold PGSIZE in *. pose proof (Z.div_mod va 4096).
    replace (va + 4096 - 1) with (4095 + va / 4096 * 4096) by lia. rewrite Z.div_add by lia. done. }
  rewrite (page_region _ _ Hd). unfold PGSIZE in *. rewrite Hd, Z.sub_diag. split; [done|lia].
Qed.

(** A page that is no table of [root] shares no byte with its tables. *)
Lemma page_not_table m root r l p x : pt_ok m root r l -> p mod PGSIZE = 0 ->
  (forall q t, prefix_ok q -> tbl_at m root q = Some t -> t <> p) ->
  p <= x < p + PGSIZE -> ~ table_byte m root x.
Proof.
  intros Hpt Hm Hne Hx (q & t & Hq & Ht & Hxt). destruct (pt_page _ _ _ _ Hpt _ _ Hq Ht) as [(Htm & _) _].
  pose proof (pages_apart t p Htm Hm (Hne _ _ Hq Ht)). lia.
Qed.

(** The state after a page was taken off the free list and filled. *)
Lemma filled_ok root s fl p l m1 (s1 := set_pm m1 (alloc_post false p s)) :
  pmem_ok s fl -> fl false = p :: l -> pt_ok (pm s) root (user_region s) (p :: l) ->
  fills p (pm (alloc_post false p s)) m1 ->
  pmem_ok s1 (fl_set false l fl) /\ pt_ok (pm s1) root (user_region s1) l /\
  (forall q, prefix_ok q -> tbl_at m1 root q = tbl_at (pm s) root q) /\
  (forall va, pte_of m1 root va = pte_of (pm s) root va) /\
  (forall q t, prefix_ok q -> tbl_at (pm s) root q = Some t -> t <> p).
Proof.
  intros Hs Hfl Hpt Hfill. assert (p ∈ fl false) as Hp by (rewrite Hfl; set_solver).
  destruct (pmem_ok_page _ _ _ _ Hs Hp) as (Hpm & _).
  pose proof (rok_nodup _ _ _ (pok_regions _ _ Hs false)) as Hnd. rewrite Hfl in Hnd. apply NoDup_cons in Hnd as [Hnin _].
  destruct (alloc_pt root s fl p l Hs Hfl Hpt) as (Hs1 & Hpt1 & Ht1 & Hl1).
  assert (forall q t, prefix_ok q -> tbl_at (pm s) root q = Some t -> t <> p) as Hnt.
  { intros q t Hq Ht ->. destruct (pt_page _ _ _ _ Hpt _ _ Hq Ht) as [_ Hn]. set_solver. }
  assert (tables_kept (pm (alloc_post false p s)) m1 root) as K.
  { intros a Ha. apply Hfill. intros Hx. eapply page_not_table; [exact Hpt1|exact Hpm| |exact Hx|exact Ha].
    intros q t Hq Ht. rewrite Ht1 in Ht by done. by eapply Hnt. }
  split_and!; [| | | |done].
  - apply pmem_ok_set_pm; [|done]. intros b q Hq. apply ld_ext. intros c Hc. apply Hfill.
    assert (q mod PGSIZE = 0 /\ q <> p) as [Hqm Hqp].
    { destruct b; cbn in Hq.
      - split; [apply (pmem_ok_page _ _ _ _ Hs Hq)|]. intros ->. by apply (pmem_ok_disjoint _ _ _ _ _ _ Hs Hp Hq).
      - split; [|set_solver]. assert (q ∈ fl false) as Hq2 by (rewrite Hfl; set_solver).
        apply (pmem_ok_page _ _ _ _ Hs Hq2). }
    pose proof (pages_apart q p Hqm Hpm Hqp). unfold PGSIZE in *. simpl in Hc. lia.
  - split; intros *.
    + intros Hq Hq'. cbn. rewrite !(tbl_frame _ _ _ K) by done. by eapply pt_inj.
    + intros Hq. cbn. rewrite (tbl_frame _ _ _ K) by done. by eapply pt_page.
  - intros q Hq. rewrite (tbl_frame _ _ _ K) by done. by apply Ht1.
  - intros va. by rewrite (pte_frame _ _ _ K), Hl1.
Qed.

Lemma map_fresh root s fl p l va perm m1 :
  pmem_ok s fl -> fl false = p :: l -> pt_ok (pm s) root (user_region s) (p :: l) ->
  0 <= va -> va mod PGSIZE = 0 -> va + PGSIZE <= VA_MAX -> 0 <= perm < 1024 -> (2 <= length l)%nat ->
  fills p (pm (alloc_post false p s)) m1 ->
  exists s2 l2, vm_mappages root va p PGSIZE perm (set_pm m1 (alloc_post false p s)) = Ret tt s2 /\
    pmem_ok s2 (fl_set false l2 fl) /\ pt_ok (pm s2) root (user_region s2) l2 /\
    fresh_map root s l p va perm m1 s2 l2.
Proof.
  intros Hs Hfl Hpt Hva Hm Hmax Hperm Hlen Hfill.
  assert (p ∈ fl false) as Hp by (rewrite Hfl; set_solver). destruct (pmem_ok_page _ _ _ _ Hs Hp) as (Hpm & Hpb & Hpg).
  pose proof (rok_nodup _ _ _ (pok_regions _ _ Hs false)) as Hnd. rewrite Hfl in Hnd. apply NoDup_cons in Hnd as [Hnin _].
  destruct (filled_ok root s fl p l m1 Hs Hfl Hpt Hfill) as (Hs1 & Hpt1 & Ht1 & Hl1 & Hnt).
  pose proof (alloc_post_user p s) as Hap. pose proof (alloc_frame p s) as Haf.
  generalize dependent (alloc_post false p s). intros s1 Hfill Hs1 Hpt1 Hap Haf.
  destruct (npages_one va Hm) as [Hnp Hreg].
  destruct (vm_mappages_ok root _ (fl_set false l fl) va p PGSIZE perm (Z.of_nat (length l) - 2) Hs1)
    as (s2 & l2 & Hr2 & Hs2 & Hpt2 & Hst & Hleft & Hmap); rewrite ?fl_set_eq, ?Hnp, ?Hreg in *;
    [assumption..| | |assumption|lia| |assumption|lia|lia|].
  1-3: unfold PGSIZE in *; lia.
  rewrite PG_ROUND_DOWN_aligned in Hmap by done. destruct (vs_list _ _ _ _ _ Hst) as [tables Htab].
  exists s2, l2. split; [exact Hr2|]. split; [eapply pmem_ok_ext; [|exact Hs2]; intros b; apply fl_set_set|].
  split; [exact Hpt2|].
  assert (forall q t, prefix_ok q -> tbl_at (pm s2) root q = Some t -> tbl_at (pm s) root q = Some t \/ t ∈ l) as Hnew.
  { intros q t Hq Ht. destruct (vs_new _ _ _ _ _ Hst q t Hq Ht) as [Ho|Ho]; [left|by right].
    cbn in Ho. by rewrite Ht1 in Ho. }
  constructor; [by exists tables|lia| | | | | | |].
  - intros va' Hva'. rewrite (Hmap va' Hva'), Z.mul_1_l. cbn [pm set_pm]. rewrite Hl1.
    destruct ((va <=? va') && (va' <? va + PGSIZE)) eqn:Ec; [|done]. bprop. f_equal. rewrite Z.div_small by lia. lia.
  - intros a Ha. apply (vs_frame _ _ _ _ _ Hst).
    + intros q t Hq Ht Hat. cbn in Ht. rewrite Ht1 in Ht by done.
      apply (page_not_table _ _ _ _ _ _ Hpt Hpm Hnt Ha). by exists q, t.
    + intros t Ht _ Hat. assert (t ∈ fl false) as Ht' by (rewrite Hfl; set_solver).
      destruct (pmem_ok_page _ _ _ _ Hs Ht') as (Htm & _).
      assert (t <> p) as Htp by (intros ->; done). pose proof (pages_apart t p Htm Hpm Htp). lia.
  - intros q t Hq Ht ->. destruct (Hnew q p Hq Ht) as [Ho|Ho]; [by eapply Hnt|done].
  - intros q t Hq Ht. destruct (Hnew q t Hq Ht) as [Ho|Ho]; [by left|right]. split; [done|].
    by destruct (pt_page _ _ _ _ Hpt2 _ _ Hq Ht).
  - intros a Hat Hap2. rewrite (vs_frame _ _ _ _ _ Hst).
    + cbn. rewrite Hfill; [apply Haf|]; apply Hap2; try set_solver; subst l; set_solver.
    + intros q t Hq Ht Ha. apply Hat. cbn in Ht. rewrite Ht1 in Ht by done. by exists q, t.
    + intros t Ht Ht2. apply Hap2; [set_solver|done].
  - rewrite (vs_begin _ _ _ _ _ Hst). cbn [user_region set_pm]. by rewrite Hap.
  - rewrite (vs_end _ _ _ _ _ Hst). cbn [user_region set_pm]. by rewrite Hap.
Qed.

(** ** Page loops *)

Lemma for_pages_inv {S} (I : nat -> S -> Prop) n fuel va end_ (body : Z -> M S unit) s :
  (n < fuel)%nat -> 0 <= va -> va + Z.of_nat n * PGSIZE < 2 ^ 64 -> end_ <= va + Z.of_nat n * PGSIZE ->
  (forall k, (k < n)%nat -> va + Z.of_nat k * PGSIZE < end_) ->
  I O s ->
  (forall k s, (k < n)%nat -> I k s ->
     exists s', body (va + Z.of_nat k * PGSIZE) s = Ret tt s' /\ I (Datatypes.S k) s') ->
  exists s', for_pages fuel va end_ body s = Ret tt s' /\ I n s'.
Proof.
  revert fuel va I s. induction n as [|n IH]; intros [|fuel] va I s Hf Hva Hw He Hlt HI Hstep; try lia; cbn [for_pages].
  - bcase (va <? end_); [lia|]. by exists s.
  - pose proof (Hlt O ltac:(lia)). bcase (va <? end_); [|lia].
    destruct (Hstep O s) as (s1 & Hb & HI1); [lia|done|]. rewrite Z.mul_0_l, Z.add_0_r in Hb.
    rewrite (bind_run _ _ _ _ _ Hb). rewrite u64_small by (unfold PGSIZE in *; lia).
    apply (IH fuel (va + PGSIZE) (fun k => I (Datatypes.S k)) s1); try (unfold PGSIZE in *; lia); [|done|].
    + intros k Hk. specialize (Hlt (Datatypes.S k) ltac:(lia)). unfold PGSIZE in *. lia.
    + intros k s' Hk HIk. destruct (Hstep (Datatypes.S k) s') as (s3 & Hb3 & HI3); [lia|done|].
      exists s3. split; [|done]. rewrite <- Hb3. f_equal. unfold PGSIZE. lia.
Qed.

(** ** uvm_heap_grow *)

Definition RWU : Z := Z.lor (Z.lor PTE_R PTE_W) PTE_U.

(** Pages [a, b) of the table are backed by distinct zeroed pages that came off
    the free list; everything else translates as in [s0]. *)
Record grown (root : Z) (s0 : pmem) (l0 : list Z) (a b : Z) (s : pmem) (l : list Z) : Prop := {
  gr_list : exists taken, l0 = taken ++ l;
  gr_old : forall va, 0 <= va < VA_MAX -> ~ a <= va < b -> pte_of (pm s) root va = pte_of (pm s0) root va;
  gr_new : forall va, a <= va < b -> exists p, p ∈ l0 /\ p ∉ l /\ pte_of (pm s) root va = leaf_pte p RWU /\
    (forall x, p <= x < p + PGSIZE -> ld8 (pm s) x = 0) /\
    (forall q t, prefix_ok q -> tbl_at (pm s) root q = Some t -> t <> p);
  gr_inj : forall va va', a <= va < b -> a <= va' < b ->
    pte_of (pm s) root va = pte_of (pm s) root va' -> va / PGSIZE = va' / PGSIZE;
  gr_frame : forall x, ~ table_byte (pm s0) root x -> (forall p, p ∈ l0 -> ~ p <= x < p + PGSIZE) ->
    ld8 (pm s) x = ld8 (pm s0) x;
  gr_tables : forall q t, prefix_ok q -> tbl_at (pm s) root q = Some t ->
    tbl_at (pm s0) root q = Some t \/ t ∈ l0;
  gr_begin : rbegin (user_region s) = rbegin (user_region s0);
  gr_end : rend (user_region s) = rend (user_region s0);
}.

(** The entries and the earlier pages of a grown range after one more page. *)
Lemma fresh_pte root s l p b perm m1 s2 l2 va : 0 <= va < VA_MAX -> fresh_map root s l p b perm m1 s2 l2 ->
  pte_of (pm s2) root va = if decide (b <= va < b + PGSIZE) then leaf_pte p perm else pte_of (pm s) root va.
Proof.
  intros Hva F. rewrite (fm_pte _ _ _ _ _ _ _ _ _ F va Hva).
  bcase (b <=? va); bcase (va <? b + PGSIZE); destruct (decide (b <= va < b + PGSIZE)); (done || lia).
Qed.
Lemma fresh_page_kept root s fl p l (l0 : list Z) b perm m1 s2 l2 p' : pmem_ok s fl -> fl false = p :: l ->
  pt_ok (pm s) root (user_region s) (p :: l) -> (forall x, x ∈ l0 -> x mod PGSIZE = 0 /\ 0 < x < 2 ^ 43) ->
  (forall x, x ∈ p :: l -> x ∈ l0) -> fresh_map root s l p b perm m1 s2 l2 -> p' ∈ l0 -> p' ∉ p :: l ->
  (forall q t, prefix_ok q -> tbl_at (pm s) root q = Some t -> t <> p') ->
  (forall x, p' <= x < p' + PGSIZE -> ld8 (pm s2) x = ld8 (pm s) x) /\
  (forall q t, prefix_ok q -> tbl_at (pm s2) root q = Some t -> t <> p').
Proof.
  intros Hs Hfl Hpt Hl0 Hsub [_ _ _ _ _ Hts Hfm _ _] Hp' Hn' Ht'. destruct (Hl0 p' Hp') as [Hpm' _]. split.
  - intros x Hx. apply Hfm; [by apply (page_not_table _ _ _ _ _ _ Hpt Hpm' Ht' Hx)|].
    intros t Ht _ Hxt. destruct (Hl0 t (Hsub t Ht)) as [Htm _].
    assert (t <> p') as Htp by set_solver. pose proof (pages_apart t p' Htm Hpm' Htp). lia.
  - intros q t Hq Ht. destruct (Hts q t Hq Ht) as [Ho|[Ho _]]; [by eapply Ht'|set_solver].
Qed.

Lemma grown_step root s0 l0 a b s fl p l s2 l2 m1 :
  0 <= a -> a mod PGSIZE = 0 -> b mod PGSIZE = 0 -> a <= b -> b + PGSIZE <= VA_MAX ->
  pmem_ok s fl -> fl false = p :: l -> pt_ok (pm s) root (user_region s) (p :: l) ->
  (forall x, x ∈ l0 -> x mod PGSIZE = 0 /\ 0 < x < 2 ^ 43) -> NoDup l0 ->
  (forall x, p <= x < p + PGSIZE -> ld8 m1 x = 0) ->
  grown root s0 l0 a b s (p :: l) -> fresh_map root s l p b RWU m1 s2 l2 ->
  grown root s0 l0 a (b + PGSIZE) s2 l2.
Proof.
  intros Ha Ham Hbm Hab Hmax Hs Hfl Hpt Hl0 Hnd0 Hz [[taken Htk] Hold Hnew Hinj Hfr Htb Hrb Hre] F.
  assert (p ∈ l0) as Hp0 by (subst l0; set_solver). destruct (Hl0 p Hp0) as [Hpm Hpb].
  assert (forall x, x ∈ p :: l -> x ∈ l0) as Hsub by (subst l0; set_solver).
  pose proof (fun va Hva => fresh_pte root s l p b RWU m1 s2 l2 va Hva F) as Hpte.
  pose proof (fun p' => fresh_page_kept root s fl p l l0 b RWU m1 s2 l2 p' Hs Hfl Hpt Hl0 Hsub F) as Hkept.
  destruct F as [[tables Htabs] _ _ Hpage Hnt Hts Hfm Hfb Hfe].
  assert (forall x, x ∈ l2 -> x ∈ l) as Hl2 by (subst l; set_solver).
  assert (p ∉ l2) as Hpl2.
  { intros Hx. apply Hl2 in Hx. subst l0. apply NoDup_app in Hnd0 as (_ & _ & Hnd%NoDup_cons). by destruct Hnd. }
  assert (forall va, a <= va < b -> pte_of (pm s) root va <> leaf_pte p RWU) as Hdiff.
  { intros va Hva Heq. destruct (Hnew va Hva) as (p' & Hp' & Hn & He & _). destruct (Hl0 p' Hp') as [Hpm' Hpb'].
    assert (p' <> p) as Hpp by set_solver. apply Hpp. rewrite He in Heq.
    rewrite <- (leaf_pte_pa p' RWU), <- (leaf_pte_pa p RWU), Heq; (done || lia). }
  constructor; [| | | | | |congruence..].
  - exists (taken ++ p :: tables). subst. by rewrite <- app_assoc.
  - intros va Hva Hn. rewrite Hpte by done. rewrite decide_False by lia. apply Hold; [done|unfold PGSIZE in *; lia].
  - intros va Hva. rewrite Hpte by lia. destruct (decide (b <= va < b + PGSIZE)).
    + exists p. split_and!; try done. intros x Hx. rewrite Hpage by done. by apply Hz.
    + destruct (Hnew va ltac:(lia)) as (p' & Hp' & Hn' & He' & Hz' & Ht'). destruct (Hkept p' Hp' Hn' Ht') as [Hk Hk'].
      exists p'. split_and!; [done|set_solver|done| |done]. intros x Hx. rewrite Hk by done. by apply Hz'.
  - intros va va' Hva Hva'. rewrite !Hpte by lia.
    destruct (decide (b <= va < b + PGSIZE)), (decide (b <= va' < b + PGSIZE)); intros Heq.
    + unfold PGSIZE in *. pose proof (Z.div_mod b 4096). pose proof (Z.div_mod va 4096). pose proof (Z.div_mod va' 4096).
      pose proof (Z.mod_pos_bound va 4096). pose proof (Z.mod_pos_bound va' 4096). lia.
    + by destruct (Hdiff va' ltac:(lia)).
    + by destruct (Hdiff va ltac:(lia)).
    + apply Hinj; (done || lia).
  - intros x Hx Hp. rewrite Hfm; [by apply Hfr| |intros t Ht _; by apply Hp, Hsub].
    intros (q & t & Hq & Ht & Hxt). destruct (Htb q t Hq Ht) as [Ho|Ho]; [|by eapply Hp].
    apply Hx. by exists q, t.
  - intros q t Hq Ht. destruct (Hts q t Hq Ht) as [Ho|[Ho _]]; [by apply Htb|right]. subst l0. set_solver.
Qed.

Lemma alloc_zero_fills p s : fills p (pm (alloc_post false p s)) (memset (pm (alloc_post false p s)) p 0 PGSIZE).
Proof. intros a Ha. apply memset_out; [done|lia]. Qed.

Lemma heap_page msg root s fl p l va :
  pmem_ok s fl -> fl false = p :: l -> pt_ok (pm s) root (user_region s) (p :: l) ->
  0 <= va -> va mod PGSIZE = 0 -> va + PGSIZE <= VA_MAX -> (2 <= length l)%nat ->
  exists s2 l2 m1, (let* pa := pmem_alloc false in
      when (pa =? 0) (panic msg);;;
      zero_page pa;;; vm_mappages root va pa PGSIZE RWU) s = Ret tt s2 /\
    pmem_ok s2 (fl_set false l2 fl) /\ pt_ok (pm s2) root (user_region s2) l2 /\
    (forall x, p <= x < p + PGSIZE -> ld8 m1 x = 0) /\ fresh_map root s l p va RWU m1 s2 l2.
Proof.
  intros Hs Hfl Hpt Hva Hm Hmax Hlen.
  assert (p ∈ fl false) as Hp by (rewrite Hfl; set_solver).
  destruct (pmem_ok_page _ _ _ _ Hs Hp) as (_ & Hpb & _).
  set (m1 := memset (pm (alloc_post false p s)) p 0 PGSIZE).
  destruct (map_fresh root s fl p l va RWU m1) as (s2 & l2 & Hrun & Hs2 & Hpt2 & Hfm); try done.
  { apply alloc_zero_fills. }
  exists s2, l2, m1. split_and!; try done.
  - mrun (pmem_alloc_cons false s fl p l Hs Hfl). bcase (p =? 0); [lia|]. unfold zero_page. mstep. exact Hrun.
  - intros x Hx. unfold m1. by rewrite memset_in.
Qed.

(** [k] pages of the range from [a] on are mapped. *)
Definition grow_inv (root : Z) (s : pmem) (fl : bool -> list Z) (a : Z) (k : nat) (s' : pmem) : Prop :=
  exists l', pmem_ok s' (fl_set false l' fl) /\ pt_ok (pm s') root (user_region s') l' /\
    grown root s (fl false) a (a + Z.of_nat k * PGSIZE) s' l' /\
    Z.of_nat (length (fl false)) <= Z.of_nat (length l') + 3 * Z.of_nat k.
Lemma grow_start root s fl a : pmem_ok s fl -> pt_ok (pm s) root (user_region s) (fl false) -> grow_inv root s fl a O s.
Proof.
  intros Hs Hpt. exists (fl false). split_and!; try done; [eapply pmem_ok_ext; [|done]; by intros []| |lia].
  constructor; try done; try lia; [by exists []|]. by left.
Qed.
Lemma grow_step msg root s fl a k s1 (va := a + Z.of_nat k * PGSIZE) :
  pmem_ok s fl -> 0 <= a -> a mod PGSIZE = 0 -> va + PGSIZE <= VA_MAX ->
  3 * (Z.of_nat k + 1) <= Z.of_nat (length (fl false)) -> grow_inv root s fl a k s1 ->
  exists s2, (let* pa := pmem_alloc false in when (pa =? 0) (panic msg);;;
      zero_page pa;;; vm_mappages root va pa PGSIZE RWU) s1 = Ret tt s2 /\ grow_inv root s fl a (S k) s2.
Proof.
  intros Hs Ha Ham Hvmax Hbud (l1 & Hs1 & Hpt1 & Hg1 & Hl1).
  assert (va mod PGSIZE = 0) as Hvm by (unfold va; by rewrite Z.mod_add).
  destruct l1 as [|p l1]; [cbn [length] in Hl1; lia|]. cbn [length] in Hl1.
  destruct (heap_page msg root s1 (fl_set false (p :: l1) fl) p l1 va)
    as (s2 & l2 & m1 & Hrun & Hs2 & Hpt2 & Hz & Hfm); try done; try (unfold va, PGSIZE in *; lia).
  exists s2. split; [exact Hrun|]. exists l2. split_and!; try done.
  - eapply pmem_ok_ext; [|exact Hs2]. intros bb. apply fl_set_set.
  - replace (a + Z.of_nat (S k) * PGSIZE) with (va + PGSIZE) by (unfold va, PGSIZE; lia).
    eapply (grown_step root s (fl false) a va s1 _ p l1 s2 l2 m1); try done; try (unfold va, PGSIZE in *; lia).
    + intros x Hx. destruct (pmem_ok_page _ _ _ _ Hs Hx) as (? & ? & _). done.
    + apply (rok_nodup _ _ _ (pok_regions _ _ Hs false)).
  - pose proof (fm_left _ _ _ _ _ _ _ _ _ Hfm). lia.
Qed.

Lemma uvm_heap_grow_ok root s fl heap_top len n :
  pmem_ok s fl -> pt_ok (pm s) root (user_region s) (fl false) ->
  0 <= heap_top -> 0 <= len -> heap_top + len + PGSIZE <= VA_MAX ->
  n = (PG_ROUND_UP (heap_top + len) - PG_ROUND_UP heap_top) / PGSIZE ->
  3 * n <= Z.of_nat (length (fl false)) ->
  exists s' l', uvm_heap_grow root heap_top len s = Ret (heap_top + len) s' /\
    pmem_ok s' (fl_set false l' fl) /\ pt_ok (pm s') root (user_region s') l' /\
    grown root s (fl false) (PG_ROUND_UP heap_top) (PG_ROUND_UP (heap_top + len)) s' l' /\
    Z.of_nat (length (fl false)) <= Z.of_nat (length l') + 3 * n.
Proof.
  intros Hs Hpt Ht Hlen Hmax -> Hbud. change VA_MAX with (2 ^ 38) in *.
  unfold uvm_heap_grow. rewrite (u64_small (heap_top + len)) by (unfold PGSIZE in *; lia).
  destruct (PG_ROUND_UP_bounds heap_top) as [Ha Ham]; [lia|unfold PGSIZE in *; lia|].
  destruct (PG_ROUND_UP_bounds (heap_top + len)) as [Hb Hbm]; [lia|unfold PGSIZE in *; lia|].
  set (a := PG_ROUND_UP heap_top) in *. set (b := PG_ROUND_UP (heap_top + len)) in *.
  assert (a <= b /\ b - a = (b - a) / PGSIZE * PGSIZE) as [Hab Hn].
  { unfold PGSIZE. pose proof (Z.div_mod a 4096). pose proof (Z.div_mod b 4096).
    split; [lia|]. replace (b - a) with ((b / 4096 - a / 4096) * 4096) by lia. by rewrite Z.div_mul by lia. }
  set (n := (b - a) / PGSIZE) in *. assert (0 <= n) by (unfold PGSIZE in *; lia).
  destruct (for_pages_inv (grow_inv root s fl a) (Z.to_nat n) (pages_fuel a b) a b (fun va => let* pa := pmem_alloc false in
      when (pa =? 0) (panic "uvm_heap_grow: out of memory");;;
      zero_page pa;;; vm_mappages root va pa PGSIZE RWU) s) as (s' & Hrun & l' & Hs' & Hpt' & Hg & Hl');
    try (unfold PGSIZE in *; lia).
  - unfold pages_fuel. fold n. lia.
  - by apply grow_start.
  - intros k s1 Hk HI. apply grow_step; try done; try (change VA_MAX with (2 ^ 38)); unfold PGSIZE in *; lia.
  - exists s', l'. unfold RWU in Hrun. rewrite (bind_run _ _ _ _ _ Hrun). mstep.
    rewrite Z2Nat.id in Hg, Hl' by lia. replace (a + n * PGSIZE) with b in Hg by lia. by split_and!.
Qed.

(** ** uvm_heap_ungrow *)

Lemma leaf_pages_elem n m root va x : x ∈ leaf_pages n m root va <->
  exists k, 0 <= k < Z.of_nat n /\ x = PTE_TO_PA (pte_of m root (va + k * PGSIZE)).
Proof.
  revert va. induction n as [|n IH]; intros va; cbn [leaf_pages].
  - split; [set_solver|]. intros (k & Hk & _). lia.
  - rewrite elem_of_cons, IH. split.
    + intros [->|(k & Hk & ->)].
      * exists 0. split; [lia|]. by rewrite Z.mul_0_l, Z.add_0_r.
      * exists (k + 1). split; [lia|]. do 2 f_equal. lia.
    + intros (k & Hk & ->). destruct (decide (k = 0)) as [->|].
      * left. by rewrite Z.mul_0_l, Z.add_0_r.
      * right. exists (k - 1). split; [lia|]. do 2 f_equal. lia.
Qed.
Lemma leaf_pages_nodup n m root va :
  (forall j k, 0 <= j < Z.of_nat n -> 0 <= k < Z.of_nat n ->
     PTE_TO_PA (pte_of m root (va + j * PGSIZE)) = PTE_TO_PA (pte_of m root (va + k * PGSIZE)) -> j = k) ->
  NoDup (leaf_pages n m root va).
Proof.
  revert va. induction n as [|n IH]; intros va H; cbn [leaf_pages]; [apply NoDup_nil_2|].
  apply NoDup_cons. split.
  - rewrite leaf_pages_elem. intros (k & Hk & Heq). specialize (H 0 (k + 1) ltac:(lia) ltac:(lia)).
    rewrite Z.mul_0_l, Z.add_0_r in H. replace (va + (k + 1) * PGSIZE) with (va + PGSIZE + k * PGSIZE) in H by lia.
    specialize (H Heq). lia.
  - apply IH. intros j k Hj Hk Heq. specialize (H (j + 1) (k + 1) ltac:(lia) ltac:(lia)).
    replace (va + (j + 1) * PGSIZE) with (va + PGSIZE + j * PGSIZE) in H by lia.
    replace (va + (k + 1) * PGSIZE) with (va + PGSIZE + k * PGSIZE) in H by lia. specialize (H Heq). lia.
Qed.
Lemma leaves_intro n m root va :
  (forall k, 0 <= k < Z.of_nat n -> pte_valid (pte_of m root (va + k * PGSIZE)) = true /\
     PTE_FLAGS (pte_of m root (va + k * PGSIZE)) <> PTE_V) -> leaves n m root va.
Proof.
  revert va. induction n as [|n IH]; intros va H; cbn [leaves]; [done|].
  pose proof (H 0 ltac:(lia)) as H0. rewrite Z.mul_0_l, Z.add_0_r in H0. split_and!; [apply H0..|].
  apply IH. intros k Hk. specialize (H (k + 1) ltac:(lia)).
  by replace (va + (k + 1) * PGSIZE) with (va + PGSIZE + k * PGSIZE) in H by lia.
Qed.

(** A grown range is ready to be unmapped with its pages freed. *)
Lemma grown_leaves root s0 fl a n s l :
  pmem_ok s0 fl -> 0 <= a -> a + Z.of_nat n * PGSIZE <= VA_MAX -> a mod PGSIZE = 0 ->
  grown root s0 (fl false) a (a + Z.of_nat n * PGSIZE) s l ->
  leaves n (pm s) root a /\ NoDup (leaf_pages n (pm s) root a) /\
  Forall (loose s root l) (leaf_pages n (pm s) root a).
Proof.
  intros Hs Ha Hmax Ham [_ _ Hnew Hinj _ _ Hb He].
  assert (forall k, 0 <= k < Z.of_nat n -> exists p, page_in (user_region s0) p /\ p ∉ l /\
    pte_of (pm s) root (a + k * PGSIZE) = leaf_pte p RWU /\ 0 < p < 2 ^ 43 /\ p mod PGSIZE = 0 /\
    (forall q t, prefix_ok q -> tbl_at (pm s) root q = Some t -> t <> p)) as Hk.
  { intros k Hk. destruct (Hnew (a + k * PGSIZE)) as (p & Hp & Hn & He1 & _ & Ht); [unfold PGSIZE; lia|].
    destruct (pmem_ok_page _ _ _ _ Hs Hp) as (? & ? & ?). by exists p. }
  split_and!.
  - apply leaves_intro. intros k Hk1. destruct (Hk k Hk1) as (p & _ & _ & -> & Hpb & _).
    rewrite leaf_pte_valid, leaf_pte_flags by (done || lia). done.
  - apply leaf_pages_nodup. intros j k Hj Hk1 Heq.
    destruct (Hk j Hj) as (p & _ & _ & Hpe & Hpb & Hpm & _), (Hk k Hk1) as (p' & _ & _ & Hpe' & Hpb' & Hpm' & _).
    assert (pte_of (pm s) root (a + j * PGSIZE) = pte_of (pm s) root (a + k * PGSIZE)) as Hsame.
    { rewrite Hpe, Hpe' in *. rewrite !leaf_pte_pa in Heq by (done || lia). by rewrite Heq. }
    apply Hinj in Hsame; [|unfold PGSIZE; lia..]. rewrite !Z.div_add in Hsame by done. lia.
  - apply Forall_forall. intros x (k & Hk1 & ->)%leaf_pages_elem.
    destruct (Hk k Hk1) as (p & Hpg & Hn & -> & Hpb & Hpm & Ht). rewrite leaf_pte_pa by (done || lia).
    split_and!; try done. unfold page_in. by rewrite Hb, He.
Qed.

(** Unmapping a grown range takes the table back to where it started. *)
Lemma leaf_pages_length n m root va : length (leaf_pages n m root va) = n.
Proof. revert va. induction n; intros; cbn; auto. Qed.
Lemma grown_unmap root s fl a n s1 l1 :
  pmem_ok s fl -> 0 <= a -> a mod PGSIZE = 0 -> 0 < n -> a + n * PGSIZE <= VA_MAX ->
  (forall va, a <= va < a + n * PGSIZE -> pte_of (pm s) root va = 0) ->
  pmem_ok s1 (fl_set false l1 fl) -> pt_ok (pm s1) root (user_region s1) l1 ->
  grown root s (fl false) a (a + n * PGSIZE) s1 l1 ->
  exists s2 l2, vm_unmappages root a (n * PGSIZE) true s1 = Ret tt s2 /\
    pmem_ok s2 (fl_set false l2 fl) /\ pt_ok (pm s2) root (user_region s2) l2 /\
    (forall va, 0 <= va < VA_MAX -> pte_of (pm s2) root va = pte_of (pm s) root va) /\
    Z.of_nat (length l2) = Z.of_nat (length l1) + n.
Proof.
  intros Hs Ha Ham Hn Hmax Hfree Hs1 Hpt1 Hg. change VA_MAX with (2 ^ 38) in *.
  replace (n * PGSIZE) with (Z.of_nat (Z.to_nat n) * PGSIZE) in Hg by lia.
  destruct (grown_leaves root s fl a (Z.to_nat n) s1 l1) as (Hlv & Hnd & Hlo); try done; [change VA_MAX with (2 ^ 38); lia|].
  assert (PG_ROUND_UP (n * PGSIZE) = n * PGSIZE) as Hru by (apply PG_ROUND_UP_aligned; [by rewrite Z.mod_mul|unfold PGSIZE in *; lia..]).
  destruct (vm_unmappages_ok root s1 (fl_set false l1 fl) a (n * PGSIZE) true (Z.to_nat n))
    as (s2 & Hrun2 & Hs2 & Hpt2 & _ & Hu); rewrite ?fl_set_eq; try done;
    [unfold PGSIZE in *; lia|by rewrite Hru, Z.div_mul|].
  rewrite fl_set_eq in *. exists s2, (freed true (leaf_pages (Z.to_nat n) (pm s1) root a) l1).
  split_and!; try done.
  - eapply pmem_ok_ext; [|exact Hs2]. intros bb. apply fl_set_set.
  - intros va Hva. rewrite Hu by done. bcase (a <=? va); bcase (va <? a + Z.of_nat (Z.to_nat n) * PGSIZE); cbn [andb].
    2-4: apply (gr_old _ _ _ _ _ _ _ Hg); [exact Hva|lia].
    symmetry. apply Hfree. lia.
  - cbn [freed]. rewrite length_app, length_reverse, leaf_pages_length. lia.
Qed.

(** ** Properties *)

(** uvm_copyin.  When the kernel buffer shares no byte with the page table or
    with the user range, and the whole user range is mapped, the routine returns
    with the user bytes in the buffer, page by page whatever the alignments of
    the two ends, and no other byte of memory changed; if any byte of the range is
    unmapped it panics. *)
Theorem uvm_copyin_correct root dst src len s :
  0 <= len -> 0 <= src -> src + len <= VA_MAX -> 0 <= dst -> dst + len < 2 ^ 64 ->
  tables_nonnull (pm s) root -> kbuf_apart (pm s) root src dst len ->
  ((forall i, 0 <= i < len -> uvalid (pm s) root (src + i) = true) ->
     exists m', uvm_copyin root dst src len s = Ret tt (set_pm m' s) /\
       (forall i, 0 <= i < len -> ld8 m' (dst + i) = ubyte (pm s) root (src + i)) /\
       (forall a, ~ dst <= a < dst + len -> ld8 m' a = ld8 (pm s) a)) /\
  ((exists i, 0 <= i < len /\ uvalid (pm s) root (src + i) = false) ->
     uvm_copyin root dst src len s = Panic "uvm_copyin: invalid page").
Proof. intros. apply copyin_loop_ok; (done || lia). Qed.

(** C10 uvm_copyout followed by uvm_copyin of the same user range gives back the
    kernel bytes: copyout stores the buffer behind the user addresses and changes
    nothing else, in particular no translation, and reading the range into a second
    buffer returns the same bytes. *)
Theorem copyout_copyin_roundtrip root dst src len s kbuf :
  0 <= len -> 0 <= dst -> dst + len <= VA_MAX -> 0 <= src -> src + len < 2 ^ 64 ->
  0 <= kbuf -> kbuf + len < 2 ^ 64 -> tables_nonnull (pm s) root ->
  ubuf_apart (pm s) root dst src len -> kbuf_apart (pm s) root dst kbuf len ->
  (forall i, 0 <= i < len -> uvalid (pm s) root (dst + i) = true) ->
  exists m1 m2, uvm_copyout root dst src len s = Ret tt (set_pm m1 s) /\
    uvm_copyin root kbuf dst len (set_pm m1 s) = Ret tt (set_pm m2 s) /\
    (forall va, pte_of m1 root va = pte_of (pm s) root va) /\
    (forall i, 0 <= i < len -> ubyte m1 root (dst + i) = ld8 (pm s) (src + i) /\
                               ld8 m2 (kbuf + i) = ld8 (pm s) (src + i)).
Proof.
  intros Hlen Hdst Hmax Hsrc Hs64 Hk Hk64 Hnn Hua Hka Hv.
  destruct (copyout_loop_ok (S (Z.to_nat len)) root dst src len s) as [Hok _]; try (done || lia).
  destruct (Hok Hv) as (m1 & Hrun1 & Hcp1 & Hout1).
  assert (forall a, table_byte (pm s) root a -> ld8 m1 a = ld8 (pm s) a) as Htb.
  { intros a Ha. apply Hout1. intros i Hi <-. by destruct (Hua i Hi (Hv i Hi)). }
  pose proof (pte_frame _ _ _ Htb) as Hpte.
  assert (forall va, upa m1 root va = upa (pm s) root va) as Hupa by (intros va; unfold upa; by rewrite Hpte).
  destruct (copyin_loop_ok (S (Z.to_nat len)) root kbuf dst len (set_pm m1 s)) as [Hok2 _]; try (done || lia).
  { intros q t Hq Ht. cbn in Ht. rewrite (tbl_frame _ _ _ Htb) in Ht by done. by eapply Hnn. }
  { intros a Ha. cbn. destruct (Hka a Ha) as [H1 H2]. split.
    - intros Hx. by apply H1, (table_byte_frame _ _ _ Htb).
    - intros i Hi. rewrite Hupa. by apply H2. }
  destruct Hok2 as (m2 & Hrun2 & Hcp2 & _).
  { intros i Hi. cbn. unfold uvalid. rewrite Hpte. by apply Hv. }
  exists m1, m2. cbn [pm set_pm] in *. split_and!; try done. intros i Hi. unfold ubyte.
  rewrite Hcp2, Hupa by done. split; by apply Hcp1.
Qed.

(** uvm_copyin_str copies the user string up to and including its terminator
    when there is one among the first maxlen bytes; otherwise it copies exactly
    maxlen bytes and writes no terminator (so the kernel copy of a long string is
    not a C string).  It never writes past maxlen bytes and never touches a user
    page after the terminator. *)
Theorem uvm_copyin_str_correct root dst src maxlen s :
  0 <= maxlen -> 0 <= src -> src + maxlen <= VA_MAX ->
  tables_nonnull (pm s) root -> kbuf_apart (pm s) root src dst maxlen ->
  (forall i, 0 <= i < maxlen -> (forall j, 0 <= j < i -> ubyte (pm s) root (src + j) <> 0) ->
     uvalid (pm s) root (src + i) = true) ->
  exists k m', uvm_copyin_str root dst src maxlen s = Ret tt (set_pm m' s) /\
    0 <= k <= maxlen /\ (forall i, 0 <= i < k -> ubyte (pm s) root (src + i) <> 0) /\
    (k < maxlen -> ubyte (pm s) root (src + k) = 0 /\ ld8 m' (dst + k) = 0) /\
    (forall i, 0 <= i < k -> ld8 m' (dst + i) = ubyte (pm s) root (src + i)) /\
    (forall a, ~ dst <= a < dst + Z.min (k + 1) maxlen -> ld8 m' a = ld8 (pm s) a).
Proof. intros. apply copyin_str_ok; (done || lia). Qed.

(** C26 the heap.  uvm_heap_grow maps every page between the old and the new
    break (rounded up) to a zeroed page of its own, readable and writable by the
    user, and changes no other translation; uvm_heap_ungrow by the same amount
    removes exactly those entries and puts the pages back on the free list, so
    that every translation is as before and only page-table pages are used up. *)
Theorem heap_grow_ungrow root s fl heap_top len n :
  pmem_ok s fl -> pt_ok (pm s) root (user_region s) (fl false) ->
  0 <= heap_top -> 0 <= len -> heap_top + len + PGSIZE <= VA_MAX ->
  n = (PG_ROUND_UP (heap_top + len) - PG_ROUND_UP heap_top) / PGSIZE ->
  3 * n <= Z.of_nat (length (fl false)) ->
  (forall va, PG_ROUND_UP heap_top <= va < PG_ROUND_UP (heap_top + len) -> pte_of (pm s) root va = 0) ->
  exists s1 s2 l1 l2,
    uvm_heap_grow root heap_top len s = Ret (heap_top + len) s1 /\
    pmem_ok s1 (fl_set false l1 fl) /\ pt_ok (pm s1) root (user_region s1) l1 /\
    grown root s (fl false) (PG_ROUND_UP heap_top) (PG_ROUND_UP (heap_top + len)) s1 l1 /\
    uvm_heap_ungrow root (heap_top + len) len s1 = Ret heap_top s2 /\
    pmem_ok s2 (fl_set false l2 fl) /\ pt_ok (pm s2) root (user_region s2) l2 /\
    (forall va, 0 <= va < VA_MAX -> pte_of (pm s2) root va = pte_of (pm s) root va) /\
    Z.of_nat (length (fl false)) <= Z.of_nat (length l2) + 2 * n.
Proof.
  intros Hs Hpt Ht Hlen Hmax Hn Hbud Hfree.
  destruct (uvm_heap_grow_ok root s fl heap_top len n Hs Hpt Ht Hlen Hmax Hn Hbud)
    as (s1 & l1 & Hrun1 & Hs1 & Hpt1 & Hg & Hl1). change VA_MAX with (2 ^ 38) in *.
  destruct (PG_ROUND_UP_bounds heap_top) as [Ha Ham]; [lia|unfold PGSIZE in *; lia|].
  destruct (PG_ROUND_UP_bounds (heap_top + len)) as [Hb Hbm]; [lia|unfold PGSIZE in *; lia|].
  set (a := PG_ROUND_UP heap_top) in *. set (b := PG_ROUND_UP (heap_top + len)) in *.
  assert (a <= b /\ b - a = n * PGSIZE) as [Hab Hba].
  { subst n. unfold PGSIZE. pose proof (Z.div_mod a 4096). pose proof (Z.div_mod b 4096).
    split; [lia|]. replace (b - a) with ((b / 4096 - a / 4096) * 4096) by lia. by rewrite Z.div_mul by lia. }
  unfold uvm_heap_ungrow. replace (u64 (heap_top + len - len)) with heap_top
    by (rewrite u64_small; unfold PGSIZE in *; lia). fold a b.
  bcase (a <? b).
  - replace b with (a + n * PGSIZE) in Hg, Hfree by lia.
    destruct (grown_unmap root s fl a n s1 l1) as (s2 & l2 & Hrun2 & Hs2 & Hpt2 & Hu & Hl2); try done;
      try (change VA_MAX with (2 ^ 38)); try (unfold PGSIZE in *; lia).
    exists s1, s2, l1, l2. replace (a + n * PGSIZE) with b in Hg by lia. split_and!; try done; [|lia].
    rewrite bind_when_true. replace ((b - a) / PGSIZE) with n by (rewrite Hba, Z.div_mul; done).
    rewrite (bind_run _ _ _ _ _ Hrun2). done.
  - exists s1, s1, l1, l1. split_and!; try done; [|unfold PGSIZE in *; lia].
    intros va Hva. apply (gr_old _ _ _ _ _ _ _ Hg); [exact Hva|lia].
Qed.

(** ** A concrete address space: two heap pages on the demonstration table *)

(** User memory obtained from the allocator is apart from kernel buffers below
    the user region. *)
Lemma grown_apart root s0 fl a b s l :
  pmem_ok s0 fl -> pt_ok (pm s) root (user_region s) l -> 0 <= a -> b <= VA_MAX ->
  grown root s0 (fl false) a b s l ->
  tables_nonnull (pm s) root /\
  (forall va, a <= va < b -> uvalid (pm s) root va = true) /\
  (forall u k len, 0 <= len -> a <= u -> u + len <= b -> k + len <= rbegin (user_region s0) ->
     kbuf_apart (pm s) root u k len /\ ubuf_apart (pm s) root u k len).
Proof.
  intros Hs Hpt Ha Hb Hg. pose proof Hg as [_ _ Hnew Hinj _ _ Hrb Hre].
  pose proof (rok_begin _ _ _ (pok_regions _ _ Hs false)) as [Hpos _]. cbn in Hpos.
  assert (forall q t, prefix_ok q -> tbl_at (pm s) root q = Some t ->
    t mod PGSIZE = 0 /\ rbegin (user_region s0) <= t) as Htab.
  { intros q t Hq Ht. destruct (pt_page _ _ _ _ Hpt _ _ Hq Ht) as [(? & ? & _) _]. by rewrite <- Hrb. }
  assert (forall va, a <= va < b -> exists p, pte_of (pm s) root va = leaf_pte p RWU /\ 0 < p < 2 ^ 43 /\
    p mod PGSIZE = 0 /\ PTE_TO_PA (pte_of (pm s) root va) = p /\ rbegin (user_region s0) <= p /\
    (forall q t, prefix_ok q -> tbl_at (pm s) root q = Some t -> t <> p)) as Hp.
  { intros va Hva. destruct (Hnew va Hva) as (p & Hin & _ & He & _ & Ht). exists p.
    destruct (pmem_ok_page _ _ _ _ Hs Hin) as (Hm & Hpb & _ & Hpr & _). cbn in Hpr.
    split_and!; try done; try lia. rewrite He. apply leaf_pte_pa; (done || lia). }
  split_and!.
  - intros q t Hq Ht. destruct (Htab q t Hq Ht). lia.
  - intros va Hva. destruct (Hp va Hva) as (p & He & ? & _). unfold uvalid. rewrite He.
    apply leaf_pte_valid; (done || lia).
  - intros u k len Hlen Hu1 Hu2 Hk. pose proof (fun va => Z.mod_pos_bound va PGSIZE ltac:(done)) as Hmod. split.
    + intros x Hx. split.
      * intros (q & t & Hq & Ht & Hxt). destruct (Htab q t Hq Ht). lia.
      * intros i Hi. destruct (Hp (u + i) ltac:(lia)) as (p & _ & _ & _ & Hpa & Hpr & _). unfold upa. rewrite Hpa.
        pose proof (Hmod (u + i)). lia.
    + intros i Hi _. destruct (Hp (u + i) ltac:(lia)) as (p & He & Hpb & Hpm & Hpa & Hpr & Hnt).
      pose proof (Hmod (u + i)). unfold upa. rewrite Hpa. split_and!.
      * intros (q & t & Hq & Ht & Hxt). destruct (Htab q t Hq Ht) as [Htm _].
        pose proof (pages_apart t p Htm Hpm (Hnt _ _ Hq Ht)). lia.
      * lia.
      * intros j Hj _ Heq. destruct (Hp (u + j) ltac:(lia)) as (p' & He' & Hpb' & Hpm' & Hpa' & _ & _).
        rewrite Hpa' in Heq. pose proof (Hmod (u + j)).
        destruct (decide (p = p')) as [->|Hne]; [|pose proof (pages_apart p p' Hpm Hpm' Hne); lia].
        assert ((u + i) / PGSIZE = (u + j) / PGSIZE) as Hd by (apply Hinj; [lia|lia|congruence]).
        unfold PGSIZE in *. pose proof (Z.div_mod (u + i) 4096). pose proof (Z.div_mod (u + j) 4096). lia.
Qed.

Lemma demo_heap : exists s1 l1, uvm_heap_grow demo_root 0x1000 0x2000 demo_vm = Ret 0x3000 s1 /\
  pmem_ok s1 (fl_set false l1 demo_fl) /\ pt_ok (pm s1) demo_root (user_region s1) l1 /\
  grown demo_root demo_vm (demo_fl false) 0x1000 0x3000 s1 l1 /\ 9 <= Z.of_nat (length l1).
Proof.
  destruct demo_vm_ok as (H1 & H2 & _).
  destruct (uvm_heap_grow_ok demo_root demo_vm demo_fl 0x1000 0x2000 2 H1 H2) as (s1 & l1 & Hr & Hs & Hp & Hg & Hl).
  1-5: first [lia | reflexivity | (vm_compute; congruence)].
  exists s1, l1. split; [exact Hr|]. split; [exact Hs|]. split; [exact Hp|]. split; [exact Hg|].
  replace (Z.of_nat (length (demo_fl false))) with 15 in Hl by (vm_compute; reflexivity). lia.
Qed.
Lemma demo_user_begin : rbegin (user_region demo_vm) = 0x80410000.
Proof. vm_compute. reflexivity. Qed.

(** The side conditions of the copies for a kernel buffer at 0x80020000. *)
Lemma demo_copy : exists s1, uvm_heap_grow demo_root 0x1000 0x2000 demo_vm = Ret 0x3000 s1 /\
  tables_nonnull (pm s1) demo_root /\ (forall va, 0x1000 <= va < 0x3000 -> uvalid (pm s1) demo_root va = true) /\
  kbuf_apart (pm s1) demo_root 0x1ff0 0x80020000 32 /\ ubuf_apart (pm s1) demo_root 0x1ff0 0x80020000 32 /\
  kbuf_apart (pm s1) demo_root 0x1ff0 0x80030000 32 /\
  (forall va, 0x1000 <= va < 0x3000 -> ubyte (pm s1) demo_root va = 0).
Proof.
  destruct demo_heap as (s1 & l1 & Hr & Hs & Hp & Hg & _). destruct demo_vm_ok as (H1 & _ & _).
  destruct (grown_apart demo_root demo_vm demo_fl 0x1000 0x3000 s1 l1 H1 Hp ltac:(lia) ltac:(vm_compute; congruence) Hg)
    as (Hnn & Hv & Hap). pose proof demo_user_begin as Hub.
  exists s1. split; [exact Hr|]. split; [exact Hnn|]. split; [exact Hv|].
  split; [apply Hap; rewrite ?Hub; lia|]. split; [apply Hap; rewrite ?Hub; lia|].
  split; [apply Hap; rewrite ?Hub; lia|].
  intros va Hva. destruct (gr_new _ _ _ _ _ _ _ Hg va Hva) as (p & Hin & _ & He & Hz & _).
  destruct (pmem_ok_page _ _ _ _ H1 Hin) as (Hm & Hpb & _). unfold ubyte, upa.
  rewrite He, leaf_pte_pa; [|lia|exact Hm|vm_compute; split; congruence].
  apply Hz. pose proof (Z.mod_pos_bound va PGSIZE ltac:(done)). lia.
Qed.

Lemma uvm_copyin_correct_witness : exists s1 m',
  uvm_heap_grow demo_root 0x1000 0x2000 demo_vm = Ret 0x3000 s1 /\
  uvm_copyin demo_root 0x80020000 0x1ff0 32 s1 = Ret tt (set_pm m' s1) /\ ld8 m' 0x8002001f = 0.
Proof.
  destruct demo_copy as (s1 & Hr & Hnn & Hv & Hk & _ & _ & Hz).
  destruct (uvm_copyin_correct demo_root 0x80020000 0x1ff0 32 s1) as [Hok _].
  1-5: first [lia | (vm_compute; congruence)].
  1-2: assumption.
  destruct Hok as (m' & Hrun & Hcp & _); [intros i Hi; apply Hv; lia|].
  exists s1, m'. split; [exact Hr|]. split; [exact Hrun|].
  transitivity (ubyte (pm s1) demo_root (0x1ff0 + 31)); [apply (Hcp 31); lia|apply Hz; lia].
Defined.

Lemma copyout_copyin_roundtrip_witness : exists s1 m1 m2,
  uvm_heap_grow demo_root 0x1000 0x2000 demo_vm = Ret 0x3000 s1 /\
  uvm_copyout demo_root 0x1ff0 0x80020000 32 s1 = Ret tt (set_pm m1 s1) /\
  uvm_copyin demo_root 0x80030000 0x1ff0 32 (set_pm m1 s1) = Ret tt (set_pm m2 s1) /\
  ld8 m2 0x8003001f = ld8 (pm s1) 0x8002001f.
Proof.
  destruct demo_copy as (s1 & Hr & Hnn & Hv & _ & Hu & Hk & _).
  destruct (copyout_copyin_roundtrip demo_root 0x1ff0 0x80020000 32 s1 0x80030000) as (m1 & m2 & H1 & H2 & _ & H3).
  1-7: first [lia | (vm_compute; congruence)].
  1-3: assumption.
  1: intros i Hi; apply Hv; lia.
  exists s1, m1, m2. split; [exact Hr|]. split; [exact H1|]. split; [exact H2|]. apply (H3 31). lia.
Defined.

Lemma uvm_copyin_str_correct_witness : exists s1 m',
  uvm_heap_grow demo_root 0x1000 0x2000 demo_vm = Ret 0x3000 s1 /\
  uvm_copyin_str demo_root 0x80020000 0x1ff0 32 s1 = Ret tt (set_pm m' s1) /\ ld8 m' 0x80020000 = 0.
Proof.
  destruct demo_copy as (s1 & Hr & Hnn & Hv & Hk & _ & _ & Hz).
  destruct (uvm_copyin_str_correct demo_root 0x80020000 0x1ff0 32 s1) as (k & m' & Hrun & Hk1 & Hk2 & Hk3 & _).
  1-3: first [lia | (vm_compute; congruence)].
  1-2: assumption.
  1: intros i Hi _; apply Hv; lia.
  exists s1, m'. split; [exact Hr|]. split; [exact Hrun|].
  assert (k = 0) as ->.
  { destruct (decide (k = 0)); [assumption|]. destruct (Hk2 0 ltac:(lia)). apply Hz. lia. }
  apply Hk3. lia.
Defined.

Lemma heap_grow_ungrow_witness : exists s1 s2,
  uvm_heap_grow demo_root 0x1000 0x2000 demo_vm = Ret 0x3000 s1 /\
  uvm_heap_ungrow demo_root 0x3000 0x2000 s1 = Ret 0x1000 s2 /\
  pte_of (pm s2) demo_root 0x2000 = pte_of (pm demo_vm) demo_root 0x2000.
Proof.
  destruct demo_vm_ok as (H1 & H2 & H3).
  destruct (heap_grow_ungrow demo_root demo_vm demo_fl 0x1000 0x2000 2 H1 H2)
    as (s1 & s2 & l1 & l2 & Hr1 & _ & _ & _ & Hr2 & _ & _ & Hp & _).
  1-5: first [lia | reflexivity | (vm_compute; congruence)].
  1: intros va _; apply H3.
  exists s1, s2. split; [exact Hr1|]. split; [exact Hr2|]. apply Hp. vm_compute. split; congruence.
Defined.
