(* ===== verification/DestroySpec.v ===== *)
(** * uvm_destroy_pgtbl

    What mem/uvm.c gives back when an address space is destroyed: every table and
    every page mapped in it, each of them once. *)

From S2P Require Import Prelude Machine Str Lock Pmem Kvm KvmSpec Mmap Uvm UvmSpec.

(** A path of indices from the root: to the root itself, to a table, or, with three indices, to a
    mapped page.  [tbl_at] gives the page at its end. *)
Definition page_path (q : list Z) : Prop := (length q <= 3)%nat /\ Forall (fun i => 0 <= i < 512) q.

(** The pages at the ends of the paths belong to the address space, those of [shared] excepted: they
    are different pages of the region [r] that are not on the free list [l].  Entries of the two
    upper levels point to tables. *)
Record owns (shared : list (list Z)) (m : memory) (root : Z) (r : alloc_region) (l : list Z) : Prop := {
  ow_inj : forall q q' p, page_path q -> page_path q' -> q ∉ shared -> q' ∉ shared ->
    tbl_at m root q = Some p -> tbl_at m root q' = Some p -> q = q';
  ow_page : forall q p, page_path q -> q ∉ shared -> tbl_at m root q = Some p -> page_in r p /\ p ∉ l;
  ow_tables : forall q t i, page_path q -> (length q <= 1)%nat -> 0 <= i < 512 -> tbl_at m root q = Some t ->
    pte_valid (ld64 m (t + 8 * i)) = true -> PTE_CHECK (ld64 m (t + 8 * i)) = true;
}.

Lemma page_path_snoc q i : page_path q -> (length q <= 2)%nat -> 0 <= i < 512 -> page_path (q ++ [i]).
Proof. intros [_ Hq] Hl Hi. split; [rewrite length_app; cbn; lia|]. apply Forall_app. split; [done|by apply Forall_singleton]. Qed.
Lemma snoc_prefix (q : list Z) i : q `prefix_of` q ++ [i].
Proof. by exists [i]. Qed.
Lemma longer_prefix (q q' : list Z) : q `prefix_of` q' -> (length q' <= length q)%nat -> q' = q.
Proof. intros [k ->] Hl. rewrite length_app in Hl. destruct k; [by rewrite app_nil_r|cbn in Hl; lia]. Qed.
(** A path that goes on has a next index. *)
Lemma prefix_next (q q' : list Z) : q `prefix_of` q' -> q' = q \/ exists i, q ++ [i] `prefix_of` q'.
Proof. intros [[|i k] ->]; [left; by rewrite app_nil_r|right]. exists i, k. by rewrite <- app_assoc. Qed.
Lemma prefix_fork (q : list Z) i j q' : q ++ [i] `prefix_of` q' -> q ++ [j] `prefix_of` q' -> i = j.
Proof. intros [k ->] [k' H]. rewrite <- !app_assoc in H. apply app_inv_head in H. by injection H. Qed.
Lemma tbl_at_step m root q t i : tbl_at m root q = Some t ->
  tbl_at m root (q ++ [i]) = if pte_valid (ld64 m (t + 8 * i)) then Some (PTE_TO_PA (ld64 m (t + 8 * i))) else None.
Proof. intros H. by rewrite tbl_at_app, H. Qed.

Section destroy.
Context (m : memory) (root : Z) (r : alloc_region) (fl : bool -> list Z).
Hypothesis Hown : owns [] m root r (fl false).

(** The pages [ps], those at the ends of the paths in [D], have been freed, and nothing else was
    written. *)
Record given_back (D : list Z -> Prop) (ps : list Z) (s : pmem) : Prop := {
  gb_ok : pmem_ok s (fl_set false (ps ++ fl false) fl);
  gb_begin : rbegin (user_region s) = rbegin r;
  gb_end : rend (user_region s) = rend r;
  gb_pages : forall p, p ∈ ps <-> exists q, page_path q /\ D q /\ tbl_at m root q = Some p;
  gb_mem : forall a, (forall p, p ∈ ps -> ~ p <= a < p + PGSIZE) -> ld8 (pm s) a = ld8 m a;
}.

Lemma given_back_ext D D' ps s : (forall q p, page_path q -> tbl_at m root q = Some p -> D q <-> D' q) ->
  given_back D ps s -> given_back D' ps s.
Proof.
  intros H [H1 H2 H3 H4 H5]. split; try done. intros p. rewrite H4.
  split; intros (q & Hq & HD & Hp); exists q; (split; [done|split; [by apply (H q p)|done]]).
Qed.
Lemma not_given_back D ps s q p : given_back D ps s -> page_path q -> ~ D q -> tbl_at m root q = Some p ->
  page_in r p /\ p ∉ ps ++ fl false.
Proof.
  intros G Hq HD Hp. destruct (ow_page _ _ _ _ _ Hown q p Hq (not_elem_of_nil q) Hp) as [Hin Hl]. split; [done|].
  intros [Hps|Hfl]%elem_of_app; [|done]. apply (gb_pages _ _ _ G) in Hps as (q' & Hq' & HD' & Hp').
  by rewrite (ow_inj _ _ _ _ _ Hown q q' p Hq Hq' (not_elem_of_nil _) (not_elem_of_nil _) Hp Hp') in HD.
Qed.
Lemma given_back_read D ps s q t i : given_back D ps s -> page_path q -> ~ D q -> tbl_at m root q = Some t -> 0 <= i < 512 ->
  ld64 (pm s) (t + 8 * i) = ld64 m (t + 8 * i).
Proof.
  intros G Hq HD Ht Hi. destruct (not_given_back _ _ _ _ _ G Hq HD Ht) as [(Htm & _) Hn].
  apply ld_ext. intros b Hb. apply (gb_mem _ _ _ G). intros p Hp.
  assert (p mod PGSIZE = 0) as Hpm.
  { apply (gb_pages _ _ _ G) in Hp as (q' & Hq' & _ & Hp'). apply (ow_page _ _ _ _ _ Hown q' p Hq' (not_elem_of_nil q') Hp'). }
  assert (t <> p) as Hne by (intros ->; apply Hn, elem_of_app; by left).
  pose proof (pages_apart t p Htm Hpm Hne). unfold PGSIZE in *. simpl in Hb. lia.
Qed.
Lemma give_back D ps s q p : given_back D ps s -> page_path q -> ~ D q -> tbl_at m root q = Some p ->
  exists s', pmem_free p false s = Ret tt s' /\ given_back (fun q' => D q' \/ q' = q) (p :: ps) s'.
Proof.
  intros G Hq HD Hp. pose proof G as [H1 H2 H3 H4 H5]. destruct (not_given_back _ _ _ _ _ G Hq HD Hp) as [Hin Hn].
  assert (page_in (region false s) p) as Hin' by (unfold page_in; cbn; by rewrite H2, H3).
  exists (free_post false p s). split; [apply (pmem_free_user s _ p H1 Hin'); by rewrite fl_set_eq|]. split.
  - eapply pmem_ok_ext; [|apply (pmem_free_ok false s _ p H1 Hin'); by rewrite fl_set_eq].
    intros b. rewrite fl_set_eq. by rewrite fl_set_set.
  - by rewrite free_post_user.
  - by rewrite free_post_user.
  - intros p'. rewrite elem_of_cons, H4. split.
    + intros [->|(q' & Hq' & HD' & Hp')]; [by exists q; auto|exists q'; auto].
    + intros (q' & Hq' & [HD' | ->] & Hp'); [right; by exists q'|left; congruence].
  - intros a Ha. assert (~ p <= a < p + PGSIZE) as Hap by (apply Ha; set_solver).
    rewrite free_post_user. cbn [pm]. rewrite ld8_st_ne by (unfold PGSIZE in *; simpl; lia).
    rewrite memset_out by (done || lia). apply H5. intros p' Hp'. apply Ha. set_solver.
Qed.

Definition below (pr : list Z) (n : nat) (q : list Z) : Prop := exists i, 0 <= i < Z.of_nat n /\ pr ++ [i] `prefix_of` q.

(** One table: its entries in turn, then the table itself. *)
Lemma destroy_table (act : Z -> M pmem unit) pr t D ps s :
  page_path pr -> (length pr <= 2)%nat -> tbl_at m root pr = Some t -> (forall q, pr `prefix_of` q -> ~ D q) ->
  (forall i p D ps s, 0 <= i < 512 -> tbl_at m root (pr ++ [i]) = Some p -> pte_valid (ld64 m (t + 8 * i)) = true ->
     p = PTE_TO_PA (ld64 m (t + 8 * i)) -> (forall q, pr ++ [i] `prefix_of` q -> ~ D q) -> given_back D ps s ->
     exists ps' s', act (ld64 m (t + 8 * i)) s = Ret tt s' /\ given_back (fun q => D q \/ pr ++ [i] `prefix_of` q) ps' s') ->
  given_back D ps s ->
  exists ps' s', (for_ 512 0 1 (fun i => let* pte := peek64 (t + 8 * i) in if negb (pte_valid pte) then ret tt else act pte);;;
      pmem_free t false) s = Ret tt s' /\ given_back (fun q => D q \/ pr `prefix_of` q) ps' s'.
Proof.
  intros Hpr Hl Ht HD Hact G. set (body := fun i => let* pte := peek64 (t + 8 * i) in _).
  destruct (for_inv (fun n s' => exists ps', given_back (fun q => D q \/ below pr n q) ps' s') 512 0 1 body s) as (s1 & E & ps1 & G1).
  - exists ps. eapply given_back_ext; [|exact G]. intros q p Hq Hp. split; [by left|]. intros [?|(i & Hi & _)]; [done|lia].
  - intros n s1 Hn (ps1 & G1). assert (0 <= Z.of_nat n < 512) as Hi by lia. rewrite Z.mul_1_r, Z.add_0_l.
    unfold body, peek64. mstep. rewrite (given_back_read _ ps1 s1 pr t (Z.of_nat n) G1 Hpr); [| |done|done].
    2: { intros [H|(i & _ & H)]; [by apply (HD pr)|]. apply longer_prefix in H; [|rewrite length_app; cbn; lia].
         apply (f_equal length) in H. rewrite length_app in H. cbn in H. lia. }
    assert (forall q, below pr (S n) q <-> below pr n q \/ pr ++ [Z.of_nat n] `prefix_of` q) as Hb.
    { intros q. split.
      - intros (i & Hi' & Hp). destruct (decide (i = Z.of_nat n)) as [->|]; [by right|left; exists i; split; [lia|done]].
      - intros [(i & Hi' & Hp)|Hp]; [exists i|exists (Z.of_nat n)]; (split; [lia|done]). }
    pose proof (tbl_at_step m root pr t (Z.of_nat n) Ht) as Hs. destruct (pte_valid (ld64 m (t + 8 * Z.of_nat n))) eqn:Hv; cbn [negb].
    + destruct (Hact _ _ (fun q => D q \/ below pr n q) ps1 s1 Hi Hs Hv eq_refl) with (2 := G1) as (ps2 & s2 & E2 & G2).
      { intros q Hq [H|(i & Hi' & H)]; [eapply HD; [|exact H]; transitivity (pr ++ [Z.of_nat n]); [apply snoc_prefix|done]|].
        pose proof (prefix_fork _ _ _ _ Hq H). lia. }
      exists s2. split; [done|]. exists ps2. eapply given_back_ext; [|exact G2]. intros q p _ _. rewrite Hb. tauto.
    + exists s1. split; [done|]. exists ps1. eapply given_back_ext; [|exact G1]. intros q p _ Hp. rewrite Hb.
      split; [tauto|]. intros [?|[?|[k ->]]]; [by left|by right|]. rewrite tbl_at_app, Hs in Hp. done.
  - destruct (give_back _ ps1 s1 pr t G1 Hpr) as (s2 & E2 & G2); [|done|].
    { intros [H|(i & _ & H)]; [by apply (HD pr)|]. apply longer_prefix in H; [|rewrite length_app; cbn; lia].
      apply (f_equal length) in H. rewrite length_app in H. cbn in H. lia. }
    exists (t :: ps1), s2. split; [by mrun E|]. eapply given_back_ext; [|exact G2]. intros q p [Hq1 Hq2] _. split.
    + intros [[?|(i & _ & H)]| ->]; [by left|right|by right]. transitivity (pr ++ [i]); [apply snoc_prefix|done].
    + intros [?|H]; [by left; left|]. destruct (prefix_next _ _ H) as [->|[i Hi]]; [by right|]. left. right. exists i. split; [|done].
      destruct Hi as [k ->]. rewrite !Forall_app in Hq2. destruct Hq2 as [[_ Hi] _]. rewrite Forall_singleton in Hi. lia.
Qed.

Lemma destroy_run level : forall pr t D ps s, (length pr + level = 2)%nat -> page_path pr -> tbl_at m root pr = Some t ->
  (forall q, pr `prefix_of` q -> ~ D q) -> given_back D ps s ->
  exists ps' s', destroy_pgtbl level t s = Ret tt s' /\ given_back (fun q => D q \/ pr `prefix_of` q) ps' s'.
Proof.
  induction level as [|level IH]; intros pr t D ps s Hlen Hpr Ht HD G; cbn [destroy_pgtbl].
  - apply (destroy_table (fun pte => pmem_free (PTE_TO_PA pte) false) pr t D ps s); try done; [lia|].
    intros i p D1 ps1 s1 Hi Hp _ -> HD1 G1.
    destruct (give_back D1 ps1 s1 (pr ++ [i]) (PTE_TO_PA (ld64 m (t + 8 * i))) G1) as (s2 & E2 & G2); [by apply page_path_snoc; [|lia|]|by apply HD1|done|].
    exists (PTE_TO_PA (ld64 m (t + 8 * i)) :: ps1), s2. split; [done|]. eapply given_back_ext; [|exact G2]. intros q p [Hq _] _.
    split; (intros [?| H]; [by left|right]); [by rewrite H|]. apply longer_prefix; [done|]. rewrite length_app. cbn. lia.
  - apply (destroy_table (fun pte => if PTE_CHECK pte then destroy_pgtbl level (PTE_TO_PA pte) else pmem_free (PTE_TO_PA pte) false) pr t D ps s);
      try done; [lia|].
    intros i p D1 ps1 s1 Hi Hp Hv -> HD1 G1. rewrite (ow_tables _ _ _ _ _ Hown pr t i Hpr ltac:(lia) Hi Ht Hv).
    apply (IH (pr ++ [i]) (PTE_TO_PA (ld64 m (t + 8 * i))) D1 ps1 s1); try done; [rewrite length_app; cbn; lia|by apply page_path_snoc; [|lia|]].
Qed.

(** The whole tree. *)
Lemma destroy_root s : pmem_ok s fl -> r = user_region s -> m = pm s ->
  exists ps s', destroy_pgtbl 2 root s = Ret tt s' /\ pmem_ok s' (fl_set false (ps ++ fl false) fl) /\
    (forall p, p ∈ ps <-> exists q, page_path q /\ tbl_at m root q = Some p) /\
    (forall a, (forall p, p ∈ ps -> ~ p <= a < p + PGSIZE) -> ld8 (pm s') a = ld8 m a).
Proof.
  intros Hs Hr Hm. assert (given_back (fun _ => False) [] s) as G.
  { split; try (by subst).
    - eapply pmem_ok_ext; [|exact Hs]. by intros [].
    - intros p. split; [by intros ?%elem_of_nil|]. by intros (q & _ & [] & _). }
  destruct (destroy_run 2 [] root (fun _ => False) [] s eq_refl) with (4 := G) as (ps & s' & E & [H1 _ _ H4 H5]); [by split; [cbn; lia|]|done|tauto|].
  exists ps, s'. split; [done|]. split; [done|]. split; [|done]. intros p. rewrite H4.
  split; [intros (q & Hq & _ & Hp); by exists q|intros (q & Hq & Hp); exists q; split; [done|split; [right; by apply prefix_nil|done]]].
Qed.
End destroy.

(** ** Unmapping a page *)

(** The path of a user address, and its page. *)
Definition path_of (va : Z) : list Z := vpns va ++ [VA_TO_VPN va 0].
(** No table covers addresses from VA_MAX on. *)
Definition lower_half (m : memory) (root : Z) : Prop := forall i, 256 <= i < 512 -> tbl_at m root [i] = None.

Lemma path_of_ok va : page_path (path_of va).
Proof. split; [done|]. repeat constructor; apply VPN_bound. Qed.
Lemma tbl_at_path m root va :
  tbl_at m root (path_of va) = if pte_valid (pte_of m root va) then Some (PTE_TO_PA (pte_of m root va)) else None.
Proof.
  unfold path_of, pte_of. rewrite walk_tbl, tbl_at_app. by destruct (tbl_at m root (vpns va)).
Qed.
Lemma path_of_page va va' : 0 <= va < VA_MAX -> 0 <= va' < VA_MAX -> path_of va = path_of va' <-> va / PGSIZE = va' / PGSIZE.
Proof.
  intros H H'. split.
  - intros E. unfold path_of, vpns in E. injection E as E2 E1 E0. apply vpns_inj; [done|done|unfold vpns; congruence|done].
  - intros E. unfold path_of. by rewrite (vpns_same _ _ (page_region _ _ E)), (VPN0_same _ _ E).
Qed.
(** A path of three indices in the lower half is that of an address. *)
Lemma path_of_indices i j k : 0 <= i < 256 -> 0 <= j < 512 -> 0 <= k < 512 ->
  exists va, 0 <= va < VA_MAX /\ path_of va = [i; j; k].
Proof.
  intros Hi Hj Hk. exists (i * 2 ^ 30 + j * 2 ^ 21 + k * 2 ^ 12). change VA_MAX with (2 ^ 38). split; [lia|].
  unfold path_of, vpns. cbn [app]. rewrite !VPN_eq by lia.
  change (2 ^ (12 + 9 * 2)) with 1073741824. change (2 ^ (12 + 9 * 1)) with 2097152. change (2 ^ (12 + 9 * 0)) with 4096.
  change (2 ^ 30) with 1073741824. change (2 ^ 21) with 2097152. change (2 ^ 12) with 4096.
  set (x := i * 1073741824 + j * 2097152 + k * 4096).
  assert (x / 1073741824 = i) as -> by (symmetry; apply (Z.div_unique_pos _ _ _ (j * 2097152 + k * 4096)); unfold x; lia).
  assert (x / 2097152 = j + i * 512) as -> by (symmetry; apply (Z.div_unique_pos _ _ _ (k * 4096)); unfold x; lia).
  assert (x / 4096 = k + (i * 512 + j) * 512) as -> by (symmetry; apply (Z.div_unique_pos _ _ _ 0); unfold x; lia).
  by rewrite !Z.mod_add, !Z.mod_small by lia.
Qed.
Lemma short_path_ok q : page_path q -> (length q <= 2)%nat -> prefix_ok q.
Proof. by intros [_ ?] ?. Qed.
Lemma prefix_path q : prefix_ok q -> page_path q.
Proof. intros [? ?]. split; [lia|done]. Qed.

Lemma owns_pt_ok shared m root r l : owns shared m root r l -> (forall q, q ∈ shared -> length q = 3%nat) -> pt_ok m root r l.
Proof.
  intros O Hsh. assert (forall q, prefix_ok q -> q ∉ shared) as Hn by (intros q [Hq _] Hin; apply Hsh in Hin; lia).
  split; intros *.
  - intros Hq Hq'. apply (ow_inj _ _ _ _ _ O); auto using prefix_path.
  - intros Hq. apply (ow_page _ _ _ _ _ O); auto using prefix_path.
Qed.

(** Different owned pages do not overlap. *)
Lemma owned_apart shared m root r l q q' p p' : owns shared m root r l -> page_path q -> page_path q' -> q ∉ shared -> q' ∉ shared ->
  tbl_at m root q = Some p -> tbl_at m root q' = Some p' -> q <> q' -> p + PGSIZE <= p' \/ p' + PGSIZE <= p.
Proof.
  intros O Hq Hq' Hs Hs' Hp Hp' Hne. destruct (ow_page _ _ _ _ _ O q p Hq Hs Hp) as [(Hm & _) _].
  destruct (ow_page _ _ _ _ _ O q' p' Hq' Hs' Hp') as [(Hm' & _) _]. apply pages_apart; [done|done|].
  intros ->. by apply Hne, (ow_inj _ _ _ _ _ O q q' p').
Qed.

(** One page is unmapped and, with freeit, freed.  Only a page that is not freed may be shared. *)
Lemma unmap_page shared root s fl va freeit (p := PTE_TO_PA (pte_of (pm s) root va)) (l' := free_list_after freeit p (fl false)) :
  pmem_ok s fl -> owns shared (pm s) root (user_region s) (fl false) -> (forall q, q ∈ shared -> q = path_of va) ->
  (freeit = true -> shared = []) -> lower_half (pm s) root -> 0 <= va -> va mod PGSIZE = 0 -> va + PGSIZE <= VA_MAX ->
  pte_valid (pte_of (pm s) root va) = true -> PTE_FLAGS (pte_of (pm s) root va) <> PTE_V ->
  exists s', vm_unmappages root va PGSIZE freeit s = Ret tt s' /\ pmem_ok s' (fl_set false l' fl) /\
    owns [] (pm s') root (user_region s') l' /\ lower_half (pm s') root /\
    (forall q, page_path q -> tbl_at (pm s') root q = if decide (q = path_of va) then None else tbl_at (pm s) root q) /\
    (forall va', 0 <= va' < VA_MAX -> pte_of (pm s') root va' = if va / PGSIZE =? va' / PGSIZE then 0 else pte_of (pm s) root va') /\
    (forall a, (forall q t, page_path q -> q ∉ shared -> tbl_at (pm s) root q = Some t -> ~ t <= a < t + PGSIZE) -> ld8 (pm s') a = ld8 (pm s) a).
Proof.
  intros Hs O Hsh Hfs Hlow Hva Hm Hmax Hv Hfl.
  assert (forall q, (length q < 3)%nat -> q ∉ shared) as Hshort by (intros q Hq Hin; apply Hsh in Hin as ->; cbn in Hq; lia).
  assert (pt_ok (pm s) root (user_region s) (fl false)) as Hpt by (eapply owns_pt_ok; [done|intros q Hin; by apply Hsh in Hin as ->]).
  pose proof (tbl_at_path (pm s) root va) as Hpath. rewrite Hv in Hpath. fold p in Hpath.
  assert (freeit = true -> path_of va ∉ shared) as Hown by (intros F; rewrite (Hfs F); apply not_elem_of_nil).
  destruct (unmap_one root s fl va freeit Hs Hpt ltac:(unfold PGSIZE in *; lia) Hv Hfl)
    as (s' & Hrun & Hs' & Hpt' & Htbl & Hb & He & Hpte & Hmem).
  { intros F. fold p. destruct (ow_page _ _ _ _ _ O (path_of va) p (path_of_ok va) (Hown F) Hpath) as [Hin Hn]. split_and!; [done|done|].
    intros q t Hq Ht ->. pose proof (ow_inj _ _ _ _ _ O q (path_of va) p (prefix_path q Hq) (path_of_ok va) (Hshort q ltac:(destruct Hq; lia)) (Hown F) Ht Hpath) as E.
    destruct Hq as [Hq _]. rewrite E in Hq. cbn in Hq. lia. }
  fold p in Hs', Hpt', Hmem. exists s'. split.
  { unfold vm_unmappages. rewrite Hm. change (PG_ROUND_UP PGSIZE / PGSIZE) with 1. cbn [negb Z.eqb]. change (Z.to_nat 1 + 1)%nat with 2%nat.
    rewrite Z.mul_1_l, u64_small by (change VA_MAX with (2 ^ 38) in *; unfold PGSIZE in *; lia).
    cbn [unmappages_loop]. bcase (va <? va + PGSIZE); [|unfold PGSIZE in *; lia]. rewrite Hrun.
    rewrite u64_small by (change VA_MAX with (2 ^ 38) in *; unfold PGSIZE in *; lia). by rewrite Z.ltb_irrefl. }
  split; [exact Hs'|].
  assert (forall q, page_path q -> tbl_at (pm s') root q = if decide (q = path_of va) then None else tbl_at (pm s) root q) as Hq'.
  { intros q Hq. destruct (decide (length q <= 2)%nat) as [Hl|Hl].
    - rewrite decide_False by (intros ->; cbn in Hl; lia). by apply Htbl, short_path_ok.
    - destruct q as [|i [|j [|k [|]]]]; try (cbn in Hl; lia); [|destruct Hq as [Hq _]; cbn in Hq; lia].
      destruct Hq as [_ Hi]. apply Forall_cons in Hi as [Hi Hjk]. apply Forall_cons in Hjk as [Hj Hk]. apply Forall_cons in Hk as [Hk _].
      destruct (decide (256 <= i)) as [Hhi|Hlo].
      + change [i; j; k] with ([i] ++ [j; k]). rewrite !tbl_at_app, Htbl by (split; [cbn; lia|by apply Forall_singleton]).
        rewrite (Hlow i) by lia. by case_decide.
      + destruct (path_of_indices i j k) as (va' & Hva' & <-); [lia|done|done|]. rewrite !tbl_at_path, Hpte by done.
        bcase (va / PGSIZE =? va' / PGSIZE).
        * by rewrite decide_True by (apply path_of_page; [done|unfold PGSIZE in *; lia|done]).
        * rewrite decide_False; [done|]. rewrite path_of_page; [congruence|done|unfold PGSIZE in *; lia]. }
  assert (forall q p', page_path q -> tbl_at (pm s') root q = Some p' -> q ∉ shared /\ q <> path_of va /\ tbl_at (pm s) root q = Some p') as Hold.
  { intros q p' Hq Ht. rewrite (Hq' q Hq) in Ht. case_decide; [done|]. split; [|done]. intros Hin. by apply Hsh in Hin. }
  destruct (pte_of_walk _ _ _ Hv) as (tl & Htl & _). pose proof (VPN_bound va 0) as Hslot.
  assert (forall q t i, page_path q -> (length q <= 1)%nat -> 0 <= i < 512 -> tbl_at (pm s) root q = Some t ->
    ld64 (pm s') (t + 8 * i) = ld64 (pm s) (t + 8 * i)) as Hentry.
  { intros q t i Hq Hl Hi Ht. apply ld_ext. intros b Hbb. apply (Hmem tl b Htl).
    - assert (q <> vpns va) as Hne by (intros ->; cbn in Hl; lia).
      pose proof (owned_apart _ _ _ _ _ q (vpns va) t tl O Hq (prefix_path _ (vpns_ok va)) (Hshort q ltac:(lia)) (Hshort (vpns va) ltac:(cbn; lia)) Ht Htl Hne).
      unfold PGSIZE in *. simpl in Hbb. lia.
    - intros F. assert (q <> path_of va) as Hne by (intros ->; cbn in Hl; lia).
      pose proof (owned_apart _ _ _ _ _ q (path_of va) t p O Hq (path_of_ok va) (Hshort q ltac:(lia)) (Hown F) Ht Hpath Hne).
      unfold PGSIZE in *. simpl in Hbb. lia. }
  split; [split|].
  - intros q q1 p' Hqp Hq1p _ _ Ht Ht1. apply (Hold q p' Hqp) in Ht as (Hs1 & _ & Ht). apply (Hold q1 p' Hq1p) in Ht1 as (Hs2 & _ & Ht1).
    by apply (ow_inj _ _ _ _ _ O q q1 p').
  - intros q p' Hqp _ Ht. apply (Hold q p' Hqp) in Ht as (Hs1 & Hne & Ht). destruct (ow_page _ _ _ _ _ O q p' Hqp Hs1 Ht) as [Hin Hn]. split.
    + unfold page_in. by rewrite Hb, He.
    + unfold l', free_list_after. destruct freeit; [|done]. apply not_elem_of_cons. split; [|done]. intros ->.
      by apply Hne, (ow_inj _ _ _ _ _ O q (path_of va) p Hqp (path_of_ok va) Hs1 (Hown eq_refl) Ht Hpath).
  - intros q t i Hqp Hl Hi Ht. apply (Hold q t Hqp) in Ht as (Hs1 & _ & Ht). rewrite (Hentry q t i Hqp Hl Hi Ht).
    by apply (ow_tables _ _ _ _ _ O q t i).
  - split; [|split; [exact Hq'|split; [exact Hpte|]]].
    + intros i Hi. rewrite Htbl; [by apply Hlow|]. split; [cbn; lia|apply Forall_singleton; lia].
    + intros a Ha. apply (Hmem tl a Htl).
      * pose proof (Ha (vpns va) tl (prefix_path _ (vpns_ok va)) (Hshort (vpns va) ltac:(cbn; lia)) Htl). unfold PGSIZE in *. lia.
      * intros F. exact (Ha (path_of va) p (path_of_ok va) (Hown F) Hpath).
Qed.

(** ** The address space *)

(** C38 uvm_destroy_pgtbl on an address space whose tables and mapped pages are its own, the trampoline
    page excepted, returns and gives back every table and every page that is mapped, the trapframe
    page included, and the trampoline page not: each of them is on the free list exactly once
    afterwards, in front of what was there, and no byte of any other page has changed. *)
Theorem uvm_destroy_pgtbl_frees root s fl :
  pmem_ok s fl -> owns [path_of TRAMPOLINE] (pm s) root (user_region s) (fl false) -> lower_half (pm s) root ->
  leaves 1 (pm s) root TRAMPOLINE -> leaves 1 (pm s) root TRAPFRAME ->
  exists ps s', uvm_destroy_pgtbl root s = Ret tt s' /\ pmem_ok s' (fl_set false (ps ++ fl false) fl) /\ NoDup (ps ++ fl false) /\
    (forall p, p ∈ ps <-> exists q, page_path q /\ q <> path_of TRAMPOLINE /\ tbl_at (pm s) root q = Some p) /\
    (forall a, (forall p, p ∈ ps -> ~ p <= a < p + PGSIZE) -> ld8 (pm s') a = ld8 (pm s) a).
Proof.
  intros Hs O Hlow (Hv1 & Hf1 & _) (Hv2 & Hf2 & _).
  destruct (unmap_page _ root s fl TRAMPOLINE false Hs O) as (s1 & R1 & Hs1 & O1 & Hlow1 & T1 & P1 & M1);
    [by intros q ->%list_elem_of_singleton|done|done|done|done|done|done|done|].
  cbn [free_list_after] in Hs1, O1. assert (pte_of (pm s1) root TRAPFRAME = pte_of (pm s) root TRAPFRAME) as Hpt by (by rewrite P1).
  set (p := PTE_TO_PA (pte_of (pm s) root TRAPFRAME)).
  destruct (unmap_page [] root s1 (fl_set false (fl false) fl) TRAPFRAME true Hs1) as (s2 & R2 & Hs2 & O2 & Hlow2 & T2 & _ & M2);
    rewrite ?fl_set_eq, ?Hpt in *; [done|by intros q ?%elem_of_nil|done|done|done|done|done|done|done|].
  cbn [free_list_after] in Hs2, O2. fold p in Hs2, O2.
  set (fl2 := fl_set false (p :: fl false) (fl_set false (fl false) fl)) in *.
  destruct (destroy_root (pm s2) root (user_region s2) fl2 O2 s2 Hs2 eq_refl eq_refl) as (ps & s' & R & Hs' & Hps & M).
  assert (ps ++ fl2 false = (ps ++ [p]) ++ fl false) as Hl by (unfold fl2; rewrite fl_set_eq, <- app_assoc; done).
  rewrite Hl in Hs'. assert (path_of TRAPFRAME <> path_of TRAMPOLINE) as Hne by done.
  assert (tbl_at (pm s) root (path_of TRAPFRAME) = Some p) as Hp by (rewrite tbl_at_path, Hv2; done).
  assert (forall x, x ∈ ps ++ [p] <-> exists q, page_path q /\ q <> path_of TRAMPOLINE /\ tbl_at (pm s) root q = Some x) as Hall.
  { intros x. rewrite elem_of_app, list_elem_of_singleton, Hps. split.
    - intros [(q & Hq & Hx)| ->]; [exists q|exists (path_of TRAPFRAME); split; [apply path_of_ok|done]].
      rewrite T2 in Hx by done. case_decide; [done|]. rewrite T1 in Hx by done. by case_decide.
    - intros (q & Hq & Hqt & Hx). destruct (decide (q = path_of TRAPFRAME)) as [->|Hqf]; [right; congruence|left].
      exists q. split; [done|]. by rewrite T2, decide_False, T1, decide_False by done. }
  exists (ps ++ [p]), s'. split; [|split; [|split; [|split; [exact Hall|]]]].
  - unfold uvm_destroy_pgtbl. mrun R1. by mrun R2.
  - eapply pmem_ok_ext; [|exact Hs']. intros b. unfold fl2. by rewrite !fl_set_set.
  - pose proof (rok_nodup _ _ _ (pok_regions _ _ Hs' false)) as Hnd. by rewrite fl_set_eq in Hnd.
  - intros a Ha. rewrite M, M2, M1; [done| | |intros x Hx; apply Ha, elem_of_app; by left].
    + intros q t Hq Hqs Ht. apply Ha, Hall. exists q. split; [done|]. split; [|done]. intros ->. apply Hqs, list_elem_of_here.
    + intros q t Hq _ Ht. apply Ha, Hall. exists q. rewrite T1 in Ht by done. by case_decide.
Qed.

(** ** A concrete address space *)

(** The paths from a table and the pages at their ends. *)
Fixpoint reach (n : nat) (m : memory) (t : Z) : list (list Z * Z) :=
  ([], t) :: match n with
  | O => []
  | S n => flat_map (fun i => let e := ld64 m (t + 8 * i) in
             if pte_valid e then map (fun x => (i :: fst x, snd x)) (reach n m (PTE_TO_PA e)) else []) (seqZ 0 512)
  end.
Lemma reach_all n m t q p : (length q <= n)%nat -> Forall (fun i => 0 <= i < 512) q -> tbl_at m t q = Some p -> (q, p) ∈ reach n m t.
Proof.
  revert t q. induction n as [|n IH]; intros t [|i q] Hl Hq Ht; cbn in Hl; try lia; cbn [tbl_at] in Ht.
  - injection Ht as ->. by left.
  - injection Ht as ->. by left.
  - apply Forall_cons in Hq as [Hi Hq]. cbn [reach]. right. apply list_elem_of_In, in_flat_map. exists i.
    split; [apply list_elem_of_In, elem_of_seqZ; lia|]. cbv zeta in *. destruct (pte_valid _); [|done].
    apply in_map_iff. exists (q, p). split; [done|]. apply list_elem_of_In, IH; [lia|done|done].
Qed.

(** A root with the trampoline, and a trapframe page taken from the allocator. *)
Definition final {S A} (o : outcome S A) (s : S) : S := match o with Ret _ s => s | _ => s end.
Definition demo_tramp : pmem := final (vm_mappages demo_root TRAMPOLINE 0x80007000 PGSIZE (Z.lor PTE_R PTE_X) demo_vm) demo_vm.
Definition demo_tf : Z := rhead (user_region demo_tramp).
Definition demo_space : pmem :=
  final ((pmem_alloc false;;; vm_mappages demo_root TRAPFRAME demo_tf PGSIZE (Z.lor PTE_R PTE_W)) demo_tramp) demo_tramp.
Lemma demo_reach : reach 3 (pm demo_space) demo_root =
  [([], 0x8041f000); ([255], 0x8041e000); ([255; 511], 0x8041d000); ([255; 511; 510], 0x8041c000); ([255; 511; 511], 0x80007000)].
Proof. vm_compute. reflexivity. Qed.
Lemma demo_tf_eq : demo_tf = 0x8041c000.
Proof. vm_compute. reflexivity. Qed.

Lemma demo_space_ok : exists fl, pmem_ok demo_space fl /\ pt_ok (pm demo_space) demo_root (user_region demo_space) (fl false) /\
  page_in (user_region demo_space) demo_tf /\ demo_tf ∉ fl false.
Proof.
  destruct demo_vm_ok as (H1 & H2 & _).
  destruct (vm_mappages_ok demo_root demo_vm demo_fl TRAMPOLINE 0x80007000 PGSIZE (Z.lor PTE_R PTE_X) 3 H1 H2)
    as (s1 & l1 & E1 & Hs1 & Hpt1 & _ & Hlen & _).
  1-8: first [lia | (vm_compute; reflexivity) | (vm_compute; congruence) | (vm_compute; split; congruence)].
  assert (s1 = demo_tramp) as -> by (unfold demo_tramp; by rewrite E1).
  destruct l1 as [|p l]; [cbn in Hlen; lia|].
  assert (p = demo_tf) as -> by (pose proof (rok_list _ _ _ (pok_regions _ _ Hs1 false)) as Hl; rewrite fl_set_eq in Hl; symmetry; apply Hl).
  destruct (alloc_map_one demo_root demo_tramp (fl_set false (demo_tf :: l) demo_fl) demo_tf l TRAPFRAME (Z.lor PTE_R PTE_W) Hs1)
    as (s2 & s3 & l' & tb & E2 & E3 & _ & Hs3 & Hpt3 & _ & _ & (Hin & Hn & _) & _).
  - by rewrite fl_set_eq.
  - by rewrite fl_set_eq.
  - vm_compute; congruence.
  - reflexivity.
  - vm_compute; congruence.
  - vm_compute; split; congruence.
  - vm_compute; congruence.
  - cbn in Hlen. lia.
  - assert (s3 = demo_space) as -> by (unfold demo_space; unfold bind; rewrite E2; cbn [obind]; rewrite E3; done).
    exists (fl_set false l' (fl_set false (demo_tf :: l) demo_fl)). rewrite fl_set_eq. by split_and!.
Qed.

Definition upper_entries (m : memory) (t : Z) : bool :=
  forallb (fun i => let e := ld64 m (t + 8 * i) in negb (pte_valid e) || PTE_CHECK e) (seqZ 0 512).
Lemma demo_upper : upper_entries (pm demo_space) 0x8041f000 && upper_entries (pm demo_space) 0x8041e000 = true.
Proof. vm_compute. reflexivity. Qed.
Lemma upper_entries_spec m t i : upper_entries m t = true -> 0 <= i < 512 ->
  pte_valid (ld64 m (t + 8 * i)) = true -> PTE_CHECK (ld64 m (t + 8 * i)) = true.
Proof.
  intros H Hi Hv. unfold upper_entries in H. rewrite forallb_forall in H. specialize (H i).
  rewrite Hv in H. apply H, list_elem_of_In, elem_of_seqZ. lia.
Qed.
(** The cases of membership in a list of pairs. *)
Ltac pair_cases H :=
  repeat (apply elem_of_cons in H as [H|H]); [..|by apply elem_of_nil in H]; apply pair_equal_spec in H as [-> H].
Lemma demo_space_owns fl : pmem_ok demo_space fl -> pt_ok (pm demo_space) demo_root (user_region demo_space) (fl false) ->
  page_in (user_region demo_space) demo_tf -> demo_tf ∉ fl false ->
  owns [path_of TRAMPOLINE] (pm demo_space) demo_root (user_region demo_space) (fl false).
Proof.
  intros Hs Hpt Hin Hn. change (path_of TRAMPOLINE) with [255; 511; 511].
  assert (forall q p, page_path q -> tbl_at (pm demo_space) demo_root q = Some p -> (q, p) ∈
    [([], 0x8041f000); ([255], 0x8041e000); ([255; 511], 0x8041d000); ([255; 511; 510], 0x8041c000); ([255; 511; 511], 0x80007000)]) as Hall.
  { intros q p [Hl Hq] Hp. rewrite <- demo_reach. by apply reach_all. }
  split.
  - intros q q' p Hq Hq' Hx Hx' Hp Hp'. apply Hall in Hp; [|done]. apply Hall in Hp'; [|done].
    assert (q <> [255; 511; 511] /\ q' <> [255; 511; 511]) as [Hn1 Hn2] by (split; intros ->; [apply Hx|apply Hx']; apply list_elem_of_here).
    pair_cases Hp; subst p; pair_cases Hp'; (done || discriminate Hp').
  - intros q p Hq Hx Hp. destruct (decide (length q <= 2)%nat) as [Hl|Hl].
    + apply (pt_page _ _ _ _ Hpt q p); [by split; [|apply Hq]|done].
    + apply Hall in Hp; [|done]. assert (q <> [255; 511; 511]) as Hn1 by (intros ->; apply Hx, list_elem_of_here).
      pair_cases Hp; try (cbn in Hl; lia); [|done]. rewrite Hp, <- demo_tf_eq. done.
  - intros q t i Hq Hl Hi Ht. apply Hall in Ht; [|done].
    assert (t = 0x8041f000 \/ t = 0x8041e000) as Hcase.
    { clear - Hl Ht. pair_cases Ht; subst t; try (by left); try (by right); cbn in Hl; lia. }
    destruct (andb_prop _ _ demo_upper) as [U1 U2].
    destruct Hcase as [-> | ->]; [exact (upper_entries_spec _ _ i U1 Hi)|exact (upper_entries_spec _ _ i U2 Hi)].
Qed.
Lemma demo_lower : lower_half (pm demo_space) demo_root.
Proof.
  intros i Hi. destruct (tbl_at (pm demo_space) demo_root [i]) as [p|] eqn:E; [|done].
  apply (reach_all 3) in E; [|cbn; lia|apply Forall_singleton; lia]. rewrite demo_reach in E.
  repeat (apply elem_of_cons in E as [E|E]; [apply (f_equal fst) in E; cbn in E; try discriminate E; injection E as ->; lia|]).
  by apply elem_of_nil in E.
Qed.
Lemma uvm_destroy_pgtbl_frees_witness : exists (ps : list Z) s', uvm_destroy_pgtbl demo_root demo_space = Ret tt s' /\ demo_tf ∈ ps /\ 0x80007000 ∉ ps.
Proof.
  destruct demo_space_ok as (fl & Hs & Hpt & Hin & Hn).
  pose proof (demo_space_owns fl Hs Hpt Hin Hn) as O.
  destruct (uvm_destroy_pgtbl_frees demo_root demo_space fl Hs O demo_lower) as (ps & s' & R & _ & _ & Hps & _).
  - split; [vm_compute; reflexivity|]. split; [vm_compute; discriminate|exact I].
  - split; [vm_compute; reflexivity|]. split; [vm_compute; discriminate|exact I].
  - exists ps, s'. split; [exact R|]. split.
    + apply Hps. exists (path_of TRAPFRAME). split; [apply path_of_ok|]. split; [discriminate|].
      rewrite demo_tf_eq. vm_compute. reflexivity.
    + intros (q & Hq & Hne & Hp)%Hps.
      apply reach_all with (n := 3%nat) in Hp; [|apply Hq|apply Hq]. rewrite demo_reach in Hp.
      pair_cases Hp; (discriminate Hp || by apply Hne).
Defined.
