(* ===== verification/MmapSpec.v ===== *)
(** * Properties of the mmap list of a process

    uvm_mmap() and uvm_munmap() keep the free part of the mmap area as a list of
    regions linked through the node repository.  The list is described as a
    sequence of areas (begin, npages); the routines are shown to compute [carve]
    and [join] on it, and these to be set difference and union on the addresses
    covered. *)

From stdpp Require Import sorting.
From S2P Require Import Prelude Machine Str Lock Pmem Kvm KvmSpec Mmap Uvm UvmSpec.

Notation area := (Z * Z)%type.
Notation cell := (nat * area)%type.

(** ** Segments of the list *)

Notation heap := (nat -> option mmap_region).
Fixpoint lseg (R : heap) (h : option nat) (l : list cell) (m : option nat) : Prop :=
  match l with
  | [] => h = m
  | (i, a) :: l => h = Some i /\ exists nx, R i = Some (mkMmap (fst a) (snd a) nx) /\ lseg R nx l m
  end.
Definition last_id (p : option nat) (l : list cell) : option nat := match last l with Some (i, _) => Some i | None => p end.

Lemma lseg_app R h l1 l2 m : lseg R h (l1 ++ l2) m <-> exists k, lseg R h l1 k /\ lseg R k l2 m.
Proof.
  revert h. induction l1 as [|[i a] l1 IH]; intros h; cbn.
  - split; [intros H; by exists h|by intros (k & -> & H)].
  - split.
    + intros (-> & nx & Hi & H). apply IH in H as (k & H1 & H2). exists k. split; [|done]. split; [done|]. by exists nx.
    + intros (k & (-> & nx & Hi & H1) & H2). split; [done|]. exists nx. split; [done|]. apply IH. by exists k.
Qed.
Lemma lseg_end R h l k k' : lseg R h l k -> lseg R h l k' -> k = k'.
Proof.
  revert h. induction l as [|[j b] l IH]; intros h; cbn; [by intros -> ->|].
  intros (-> & nx & Hj & H1) (_ & nx' & Hj' & H1'). rewrite Hj in Hj'. injection Hj' as <-. by eapply IH.
Qed.
Lemma lseg_frame R R' h l m : (forall i, i ∈ l.*1 -> R' i = R i) -> lseg R h l m -> lseg R' h l m.
Proof.
  revert h. induction l as [|[i a] l IH]; intros h H; cbn; [done|]. intros (-> & nx & Hi & Hl).
  split; [done|]. exists nx. rewrite H by left. split; [done|]. apply IH; [|done]. intros j Hj. apply H. by right.
Qed.
(** The last link of a segment redirected. *)
Lemma lseg_relink R h l i a m m' : i ∉ l.*1 -> lseg R h (l ++ [(i, a)]) m ->
  lseg (fun j => if decide (j = i) then Some (mkMmap (fst a) (snd a) m') else R j) h (l ++ [(i, a)]) m'.
Proof.
  intros Hi Hl. apply lseg_app in Hl as (k & H1 & -> & nx & Hr & <-). apply lseg_app. exists (Some i). split.
  - eapply lseg_frame; [|exact H1]. intros j Hj. rewrite decide_False; [done|]. by intros ->.
  - split; [done|]. exists m'. by rewrite decide_True.
Qed.

(** ** The routines on the repository *)

Definition rat (v : vproc) : heap := mmap_at (vrepo v).
Definition rput (i : nat) (x : mmap_region) (r : mrepo) : mrepo := set_nodes (alter (upd_mmap (fun _ => x)) i) r.
Definition put (i : nat) (x : mmap_region) (v : vproc) : vproc := mkVproc (vpm v) (rput i x (vrepo v)) (pmmap v).

Lemma mmap_at_rput i x r j : mmap_at (rput i x r) j = if decide (j = i) then (fun _ => x) <$> mmap_at r i else mmap_at r j.
Proof.
  unfold mmap_at, rput. cbn. destruct (decide (j = i)) as [->|Hne].
  - rewrite list_lookup_alter_eq. by destruct (_ !! i).
  - by rewrite list_lookup_alter_ne.
Qed.
Lemma repo_rput i x r fr : repo_ok r fr -> repo_ok (rput i x r) fr.
Proof.
  intros [Hh Hc Hnd Hl Hlen]. split; try done.
  - eapply chain_frame; [|exact Hc]. intros j n Hj Hn. cbn. destruct (decide (j = i)) as [->|Hne].
    + rewrite list_lookup_alter_eq, Hn. by eexists.
    + rewrite list_lookup_alter_ne by done. by eexists.
  - cbn. by rewrite length_alter.
Qed.
Lemma rput_rput i x y r : rput i x (rput i y r) = rput i x r.
Proof.
  unfold rput, set_nodes. cbn. f_equal. apply list_eq. intros j. destruct (decide (j = i)) as [->|].
  - rewrite !list_lookup_alter_eq. by destruct (_ !! i).
  - by rewrite !list_lookup_alter_ne.
Qed.
Lemma node_read i x c r : mmap_at r i = Some x -> exists n, node (Some i) (c, r) = Ret n (c, r) /\ mmap n = x.
Proof.
  unfold mmap_at. intros H. destruct (list_mmap_region_node r !! i) as [n|] eqn:E; [|done]. injection H as H.
  exists n. split; [by apply node_run|exact H].
Qed.
Lemma node_write i x f c r : mmap_at r i = Some x -> upd_node (Some i) (upd_mmap f) (c, r) = Ret tt (c, rput i (f x) r).
Proof.
  unfold mmap_at. intros H. destruct (list_mmap_region_node r !! i) as [n|] eqn:E; [|done]. injection H as <-.
  rewrite (upd_node_run i n _ _ _ E). do 2 f_equal. unfold rput, set_nodes. f_equal. apply list_eq. intros j.
  destruct (decide (j = i)) as [->|Hne].
  - rewrite list_lookup_alter_eq, E, list_lookup_insert_eq by (by eapply lookup_lt_Some). done.
  - by rewrite list_lookup_alter_ne, list_lookup_insert_ne.
Qed.
Lemma rat_put i x v j : rat (put i x v) j = if decide (j = i) then (fun _ => x) <$> rat v i else rat v j.
Proof. apply mmap_at_rput. Qed.
Lemma repo_put i x v fr : repo_ok (vrepo v) fr -> repo_ok (vrepo (put i x v)) fr.
Proof. apply repo_rput. Qed.
Lemma vp_id v : lset vp_repo (pcpu (vpm v), vrepo v) v = v.
Proof. by destruct v as [[] ? ?]. Qed.
Lemma rd_region_run i x v : rat v i = Some x -> rd_region (Some i) v = Ret x v.
Proof.
  intros H. destruct (node_read i x (pcpu (vpm v)) (vrepo v) H) as (n & E & <-).
  unfold rd_region. rewrite (bind_run _ _ _ _ _ (zoom_run vp_repo _ v _ _ E)). by rewrite vp_id.
Qed.
Lemma wr_region_run i x f v : rat v i = Some x -> wr_region (Some i) f v = Ret tt (put i (f x) v).
Proof.
  intros H. unfold wr_region. rewrite (zoom_run vp_repo _ v _ _ (node_write i x f (pcpu (vpm v)) (vrepo v) H)). by destruct v as [[] r h].
Qed.

(** A list in order: the cells [l] from the head on, the free nodes [fr]. *)
Record mlist_ok (v : vproc) (fr : list nat) (l : list cell) : Prop := {
  ml_repo : repo_ok (vrepo v) fr;
  ml_cpu : cpu_wf (pcpu (vpm v));
  ml_seg : lseg (rat v) (pmmap v) l None;
  ml_ids : NoDup (l.*1 ++ O :: fr);
  ml_node : forall i, i ∈ l.*1 -> (i < Z.to_nat N_MMAP)%nat;
}.
(** Everything but the hart's interrupt bookkeeping and the list is kept. *)
Definition mem_kept (v v' : vproc) : Prop := exists c, cpu_wf c /\ vpm v' = set_pcpu c (vpm v).

Lemma alloc_run v i fr : repo_ok (vrepo v) (i :: fr) -> cpu_wf (pcpu (vpm v)) ->
  exists r', zoom vp_repo mmap_region_alloc v = Ret (Some i) (mkVproc (set_pcpu (synced (pcpu (vpm v))) (vpm v)) r' (pmmap v)) /\
    repo_ok r' fr /\ mmap_at r' i = Some (mkMmap 0 0 None) /\ (forall j, j <> i -> mmap_at r' j = rat v j).
Proof.
  intros Hr Hc. destruct (mmap_region_alloc_ok _ _ i fr Hc Hr) as (r' & E & H). exists r'.
  by rewrite (zoom_run _ _ _ _ _ E).
Qed.
Lemma free_run v i fr : repo_ok (vrepo v) fr -> cpu_wf (pcpu (vpm v)) -> i ∉ O :: fr -> (i < Z.to_nat N_MMAP)%nat ->
  exists r', zoom vp_repo (mmap_region_free (Some i)) v = Ret tt (mkVproc (set_pcpu (synced (pcpu (vpm v))) (vpm v)) r' (pmmap v)) /\
    repo_ok r' (i :: fr) /\ (forall j, mmap_at r' j = rat v j).
Proof.
  intros Hr Hc Hi Hlt. destruct (mmap_region_free_ok _ _ i fr Hc Hr Hi Hlt) as (r' & E & H). exists r'.
  by rewrite (zoom_run _ _ _ _ _ E).
Qed.

(** ** Changing one link, one cell, one node *)

Lemma put_put i x y v : put i x (put i y v) = put i x v.
Proof. unfold put. cbn. by rewrite rput_rput. Qed.
Lemma mlist_split v fr l1 l2 : mlist_ok v fr (l1 ++ l2) -> exists k, lseg (rat v) (pmmap v) l1 k /\ lseg (rat v) k l2 None.
Proof. intros [_ _ H _ _]. by apply lseg_app. Qed.
Lemma mlist_cell v fr l1 c a l2 : mlist_ok v fr (l1 ++ (c, a) :: l2) ->
  lseg (rat v) (pmmap v) l1 (Some c) /\ exists nx, rat v c = Some (mkMmap (fst a) (snd a) nx) /\ lseg (rat v) nx l2 None.
Proof. intros H. destruct (mlist_split _ _ _ _ H) as (k & H1 & -> & nx & Hc & H2). split; [done|]. by exists nx. Qed.
Lemma mlist_notin v fr l1 c a l2 : mlist_ok v fr (l1 ++ (c, a) :: l2) -> c ∉ l1.*1 ++ l2.*1 ++ O :: fr.
Proof.
  intros [_ _ _ Hnd _]. rewrite fmap_app, fmap_cons, <- app_assoc in Hnd. cbn in Hnd.
  apply NoDup_app in Hnd as (_ & H1 & H2). apply NoDup_cons in H2 as [H2 _]. rewrite elem_of_app. intros [H|H]; [|done].
  apply (H1 _ H). left.
Qed.

(** The link that leads to the cells after [l1] set to [p]. *)
Definition relink (l1 : list cell) (p : option nat) (v : vproc) : vproc :=
  match last l1 with
  | None => set_pmmap p v
  | Some (i, a) => put i (mkMmap (fst a) (snd a) p) v
  end.
Lemma relink_kept l1 p v j : j ∉ l1.*1 -> rat (relink l1 p v) j = rat v j.
Proof.
  intros Hj. unfold relink. destruct (last l1) as [[i a]|] eqn:E; [|done]. rewrite rat_put, decide_False; [done|].
  intros ->. apply Hj. apply last_Some in E as [l ->]. rewrite fmap_app. apply elem_of_app. right. left.
Qed.
Lemma relink_seg l1 p k v : NoDup l1.*1 -> lseg (rat v) (pmmap v) l1 k -> lseg (rat (relink l1 p v)) (pmmap (relink l1 p v)) l1 p.
Proof.
  intros Hnd H. unfold relink. destruct (last l1) as [[i a]|] eqn:E; [|by apply last_None in E as ->].
  apply last_Some in E as [l ->]. rewrite fmap_app in Hnd. apply NoDup_app in Hnd as (_ & Hi & _).
  assert (i ∉ l.*1) as Hn by (intros Hx; apply (Hi _ Hx); left). cbn [pmmap put].
  pose proof H as (k' & _ & _ & nx & Hr & _)%lseg_app. eapply lseg_frame; [|by apply (lseg_relink _ _ _ _ _ _ p Hn H)].
  intros j _. rewrite rat_put. destruct (decide (j = i)) as [->|]; [by rewrite Hr|done].
Qed.
Lemma relink_rest l1 p v fr : repo_ok (vrepo v) fr -> cpu_wf (pcpu (vpm v)) ->
  repo_ok (vrepo (relink l1 p v)) fr /\ vpm (relink l1 p v) = vpm v.
Proof. intros Hr Hc. unfold relink. destruct (last l1) as [[i a]|]; [|done]. split; [by apply repo_put|done]. Qed.
(** Cells [l2] taken from the list, cells [l3] put in their place. *)
Lemma mlist_relink v fr l1 l2 l3 p : mlist_ok v fr (l1 ++ l2) -> lseg (rat v) p l3 None ->
  NoDup (l1.*1 ++ l3.*1 ++ O :: fr) -> (forall i, i ∈ l3.*1 -> (i < Z.to_nat N_MMAP)%nat) -> mlist_ok (relink l1 p v) fr (l1 ++ l3).
Proof.
  intros H H3 Hnd Hn. destruct (mlist_split _ _ _ _ H) as (k & H1 & _). destruct H as [Hr Hc _ _ Hlt].
  destruct (relink_rest l1 p v fr Hr Hc) as [Hr' Hv]. pose proof Hnd as (Hnd1 & Hd & _)%NoDup_app.
  split; [done|by rewrite Hv| | |].
  - apply lseg_app. exists p. split; [by eapply relink_seg|]. eapply lseg_frame; [|exact H3]. intros j Hj. apply relink_kept.
    intros Hj1. apply (Hd _ Hj1). apply elem_of_app. by left.
  - by rewrite fmap_app, <- app_assoc.
  - intros i Hi. rewrite fmap_app in Hi. apply elem_of_app in Hi as [Hi|Hi]; [|by apply Hn].
    apply Hlt. rewrite fmap_app. apply elem_of_app. by left.
Qed.
Lemma mlist_free v fr l i : mlist_ok v fr l -> i ∉ l.*1 ++ O :: fr -> (i < Z.to_nat N_MMAP)%nat ->
  exists v', zoom vp_repo (mmap_region_free (Some i)) v = Ret tt v' /\ mlist_ok v' (i :: fr) l /\ mem_kept v v'.
Proof.
  intros [Hr Hc Hl Hnd Hlt] Hi Hlti. rewrite elem_of_app in Hi. destruct (free_run v i fr Hr Hc) as (r' & E & Hr' & Hm); [tauto|done|].
  eexists. split; [exact E|]. pose proof (synced_wf _ Hc) as Hs. split; [|by exists (synced (pcpu (vpm v)))].
  split; [done|done| | |done].
  - eapply lseg_frame; [|exact Hl]. intros j _. apply Hm.
  - apply NoDup_app in Hnd as (H1 & H2 & H3). apply NoDup_cons in H3 as [H0 H3]. apply NoDup_app. split; [done|]. split.
    + intros x Hx. rewrite !elem_of_cons. specialize (H2 x Hx). rewrite elem_of_cons in H2. intros [->|[->|?]]; [tauto|tauto|tauto].
    + rewrite elem_of_cons in Hi. apply NoDup_cons. split; [rewrite elem_of_cons; intros [<-|?]; tauto|]. apply NoDup_cons. tauto.
Qed.
Lemma mlist_alloc v fr l i : mlist_ok v (i :: fr) l ->
  exists v', zoom vp_repo mmap_region_alloc v = Ret (Some i) v' /\ mlist_ok v' fr l /\ mem_kept v v' /\
    rat v' i = Some (mkMmap 0 0 None) /\ i ∉ l.*1 ++ O :: fr /\ (i < Z.to_nat N_MMAP)%nat /\ (forall j, j <> i -> rat v' j = rat v j).
Proof.
  intros [Hr Hc Hl Hnd Hlt]. destruct (alloc_run v i fr Hr Hc) as (r' & E & Hr' & Hi & Hm). eexists. split; [exact E|].
  pose proof (synced_wf _ Hc) as Hs. apply NoDup_app in Hnd as (H1 & H2 & H3). apply NoDup_cons in H3 as [H0 H3].
  apply NoDup_cons in H3 as [H4 H3]. rewrite elem_of_cons in H0.
  assert (i ∉ l.*1) as Hil by (intros Hx; apply (H2 _ Hx); right; left).
  split; [split; [done|done| | |done]|]; [| |split; [by exists (synced (pcpu (vpm v)))|split; [exact Hi|split; [|split; [|exact Hm]]]]].
  - eapply lseg_frame; [|exact Hl]. intros j Hj. apply Hm. by intros ->.
  - apply NoDup_app. split; [done|]. split; [intros x Hx; specialize (H2 x Hx); rewrite !elem_of_cons in *; tauto|].
    apply NoDup_cons. tauto.
  - rewrite elem_of_app, elem_of_cons. intros [?|[->|?]]; tauto.
  - destruct Hr as [_ Hch _ _ Hlen]. destruct Hch as (_ & n0 & _ & _ & ni & Hni & _). rewrite <- Hlen. by eapply lookup_lt_Some.
Qed.
(** A cell with a new area. *)
Lemma mlist_set v fr l1 c a l2 nx a' : mlist_ok v fr (l1 ++ (c, a) :: l2) -> rat v c = Some (mkMmap (fst a) (snd a) nx) ->
  mlist_ok (put c (mkMmap (fst a') (snd a') nx) v) fr (l1 ++ (c, a') :: l2).
Proof.
  intros H Hc. pose proof (mlist_notin _ _ _ _ _ _ H) as Hn. destruct (mlist_cell _ _ _ _ _ _ H) as (H1 & nx' & Hc' & H2).
  rewrite Hc in Hc'. injection Hc' as <-. destruct H as [Hr Hcpu _ Hnd Hlt]. rewrite !elem_of_app in Hn.
  split; [by apply repo_put|done| | |].
  - apply lseg_app. exists (Some c). split; [|split; [done|exists nx; split]].
    + eapply lseg_frame; [|exact H1]. intros j Hj. rewrite rat_put, decide_False; [done|]. intros ->. tauto.
    + by rewrite rat_put, decide_True, Hc.
    + eapply lseg_frame; [|exact H2]. intros j Hj. rewrite rat_put, decide_False; [done|]. intros ->. tauto.
  - rewrite fmap_app, fmap_cons in *. exact Hnd.
  - intros i Hi. apply Hlt. rewrite fmap_app, fmap_cons in *. exact Hi.
Qed.

(** ** Areas and the addresses they cover *)

Definition area_end (a : area) : Z := fst a + snd a * PGSIZE.
Definition in_area (x : Z) (a : area) : Prop := fst a <= x < area_end a.
Definition covers (l : list area) (x : Z) : Prop := Exists (in_area x) l.
Definition area_ok (a : area) : Prop :=
  MMAP_BEGIN <= fst a /\ fst a mod PGSIZE = 0 /\ 0 < snd a /\ area_end a <= MMAP_END.
Definition apart (a a' : area) : Prop := area_end a < fst a'.
(** The areas ascend and no two of them touch. *)
Definition canon (l : list area) : Prop := StronglySorted apart l /\ Forall area_ok l.

Lemma area_bytes a : area_ok a -> bytes_of (snd a) = snd a * PGSIZE /\ u64 (area_end a) = area_end a /\ 0 <= fst a < area_end a /\ u32 (snd a) = snd a.
Proof.
  unfold area_ok, area_end, bytes_of, MMAP_BEGIN, MMAP_END. change VA_MAX with (2 ^ 38). change PGSIZE with 4096.
  intros (H1 & H2 & H3 & H4). rewrite u32_small, u64_small, u32_small by lia. lia.
Qed.
Lemma canon_app l1 l2 : canon (l1 ++ l2) <->
  canon l1 /\ canon l2 /\ forall a b, a ∈ l1 -> b ∈ l2 -> apart a b.
Proof.
  unfold canon. rewrite Forall_app. split.
  - intros [Hs [H1 H2]]. split_and!; try done; [by eapply StronglySorted_app_1_l|by eapply StronglySorted_app_1_r|].
    intros a b Ha Hb. by eapply (StronglySorted_app_1_elem_of apart l1 l2).
  - intros ([Hs1 H1] & [Hs2 H2] & H). split; [|done]. by apply StronglySorted_app_2.
Qed.
Lemma canon_cons a l : canon (a :: l) <-> area_ok a /\ canon l /\ forall b, b ∈ l -> apart a b.
Proof.
  unfold canon. rewrite Forall_cons. split.
  - intros [Hs [Ha Hl]]. apply StronglySorted_inv in Hs as [Hs Hf]. rewrite Forall_forall in Hf. done.
  - intros (Ha & [Hs Hl] & H). split; [|done]. constructor; [done|]. by apply Forall_forall.
Qed.
Lemma canon_one a : canon [a] <-> area_ok a.
Proof. rewrite canon_cons. split; [by intros [? _]|]. intros H. split; [done|]. split; [split; constructor|]. by intros b ?%not_elem_of_nil. Qed.
Lemma canon_elem l a : canon l -> a ∈ l -> area_ok a.
Proof. intros [_ H] Ha. rewrite Forall_forall in H. by apply H. Qed.
Lemma covers_elem l x : covers l x <-> exists a, a ∈ l /\ in_area x a.
Proof. unfold covers. by rewrite Exists_exists. Qed.
Lemma covers_app l1 l2 x : covers (l1 ++ l2) x <-> covers l1 x \/ covers l2 x.
Proof. apply Exists_app. Qed.
Lemma covers_cons a l x : covers (a :: l) x <-> in_area x a \/ covers l x.
Proof. apply Exists_cons. Qed.
Lemma covers_nil x : ~ covers [] x.
Proof. intros H. inversion H. Qed.

(** Two such lists with the same addresses are the same list. *)
Lemma canon_head a l x : canon (a :: l) -> covers (a :: l) x -> fst a <= x /\ x <> area_end a /\ (x < area_end a <-> in_area x a).
Proof.
  intros (Ha & Hl & Hap)%canon_cons. pose proof (area_bytes a Ha) as (_ & _ & Hb & _).
  rewrite covers_cons, covers_elem. unfold in_area, apart in *. intros [H|(b & Hin & H)]; [lia|]. specialize (Hap b Hin).
  pose proof (canon_elem _ _ Hl Hin). lia.
Qed.
Lemma canon_unique l l' : canon l -> canon l' -> (forall x, covers l x <-> covers l' x) -> l = l'.
Proof.
  revert l'. induction l as [|a l IH]; intros [|a' l'] Hl Hl' H; [done| | |].
  - exfalso. apply (covers_nil (fst a')), H. apply canon_cons in Hl' as (Ha & _). pose proof (area_bytes a' Ha).
    apply covers_cons. left. unfold in_area. lia.
  - exfalso. apply (covers_nil (fst a)), H. apply canon_cons in Hl as (Ha & _). pose proof (area_bytes a Ha).
    apply covers_cons. left. unfold in_area. lia.
  - pose proof (fun x => canon_head a l x Hl) as Hh. pose proof (fun x => canon_head a' l' x Hl') as Hh'.
    apply canon_cons in Hl as (Ha & Hl & Hap), Hl' as (Ha' & Hl' & Hap').
    pose proof (area_bytes a Ha) as (_ & _ & Hb & _). pose proof (area_bytes a' Ha') as (_ & _ & Hb' & _).
    assert (forall x, in_area x a -> covers (a :: l) x) as Hc by (intros; apply covers_cons; by left).
    assert (forall x, in_area x a' -> covers (a' :: l') x) as Hc' by (intros; apply covers_cons; by left).
    unfold in_area in *.
    assert (fst a = fst a') as E1.
    { pose proof (Hh' (fst a) (proj1 (H (fst a)) (Hc (fst a) ltac:(lia)))). pose proof (Hh (fst a') (proj2 (H (fst a')) (Hc' (fst a') ltac:(lia)))). lia. }
    assert (area_end a = area_end a') as E2.
    { destruct (Z.lt_trichotomy (area_end a) (area_end a')) as [Hlt|[Heq|Hlt]]; [exfalso|done|exfalso].
      - pose proof (Hh (area_end a) (proj2 (H (area_end a)) (Hc' (area_end a) ltac:(lia)))). lia.
      - pose proof (Hh' (area_end a') (proj1 (H (area_end a')) (Hc (area_end a') ltac:(lia)))). lia. }
    f_equal; [destruct a, a'; unfold area_end in *; cbn in *; unfold PGSIZE in *; f_equal; lia|].
    apply IH; [done|done|]. intros x. specialize (H x). rewrite !covers_cons in H. unfold in_area in H.
    assert (forall l0 b0, (forall b, b ∈ l0 -> apart b0 b) -> covers l0 x -> area_end b0 < x) as Hgt.
    { intros l0 b0 Hx (b & Hin & Hin')%covers_elem. specialize (Hx b Hin). unfold apart, in_area in *. lia. }
    rewrite E1, E2 in H. split; intros Hx.
    + pose proof (Hgt _ _ Hap Hx). destruct (proj1 H (or_intror Hx)); [lia|done].
    + pose proof (Hgt _ _ Hap' Hx). destruct (proj2 H (or_intror Hx)); [lia|done].
Qed.

(** Taking an area out of an area that holds it. *)
Definition within (a r : area) : Prop := fst a <= fst r /\ area_end r <= area_end a.
#[export] Instance within_dec a r : Decision (within a r).
Proof. unfold within. apply _. Defined.
Definition piece (b e : Z) : list area := if b =? e then [] else [(b, (e - b) / PGSIZE)].
Definition cut (a r : area) : list area := piece (fst a) (fst r) ++ piece (area_end r) (area_end a).

Lemma pages_between b e : b mod PGSIZE = 0 -> e mod PGSIZE = 0 -> (e - b) / PGSIZE * PGSIZE = e - b.
Proof.
  intros Hb He. rewrite Z.mul_comm. symmetry. apply Z.div_exact; [done|]. rewrite Zminus_mod, Hb, He. done.
Qed.
Lemma end_mod a : area_ok a -> area_end a mod PGSIZE = 0.
Proof. intros (_ & H & _ & _). unfold area_end. by rewrite Z.mod_add. Qed.
Lemma piece_ok b e : b mod PGSIZE = 0 -> e mod PGSIZE = 0 -> MMAP_BEGIN <= b <= e -> e <= MMAP_END ->
  canon (piece b e) /\ (forall x, covers (piece b e) x <-> b <= x < e) /\ (forall p, p ∈ piece b e -> fst p = b /\ area_end p = e).
Proof.
  intros Hb He Hbe Hw. unfold piece. pose proof (pages_between b e Hb He) as P. destruct (Z.eqb_spec b e) as [->|Hne].
  - split; [split; constructor|]. split; [|by intros p ?%not_elem_of_nil]. intros x. split; [by intros ?%covers_nil|lia].
  - assert (area_end (b, (e - b) / PGSIZE) = e) as E by (unfold area_end; cbn [fst snd]; lia).
    split; [|split].
    + apply canon_one. unfold area_ok. rewrite E. cbn [fst snd]. unfold PGSIZE in *. lia.
    + intros x. rewrite covers_cons. unfold in_area. rewrite E. cbn [fst]. split; [|by left].
      intros [H|H]; [done|]. by apply covers_nil in H.
    + intros p ->%list_elem_of_singleton. done.
Qed.
Lemma cut_ok a r : area_ok a -> area_ok r -> within a r ->
  canon (cut a r) /\ (forall x, covers (cut a r) x <-> in_area x a /\ ~ in_area x r) /\
  (forall p, p ∈ cut a r -> within a p).
Proof.
  intros Ha Hr [H1 H2]. pose proof (area_bytes a Ha) as (_ & _ & Hab & _). pose proof (area_bytes r Hr) as (_ & _ & Hrb & _).
  pose proof (end_mod a Ha) as Ea. pose proof (end_mod r Hr) as Er.
  destruct Ha as (Ha1 & Ha2 & Ha3 & Ha4), Hr as (Hr1 & Hr2 & Hr3 & Hr4).
  destruct (piece_ok (fst a) (fst r)) as (C1 & V1 & P1); [done|done|lia|lia|].
  destruct (piece_ok (area_end r) (area_end a)) as (C2 & V2 & P2); [done|done|lia|lia|]. unfold cut. split_and!.
  - apply canon_app. split_and!; [done|done|]. intros p q [_ Hp]%P1 [Hq _]%P2. unfold apart. lia.
  - intros x. rewrite covers_app, V1, V2. unfold in_area. lia.
  - intros p. rewrite elem_of_app. intros [Hp|Hp]; [apply P1 in Hp|apply P2 in Hp]; unfold within; [|lia].
    destruct Hp as [Hp1 Hp2]. lia.
Qed.
(** An area of the list replaced by areas inside it. *)
Lemma canon_replace l1 a l2 m : canon (l1 ++ a :: l2) -> canon m -> (forall p, p ∈ m -> within a p) -> canon (l1 ++ m ++ l2).
Proof.
  intros (C1 & (Ha & C2 & A2)%canon_cons & A1)%canon_app Hm Hw. apply canon_app. split; [done|]. split.
  - apply canon_app. split_and!; [done|done|]. intros p q Hp Hq. specialize (A2 _ Hq). destruct (Hw _ Hp). unfold apart in *. lia.
  - intros p q Hp [Hq|Hq]%elem_of_app.
    + specialize (A1 p a Hp ltac:(left)). destruct (Hw _ Hq). unfold apart in *. lia.
    + apply A1; [done|]. by right.
Qed.
Lemma canon_cut l1 a l2 r : canon (l1 ++ a :: l2) -> area_ok r -> within a r ->
  canon (l1 ++ cut a r ++ l2) /\
  forall x, covers (l1 ++ cut a r ++ l2) x <-> covers (l1 ++ a :: l2) x /\ ~ in_area x r.
Proof.
  intros H Hr Hw. pose proof H as (C1 & (Ha & C2 & A2)%canon_cons & A1)%canon_app.
  destruct (cut_ok a r Ha Hr Hw) as (Hc & Hv & Hp). split; [by eapply canon_replace|]. intros x.
  rewrite !covers_app, covers_cons, Hv.
  assert (covers l1 x -> ~ in_area x r) as N1.
  { intros (p & Hp' & Hx)%covers_elem. specialize (A1 p a Hp' ltac:(left)). destruct Hw. unfold apart, in_area in *. lia. }
  assert (covers l2 x -> ~ in_area x r) as N2.
  { intros (p & Hp' & Hx)%covers_elem. specialize (A2 p Hp'). destruct Hw. unfold apart, in_area in *. lia. }
  tauto.
Qed.

(** Putting an area in front of a list, merged with the head where they touch. *)
Definition glue (a : area) (l : list area) : list area :=
  match l with
  | a' :: l' => if area_end a =? fst a' then (fst a, snd a + snd a') :: l' else a :: l
  | [] => [a]
  end.
Lemma glue_ok a l : area_ok a -> canon l -> (forall p, p ∈ l -> area_end a <= fst p) ->
  canon (glue a l) /\ (forall x, covers (glue a l) x <-> in_area x a \/ covers l x) /\ (forall p, p ∈ glue a l -> fst a <= fst p).
Proof.
  intros Ha Hl Hle. pose proof (area_bytes a Ha) as (_ & _ & Hab & _). destruct l as [|a' l].
  - cbn. split; [by apply canon_one|]. split; [intros x; by rewrite covers_cons|]. intros p ->%list_elem_of_singleton. lia.
  - pose proof Hl as (Ha' & Hl' & Hap)%canon_cons. pose proof (area_bytes a' Ha') as (_ & _ & Hab' & _).
    assert (area_end a <= fst a') as H0 by (apply Hle; left). cbn.
    assert (forall p, p ∈ l -> fst a <= fst p) as Hle' by (intros p Hp; specialize (Hap p Hp); unfold apart in *; lia).
    destruct (Z.eqb_spec (area_end a) (fst a')) as [E|E].
    + assert (area_end (fst a, snd a + snd a') = area_end a') as Em by (unfold area_end in *; cbn [fst snd]; lia).
      split_and!.
      * apply canon_cons. split_and!; [|done|intros p Hp; specialize (Hap p Hp); unfold apart in *; by rewrite Em].
        unfold area_ok. rewrite Em. cbn [fst snd]. destruct Ha as (? & ? & ? & ?), Ha' as (? & ? & ? & ?). lia.
      * intros x. rewrite !covers_cons. unfold in_area. rewrite Em. cbn [fst]. split; [intros [?|?]; [|by right; right]|intros [?|[?|?]]; [| |by right]].
        -- destruct (decide (x < area_end a)); [left; lia|right; left; lia].
        -- left; lia.
        -- left; lia.
      * intros p [->|Hp]%elem_of_cons; [cbn; lia|by apply Hle'].
    + split_and!.
      * apply canon_cons. split_and!; [done|done|]. intros p [->|Hp]%elem_of_cons; unfold apart; [lia|].
        specialize (Hap p Hp). unfold apart in Hap. lia.
      * intros x. by rewrite !covers_cons.
      * intros p [->|[->|Hp]%elem_of_cons]%elem_of_cons; [lia|lia|by apply Hle'].
Qed.
(** An area put between [l1] and [l2]. *)
Definition join (l1 : list area) (a : area) (l2 : list area) : list area :=
  match last l1 with
  | None => glue a l2
  | Some p => removelast l1 ++ glue p (glue a l2)
  end.
Lemma canon_join l1 a l2 : canon (l1 ++ l2) -> area_ok a ->
  (forall p, p ∈ l1 -> area_end p <= fst a) -> (forall p, p ∈ l2 -> area_end a <= fst p) ->
  canon (join l1 a l2) /\ forall x, covers (join l1 a l2) x <-> covers (l1 ++ l2) x \/ in_area x a.
Proof.
  intros (C1 & C2 & A)%canon_app Ha H1 H2. destruct (glue_ok a l2 Ha C2 H2) as (Cg & Vg & Lg).
  unfold join. destruct (last l1) as [p|] eqn:E.
  - apply last_Some in E as [l ->]. rewrite removelast_last. apply canon_app in C1 as (Cl & Cp & Al).
    apply canon_one in Cp. destruct (glue_ok p (glue a l2) Cp Cg) as (Cg2 & Vg2 & Lg2).
    { intros q Hq. specialize (Lg q Hq). specialize (H1 p ltac:(apply elem_of_app; right; left)). lia. }
    split.
    + apply canon_app. split_and!; [done|done|]. intros q r Hq Hr. specialize (Lg2 r Hr).
      specialize (Al q p Hq ltac:(left)). unfold apart in *. lia.
    + intros x. rewrite !covers_app, Vg2, Vg, covers_cons. pose proof (covers_nil x). tauto.
  - apply last_None in E as ->. split; [done|]. intros x. rewrite Vg. cbn. tauto.
Qed.

(** ** mmap_carve *)

Lemma kept_id v v' : cpu_wf (pcpu (vpm v)) -> vpm v' = vpm v -> mem_kept v v'.
Proof. intros Hc E. exists (pcpu (vpm v)). split; [done|]. rewrite E. by destruct (vpm v). Qed.
Lemma kept_trans v1 v2 v3 : mem_kept v1 v2 -> mem_kept v2 v3 -> mem_kept v1 v3.
Proof. intros (c & _ & E) (c' & Hc' & E'). exists c'. split; [done|]. rewrite E', E. by destruct (vpm v1). Qed.
Lemma mlist_len v fr l : mlist_ok v fr l -> (length l < list_fuel)%nat.
Proof.
  intros [_ _ _ Hnd Hlt]. apply NoDup_app in Hnd as (H1 & H2 & _).
  assert (O :: l.*1 ⊆+ seq 0 (Z.to_nat N_MMAP)) as Hs.
  { apply NoDup_submseteq; [apply NoDup_cons; split; [|done]; intros H0; apply (H2 _ H0); left|].
    intros i [->|Hi]%elem_of_cons; apply elem_of_seq; [vm_compute; lia|]. specialize (Hlt i Hi). lia. }
  apply submseteq_length in Hs. cbn [length] in Hs. rewrite length_fmap, length_seq in Hs. unfold list_fuel. lia.
Qed.

(** The test of the loop, for areas inside the window. *)
Lemma within_test a r : area_ok a -> area_ok r ->
  (fst a <=? fst r) && (u64 (fst r + bytes_of (snd r)) <=? u64 (fst a + bytes_of (snd a))) = bool_decide (within a r).
Proof.
  intros Ha Hr. destruct (area_bytes a Ha) as (-> & Ea & _ & _), (area_bytes r Hr) as (-> & Er & _ & _).
  fold (area_end a) (area_end r). rewrite Ea, Er. apply eq_true_iff_eq.
  rewrite andb_true_iff, !Z.leb_le. by rewrite bool_decide_eq_true.
Qed.
Lemma end_test a r : area_ok a -> area_ok r ->
  (u64 (fst r + bytes_of (snd r)) =? u64 (fst a + bytes_of (snd a))) = (area_end r =? area_end a).
Proof.
  intros Ha Hr. destruct (area_bytes a Ha) as (-> & Ea & _ & _), (area_bytes r Hr) as (-> & Er & _ & _).
  fold (area_end a) (area_end r). by rewrite Ea, Er.
Qed.
Lemma carve_test a r : area_ok a -> area_ok r ->
  (fst r =? fst a) && (bytes_of (snd r) =? bytes_of (snd a)) = (fst r =? fst a) && (area_end r =? area_end a).
Proof.
  intros Ha Hr. destruct (area_bytes a Ha) as (-> & _), (area_bytes r Hr) as (-> & _). unfold area_end.
  destruct (Z.eqb_spec (fst r) (fst a)) as [->|]; [|done]. cbn. apply eq_true_iff_eq. rewrite !Z.eqb_eq. lia.
Qed.
Lemma carve_walk l1 : forall f prev h k r v, lseg (rat v) h l1 k -> area_ok r ->
  Forall area_ok l1.*2 -> Forall (fun a => ~ within a r) l1.*2 ->
  mmap_carve (length l1 + f) prev h (fst r) (snd r) (bytes_of (snd r)) v =
  mmap_carve f (last_id prev l1) k (fst r) (snd r) (bytes_of (snd r)) v.
Proof.
  induction l1 as [|[i a] l1 IH]; intros f prev h k r v Hl Hr Ha Hn; [by rewrite <- Hl|].
  destruct Hl as (-> & nx & Hi & Hl). cbn [fmap list_fmap snd] in Ha, Hn. apply Forall_cons in Ha as [Ha Has], Hn as [Hn Hns].
  cbn [length Nat.add mmap_carve]. rewrite (bind_run _ _ _ _ _ (rd_region_run i _ v Hi)). cbn [mbegin mnpages mnext].
  rewrite within_test, bool_decide_eq_false_2 by done. rewrite (IH f (Some i) nx k r v Hl Hr Has Hns).
  f_equal. unfold last_id. rewrite last_cons. by destruct (last l1) as [[]|].
Qed.

(** The stores to one region, in sequence. *)
Lemma mlist_out v fr l i x : i ∉ l.*1 -> mlist_ok v fr l -> mlist_ok (put i x v) fr l.
Proof.
  intros Hi [Hr Hc Hl Hnd Hlt]. split; [by apply repo_put|done| |done|done].
  eapply lseg_frame; [|exact Hl]. intros j Hj. rewrite rat_put, decide_False; [done|]. by intros ->.
Qed.
Lemma rat_put_eq i x y v : rat v i = Some y -> rat (put i x v) i = Some x.
Proof. intros H. by rewrite rat_put, decide_True, H. Qed.
Lemma link_run l i a k p v : lseg (rat v) (pmmap v) (l ++ [(i, a)]) k ->
  wr_region (Some i) (set_mnext p) v = Ret tt (relink (l ++ [(i, a)]) p v).
Proof.
  intros (k' & _ & _ & nx & Hi & _)%lseg_app. rewrite (wr_region_run i _ _ v Hi). unfold relink. by rewrite last_snoc.
Qed.
Lemma mlist_insert v fr l1 l2 k i a : mlist_ok v fr (l1 ++ l2) -> lseg (rat v) (pmmap v) l1 k ->
  rat v i = Some (mkMmap (fst a) (snd a) k) -> i ∉ (l1 ++ l2).*1 ++ O :: fr -> (i < Z.to_nat N_MMAP)%nat ->
  mlist_ok (relink l1 (Some i) v) fr (l1 ++ (i, a) :: l2).
Proof.
  intros H H1 Hi Hn Hlt. pose proof H as [_ _ Hl Hnd Hlts]. apply lseg_app in Hl as (k' & H1' & H2).
  pose proof (lseg_end _ _ _ _ _ H1 H1') as <-.
  eapply mlist_relink; [exact H|split; [done|by exists k]| |].
  - rewrite fmap_app, <- !app_assoc in *. rewrite fmap_cons. cbn [fst]. rewrite !elem_of_app in Hn.
    apply NoDup_app in Hnd as (N1 & N2 & N3). apply NoDup_app. split; [done|]. split.
    + intros x Hx [->|Hx']%elem_of_cons; [tauto|]. by apply (N2 x Hx).
    + apply NoDup_cons. split; [|done]. rewrite elem_of_app. tauto.
  - intros j [->|Hj]%elem_of_cons; [done|]. apply Hlts. rewrite fmap_app. apply elem_of_app. by right.
Qed.
(** A cell taken out of the list and given back to the repository. *)
Lemma mlist_remove v fr l1 c a l2 nx : mlist_ok v fr (l1 ++ (c, a) :: l2) -> rat v c = Some (mkMmap (fst a) (snd a) nx) ->
  exists v', zoom vp_repo (mmap_region_free (Some c)) (relink l1 nx v) = Ret tt v' /\ mlist_ok v' (c :: fr) (l1 ++ l2) /\
    mem_kept v v'.
Proof.
  intros H Hc. pose proof (mlist_notin _ _ _ _ _ _ H) as Hn. destruct (mlist_cell _ _ _ _ _ _ H) as (_ & nx' & Hc' & H2).
  rewrite Hc in Hc'. injection Hc' as <-. pose proof H as [Hr Hcpu _ Hnd Hlt]. destruct (relink_rest l1 nx v fr Hr Hcpu) as [_ Hv].
  assert (mlist_ok (relink l1 nx v) fr (l1 ++ l2)) as H'.
  { eapply mlist_relink; [exact H|done| |].
    - rewrite fmap_app, fmap_cons, <- app_assoc in Hnd. cbn [fst] in Hnd. apply NoDup_app in Hnd as (N1 & N2 & N3).
      apply NoDup_app. split; [done|]. apply NoDup_cons in N3 as [_ N3]. split; [|done]. intros x Hx Hx'. apply (N2 x Hx). by right.
    - intros i Hi. apply Hlt. rewrite fmap_app, fmap_cons. apply elem_of_app. right. by right. }
  destruct (mlist_free _ _ _ c H') as (v' & E & Hv' & K).
  - by rewrite fmap_app, <- app_assoc.
  - apply Hlt. rewrite fmap_app, fmap_cons. apply elem_of_app. right. left.
  - exists v'. split; [exact E|]. split; [done|]. eapply kept_trans; [|exact K]. by apply kept_id.
Qed.

(** What the four cases of the loop leave of the cell [c]. *)
Definition carved (v : vproc) (fr : list nat) (l1 l2 : list cell) (a r : area) (v' : vproc) : Prop :=
  exists fr' cs, mlist_ok v' fr' (l1 ++ cs ++ l2) /\ cs.*2 = cut a r /\ mem_kept v v' /\ (length fr <= S (length fr'))%nat.
Lemma piece_none b : piece b b = [].
Proof. unfold piece. by rewrite Z.eqb_refl. Qed.
Lemma piece_some b e n : b + n * PGSIZE = e -> 0 < n -> piece b e = [(b, n)].
Proof.
  intros <- Hn. unfold piece. rewrite (proj2 (Z.eqb_neq _ _)) by (unfold PGSIZE; lia). do 2 f_equal.
  rewrite Z.add_simpl_l. by apply Z.div_mul.
Qed.
Lemma area_sub a r : area_ok a -> area_ok r -> within a r -> u32 (snd a - snd r) = snd a - snd r.
Proof.
  intros Ha Hr [H1 H2]. apply u32_small. destruct (area_bytes a Ha) as (_ & _ & ? & Ea).
  assert (0 <= snd a < 2 ^ 32). { rewrite <- Ea. apply Z.mod_pos_bound. lia. }
  destruct Ha as (? & ? & ? & ?), Hr as (? & ? & ? & ?). unfold area_end, PGSIZE in *. lia.
Qed.

Lemma area_sum a a' : area_ok a -> area_ok a' -> area_end a = fst a' -> u32 (snd a + snd a') = snd a + snd a'.
Proof.
  intros (A1 & A2 & A3 & A4) (B1 & B2 & B3 & B4) E. apply u32_small. unfold MMAP_BEGIN, MMAP_END, area_end, PGSIZE in *. lia.
Qed.

Section Carve.
  Context (v : vproc) (fr : list nat) (l1 : list cell) (c : nat) (a : area) (l2 : list cell) (nx : option nat) (r : area).
  Context (Hv : mlist_ok v fr (l1 ++ (c, a) :: l2)) (Hc : rat v c = Some (mkMmap (fst a) (snd a) nx)).
  Context (Ha : area_ok a) (Hr : area_ok r) (Hw : within a r).

Lemma carve_exact : fst r = fst a -> area_end r = area_end a ->
  exists v', (match last_id None l1 with
              | None => modify (set_pmmap nx)
              | Some _ => wr_region (last_id None l1) (set_mnext nx)
              end;;; zoom vp_repo (mmap_region_free (Some c))) v = Ret tt v' /\ carved v fr l1 l2 a r v'.
Proof.
  intros E1 E2. destruct (mlist_remove v fr l1 c a l2 nx Hv Hc) as (v' & E & Hv' & K). exists v'. split.
  - rewrite (bind_run _ _ _ tt (relink l1 nx v)); [exact E|]. unfold relink, last_id. destruct (last l1) as [[i b]|] eqn:El; [|done].
    apply last_Some in El as [l ->]. destruct (mlist_cell _ _ _ _ _ _ Hv) as (H1 & _).
    rewrite (link_run _ _ _ _ _ _ H1). unfold relink. by rewrite last_snoc.
  - exists (c :: fr), []. split; [done|]. unfold cut. rewrite E1, E2, !piece_none. cbn. repeat split; [done|lia].
Qed.
Lemma carve_front : fst r = fst a -> area_end r <> area_end a ->
  exists v', (wr_region (Some c) (set_mbegin (u64 (fst a + bytes_of (snd r))));;;
              wr_region (Some c) (set_mnpages (u32 (snd a - snd r)))) v = Ret tt v' /\ carved v fr l1 l2 a r v'.
Proof.
  intros E1 E2. rewrite area_sub by done. destruct (area_bytes r Hr) as (-> & Er & _ & _). rewrite <- E1. fold (area_end r). rewrite Er.
  rewrite (bind_run _ _ _ _ _ (wr_region_run c _ _ v Hc)), (wr_region_run c _ _ _ (rat_put_eq c _ _ v Hc)), put_put.
  eexists. split; [done|]. exists fr, [(c, (area_end r, snd a - snd r))]. split; [exact (mlist_set v fr l1 c a l2 nx (area_end r, snd a - snd r) Hv Hc)|].
  split; [|split; [apply kept_id; [apply Hv|done]|lia]]. unfold cut. rewrite E1, piece_none. cbn. symmetry.
  destruct Hw. apply piece_some; unfold area_end, PGSIZE in *; lia.
Qed.
Lemma carve_back : fst r <> fst a -> area_end r = area_end a ->
  exists v', wr_region (Some c) (set_mnpages (u32 (snd a - snd r))) v = Ret tt v' /\ carved v fr l1 l2 a r v'.
Proof.
  intros E1 E2. rewrite area_sub by done. rewrite (wr_region_run c _ _ v Hc).
  eexists. split; [done|]. exists fr, [(c, (fst a, snd a - snd r))]. split; [exact (mlist_set v fr l1 c a l2 nx (fst a, snd a - snd r) Hv Hc)|].
  split; [|split; [apply kept_id; [apply Hv|done]|lia]]. unfold cut. rewrite E2, piece_none, app_nil_r. cbn. symmetry.
  destruct Hw. apply piece_some; unfold area_end, PGSIZE in *; lia.
Qed.
(** The sizes of the two pieces of the last case. *)
Lemma middle_sizes : fst r <> fst a -> area_end r <> area_end a -> exists nl nr,
  cut a r = [(fst a, nl); (area_end r, nr)] /\ u32 (u64 (fst r - fst a) / PGSIZE) = nl /\
  u32 (u64 (u64 (fst a + bytes_of (snd a)) - fst r - bytes_of (snd r)) / PGSIZE) = nr.
Proof.
  intros E1 E2. destruct Hw as [W1 W2]. pose proof (end_mod r Hr) as Mr. pose proof (end_mod a Ha) as Ma.
  exists ((fst r - fst a) / PGSIZE), ((area_end a - area_end r) / PGSIZE).
  pose proof (pages_between (fst a) (fst r) (proj1 (proj2 Ha)) (proj1 (proj2 Hr))) as L. pose proof (pages_between _ _ Mr Ma) as R.
  destruct (area_bytes a Ha) as (-> & Ea & Ba & Sa), (area_bytes r Hr) as (-> & Er & Br & Sr).
  fold (area_end a). rewrite Ea.
  assert (area_end a <= 2 ^ 38) as Hmax by (destruct Ha as (_ & _ & _ & H); etransitivity; [exact H|done]).
  assert (0 <= snd a < 2 ^ 32) as Hsa. { rewrite <- Sa. apply Z.mod_pos_bound. lia. }
  replace (area_end a - fst r - snd r * PGSIZE) with (area_end a - area_end r) by (unfold area_end; lia).
  rewrite (u64_small (area_end a - area_end r)), (u64_small (fst r - fst a)) by lia. split.
  - unfold cut. rewrite (piece_some (fst a) (fst r) ((fst r - fst a) / PGSIZE)) by (unfold PGSIZE in *; lia).
    by rewrite (piece_some (area_end r) (area_end a) ((area_end a - area_end r) / PGSIZE)) by (unfold PGSIZE in *; lia).
  - rewrite !u32_small by (unfold area_end, PGSIZE in *; lia). done.
Qed.
Lemma carve_middle i fr' : fr = i :: fr' -> fst r <> fst a -> area_end r <> area_end a ->
  exists v', (let* new_region := zoom vp_repo mmap_region_alloc in
              wr_region new_region (set_mbegin (u64 (fst r + bytes_of (snd r))));;;
              wr_region new_region (set_mnpages (u32 (u64 (u64 (fst a + bytes_of (snd a)) - fst r - bytes_of (snd r)) / PGSIZE)));;;
              wr_region new_region (set_mnext nx);;;
              wr_region (Some c) (set_mnpages (u32 (u64 (fst r - fst a) / PGSIZE)));;;
              wr_region (Some c) (set_mnext new_region)) v = Ret tt v' /\ carved v fr l1 l2 a r v'.
Proof.
  intros -> E1 E2. destruct (middle_sizes E1 E2) as (nl & nr & Hcut & -> & ->).
  destruct (area_bytes r Hr) as (-> & Er & _ & _). fold (area_end r). rewrite Er.
  destruct (mlist_alloc v fr' _ i Hv) as (v1 & E & Hv1 & K & Hi & Hni & Hlt & Hj). rewrite (bind_run _ _ _ _ _ E).
  rewrite (bind_run _ _ _ _ _ (wr_region_run i _ _ v1 Hi)).
  rewrite (bind_run _ _ _ _ _ (wr_region_run i _ _ _ (rat_put_eq i _ _ v1 Hi))), put_put.
  rewrite (bind_run _ _ _ _ _ (wr_region_run i _ _ _ (rat_put_eq i _ _ v1 Hi))), put_put.
  cbn [set_mnext set_mnpages set_mbegin mbegin mnpages mnext]. set (v2 := put i _ v1).
  assert (i <> c /\ i ∉ (l1 ++ (c, a) :: l2).*1) as [Hic Hil].
  { rewrite elem_of_app in Hni. split; [|tauto]. intros ->. apply Hni. left. rewrite fmap_app. apply elem_of_app. right. left. }
  assert (mlist_ok v2 fr' (l1 ++ (c, a) :: l2)) as Hv2 by (by apply mlist_out).
  assert (rat v2 c = Some (mkMmap (fst a) (snd a) nx)) as Hc2
    by (unfold v2; rewrite rat_put, decide_False by done; rewrite Hj by done; exact Hc).
  rewrite (bind_run _ _ _ _ _ (wr_region_run c _ _ v2 Hc2)). cbn [set_mnpages mbegin mnpages mnext].
  pose proof (mlist_set v2 fr' l1 c a l2 nx (fst a, nl) Hv2 Hc2) as Hv3. cbn [fst snd] in Hv3. set (v3 := put c _ v2) in *.
  rewrite cons_middle, app_assoc in Hv3.
  assert (rat v3 c = Some (mkMmap (fst a) nl nx)) as Hc3 by (by eapply rat_put_eq).
  assert (lseg (rat v3) (pmmap v3) (l1 ++ [(c, (fst a, nl))]) nx) as Hs.
  { pose proof Hv3 as Hx. rewrite <- app_assoc in Hx. destruct (mlist_cell _ _ _ _ _ _ Hx) as (H1 & _).
    apply lseg_app. exists (Some c). split; [done|]. split; [done|]. by exists nx. }
  rewrite (link_run _ _ _ _ _ _ Hs). eexists. split; [done|].
  exists fr', [(c, (fst a, nl)); (i, (area_end r, nr))]. split; [|split; [done|split; [|cbn; lia]]].
  - change (l1 ++ [(c, (fst a, nl)); (i, (area_end r, nr))] ++ l2) with (l1 ++ [(c, (fst a, nl))] ++ (i, (area_end r, nr)) :: l2).
    rewrite app_assoc. eapply mlist_insert; [exact Hv3|exact Hs| | |done].
    + unfold v3. rewrite rat_put, decide_False by done. unfold v2. by erewrite rat_put_eq.
    + rewrite <- app_assoc. rewrite fmap_app, fmap_cons in *. exact Hni.
  - eapply kept_trans; [exact K|]. unfold relink. rewrite last_snoc. apply kept_id; [apply Hv1|done].
Qed.
End Carve.

Lemma canon_gap l a : canon l -> a ∈ l -> ~ covers l (area_end a).
Proof.
  intros Hl (l1 & l2 & ->)%list_elem_of_split (b & Hb & Hx)%covers_elem.
  apply canon_app in Hl as (C1 & (Ha & C2 & A2)%canon_cons & A1). unfold in_area in Hx.
  apply elem_of_app in Hb as [Hb|[->|Hb]%elem_of_cons]; [specialize (A1 b a Hb ltac:(left))|lia|specialize (A2 b Hb)]; unfold apart in *.
  - pose proof (area_bytes a Ha). lia.
  - lia.
Qed.
(** A range all of whose addresses are covered lies within one area. *)
Lemma canon_within l r : canon l -> area_ok r -> (forall x, in_area x r -> covers l x) <-> exists a, a ∈ l /\ within a r.
Proof.
  intros Hl Hr. pose proof (area_bytes r Hr) as (_ & _ & Hb & _). split.
  - intros H. assert (covers l (fst r)) as (a & Ha & Hx)%covers_elem by (apply H; unfold in_area; lia). exists a. split; [done|].
    unfold in_area in *. split; [lia|]. destruct (decide (area_end r <= area_end a)); [done|]. exfalso.
    apply (canon_gap l a Hl Ha), H. lia.
  - intros (a & Ha & Hw) x Hx. apply covers_elem. exists a. split; [done|]. destruct Hw. unfold in_area in *. lia.
Qed.
Lemma last_id_snoc p l i (a : area) : last_id p (l ++ [(i, a)]) = Some i.
Proof. unfold last_id. by rewrite last_snoc. Qed.
Lemma cell_at (l : list cell) a : a ∈ l.*2 -> exists c, (c, a) ∈ l.
Proof. intros ([c b] & -> & H)%list_elem_of_fmap. by exists c. Qed.

Lemma carve_run v fr l r : mlist_ok v fr l -> canon l.*2 -> area_ok r -> fr <> [] ->
  exists v' fr' l', mmap_carve list_fuel None (pmmap v) (fst r) (snd r) (bytes_of (snd r)) v = Ret tt v' /\
    mlist_ok v' fr' l' /\ mem_kept v v' /\ (length fr <= S (length fr'))%nat /\
    if decide (Exists (fun a => within a r) l.*2)
    then canon l'.*2 /\ (forall x, covers l'.*2 x <-> covers l.*2 x /\ ~ in_area x r) else v' = v /\ l' = l.
Proof.
  intros H Hl Hr Hfr. pose proof (mlist_len _ _ _ H) as Hf. destruct (decide _) as [He|He].
  - apply Exists_exists in He as (a & Ha & Hw). apply cell_at in Ha as (c & Ha). apply list_elem_of_split in Ha as (l1 & l2 & ->).
    destruct (mlist_cell _ _ _ _ _ _ H) as (H1 & nx & Hc & H2). rewrite fmap_app, fmap_cons in Hl |- *. cbn [snd] in *.
    pose proof Hl as (C1 & (Ha & C2 & A2)%canon_cons & A1)%canon_app.
    assert (exists f, list_fuel = length l1 + S f)%nat as (f & ->).
    { rewrite length_app in Hf. cbn [length] in Hf. exists (list_fuel - length l1 - 1)%nat. lia. }
    rewrite (carve_walk l1 (S f) None _ (Some c) r v H1 Hr (proj2 C1)).
    2:{ apply Forall_forall. intros b Hb [W1 W2]. specialize (A1 b a Hb ltac:(left)). destruct Hw as [W3 W4].
        pose proof (area_bytes r Hr). unfold apart in A1. lia. }
    assert (exists v', mmap_carve (S f) (last_id None l1) (Some c) (fst r) (snd r) (bytes_of (snd r)) v = Ret tt v' /\
      carved v fr l1 l2 a r v') as (v' & E & fr' & cs & Hv' & Hcs & K & Hn).
    { cbn [mmap_carve]. rewrite (bind_run _ _ _ _ _ (rd_region_run c _ v Hc)). cbn [mbegin mnpages mnext].
      rewrite within_test, bool_decide_eq_true_2, carve_test, end_test by done.
      destruct (Z.eqb_spec (fst r) (fst a)), (Z.eqb_spec (area_end r) (area_end a)); cbn [andb];
        [by eapply carve_exact|by eapply carve_front|by eapply carve_back|].
      destruct fr as [|i fr]; [done|]. by eapply carve_middle. }
    exists v', fr', (l1 ++ cs ++ l2). split; [done|]. split; [done|]. split; [done|]. split; [done|].
    rewrite !fmap_app, Hcs. by apply canon_cut.
  - exists v, fr, l. split; [|split; [done|split; [apply kept_id; [apply H|done]|split; [lia|done]]]].
    assert (exists f, list_fuel = length l + S f)%nat as (f & ->) by (exists (list_fuel - length l - 1)%nat; lia).
    rewrite (carve_walk l (S f) None _ None r v (ml_seg _ _ _ H) Hr (proj2 Hl)); [done|].
    apply Forall_forall. intros a Ha Hw. apply He. apply Exists_exists. by exists a.
Qed.

(** ** munmap_insert *)

Lemma insert_pos_run l : forall f h c (a : area) k b v, lseg (rat v) h (l ++ [(c, a)]) k -> (length l < f)%nat ->
  Forall (fun p => fst p < b) (l ++ [(c, a)]).*2 -> (forall j x, k = Some j -> rat v j = Some x -> b <= mbegin x) ->
  (forall j, k = Some j -> rat v j <> None) ->
  insert_pos f h b v = Ret (Some c) v.
Proof.
  induction l as [|[i a'] l IH]; intros f h c a k b v Hl Hf Hlt Hk Hk'; destruct f as [|f]; try (cbn in Hf; lia).
  - destruct Hl as (-> & nx & Hc & <-). cbn [insert_pos]. rewrite (bind_run _ _ _ _ _ (rd_region_run c _ v Hc)). cbn [mnext].
    destruct nx as [j|]; [|done]. destruct (rat v j) as [x|] eqn:Hj; [|by destruct (Hk' j eq_refl)].
    rewrite (bind_run _ _ _ _ _ (rd_region_run j x v Hj)). specialize (Hk j x eq_refl Hj).
    by rewrite (proj2 (Z.ltb_ge _ _) Hk).
  - destruct Hl as (-> & nx & Hi & Hl). cbn [insert_pos]. rewrite (bind_run _ _ _ _ _ (rd_region_run i _ v Hi)). cbn [mnext].
    cbn in Hlt. apply Forall_cons in Hlt as [_ Hlt]. cbn [length] in Hf.
    assert (exists j x, nx = Some j /\ rat v j = Some x /\ mbegin x < b) as (j & x & -> & Hj & Hx).
    { destruct l as [|[j a''] l]; destruct Hl as (-> & y & Hj & _); cbn in Hlt; apply Forall_cons in Hlt as [Hb _]; by do 2 eexists. }
    rewrite (bind_run _ _ _ _ _ (rd_region_run j x v Hj)), (proj2 (Z.ltb_lt _ _) Hx).
    eapply IH; [exact Hl|lia|exact Hlt|exact Hk|exact Hk'].
Qed.
Lemma find_prev_run l : forall f p h (i : nat) v, lseg (rat v) h l (Some i) -> i ∉ l.*1 -> (length l < f)%nat ->
  find_prev f p h (Some i) v = Ret (last_id p l) v.
Proof.
  induction l as [|[j a] l IH]; intros f p h i v Hl Hi Hf; destruct f as [|f]; try (cbn in Hf; lia); cbn [find_prev].
  - cbn in Hl. subst h. by rewrite bool_decide_eq_false_2 by tauto.
  - destruct Hl as (-> & nx & Hj & Hl). rewrite fmap_cons, not_elem_of_cons in Hi. destruct Hi as [Hne Hi]. cbn [fst] in Hne.
    rewrite !bool_decide_eq_true_2 by congruence. cbn [andb]. rewrite (bind_run _ _ _ _ _ (rd_region_run j _ v Hj)). cbn [mnext].
    rewrite (IH f (Some j) nx i v Hl Hi) by (cbn in Hf; lia). f_equal. unfold last_id. rewrite last_cons. by destruct (last l) as [[]|].
Qed.

(** A cell merged into the one before it. *)
Lemma absorb_run v fr l1 i a j a' l2 nx : mlist_ok v fr (l1 ++ (i, a) :: (j, a') :: l2) -> area_ok a -> area_ok a' ->
  area_end a = fst a' -> rat v j = Some (mkMmap (fst a') (snd a') nx) ->
  exists v', (wr_region (Some i) (set_mnext nx);;; mmap_merge (Some i) (Some j) true) v = Ret tt v' /\
    mlist_ok v' (j :: fr) (l1 ++ (i, (fst a, snd a + snd a')) :: l2) /\ mem_kept v v'.
Proof.
  intros H Ha Ha' Hend Hj. destruct (mlist_cell _ _ _ _ _ _ H) as (H1 & nx0 & Hi & H2). pose proof H2 as (-> & nx' & Hj' & H3).
  rewrite Hj in Hj'. injection Hj' as <-.
  assert (lseg (rat v) (pmmap v) (l1 ++ [(i, a)]) (Some j)) as Hs.
  { apply lseg_app. exists (Some i). split; [done|]. split; [done|]. by exists (Some j). }
  rewrite (bind_run _ _ _ _ _ (link_run _ _ _ _ _ _ Hs)).
  assert (i <> j) as Hij by (intros ->; apply (mlist_notin _ _ _ _ _ _ H); rewrite fmap_cons; apply elem_of_app; right; left).
  set (v1 := relink (l1 ++ [(i, a)]) nx v).
  assert (v1 = put i (mkMmap (fst a) (snd a) nx) v) as Ev1 by (unfold v1, relink; by rewrite last_snoc).
  assert (rat v1 i = Some (mkMmap (fst a) (snd a) nx)) as Hi1 by (rewrite Ev1; by eapply rat_put_eq).
  assert (rat v1 j = Some (mkMmap (fst a') (snd a') nx)) as Hj1 by (rewrite Ev1, rat_put, decide_False by done; done).
  unfold mmap_merge. rewrite !bool_decide_eq_true_2 by done. cbn [andb]. mstep.
  rewrite (bind_run _ _ _ _ _ (rd_region_run i _ v1 Hi1)), (bind_run _ _ _ _ _ (rd_region_run j _ v1 Hj1)).
  cbn [mbegin mnpages]. rewrite area_sum by done.
  destruct (area_bytes a Ha) as (-> & Ea & _ & Sa). fold (area_end a). rewrite Ea, Hend, Z.eqb_refl. mstep.
  rewrite (bind_run _ _ _ _ _ (wr_region_run i _ _ v1 Hi1)). cbn [set_mnpages mbegin mnext].
  pose proof (mlist_set v fr l1 i a ((j, a') :: l2) (Some j) (fst a, snd a + snd a') H Hi) as H0.
  set (v0 := put i _ v) in H0. rewrite cons_middle, app_assoc in H0.
  assert (rat v0 j = Some (mkMmap (fst a') (snd a') nx)) as Hj0 by (unfold v0; rewrite rat_put, decide_False by done; done).
  destruct (mlist_remove v0 fr _ j a' l2 nx H0 Hj0) as (v' & E & Hv' & K). exists v'. split_and!.
  - rewrite <- E. f_equal. unfold relink. rewrite last_snoc, Ev1. unfold v0. by rewrite !put_put.
  - by rewrite <- app_assoc in Hv'.
  - eapply kept_trans; [|exact K]. apply kept_id; [apply H|done].
Qed.

(** The three steps of the insertion. *)
Lemma insert_run v fr l1 l2 i k r : mlist_ok v fr (l1 ++ l2) -> lseg (rat v) (pmmap v) l1 k ->
  rat v i = Some (mkMmap (fst r) (snd r) None) -> i ∉ (l1 ++ l2).*1 ++ O :: fr -> (i < Z.to_nat N_MMAP)%nat ->
  Forall (fun p => fst p < fst r) l1.*2 -> Forall (fun p => fst r < fst p) l2.*2 ->
  exists v', insert_region (Some i) (fst r) v = Ret tt v' /\ mlist_ok v' fr (l1 ++ (i, r) :: l2) /\ mem_kept v v'.
Proof.
  intros H H1 Hi Hn Hlt L1 L2. pose proof (mlist_len _ _ _ H) as Hf. destruct (mlist_split _ _ _ _ H) as (k' & H1' & H2).
  pose proof (lseg_end _ _ _ _ _ H1 H1') as <-.
  assert (i ∉ (l1 ++ l2).*1) as Hil by (rewrite elem_of_app in Hn; tauto).
  set (v1 := put i (mkMmap (fst r) (snd r) k) v).
  assert (mlist_ok v1 fr (l1 ++ l2)) as Hv1 by (by apply mlist_out).
  assert (rat v1 i = Some (mkMmap (fst r) (snd r) k)) as Hi1 by (by eapply rat_put_eq).
  assert (lseg (rat v1) (pmmap v1) l1 k) as H11.
  { eapply lseg_frame; [|exact H1]. intros j Hj. unfold v1. rewrite rat_put, decide_False; [done|]. intros ->.
    apply Hil. rewrite fmap_app. apply elem_of_app. by left. }
  exists (relink l1 (Some i) v1). split; [|split; [by eapply mlist_insert|]].
  2:{ apply kept_id; [apply H|]. destruct (relink_rest l1 (Some i) v1 fr) as [_ ->]; [apply Hv1|apply Hv1|done]. }
  unfold insert_region. mstep. destruct l1 as [|c0 l1 _] using rev_ind.
  - cbn in H1. rewrite H1. assert ((match k with None => ret true | Some _ => let* r0 := rd_region k in ret (fst r <? mbegin r0) end) v = Ret true v) as E.
    { destruct l2 as [|[j b] l2]; [by rewrite H2|]. destruct H2 as (-> & nx & Hj & _). rewrite (bind_run _ _ _ _ _ (rd_region_run j _ v Hj)).
      cbn in *. apply Forall_cons in L2 as [L2 _]. by rewrite (proj2 (Z.ltb_lt _ _) L2). }
    rewrite (bind_run _ _ _ _ _ E). by rewrite (bind_run _ _ _ _ _ (wr_region_run i _ _ v Hi)).
  - destruct c0 as [c a]. pose proof H1 as (k' & _ & _ & nx & Hc & E0)%lseg_app. cbn in E0. subst nx.
    assert (fst a < fst r) as Har by (rewrite fmap_app, Forall_app in L1; by destruct L1 as [_ [? _]%Forall_cons]).
    assert (exists h x, pmmap v = Some h /\ rat v h = Some x /\ mbegin x < fst r) as (h & x & Eh & Hh & Hx).
    { destruct l1 as [|[j b] l1]; destruct H1 as (E & y & Hj & _); rewrite E; do 2 eexists; split_and!; try done.
      cbn in L1. by apply Forall_cons in L1 as [? _]. }
    rewrite Eh, bind_assoc, (bind_run _ _ _ _ _ (rd_region_run h x v Hh)), bind_ret, (proj2 (Z.ltb_ge _ _)) by lia. rewrite <- Eh.
    rewrite (bind_run _ _ _ (Some c) v); cycle 1.
    { eapply insert_pos_run; [exact H1|rewrite !length_app in Hf; cbn in Hf; lia|exact L1| |].
      - intros j y -> Hj. destruct l2 as [|[j' b] l2]; [done|]. destruct H2 as (E & nx' & Hj' & _). injection E as <-.
        rewrite Hj in Hj'. injection Hj' as ->. cbn in *. apply Forall_cons in L2 as [L2 _]. lia.
      - intros j ->. destruct l2 as [|[j' b] l2]; [done|]. destruct H2 as (E & nx' & Hj' & _). injection E as <-. by rewrite Hj'. }
    rewrite (bind_run _ _ _ _ _ (rd_region_run c _ v Hc)), (bind_run _ _ _ _ _ (wr_region_run i _ _ v Hi)).
    exact (link_run _ _ _ _ _ _ H11).
Qed.

Lemma merge_next_run v fr l1 i a l2 : mlist_ok v fr (l1 ++ (i, a) :: l2) -> area_ok a -> canon l2.*2 ->
  exists v' fr' a' l2', merge_next (Some i) v = Ret tt v' /\ mlist_ok v' fr' (l1 ++ (i, a') :: l2') /\
    a' :: l2'.*2 = glue a l2.*2 /\ mem_kept v v' /\ (length fr <= length fr')%nat.
Proof.
  intros H Ha Hl2. destruct (mlist_cell _ _ _ _ _ _ H) as (H1 & nx & Hi & H2). pose proof (area_bytes a Ha) as (Hb & Ea & _ & _).
  assert (mem_kept v v) as K by (apply kept_id; [apply H|done]).
  unfold merge_next. rewrite (bind_run _ _ _ _ _ (rd_region_run i _ v Hi)). cbn [mbegin mnpages mnext]. rewrite Hb. fold (area_end a). rewrite Ea.
  destruct l2 as [|[j b] l2].
  - cbn in H2. subst nx. rewrite bind_ret. exists v, fr, a, []. split; [done|]. split_and!; try done. 
  - destruct H2 as (-> & ny & Hj & H2). cbn [fmap list_fmap snd] in *. apply canon_cons in Hl2 as (Hb' & _).
    rewrite bind_assoc, (bind_run _ _ _ _ _ (rd_region_run j _ v Hj)), bind_ret. cbn [mbegin glue].
    destruct (Z.eqb_spec (area_end a) (fst b)) as [E|E].
    + unfold when. rewrite (bind_run _ _ _ _ _ (rd_region_run j _ v Hj)). cbn [mnext].
      destruct (absorb_run v fr l1 i a j b l2 ny H Ha Hb' E Hj) as (v' & E' & Hv' & K'). exists v', (j :: fr), (fst a, snd a + snd b), l2.
      split; [exact E'|]. split_and!; try done. cbn. lia.
    + exists v, fr, a, ((j, b) :: l2). split_and!; done.
Qed.
Lemma merge_prev_run v fr l1 i a l2 : mlist_ok v fr (l1 ++ (i, a) :: l2) -> area_ok a -> canon l1.*2 ->
  exists v' fr' l', merge_prev (Some i) v = Ret tt v' /\ mlist_ok v' fr' l' /\
    l'.*2 = (match last l1.*2 with None => a :: l2.*2 | Some p => removelast l1.*2 ++ glue p (a :: l2.*2) end) /\
    mem_kept v v' /\ (length fr <= length fr')%nat.
Proof.
  intros H Ha Hl1. destruct (mlist_cell _ _ _ _ _ _ H) as (H1 & nx & Hi & H2). pose proof (mlist_len _ _ _ H) as Hf.
  pose proof (mlist_notin _ _ _ _ _ _ H) as Hn. assert (mem_kept v v) as K by (apply kept_id; [apply H|done]).
  unfold merge_prev. mstep. rewrite length_app in Hf. rewrite elem_of_app in Hn.
  rewrite (bind_run _ _ _ _ _ (find_prev_run l1 list_fuel None _ i v H1 ltac:(tauto) ltac:(lia))).
  destruct l1 as [|[j b] l1 _] using rev_ind.
  - exists v, fr, ((i, a) :: l2). split_and!; done.
  - rewrite last_id_snoc. rewrite fmap_app in Hl1 |- *. cbn [fmap list_fmap snd] in *. rewrite last_snoc, removelast_last.
    apply canon_app in Hl1 as (_ & Hb%canon_one & _). pose proof (area_bytes b Hb) as (Hbb & Eb & _ & _).
    pose proof H1 as (k' & _ & _ & nx' & Hj & E0)%lseg_app. cbn in E0. subst nx'.
    rewrite (bind_run _ _ _ _ _ (rd_region_run j _ v Hj)), (bind_run _ _ _ _ _ (rd_region_run i _ v Hi)). cbn [mbegin mnpages mnext glue].
    rewrite Hbb. fold (area_end b). rewrite Eb. destruct (Z.eqb_spec (area_end b) (fst a)) as [E|E].
    + rewrite <- app_assoc in H. destruct (absorb_run v fr l1 j b i a l2 nx H Hb Ha E Hi) as (v' & E' & Hv' & K').
      exists v', (i :: fr), (l1 ++ (j, (fst b, snd b + snd a)) :: l2). split; [exact E'|].
      split_and!; try done; [by rewrite fmap_app|cbn; lia].
    + exists v, fr, ((l1 ++ [(j, b)]) ++ (i, a) :: l2). split_and!; try done. by rewrite <- app_assoc, fmap_app.
Qed.

(** Where a range with no covered address falls. *)
Lemma free_split (l : list cell) r : canon l.*2 -> area_ok r -> (forall x, in_area x r -> ~ covers l.*2 x) ->
  exists l1 l2, l = l1 ++ l2 /\ (forall p, p ∈ l1.*2 -> area_end p <= fst r) /\ (forall p, p ∈ l2.*2 -> area_end r <= fst p).
Proof.
  intros Hl Hr Hd. pose proof (area_bytes r Hr) as (_ & _ & Hb & _). induction l as [|[i a] l IH].
  - exists [], []. split; [done|]. by split; intros p ?%not_elem_of_nil.
  - cbn [fmap list_fmap snd] in *. apply canon_cons in Hl as (Ha & Hl & Hap). pose proof (area_bytes a Ha) as (_ & _ & Hab & _).
    destruct (decide (area_end r <= fst a)) as [Hle|Hgt].
    + exists [], ((i, a) :: l). split; [done|]. split; [by intros p ?%not_elem_of_nil|].
      intros p [->|Hp]%elem_of_cons; [done|]. specialize (Hap p Hp). unfold apart in Hap. lia.
    + destruct IH as (l1 & l2 & -> & H1 & H2); [done|intros x Hx Hc; apply (Hd x Hx); apply covers_cons; by right|].
      exists ((i, a) :: l1), l2. split; [done|]. split; [|done]. intros p [->|Hp]%elem_of_cons; [|by apply H1].
      cbn [snd]. destruct (decide (area_end a <= fst r)); [done|]. exfalso.
      apply (Hd (Z.max (fst a) (fst r))); [unfold in_area; lia|]. apply covers_cons. left. unfold in_area. lia.
Qed.
Lemma join_glue l1 a l2 m : glue a l2 = m ->
  join l1 a l2 = match last l1 with None => m | Some p => removelast l1 ++ glue p m end.
Proof. intros <-. done. Qed.

Lemma munmap_insert_run v i fr l r : mlist_ok v (i :: fr) l -> canon l.*2 -> area_ok r ->
  (forall x, in_area x r -> ~ covers l.*2 x) ->
  exists v' fr' l', munmap_insert (fst r) (snd r) v = Ret tt v' /\ mlist_ok v' fr' l' /\ mem_kept v v' /\
    (length fr <= length fr')%nat /\ canon l'.*2 /\ (forall x, covers l'.*2 x <-> covers l.*2 x \/ in_area x r).
Proof.
  intros H Hl Hr Hd. destruct (free_split l r Hl Hr Hd) as (l1 & l2 & -> & L1 & L2). rewrite fmap_app in Hl |- *.
  pose proof Hl as (C1 & C2 & _)%canon_app. destruct (canon_join _ r _ Hl Hr L1 L2) as [Hcj Hvj].
  pose proof (area_bytes r Hr) as (_ & _ & Hb & _).
  destruct (mlist_alloc v fr _ i H) as (v1 & E & Hv1 & K1 & Hi & Hni & Hlt & _). unfold munmap_insert. rewrite (bind_run _ _ _ _ _ E).
  rewrite (bind_run _ _ _ _ _ (wr_region_run i _ _ v1 Hi)).
  rewrite (bind_run _ _ _ _ _ (wr_region_run i _ _ _ (rat_put_eq i _ _ v1 Hi))), put_put.
  rewrite (bind_run _ _ _ _ _ (wr_region_run i _ _ _ (rat_put_eq i _ _ v1 Hi))), put_put.
  cbn [set_mnext set_mnpages set_mbegin mbegin mnpages mnext]. set (v2 := put i _ v1).
  assert (i ∉ (l1 ++ l2).*1) as Hil by (rewrite elem_of_app in Hni; tauto).
  assert (mlist_ok v2 fr (l1 ++ l2)) as Hv2 by (by apply mlist_out). destruct (mlist_split _ _ _ _ Hv2) as (k & Hs & _).
  destruct (insert_run v2 fr l1 l2 i k r Hv2 Hs (rat_put_eq i _ _ v1 Hi) Hni Hlt) as (v3 & E3 & Hv3 & K3).
  { apply Forall_forall. intros p Hp. specialize (L1 p Hp). pose proof (area_bytes p (canon_elem _ _ C1 Hp)). lia. }
  { apply Forall_forall. intros p Hp. specialize (L2 p Hp). lia. }
  rewrite (bind_run _ _ _ _ _ E3). destruct (merge_next_run v3 fr l1 i r l2 Hv3 Hr C2) as (v4 & fr4 & a & l4 & E4 & Hv4 & Hg & K4 & F4).
  rewrite (bind_run _ _ _ _ _ E4). assert (area_ok a) as Ha.
  { destruct (glue_ok r l2.*2 Hr C2 L2) as (Hcg & _). rewrite <- Hg in Hcg. by apply canon_cons in Hcg as [? _]. }
  destruct (merge_prev_run v4 fr4 l1 i a l4 Hv4 Ha C1) as (v5 & fr5 & l5 & E5 & Hv5 & Hl5 & K5 & F5).
  exists v5, fr5, l5. rewrite (join_glue _ _ _ _ (eq_sym Hg)), <- Hl5 in Hcj, Hvj.
  split; [exact E5|]. split; [exact Hv5|]. split; [|split; [lia|done]].
  eapply kept_trans; [exact K1|]. eapply kept_trans; [apply kept_id; [apply Hv1|]|by eapply kept_trans; [exact K3|eapply kept_trans]]. done.
Qed.

(** ** The page loops *)

Definition with_pm (s : pmem) (v : vproc) : vproc := mkVproc s (vrepo v) (pmmap v).
Lemma mlist_pm v fr l s : mlist_ok v fr l -> cpu_wf (pcpu s) -> mlist_ok (with_pm s v) fr l.
Proof. intros [Hr Hc Hl Hnd Hlt] Hs. split; done. Qed.
Lemma pmem_pcpu s fl c : pmem_ok s fl -> cpu_wf c -> pmem_ok (set_pcpu c s) fl.
Proof. intros [Hr Ha _] Hc. split; [|done|done]. intros b. specialize (Hr b). by destruct b. Qed.
Lemma kept_pmem v v' fl : pmem_ok (vpm v) fl -> mem_kept v v' -> pmem_ok (vpm v') fl /\ pm (vpm v') = pm (vpm v) /\
  user_region (vpm v') = user_region (vpm v).
Proof. intros H (c & Hc & ->). split; [by apply pmem_pcpu|done]. Qed.

(** One page of uvm_mmap is one page of the heap. *)
Lemma mmap_page v root va msg s2 :
  (let* pa := pmem_alloc false in when (pa =? 0) (panic msg);;; zero_page pa;;; vm_mappages root va pa PGSIZE RWU) (vpm v) = Ret tt s2 ->
  (let* pa := zoom vp_pmem (pmem_alloc false) in when (pa =? 0) (panic msg);;;
   zoom vp_pmem (zero_page pa);;; zoom vp_pmem (vm_mappages root va pa PGSIZE RWU)) v = Ret tt (with_pm s2 v).
Proof.
  intros H. destruct (pmem_alloc false (vpm v)) as [pa s1|?|?|?|] eqn:E; [|by unfold bind in H; rewrite E in H..].
  rewrite (bind_run _ _ _ _ _ E) in H. rewrite (bind_run _ _ _ _ _ (zoom_run vp_pmem _ v _ _ E)).
  destruct (pa =? 0) eqn:Ez; [done|]. unfold when in *. rewrite (bind_ret tt _ s1) in H. rewrite bind_ret. unfold zero_page in *.
  rewrite bind_modify in H. assert (zoom vp_pmem (modify (fun s => set_pm (memset (pm s) pa 0 PGSIZE) s)) (lset vp_pmem s1 v) =
    Ret tt (with_pm (set_pm (memset (pm s1) pa 0 PGSIZE) s1) v)) as Ez2 by done. rewrite (bind_run _ _ _ _ _ Ez2).
  exact (zoom_run vp_pmem _ (with_pm (set_pm (memset (pm s1) pa 0 PGSIZE) s1) v) _ _ H).
Qed.
Lemma mmap_pages root v fl r : pmem_ok (vpm v) fl -> pt_ok (pm (vpm v)) root (user_region (vpm v)) (fl false) -> area_ok r ->
  3 * snd r <= Z.of_nat (length (fl false)) ->
  exists s', for_ (Z.to_nat (snd r)) 0 1 (fun i =>
      let va := u64 (fst r + bytes_of i) in
      let* pa := zoom vp_pmem (pmem_alloc false) in
      when (pa =? 0) (panic "uvm_mmap: out of memory");;;
      zoom vp_pmem (zero_page pa);;;
      zoom vp_pmem (vm_mappages root va pa PGSIZE RWU)) v = Ret tt (with_pm s' v) /\
    grow_inv root (vpm v) fl (fst r) (Z.to_nat (snd r)) s'.
Proof.
  intros Hs Hpt Hr Hbud. pose proof (area_bytes r Hr) as (_ & _ & Hb & _). pose proof Hr as (R1 & R2 & R3 & R4).
  assert (area_end r < VA_MAX) as Hmax by (eapply Z.le_lt_trans; [exact R4|done]).
  match goal with |- exists _, for_ ?n 0 1 ?f v = _ /\ _ => set (body := f) end.
  destruct (for_inv (fun k v' => exists s', v' = with_pm s' v /\ grow_inv root (vpm v) fl (fst r) k s') (Z.to_nat (snd r)) 0 1 body v)
    as (v' & E & s' & -> & HI).
  - exists (vpm v). split; [by destruct v|by apply grow_start].
  - intros k v1 Hk (s1 & -> & HI). unfold body. cbn zeta. replace (0 + Z.of_nat k * 1) with (Z.of_nat k) by lia.
    assert (u64 (fst r + bytes_of (Z.of_nat k)) = fst r + Z.of_nat k * PGSIZE) as ->.
    { unfold bytes_of. change VA_MAX with (2 ^ 38) in *. unfold area_end, MMAP_BEGIN, MMAP_END, PGSIZE in *. rewrite u32_small, u64_small; lia. }
    destruct (grow_step "uvm_mmap: out of memory" root (vpm v) fl (fst r) k s1 Hs) as (s2 & E2 & HI2); try done; try lia.
    { unfold area_end, PGSIZE in *. lia. }
    eexists. split; [exact (mmap_page (with_pm s1 v) root _ _ _ E2)|]. exists s2. split; [done|exact HI2].
  - exists s'. split; [exact E|exact HI].
Qed.

(** The two system-call routines as a whole. *)
Lemma covered_within l r : canon l -> area_ok r -> (forall x, in_area x r -> covers l x) -> Exists (fun a => within a r) l.
Proof. intros Hl Hr H. apply canon_within in H as (a & Ha & Hw); [|done|done]. apply Exists_exists. by exists a. Qed.
Lemma uvm_mmap_run root v fl fr l r : mlist_ok v fr l -> canon l.*2 -> area_ok r -> fr <> [] ->
  pmem_ok (vpm v) fl -> pt_ok (pm (vpm v)) root (user_region (vpm v)) (fl false) -> 3 * snd r <= Z.of_nat (length (fl false)) ->
  (forall x, in_area x r -> covers l.*2 x) ->
  exists v1 fr1 l1 pages, uvm_mmap root (fst r) (snd r) (Z.lor PTE_R PTE_W) v = Ret tt v1 /\
    mlist_ok v1 fr1 l1 /\ (length fr <= S (length fr1))%nat /\ canon l1.*2 /\
    (forall x, covers l1.*2 x <-> covers l.*2 x /\ ~ in_area x r) /\
    pmem_ok (vpm v1) (fl_set false pages fl) /\ pt_ok (pm (vpm v1)) root (user_region (vpm v1)) pages /\
    grown root (vpm v) (fl false) (fst r) (area_end r) (vpm v1) pages /\
    Z.of_nat (length (fl false)) <= Z.of_nat (length pages) + 3 * snd r.
Proof.
  intros H Hl Hr Hfr Hs Hpt Hbud Hc. pose proof Hr as (R1 & R2 & R3 & R4).
  destruct (carve_run v fr l r H Hl Hr Hfr) as (v0 & fr0 & l0 & E & Hv0 & K & F & Hcase).
  rewrite decide_True in Hcase by (by apply covered_within). destruct Hcase as [C0 V0].
  destruct (kept_pmem v v0 fl Hs K) as (Hs0 & Hm0 & Hu0). rewrite <- Hm0, <- Hu0 in Hpt.
  destruct (mmap_pages root v0 fl r Hs0 Hpt Hr Hbud) as (s' & E' & pages & Hs' & Hpt' & Hg & Hlen).
  rewrite Z2Nat.id in Hg, Hlen by lia. exists (with_pm s' v0), fr0, l0, pages. split.
  - unfold uvm_mmap. bcase (snd r =? 0); [lia|]. rewrite R2, Z.eqb_refl. mstep. rewrite (bind_run _ _ _ _ _ E). exact E'.
  - split; [apply mlist_pm; [done|apply Hs']|]. do 3 (split; [done|]). split; [done|]. split; [done|]. split; [|done].
    destruct Hg as [G1 G2 G3 G4 G5 G6 G7 G8]. rewrite Hm0 in G2, G5, G6. rewrite Hu0 in G7, G8. by split.
Qed.
Lemma uvm_munmap_run root v1 fr1 l1 r s fl pages : mlist_ok v1 fr1 l1 -> fr1 <> [] -> canon l1.*2 -> area_ok r ->
  (forall x, in_area x r -> ~ covers l1.*2 x) -> pmem_ok s fl -> (forall va, in_area va r -> pte_of (pm s) root va = 0) ->
  pmem_ok (vpm v1) (fl_set false pages fl) -> pt_ok (pm (vpm v1)) root (user_region (vpm v1)) pages ->
  grown root s (fl false) (fst r) (area_end r) (vpm v1) pages ->
  exists v2 fr2 l2 pages2, uvm_munmap root (fst r) (snd r) v1 = Ret tt v2 /\
    mlist_ok v2 fr2 l2 /\ canon l2.*2 /\ (forall x, covers l2.*2 x <-> covers l1.*2 x \/ in_area x r) /\
    pmem_ok (vpm v2) (fl_set false pages2 fl) /\ pt_ok (pm (vpm v2)) root (user_region (vpm v2)) pages2 /\
    (forall va, 0 <= va < VA_MAX -> pte_of (pm (vpm v2)) root va = pte_of (pm s) root va) /\
    Z.of_nat (length pages2) = Z.of_nat (length pages) + snd r.
Proof.
  intros H Hfr Hl Hr Hd Hs Hfree Hs1 Hpt1 Hg. pose proof Hr as (R1 & R2 & R3 & R4). destruct (area_bytes r Hr) as (Hb & _ & Hb' & _).
  destruct fr1 as [|i fr1]; [done|].
  destruct (munmap_insert_run v1 i fr1 l1 r H Hl Hr Hd) as (v0 & fr0 & l0 & E & Hv0 & K & _ & C0 & V0).
  destruct (kept_pmem v1 v0 _ Hs1 K) as (Hs0 & Hm0 & Hu0). rewrite <- Hm0, <- Hu0 in Hpt1.
  assert (grown root s (fl false) (fst r) (fst r + snd r * PGSIZE) (vpm v0) pages) as Hg0.
  { destruct Hg as [G1 G2 G3 G4 G5 G6 G7 G8]. split; rewrite ?Hm0, ?Hu0; done. }
  destruct (grown_unmap root s fl (fst r) (snd r) (vpm v0) pages) as (s2 & pages2 & E2 & Hs2 & Hpt2 & Hu & Hlen); try done; [lia| |].
  { fold (area_end r). etransitivity; [exact R4|done]. }
  exists (with_pm s2 v0), fr0, l0, pages2. split.
  - unfold uvm_munmap. bcase (snd r =? 0); [lia|]. rewrite R2, Z.eqb_refl. mstep. rewrite (bind_run _ _ _ _ _ E), Hb.
    exact (zoom_run vp_pmem _ _ _ _ E2).
  - split; [apply mlist_pm; [done|apply Hs2]|]. done.
Qed.

(** ** Properties *)

(** C24 the free list refines a set of addresses.  On a list of ascending areas
    that do not touch, the loop of uvm_mmap takes a range of free addresses out,
    in each of its four cases (whole area, front, back, middle), and leaves the
    list alone when some address of the range is not free; the insertion of
    uvm_munmap adds a range of addresses none of which is free, merged with the
    areas on either side.  The result is again such a list, with the set
    difference or union as its addresses; memory is untouched. *)
Theorem mmap_list_refines v fr l begin npages (r := (begin, npages)) :
  mlist_ok v fr l -> canon l.*2 -> area_ok r -> fr <> [] ->
  ((forall x, in_area x r -> covers l.*2 x) ->
     exists v' fr' l', mmap_carve list_fuel None (pmmap v) begin npages (bytes_of npages) v = Ret tt v' /\
       mlist_ok v' fr' l' /\ mem_kept v v' /\ canon l'.*2 /\ forall x, covers l'.*2 x <-> covers l.*2 x /\ ~ in_area x r) /\
  ((exists x, in_area x r /\ ~ covers l.*2 x) ->
     mmap_carve list_fuel None (pmmap v) begin npages (bytes_of npages) v = Ret tt v) /\
  ((forall x, in_area x r -> ~ covers l.*2 x) ->
     exists v' fr' l', munmap_insert begin npages v = Ret tt v' /\
       mlist_ok v' fr' l' /\ mem_kept v v' /\ canon l'.*2 /\ forall x, covers l'.*2 x <-> covers l.*2 x \/ in_area x r).
Proof.
  intros H Hl Hr Hfr. destruct (carve_run v fr l r H Hl Hr Hfr) as (v' & fr' & l' & E & Hv' & K & _ & Hcase). split_and!.
  - intros Hc. rewrite decide_True in Hcase by (by apply covered_within). exists v', fr', l'. destruct Hcase. done.
  - intros (x & Hx & Hn). rewrite decide_False in Hcase; [by destruct Hcase as [-> _]|].
    rewrite Exists_exists, <- canon_within by done. intros Hc. by apply Hn, Hc.
  - intros Hd. destruct fr as [|i fr]; [done|].
    destruct (munmap_insert_run v i fr l r H Hl Hr Hd) as (v2 & fr2 & l2 & E2 & Hv2 & K2 & _ & Hc2 & Hx2). exists v2, fr2, l2. done.
Qed.

(** C25 mmap and munmap undo each other.  uvm_mmap, as sys_mmap calls it, on a
    free range of the area maps each page of it to a zeroed page of its own,
    readable and writable by the user, changes no other translation and takes the
    range off the free list; uvm_munmap of the range then brings back the list of
    free areas exactly and every translation, with the pages on the free list and
    only page-table pages used up. *)
Theorem uvm_mmap_munmap root v fl fr l begin npages (r := (begin, npages)) :
  mlist_ok v fr l -> canon l.*2 -> area_ok r -> (2 <= length fr)%nat ->
  pmem_ok (vpm v) fl -> pt_ok (pm (vpm v)) root (user_region (vpm v)) (fl false) ->
  3 * npages <= Z.of_nat (length (fl false)) ->
  (forall x, in_area x r -> covers l.*2 x) -> (forall va, in_area va r -> pte_of (pm (vpm v)) root va = 0) ->
  exists v1 fr1 l1 pages1 v2 fr2 l2 pages2,
    uvm_mmap root begin npages (Z.lor PTE_R PTE_W) v = Ret tt v1 /\
    mlist_ok v1 fr1 l1 /\ canon l1.*2 /\ (forall x, covers l1.*2 x <-> covers l.*2 x /\ ~ in_area x r) /\
    pt_ok (pm (vpm v1)) root (user_region (vpm v1)) pages1 /\
    grown root (vpm v) (fl false) begin (area_end r) (vpm v1) pages1 /\
    uvm_munmap root begin npages v1 = Ret tt v2 /\
    mlist_ok v2 fr2 l2 /\ l2.*2 = l.*2 /\
    pmem_ok (vpm v2) (fl_set false pages2 fl) /\ pt_ok (pm (vpm v2)) root (user_region (vpm v2)) pages2 /\
    (forall va, 0 <= va < VA_MAX -> pte_of (pm (vpm v2)) root va = pte_of (pm (vpm v)) root va) /\
    Z.of_nat (length (fl false)) <= Z.of_nat (length pages2) + 2 * npages.
Proof.
  intros H Hl Hr Hfr Hs Hpt Hbud Hc Hfree.
  destruct (uvm_mmap_run root v fl fr l r H Hl Hr ltac:(by intros ->; cbn in Hfr; lia) Hs Hpt Hbud Hc)
    as (v1 & fr1 & l1 & pages & E1 & Hv1 & F1 & C1 & V1 & Hs1 & Hpt1 & Hg & Hlen).
  destruct (uvm_munmap_run root v1 fr1 l1 r (vpm v) fl pages) as (v2 & fr2 & l2 & pages2 & E2 & Hv2 & C2 & V2 & Hs2 & Hpt2 & Hu & Hlen2);
    try done; [intros ->; cbn in F1; lia|intros x Hx (_ & Hn)%V1; done|].
  exists v1, fr1, l1, pages, v2, fr2, l2, pages2. split_and!; try done; [|cbn in Hlen, Hlen2; lia].
  apply canon_unique; [done|done|]. intros x. rewrite V2, V1. unfold in_area in *.
  destruct (decide (fst r <= x < area_end r)) as [Hx|Hx]; [|tauto]. specialize (Hc x Hx). tauto.
Qed.

(** ** A concrete list: the whole mmap area free *)

Definition whole : area := (MMAP_BEGIN, 8096).
Lemma area_ok_bool a : (MMAP_BEGIN <=? fst a) && (fst a mod PGSIZE =? 0) && (0 <? snd a) && (area_end a <=? MMAP_END) = true -> area_ok a.
Proof. unfold area_ok. rewrite !andb_true_iff, !Z.leb_le, Z.eqb_eq, Z.ltb_lt. tauto. Qed.
Lemma demo_mlist : exists v fr l, mlist_ok v fr l /\ l.*2 = [whole] /\ (2 <= length fr)%nat /\
  pmem_ok (vpm v) demo_fl /\ pm (vpm v) = pm demo_vm /\ user_region (vpm v) = user_region demo_vm.
Proof.
  destruct demo_vm_ok as (H1 & _). destruct (mmap_init_ok (pcpu demo_vm) demo_repo eq_refl) as (rp & _ & Hrp).
  assert (exists f0 fr0, reverse (seq 1 255) = f0 :: fr0 /\ length fr0 = 254%nat) as (f0 & fr0 & Ef & Elen) by (by do 2 eexists).
  rewrite Ef in Hrp. assert (mlist_ok (mkVproc demo_vm rp None) (f0 :: fr0) []) as H0.
  { split; [exact Hrp|exact (pok_cpu _ _ H1)|reflexivity|exact (ro_nodup _ _ Hrp)|by intros i ?%not_elem_of_nil]. }
  assert (area_ok whole) as Hw by (by apply area_ok_bool).
  assert (canon ([] : list cell).*2) as Hnil by (split; constructor).
  destruct (munmap_insert_run _ f0 fr0 [] whole H0 Hnil Hw (fun x _ => covers_nil x)) as (v & fr & l & _ & Hv & K & F & C & V).
  exists v, fr, l. split; [exact Hv|]. split; [|split; [lia|exact (kept_pmem (mkVproc demo_vm rp None) v demo_fl H1 K)]].
  apply canon_unique; [exact C|exact (proj2 (canon_one whole) Hw)|]. intros x. rewrite V, covers_cons. cbn [fmap list_fmap]. tauto.
Qed.
Definition demo_range : area := (MMAP_BEGIN + 16 * PGSIZE, 2).
Lemma demo_range_ok : area_ok demo_range /\ forall x, in_area x demo_range -> covers [whole] x.
Proof.
  split; [by apply area_ok_bool|]. intros x Hx. apply covers_cons. left. unfold in_area in *. destruct Hx.
  split; [etransitivity; [|eassumption]; done|eapply Z.lt_le_trans; [eassumption|done]].
Qed.

Lemma mmap_list_refines_witness : exists v v' fr' l',
  mmap_carve list_fuel None (pmmap v) (fst demo_range) 2 (bytes_of 2) v = Ret tt v' /\ mlist_ok v' fr' l' /\
  (forall x, covers l'.*2 x <-> covers [whole] x /\ ~ in_area x demo_range).
Proof.
  destruct demo_mlist as (v & fr & l & Hv & El & F & _). destruct demo_range_ok as [Hr Hc].
  destruct (mmap_list_refines v fr l (fst demo_range) 2 Hv) as (H & _).
  - rewrite El. apply canon_one. by apply area_ok_bool.
  - exact Hr.
  - intros ->. cbn in F. lia.
  - rewrite El in H. destruct (H Hc) as (v' & fr' & l' & E & Hv' & _ & _ & V). exists v, v', fr', l'. split; [exact E|]. split; [exact Hv'|exact V].
Defined.
Lemma uvm_mmap_munmap_witness : exists v v1 v2 fr l2,
  uvm_mmap demo_root (fst demo_range) 2 (Z.lor PTE_R PTE_W) v = Ret tt v1 /\
  uvm_munmap demo_root (fst demo_range) 2 v1 = Ret tt v2 /\ mlist_ok v2 fr l2 /\ l2.*2 = [whole].
Proof.
  destruct demo_mlist as (v & fr & l & Hv & El & F & Hs & Hm & Hu). destruct demo_range_ok as [Hr Hc]. destruct demo_vm_ok as (_ & Hpt & Hz).
  destruct (uvm_mmap_munmap demo_root v demo_fl fr l (fst demo_range) 2 Hv)
    as (v1 & fr1 & l1 & p1 & v2 & fr2 & l2 & p2 & E1 & _ & _ & _ & _ & _ & E2 & Hv2 & El2 & _).
  - rewrite El. apply canon_one. by apply area_ok_bool.
  - exact Hr.
  - exact F.
  - exact Hs.
  - rewrite Hm, Hu. exact Hpt.
  - apply Z.leb_le. vm_compute. reflexivity.
  - rewrite El. exact Hc.
  - intros va _. rewrite Hm. apply Hz.
  - exists v, v1, v2, fr2, l2. split; [exact E1|]. split; [exact E2|]. split; [exact Hv2|]. by rewrite El2.
Defined.
