(* ===== verification/CopySpec.v ===== *)
(** * Properties of uvm_copy_pgtbl(): the address space of a forked process *)

From S2P Require Import Prelude Machine Str Lock Pmem Kvm KvmSpec Mmap Uvm UvmSpec.

Section copy.
Context (old new : Z).

(** The pages [L] of [new] are copies of the pages of [old]: each is backed by a
    page of its own that came off the free list, with the flags and the bytes of
    the original; every other translation of [new] is as in [s0], and memory other
    than the tables of [new] and the pages taken is as in [s0]. *)
Record copied (s0 : pmem) (l0 : list Z) (L : list Z) (s : pmem) (l : list Z) : Prop := {
  cp_list : exists taken, l0 = taken ++ l;
  cp_left : (length l0 <= length l + 3 * length L)%nat;
  cp_rest : forall va, 0 <= va < VA_MAX -> PG_ROUND_DOWN va ∉ L -> pte_of (pm s) new va = pte_of (pm s0) new va;
  cp_page : forall va, va ∈ L -> exists p, p ∈ l0 /\ p ∉ l /\
    pte_of (pm s) new va = leaf_pte p (PTE_FLAGS (pte_of (pm s0) old va)) /\
    (forall i, 0 <= i < PGSIZE -> ld8 (pm s) (p + i) = ld8 (pm s0) (PTE_TO_PA (pte_of (pm s0) old va) + i)) /\
    (forall q t, prefix_ok q -> tbl_at (pm s) new q = Some t -> t <> p);
  cp_inj : forall va va', va ∈ L -> va' ∈ L -> PTE_TO_PA (pte_of (pm s) new va) = PTE_TO_PA (pte_of (pm s) new va') -> va = va';
  cp_frame : forall x, ~ table_byte (pm s0) new x -> (forall p, p ∈ l0 -> ~ p <= x < p + PGSIZE) -> ld8 (pm s) x = ld8 (pm s0) x;
  cp_tables : forall q t, prefix_ok q -> tbl_at (pm s) new q = Some t -> tbl_at (pm s0) new q = Some t \/ t ∈ l0;
  cp_begin : rbegin (user_region s) = rbegin (user_region s0);
  cp_end : rend (user_region s) = rend (user_region s0);
}.

(** A byte that neither the tables of [new] nor the free pages [l0] contain. *)
Definition spared (s0 : pmem) (l0 : list Z) (x : Z) : Prop :=
  ~ table_byte (pm s0) new x /\ forall p, p ∈ l0 -> ~ p <= x < p + PGSIZE.
(** The original shares no byte with the copy nor with free memory. *)
Record source_apart (s0 : pmem) (l0 : list Z) : Prop := {
  sa_nonnull : tables_nonnull (pm s0) old;
  sa_tables : forall x, table_byte (pm s0) old x -> spared s0 l0 x;
  sa_pages : forall va, 0 <= va < VA_MAX -> uvalid (pm s0) old va = true ->
    forall i, 0 <= i < PGSIZE -> spared s0 l0 (PTE_TO_PA (pte_of (pm s0) old va) + i);
}.

Lemma copied_source s0 l0 L s l : source_apart s0 l0 -> copied s0 l0 L s l -> tables_kept (pm s0) (pm s) old.
Proof. intros A C x Hx. destruct (sa_tables _ _ A x Hx). by apply (cp_frame _ _ _ _ _ C). Qed.
Lemma PTE_FLAGS_bound v : 0 <= PTE_FLAGS v < 1024.
Proof. unfold PTE_FLAGS. change 0x3FF with (Z.ones 10). rewrite Z.land_ones by lia. by apply Z.mod_pos_bound. Qed.
Lemma round_in va b : b mod PGSIZE = 0 -> b <= va < b + PGSIZE <-> PG_ROUND_DOWN va = b.
Proof.
  intros Hb. rewrite PG_ROUND_DOWN_eq. unfold PGSIZE in *. pose proof (Z.div_mod va 4096). pose proof (Z.div_mod b 4096).
  pose proof (Z.mod_pos_bound va 4096). lia.
Qed.

Lemma copied_start s fl : pmem_ok s fl -> copied s (fl false) [] s (fl false).
Proof. intros Hs. constructor; try done; [by exists []|cbn; lia|set_solver|set_solver|by left]. Qed.

(** One more page. *)
Lemma copied_step s0 l0 L s fl p l va m1 s2 l2 (flags := PTE_FLAGS (pte_of (pm s0) old va)) :
  (forall x, x ∈ l0 -> x mod PGSIZE = 0 /\ 0 < x < 2 ^ 43) -> NoDup l0 ->
  (forall v, v ∈ va :: L -> 0 <= v < VA_MAX /\ v mod PGSIZE = 0) ->
  pmem_ok s fl -> fl false = p :: l -> pt_ok (pm s) new (user_region s) (p :: l) ->
  (forall i, 0 <= i < PGSIZE -> ld8 m1 (p + i) = ld8 (pm s0) (PTE_TO_PA (pte_of (pm s0) old va) + i)) ->
  copied s0 l0 L s (p :: l) -> fresh_map new s l p va flags m1 s2 l2 -> copied s0 l0 (va :: L) s2 l2.
Proof.
  intros Hl0 Hnd0 HL Hs Hfl Hpt Hz [[taken Htk] Hleft Hrest Hpages Hinj Hfr Htb Hrb Hre] F.
  assert (p ∈ l0) as Hp0 by (subst l0; set_solver). destruct (Hl0 p Hp0) as [Hpm Hpb].
  assert (forall x, x ∈ p :: l -> x ∈ l0) as Hsub by (subst l0; set_solver).
  pose proof (fun v Hv => fresh_pte new s l p va flags m1 s2 l2 v Hv F) as Hpte.
  pose proof (fun p' => fresh_page_kept new s fl p l l0 va flags m1 s2 l2 p' Hs Hfl Hpt Hl0 Hsub F) as Hkept.
  destruct F as [[tables Htabs] Hlen2 _ Hpage Hnt Hts Hfm Hfb Hfe].
  assert (forall x, x ∈ l2 -> x ∈ l) as Hl2 by (subst l; set_solver).
  assert (p ∉ l2) as Hpl2.
  { intros Hx. apply Hl2 in Hx. subst l0. apply NoDup_app in Hnd0 as (_ & _ & Hnd%NoDup_cons). by destruct Hnd. }
  destruct (HL va) as [Hva Hvm]; [set_solver|].
  assert (forall v, v ∈ L -> (va <= v < va + PGSIZE <-> v = va)) as Hsame.
  { intros v Hv. destruct (HL v) as [_ Hm]; [set_solver|]. rewrite round_in by done. by rewrite PG_ROUND_DOWN_aligned. }
  pose proof (PTE_FLAGS_bound (pte_of (pm s0) old va)) as Hfb0. fold flags in Hfb0.
  constructor; [| | | | | | |congruence..].
  - exists (taken ++ p :: tables). subst. by rewrite <- app_assoc.
  - cbn [length] in *. lia.
  - intros v Hv Hn. rewrite Hpte by done. rewrite decide_False by (rewrite round_in by done; set_solver). apply Hrest; set_solver.
  - intros v Hv. rewrite Hpte by (apply HL; set_solver). destruct (decide (va <= v < va + PGSIZE)) as [Hin|Hin].
    + assert (v = va) as -> by (apply elem_of_cons in Hv as [->|Hv]; [done|by apply (Hsame v Hv)]).
      exists p. split_and!; try done. intros i Hi. rewrite Hpage by lia. by apply Hz.
    + apply elem_of_cons in Hv as [->|Hv]; [unfold PGSIZE in Hin; lia|].
      destruct (Hpages v Hv) as (p' & Hp' & Hn' & He' & Hz' & Ht'). destruct (Hkept p' Hp' Hn' Ht') as [Hk Hk'].
      exists p'. split_and!; [done|set_solver|done| |done]. intros i Hi. rewrite Hk by lia. by apply Hz'.
  - assert (forall v, v ∈ L -> v <> va -> PTE_TO_PA (pte_of (pm s2) new v) <> p /\ pte_of (pm s2) new v = pte_of (pm s) new v) as Hd.
    { intros v Hv Hne. rewrite Hpte by (apply HL; set_solver). rewrite decide_False by (by rewrite Hsame). split; [|done].
      destruct (Hpages v Hv) as (p' & Hp' & Hn' & -> & _). destruct (Hl0 p' Hp') as [Hpm' Hpb'].
      rewrite leaf_pte_pa by (done || lia || apply PTE_FLAGS_bound). set_solver. }
    assert (PTE_TO_PA (pte_of (pm s2) new va) = p) as Hp.
    { rewrite Hpte, decide_True by (unfold PGSIZE; lia). apply leaf_pte_pa; (done || lia). }
    intros v v' Hv Hv' He. destruct (decide (v = va)) as [->|Hne], (decide (v' = va)) as [->|Hne']; [done| | |].
    + destruct (Hd v') as [H _]; [set_solver|done|]. congruence.
    + destruct (Hd v) as [H _]; [set_solver|done|]. congruence.
    + destruct (Hd v) as [_ H]; [set_solver|done|]. destruct (Hd v') as [_ H']; [set_solver|done|].
      rewrite H, H' in He. apply Hinj; set_solver.
  - intros x Hx Hp. rewrite Hfm; [by apply Hfr| |intros t Ht _; by apply Hp, Hsub].
    intros (q & t & Hq & Ht & Hxt). destruct (Htb q t Hq Ht) as [Ho|Ho]; [|by eapply Hp].
    apply Hx. by exists q, t.
  - intros q t Hq Ht. destruct (Hts q t Hq Ht) as [Ho|[Ho _]]; [by apply Htb|right]. subst l0. set_solver.
Qed.

(** ** The loops *)

(** The [n] pages from [a] on, last first, and their number below [b]. *)
Fixpoint pages (a : Z) (n : nat) : list Z :=
  match n with O => [] | S n => a + Z.of_nat n * PGSIZE :: pages a n end.
Definition pages_below (a b : Z) : nat := Z.to_nat ((b - a + PGSIZE - 1) / PGSIZE).
Lemma pages_length a n : length (pages a n) = n.
Proof. induction n; cbn; lia. Qed.
Lemma pages_elem a n x : x ∈ pages a n <-> exists k, (k < n)%nat /\ x = a + Z.of_nat k * PGSIZE.
Proof.
  induction n as [|n IH]; cbn [pages]; [split; [set_solver|intros (k & ? & _); lia]|]. rewrite elem_of_cons, IH. split.
  - intros [->|(k & Hk & ->)]; [by exists n; split; [lia|]|by exists k; split; [lia|]].
  - intros (k & Hk & ->). destruct (decide (k = n)) as [->|]; [by left|right; exists k; split; [lia|done]].
Qed.
Lemma pages_filter (want : Z -> bool) a k n : (k <= n)%nat ->
  (length (filter (fun x => want x = true) (pages a k)) <= length (filter (fun x => want x = true) (pages a n)))%nat.
Proof.
  induction n as [|n IH]; intros Hk; [by replace k with O by lia|]. destruct (decide (k = S n)) as [->|]; [done|].
  cbn [pages]. rewrite filter_cons. specialize (IH ltac:(lia)). case_decide; cbn [length]; lia.
Qed.
Lemma pages_below_elem a b x : 0 <= a -> a mod PGSIZE = 0 -> x ∈ pages a (pages_below a b) <-> a <= x < b /\ x mod PGSIZE = 0.
Proof.
  intros Ha Hm. rewrite pages_elem. unfold pages_below, PGSIZE in *. pose proof (Z.div_mod a 4096).
  pose proof (Z.div_mod (b - a + 4096 - 1) 4096). pose proof (Z.mod_pos_bound (b - a + 4096 - 1) 4096). split.
  - intros (k & Hk & ->). rewrite Z.mod_add by lia. split; [lia|done].
  - intros [Hx Hxm]. pose proof (Z.div_mod x 4096). exists (Z.to_nat ((x - a) / 4096)).
    replace (x - a) with ((x / 4096 - a / 4096) * 4096) by lia. rewrite Z.div_mul by lia. split; lia.
Qed.

Definition copying (s0 : pmem) (fl : bool -> list Z) (L : list Z) (s : pmem) : Prop :=
  exists l, pmem_ok s (fl_set false l fl) /\ pt_ok (pm s) new (user_region s) l /\ copied s0 (fl false) L s l.

Section loops.
Context (s0 : pmem) (fl : bool -> list Z) (Hs0 : pmem_ok s0 fl) (A : source_apart s0 (fl false)).

Lemma free_pages x : x ∈ fl false -> x mod PGSIZE = 0 /\ 0 < x < 2 ^ 43.
Proof. intros Hx. by destruct (pmem_ok_page _ _ _ _ Hs0 Hx) as (? & ? & _). Qed.
Lemma copying_pte L s va : copying s0 fl L s -> pte_of (pm s) old va = pte_of (pm s0) old va.
Proof. intros (l & _ & _ & C). apply (pte_frame _ _ _ (copied_source _ _ _ _ _ A C)). Qed.
Lemma copying_nonnull L s : copying s0 fl L s -> tables_nonnull (pm s) old.
Proof. intros (l & _ & _ & C). apply (nonnull_kept _ _ _ (copied_source _ _ _ _ _ A C)), A. Qed.

(** Allocate, copy, map: with the null check of either loop. *)
Lemma copy_page L s va (v := pte_of (pm s0) old va) :
  (forall x, x ∈ va :: L -> 0 <= x < VA_MAX /\ x mod PGSIZE = 0) -> uvalid (pm s0) old va = true -> copying s0 fl L s ->
  3 * (Z.of_nat (length L) + 1) <= Z.of_nat (length (fl false)) ->
  exists p s1 s2, pmem_alloc false s = Ret p s1 /\ 0 < p /\
    vm_mappages new va p PGSIZE (PTE_FLAGS v) (set_pm (memmove (pm s1) p (PTE_TO_PA v) PGSIZE) s1) = Ret tt s2 /\
    copying s0 fl (va :: L) s2.
Proof.
  intros HL Hv (l & Hs & Hpt & C) Hb. pose proof (cp_left _ _ _ _ _ C) as Hlen. destruct (cp_list _ _ _ _ _ C) as [taken Htk].
  destruct l as [|p l]; [cbn [length] in Hlen; lia|]. cbn [length] in Hlen.
  destruct (HL va) as [Hva Hvm]; [set_solver|]. assert (p ∈ fl false) as Hp by (rewrite Htk; set_solver).
  destruct (free_pages p Hp) as [Hpm Hpb]. set (s1 := alloc_post false p s). set (m1 := memmove (pm s1) p (PTE_TO_PA v) PGSIZE).
  destruct (map_fresh new s (fl_set false (p :: l) fl) p l va (PTE_FLAGS v) m1) as (s2 & l2 & Hrun & Hs2 & Hpt2 & Hfm); try done.
  - lia.
  - change VA_MAX with (2 ^ 38) in *. unfold PGSIZE in *. pose proof (Z.div_mod va 4096). lia.
  - apply PTE_FLAGS_bound.
  - lia.
  - intros a Ha. apply memmove_out; [done|lia].
  - exists p, s1, s2. split; [by apply (pmem_alloc_cons false s _ p l Hs)|]. split; [lia|]. split; [exact Hrun|].
    exists l2. split; [eapply pmem_ok_ext; [|exact Hs2]; intros b; apply fl_set_set|]. split; [exact Hpt2|].
    eapply (copied_step s0 (fl false) L s _ p l va m1 s2 l2); try done.
    + apply free_pages.
    + apply (rok_nodup _ _ _ (pok_regions _ _ Hs0 false)).
    + intros i Hi. unfold m1. rewrite memmove_in by lia. replace (p + i - p) with i by lia.
      destruct (sa_pages _ _ A va Hva Hv i Hi) as [Hx1 Hx2]. fold v in Hx1, Hx2.
      unfold s1. rewrite alloc_frame by (apply Hx2, Hp). by apply (cp_frame _ _ _ _ _ C).
Qed.

(** A loop over the pages of [a, b) whose body copies the pages [want] selects. *)
Lemma copy_loop (want : Z -> bool) (body : Z -> M pmem unit) L a b s (Lw := filter (fun x => want x = true) (pages a (pages_below a b))) :
  0 <= a <= VA_MAX -> a mod PGSIZE = 0 -> b <= VA_MAX -> (forall x, x ∈ L -> 0 <= x < VA_MAX /\ x mod PGSIZE = 0) ->
  copying s0 fl L s -> 3 * Z.of_nat (length Lw + length L) <= Z.of_nat (length (fl false)) ->
  (forall x L' s', a <= x < b -> x mod PGSIZE = 0 -> copying s0 fl L' s' -> want x = false -> body x s' = Ret tt s') ->
  (forall x L' s', a <= x < b -> x mod PGSIZE = 0 -> copying s0 fl L' s' -> want x = true ->
     (forall y, y ∈ x :: L' -> 0 <= y < VA_MAX /\ y mod PGSIZE = 0) -> 3 * (Z.of_nat (length L') + 1) <= Z.of_nat (length (fl false)) ->
     exists s'', body x s' = Ret tt s'' /\ copying s0 fl (x :: L') s'') ->
  exists s', for_pages (pages_fuel a b) a b body s = Ret tt s' /\ copying s0 fl (Lw ++ L) s'.
Proof.
  intros Ha Hm Hmax HL HC Hbud Hskip Hcopy. change VA_MAX with (2 ^ 38) in *. set (n := pages_below a b) in *.
  pose proof (fun x => pages_below_elem a b x (proj1 Ha) Hm) as Hel. fold n in Hel.
  assert (forall k, (k < n)%nat -> a <= a + Z.of_nat k * PGSIZE < b /\ (a + Z.of_nat k * PGSIZE) mod PGSIZE = 0) as Hk.
  { intros k Hk. apply Hel, pages_elem. by exists k. }
  destruct (for_pages_inv (fun k s' => copying s0 fl (filter (fun x => want x = true) (pages a k) ++ L) s') n (pages_fuel a b) a b body s)
    as (s' & Hrun & HC'); try done.
  - unfold n, pages_below, pages_fuel, PGSIZE. pose proof (Z.div_mod (b - a) 4096). pose proof (Z.mod_pos_bound (b - a) 4096).
    pose proof (Z.div_mod (b - a + 4096 - 1) 4096). pose proof (Z.mod_pos_bound (b - a + 4096 - 1) 4096). lia.
  - apply Ha.
  - assert (a + Z.of_nat n * PGSIZE <= Z.max a (b + 4096)) as Hn; [|lia].
    unfold n, pages_below, PGSIZE in *. pose proof (Z.div_mod (b - a + 4096 - 1) 4096). pose proof (Z.mod_pos_bound (b - a + 4096 - 1) 4096). lia.
  - unfold n, pages_below, PGSIZE in *. pose proof (Z.div_mod (b - a + 4096 - 1) 4096). pose proof (Z.mod_pos_bound (b - a + 4096 - 1) 4096). lia.
  - intros k Hkn. apply Hk, Hkn.
  - intros k s' Hkn HCk. destruct (Hk k Hkn) as [Hx Hxm]. set (x := a + Z.of_nat k * PGSIZE) in *. cbn [pages]. fold x. rewrite filter_cons.
    destruct (want x) eqn:Ew.
    + rewrite decide_True by done. apply Hcopy; try done.
      * intros y Hy. apply elem_of_cons in Hy as [->|Hy]; [lia|]. apply elem_of_app in Hy as [Hy|Hy]; [|by apply HL].
        apply list_elem_of_filter in Hy as [_ Hy]. apply pages_elem in Hy as (j & Hj & ->). destruct (Hk j) as [? ?]; lia.
      * pose proof (pages_filter want a (S k) n ltac:(lia)) as Hle. cbn [pages] in Hle. fold x in Hle.
        rewrite filter_cons, decide_True in Hle by done. rewrite length_app. cbn [length] in Hle. unfold Lw in Hbud. lia.
    + rewrite decide_False by congruence. exists s'. split; [by eapply Hskip|done].
  - by exists s'.
Qed.

(** The entry of [va], read without allocation. *)
Lemma read_entry root va s : 0 <= va < VA_MAX -> tables_nonnull (pm s) root ->
  exists pte, vm_getpte root va false s = Ret pte s /\
    (pte = NULL /\ pte_of (pm s) root va = 0 \/ pte <> NULL /\ ld64 (pm s) pte = pte_of (pm s) root va).
Proof.
  intros Hva Hnn. exists (default NULL (walk (pm s) root va)). split; [apply vm_getpte_read; lia|].
  unfold pte_of. rewrite walk_tbl. destruct (tbl_at (pm s) root (vpns va)) as [t|] eqn:Hw;
    cbn [mbind option_bind default from_option id]; [right|by left].
  pose proof (Hnn _ _ (vpns_ok _) Hw). pose proof (VPN_bound va 0). split; [unfold NULL; lia|done].
Qed.

Lemma copy_range_ok L a b s : 0 <= a <= VA_MAX -> a mod PGSIZE = 0 -> b <= VA_MAX ->
  (forall x, x ∈ L -> 0 <= x < VA_MAX /\ x mod PGSIZE = 0) ->
  (forall x, a <= x < b -> x mod PGSIZE = 0 -> uvalid (pm s0) old x = true) -> copying s0 fl L s ->
  3 * Z.of_nat (pages_below a b + length L) <= Z.of_nat (length (fl false)) ->
  exists s', copy_range old new a b s = Ret tt s' /\ copying s0 fl (pages a (pages_below a b) ++ L) s'.
Proof.
  intros Ha Hm Hb HL Hval HC Hbud. unfold copy_range.
  assert (forall l : list Z, filter (fun _ => true = true) l = l) as Hf.
  { induction l as [|x l IH]; [done|]. by rewrite filter_cons, decide_True, IH. }
  rewrite <- (Hf (pages a (pages_below a b))). apply (copy_loop (fun _ => true)); try done; [rewrite Hf, pages_length; done|].
  intros x L' s' Hx Hxm HC' _ HL' Hb'. destruct (copy_page L' s' x) as (p & s1 & s2 & E1 & Hp & E2 & HC2); [done|by apply Hval|done|done|].
  exists s2. split; [|done]. destruct (read_entry old x s') as (pte & Er & Hpte); [lia|by eapply copying_nonnull|].
  rewrite (copying_pte L' s' x HC') in Hpte. assert (uvalid (pm s0) old x = true) as Hv by (by apply Hval). unfold uvalid in Hv.
  rewrite (bind_run _ _ _ _ _ Er). destruct Hpte as [[_ H0]|[Hn He]]; [by rewrite H0 in Hv|]. bcase (pte =? NULL); [done|].
  unfold peek64. mstep. rewrite He, Hv. mstep. rewrite (bind_run _ _ _ _ _ E1). unfold memmove_m. bcase (p =? NULL); [unfold NULL in *; lia|].
  mstep. exact E2.
Qed.

Lemma copy_mmap_ok L s (mapped := filter (fun x => uvalid (pm s0) old x = true) (pages MMAP_BEGIN (pages_below MMAP_BEGIN MMAP_END))) :
  (forall x, x ∈ L -> 0 <= x < VA_MAX /\ x mod PGSIZE = 0) -> copying s0 fl L s ->
  3 * Z.of_nat (length mapped + length L) <= Z.of_nat (length (fl false)) ->
  exists s', for_pages (pages_fuel MMAP_BEGIN MMAP_END) MMAP_BEGIN MMAP_END (fun va =>
      let* pte := vm_getpte old va false in
      let* v := peek64 pte in
      when (negb (pte =? NULL) && pte_valid v)
        (let pa := PTE_TO_PA v in
         let flags := PTE_FLAGS v in
         let* page := pmem_alloc false in
         when (page =? 0) (panic "uvm_copy_pgtbl: out of memory for mmap");;;
         modify (fun s => set_pm (memmove (pm s) page pa PGSIZE) s);;;
         vm_mappages new va page PGSIZE flags)) s = Ret tt s' /\ copying s0 fl (mapped ++ L) s'.
Proof.
  intros HL HC Hbud. assert (0 <= MMAP_BEGIN <= VA_MAX /\ MMAP_END < VA_MAX) as [Hlo Hhi] by (vm_compute; repeat split; congruence).
  assert (forall x L' s', MMAP_BEGIN <= x < MMAP_END -> copying s0 fl L' s' -> exists pte,
    vm_getpte old x false s' = Ret pte s' /\
    (pte = NULL /\ pte_of (pm s0) old x = 0 \/ pte <> NULL /\ ld64 (pm s') pte = pte_of (pm s0) old x)) as Hread.
  { intros x L' s' Hx HC'. destruct (read_entry old x s') as (pte & Er & Hpte); [lia|by eapply copying_nonnull|].
    rewrite (copying_pte L' s' x HC') in Hpte. by exists pte. }
  apply (copy_loop (uvalid (pm s0) old)); [lia|reflexivity|lia|exact HL|exact HC|exact Hbud| |].
  - intros x L' s' Hx _ HC' Hw. destruct (Hread x L' s' Hx HC') as (pte & Er & Hpte). rewrite (bind_run _ _ _ _ _ Er).
    unfold peek64. mstep. unfold uvalid in Hw. destruct Hpte as [[-> _]|[Hn He]]; [done|]. by rewrite He, Hw, andb_false_r.
  - intros x L' s' Hx Hxm HC' Hw HL' Hb'. destruct (copy_page L' s' x) as (p & s1 & s2 & E1 & Hp & E2 & HC2); [done..|].
    exists s2. split; [|done]. destruct (Hread x L' s' Hx HC') as (pte & Er & Hpte). rewrite (bind_run _ _ _ _ _ Er).
    unfold uvalid in Hw. destruct Hpte as [[_ H0]|[Hn He]]; [by rewrite H0 in Hw|]. unfold peek64. mstep.
    bcase (pte =? NULL); [done|]. rewrite He, Hw. cbn [negb andb when].
    rewrite (bind_run _ _ _ _ _ E1). bcase (p =? 0); [lia|]. mstep. exact E2.
Qed.
End loops.

(** The pages a fork copies: heap, stack, and what is mapped of the mmap area. *)
Definition fork_pages (s0 : pmem) (heap_top ustack_pages : Z) : list Z :=
  let ustack := TRAPFRAME - ustack_pages * PGSIZE in
  filter (fun x => uvalid (pm s0) old x = true) (pages MMAP_BEGIN (pages_below MMAP_BEGIN MMAP_END)) ++
  pages ustack (pages_below ustack TRAPFRAME) ++ pages PGSIZE (pages_below PGSIZE heap_top).

Lemma uvm_copy_ok s fl heap_top ustack_pages (L := fork_pages s heap_top ustack_pages) :
  pmem_ok s fl -> pt_ok (pm s) new (user_region s) (fl false) -> source_apart s (fl false) ->
  heap_top <= VA_MAX -> 0 <= ustack_pages < 2 ^ 20 ->
  (forall x, PGSIZE <= x < heap_top \/ TRAPFRAME - ustack_pages * PGSIZE <= x < TRAPFRAME -> x mod PGSIZE = 0 ->
     uvalid (pm s) old x = true) ->
  3 * Z.of_nat (length L) <= Z.of_nat (length (fl false)) ->
  exists s', uvm_copy_pgtbl old new heap_top ustack_pages s = Ret tt s' /\ copying s fl L s'.
Proof.
  intros Hs Hpt A Hht Hus Hval Hbud. unfold L, fork_pages in *. set (us := TRAPFRAME - ustack_pages * PGSIZE) in *.
  assert (0 <= us <= TRAPFRAME /\ us mod PGSIZE = 0) as [Husb Husm].
  { unfold us. change TRAPFRAME with (2 ^ 38 - 2 * 4096). unfold PGSIZE. split; [lia|].
    replace (2 ^ 38 - 2 * 4096 - ustack_pages * 4096) with ((2 ^ 26 - 2 - ustack_pages) * 4096) by lia. by apply Z.mod_mul. }
  assert (TRAPFRAME < VA_MAX) as Htf by done. assert (0 < PGSIZE <= VA_MAX) as Hpg by done.
  set (Lh := pages PGSIZE (pages_below PGSIZE heap_top)) in *. set (Ls := pages us (pages_below us TRAPFRAME)) in *.
  assert (forall x, x ∈ Lh -> 0 <= x < VA_MAX /\ x mod PGSIZE = 0) as Hh
    by (intros x Hx; apply pages_below_elem in Hx; [|lia|done]; destruct Hx; split; [lia|done]).
  assert (forall x, x ∈ Ls -> 0 <= x < VA_MAX /\ x mod PGSIZE = 0) as Hst
    by (intros x Hx; apply pages_below_elem in Hx; [|lia|done]; destruct Hx; split; [lia|done]).
  rewrite !length_app in Hbud. unfold uvm_copy_pgtbl.
  destruct (copy_range_ok s fl Hs A [] PGSIZE heap_top s) as (s1 & E1 & C1); try done; try lia.
  { intros x Hx. by apply not_elem_of_nil in Hx. } { intros x Hx. apply Hval. by left. }
  { exists (fl false). split; [eapply pmem_ok_ext; [|done]; by intros []|]. split; [done|]. by apply copied_start with (fl := fl). }
  { unfold Lh in Hbud. rewrite pages_length in Hbud. cbn [length]. lia. }
  rewrite (bind_run _ _ _ _ _ E1). rewrite app_nil_r in C1. fold Lh in C1.
  assert (u64 (TRAPFRAME - bytes_of ustack_pages) = us) as ->.
  { unfold bytes_of. rewrite u32_small by (unfold PGSIZE; lia). fold us. apply u64_small. change VA_MAX with (2 ^ 38) in *. lia. }
  destruct (copy_range_ok s fl Hs A Lh us TRAPFRAME s1) as (s2 & E2 & C2); try done; try lia.
  { intros x Hx. apply Hval. by right. }
  { unfold Ls in Hbud. rewrite pages_length in Hbud. lia. }
  rewrite (bind_run _ _ _ _ _ E2). fold Ls in C2.
  apply (copy_mmap_ok s fl Hs A (Ls ++ Lh) s2); [|done|rewrite length_app; lia].
  intros x Hx. apply elem_of_app in Hx as [Hx|Hx]; auto.
Qed.

(** The addresses a fork copies. *)
Definition forked (s0 : pmem) (heap_top ustack_pages va : Z) : Prop :=
  let pg := PG_ROUND_DOWN va in
  PGSIZE <= pg < heap_top \/ TRAPFRAME - ustack_pages * PGSIZE <= pg < TRAPFRAME \/
  MMAP_BEGIN <= pg < MMAP_END /\ uvalid (pm s0) old va = true.
Lemma fork_pages_elem s0 heap_top ustack_pages va : 0 <= va < VA_MAX -> 0 <= ustack_pages < 2 ^ 20 ->
  PG_ROUND_DOWN va ∈ fork_pages s0 heap_top ustack_pages <-> forked s0 heap_top ustack_pages va.
Proof.
  intros Hva Hus. unfold fork_pages, forked. set (us := TRAPFRAME - ustack_pages * PGSIZE).
  assert (0 <= us /\ us mod PGSIZE = 0) as [Husb Husm].
  { unfold us. change TRAPFRAME with (2 ^ 38 - 2 * 4096). unfold PGSIZE. split; [lia|].
    replace (2 ^ 38 - 2 * 4096 - ustack_pages * 4096) with ((2 ^ 26 - 2 - ustack_pages) * 4096) by lia. by apply Z.mod_mul. }
  assert (PG_ROUND_DOWN va mod PGSIZE = 0) as Hm by (rewrite PG_ROUND_DOWN_eq; by apply Z.mod_mul).
  rewrite !elem_of_app, list_elem_of_filter. rewrite !pages_below_elem by (done || lia).
  unfold uvalid. rewrite (pte_round _ _ va). tauto.
Qed.
Lemma flags_valid v : pte_valid v = true -> Z.lor (PTE_FLAGS v) 1 = PTE_FLAGS v.
Proof.
  unfold pte_valid, PTE_FLAGS. change PTE_V with 1. intros Hv. apply Z.bits_inj'. intros n Hn. rewrite Z.lor_spec.
  destruct (decide (n = 0)) as [->|Hne].
  - change (Z.testbit 1 0) with true. rewrite orb_true_r, Z.land_spec. change (Z.testbit 0x3FF 0) with true. rewrite andb_true_r.
    destruct (Z.testbit v 0) eqn:E; [done|]. exfalso. apply negb_true_iff, Z.eqb_neq in Hv. apply Hv. apply Z.bits_inj'.
    intros k Hk. rewrite Z.land_spec, Z.bits_0. destruct (decide (k = 0)) as [->|]; [by rewrite E|].
    rewrite (Z.bits_above_log2 1 k) by (cbn; lia). apply andb_false_r.
  - rewrite (Z.bits_above_log2 1 n) by (cbn; lia). apply orb_false_r.
Qed.

(** uvm_copy_pgtbl(), the address space of a forked child.  Heap, stack and
    whatever is mapped of the mmap area are copied: at each of these addresses the
    child has the flags and the byte of the parent, in physical memory of its own,
    apart from the parent's.  No other translation of the child changes, and every
    address of the parent reads as before. *)
Theorem uvm_copy_pgtbl_copies s fl heap_top ustack_pages :
  pmem_ok s fl -> pt_ok (pm s) new (user_region s) (fl false) -> source_apart s (fl false) ->
  heap_top <= VA_MAX -> 0 <= ustack_pages < 2 ^ 20 ->
  (forall x, PGSIZE <= x < heap_top \/ TRAPFRAME - ustack_pages * PGSIZE <= x < TRAPFRAME -> x mod PGSIZE = 0 ->
     uvalid (pm s) old x = true) ->
  3 * Z.of_nat (length (fork_pages s heap_top ustack_pages)) <= Z.of_nat (length (fl false)) ->
  exists s' l', uvm_copy_pgtbl old new heap_top ustack_pages s = Ret tt s' /\
    pmem_ok s' (fl_set false l' fl) /\ pt_ok (pm s') new (user_region s') l' /\
    forall va, 0 <= va < VA_MAX ->
      (forked s heap_top ustack_pages va ->
         PTE_FLAGS (pte_of (pm s') new va) = PTE_FLAGS (pte_of (pm s) old va) /\ ubyte (pm s') new va = ubyte (pm s) old va /\
         forall va', 0 <= va' < VA_MAX -> uvalid (pm s) old va' = true -> upa (pm s') new va <> upa (pm s') old va') /\
      (~ forked s heap_top ustack_pages va -> pte_of (pm s') new va = pte_of (pm s) new va) /\
      pte_of (pm s') old va = pte_of (pm s) old va /\ (uvalid (pm s) old va = true -> ubyte (pm s') old va = ubyte (pm s) old va).
Proof.
  intros Hs Hpt A Hht Hus Hval Hbud. destruct (uvm_copy_ok s fl heap_top ustack_pages Hs Hpt A Hht Hus Hval Hbud) as (s' & E & l' & Hs' & Hpt' & C).
  exists s', l'. split; [exact E|]. split; [exact Hs'|]. split; [exact Hpt'|]. intros va Hva.
  pose proof (pte_frame _ _ _ (copied_source _ _ _ _ _ A C)) as Hold. pose proof (fork_pages_elem s heap_top ustack_pages va Hva Hus) as Hel.
  assert (0 <= va mod PGSIZE < PGSIZE) as Hmod by (by apply Z.mod_pos_bound). split_and!.
  - intros Hf. assert (uvalid (pm s) old va = true) as Hv.
    { unfold uvalid. rewrite <- pte_round. destruct Hf as [H|[H|[_ H]]]; [apply Hval; [by left|]|apply Hval; [by right|]|by rewrite pte_round];
        rewrite PG_ROUND_DOWN_eq; by apply Z.mod_mul. }
    apply Hel in Hf. destruct (cp_page _ _ _ _ _ C _ Hf) as (p & Hp & _ & Hpte & Hb & _). rewrite !pte_round in *.
    destruct (free_pages s fl Hs p Hp) as [Hpm Hpb]. pose proof (PTE_FLAGS_bound (pte_of (pm s) old va)) as Hfb.
    assert (PTE_TO_PA (pte_of (pm s') new va) = p) as Hpa by (rewrite Hpte; apply leaf_pte_pa; (done || lia)). split_and!.
    + rewrite Hpte, leaf_pte_flags by (done || lia). by apply flags_valid.
    + unfold ubyte, upa. rewrite Hpa. by apply Hb.
    + intros va' Hva' Hv'. unfold upa. rewrite Hpa, Hold. intros Heq.
      assert (0 <= va' mod PGSIZE < PGSIZE) as Hmod' by (by apply Z.mod_pos_bound).
      destruct (sa_pages _ _ A va' Hva' Hv' _ Hmod') as [_ Hn]. apply (Hn p Hp). lia.
  - intros Hf. apply (cp_rest _ _ _ _ _ C); [done|]. by rewrite Hel.
  - apply Hold.
  - intros Hv. unfold ubyte, upa. rewrite Hold. destruct (sa_pages _ _ A va Hva Hv _ Hmod). by apply (cp_frame _ _ _ _ _ C).
Qed.
End copy.

(** A fresh root is apart from a table whose tables and pages are not free. *)
Lemma fresh_apart old s fl p l (s1 := alloc_post false p s) :
  pmem_ok s fl -> fl false = p :: l -> pt_ok (pm s) old (user_region s) (p :: l) -> tables_nonnull (pm s) old ->
  (forall va, 0 <= va < VA_MAX -> uvalid (pm s) old va = true ->
     PTE_TO_PA (pte_of (pm s) old va) mod PGSIZE = 0 /\ PTE_TO_PA (pte_of (pm s) old va) ∉ p :: l) ->
  source_apart old p s1 l.
Proof.
  intros Hs Hfl Hpt Hnn Hpg. destruct (alloc_pt old s fl p l Hs Hfl Hpt) as (_ & _ & Ht & Hpte). fold s1 in Ht, Hpte.
  assert (forall x, x ∈ p :: l -> x mod PGSIZE = 0) as Hm
    by (intros x Hx; rewrite <- Hfl in Hx; by destruct (pmem_ok_page _ _ _ _ Hs Hx) as (? & _)).
  assert (forall t x, t mod PGSIZE = 0 -> t ∉ p :: l -> t <= x < t + PGSIZE -> spared p s1 l x) as Hsp.
  { intros t x Htm Hn Hx. split.
    - intros (q & t' & Hq & Ht' & Hx'). destruct (tbl_zero (pm s1) p) as [_ Hz].
      { intros a Ha. unfold s1. rewrite alloc_post_user. cbn [pm]. by apply memset_in. }
      destruct (Hz q t' Hq Ht') as [_ ->]. assert (p <> t) as Hne by (intros ->; apply Hn; left).
      pose proof (pages_apart p t (Hm p ltac:(left)) Htm Hne). lia.
    - intros y Hy Hxy. assert (y <> t) as Hne by (intros ->; apply Hn; by right). pose proof (pages_apart y t (Hm y ltac:(by right)) Htm Hne). lia. }
  split.
  - intros q t Hq H. rewrite Ht in H by done. by eapply Hnn.
  - intros x (q & t & Hq & H & Hx). rewrite Ht in H by done. destruct (pt_page _ _ _ _ Hpt _ _ Hq H) as [(Htm & _) Hn]. by apply (Hsp t).
  - intros va Hva Hv i Hi. unfold uvalid in Hv. rewrite Hpte in *. destruct (Hpg va Hva Hv) as [Ha Hn]. eapply Hsp; [exact Ha|exact Hn|lia].
Qed.

(** The demonstration address space, two heap pages, copied to a fresh root. *)
Lemma demo_valid s l1 va : grown demo_root demo_vm (demo_fl false) 0x1000 0x3000 s l1 -> 0 <= va < VA_MAX ->
  uvalid (pm s) demo_root va = true -> 0x1000 <= va < 0x3000.
Proof.
  intros Hg Hva Hv. destruct (decide (0x1000 <= va < 0x3000)) as [|Hn]; [done|]. exfalso. destruct demo_vm_ok as (_ & _ & Hz).
  unfold uvalid in Hv. by rewrite (gr_old _ _ _ _ _ _ _ Hg va Hva Hn), Hz in Hv.
Qed.
Lemma demo_fork_pages s l1 : grown demo_root demo_vm (demo_fl false) 0x1000 0x3000 s l1 -> (length (fork_pages demo_root s 0x3000 0) <= 2)%nat.
Proof.
  intros Hg. unfold fork_pages. rewrite !length_app, !pages_length.
  assert (length (filter (fun x => uvalid (pm s) demo_root x = true) (pages MMAP_BEGIN (pages_below MMAP_BEGIN MMAP_END))) = 0)%nat as ->.
  { apply length_zero_iff_nil. destruct (filter _ _) as [|x r] eqn:E; [done|]. assert (x ∈ x :: r) as Hx by left. rewrite <- E in Hx.
    apply list_elem_of_filter in Hx as [Hv Hx]. assert (0 <= MMAP_BEGIN /\ 0x3000 <= MMAP_BEGIN /\ MMAP_END <= VA_MAX) as (H1 & H2 & H3) by done.
    apply pages_below_elem in Hx as [Hx _]; [|done|done]. pose proof (demo_valid s l1 x Hg ltac:(lia) Hv). lia. }
  done.
Qed.
Lemma uvm_copy_pgtbl_copies_witness : exists s p s', pmem_alloc false s = Ret p (alloc_post false p s) /\
  uvm_copy_pgtbl demo_root p 0x3000 0 (alloc_post false p s) = Ret tt s' /\
  PTE_FLAGS (pte_of (pm s') p 0x2abc) = PTE_FLAGS (pte_of (pm (alloc_post false p s)) demo_root 0x2abc).
Proof.
  destruct demo_heap as (s & l1 & _ & Hs & Hpt & Hg & Hlen). destruct demo_vm_ok as (H1 & _ & _).
  destruct (grown_apart demo_root demo_vm demo_fl 0x1000 0x3000 s l1 H1 Hpt ltac:(lia) ltac:(vm_compute; congruence) Hg) as (Hnn & Hv & _).
  destruct l1 as [|p l]; [cbn in Hlen; lia|]. set (fl := fl_set false (p :: l) demo_fl) in *.
  destruct (fresh_vm s fl p l Hs eq_refl) as (Hs1 & Hpt1 & _). set (s1 := alloc_post false p s) in *.
  destruct (alloc_pt demo_root s fl p l Hs eq_refl Hpt) as (_ & _ & _ & Hpte). fold s1 in Hpte.
  assert (grown demo_root demo_vm (demo_fl false) 0x1000 0x3000 s (p :: l)) as Hg' by exact Hg.
  destruct (uvm_copy_pgtbl_copies demo_root p s1 (fl_set false l fl) 0x3000 0 Hs1 Hpt1) as (s' & l' & E & _ & _ & Hva).
  - apply (fresh_apart demo_root s fl p l Hs eq_refl Hpt Hnn). intros va Hva Hv'. pose proof (demo_valid s _ va Hg Hva Hv') as Hin.
    destruct (gr_new _ _ _ _ _ _ _ Hg va Hin) as (q & Hq & Hn & He & _). destruct (pmem_ok_page _ _ _ _ H1 Hq) as (Hm & Hb & _).
    rewrite He, leaf_pte_pa; [split; [exact Hm|exact Hn]|lia|exact Hm|vm_compute; split; congruence].
  - vm_compute; congruence.
  - lia.
  - intros x [Hx|Hx] _; [|lia]. unfold uvalid. rewrite Hpte. apply Hv. exact Hx.
  - assert (fork_pages demo_root s1 0x3000 0 = fork_pages demo_root s 0x3000 0) as ->.
    { unfold fork_pages. f_equal. apply list_filter_iff. intros x. unfold uvalid. by rewrite Hpte. }
    pose proof (demo_fork_pages s _ Hg). cbn [length] in Hlen. rewrite fl_set_eq. lia.
  - exists s, p, s'. split; [exact (pmem_alloc_cons false s fl p l Hs eq_refl)|]. split; [exact E|].
    apply (proj1 (Hva 0x2abc ltac:(vm_compute; split; congruence))). left. vm_compute. split; congruence.
Defined.
