(* ===== verification/Proc.v ===== *)
(** * proc/proc.c, proc/cpu.c and lib/sleeplock.c: processes, the scheduler and
    sleeping locks

    [kstate] holds the process table and what the process code works on: the
    allocator (with the running CPU and physical memory) and the mmap node
    repository.  A process pointer is an index into procs[].  Routines that give
    the CPU away end in [Swtch]; what the other side does to the state before the
    process is resumed is the argument of the continuation. *)

From S2P Require Import Prelude Machine Str Lock Pmem Kvm Mmap Uvm.

(** ** Data *)

Definition NPROC : Z := 64.
Definition FILE_PER_PROC : Z := 16.

Inductive proc_state : Type := UNUSED | RUNNABLE | RUNNING | SLEEPING | ZOMBIE.
#[export] Instance proc_state_eq_dec : EqDecision proc_state.
Proof. solve_decision. Defined.

(** The objects whose addresses are used as sleep_space. *)
Inductive chan : Type :=
| ChProc (i : nat)       (* &procs[i] *)
| ChTicks                (* &sys_timer.ticks *)
| ChBufLock (i : nat)    (* the sleeplock of buffer i *)
| ChInodeLock (i : nat)  (* the sleeplock of inode i *)
| ChDiskDone (b : nat)   (* a buffer whose disk request is in flight *)
| ChDiskFree.            (* &disk.free[0] *)
#[export] Instance chan_eq_dec : EqDecision chan.
Proof. solve_decision. Defined.

(** struct context: memset to 0 and then ra and sp are set; the callee-saved
    registers are only touched by swtch.S. *)
Record context : Type := mkCtx { ctx_ra : Z; ctx_sp : Z }.

Record proc : Type := mkProc {
  plk : spinlock;
  pid : Z;
  state : proc_state;
  parent : option nat;
  exit_state : Z;
  sleep_space : option chan;
  pgtbl : Z;
  heap_top : Z;
  ustack_pages : Z;
  p_mmap : option nat;
  tf : Z;
  kstack : Z;
  ctx : context;
  filelist : list (option nat);
  cwd : option nat;
}.

(** struct trapframe: byte offsets of the fields the C code touches. *)
Definition tf_kernel_satp : Z := 0.
Definition tf_kernel_sp : Z := 8.
Definition tf_kernel_trap : Z := 16.
Definition tf_epc : Z := 24.
Definition tf_kernel_hartid : Z := 32.
Definition tf_sp : Z := 48.
Definition tf_a (n : Z) : Z := 112 + 8 * n.
Definition sizeof_trapframe : Z := 288.

Record kstate : Type := mkK {
  kpm : pmem;
  krepo : mrepo;
  procs : list proc;
  proczero : option nat;
  global_pid : Z;
  lk_pid : spinlock;
}.

(** Field updates. *)
Definition set_plk v p := mkProc v (pid p) (state p) (parent p) (exit_state p) (sleep_space p) (pgtbl p)
  (heap_top p) (ustack_pages p) (p_mmap p) (tf p) (kstack p) (ctx p) (filelist p) (cwd p).
Definition set_pid v p := mkProc (plk p) v (state p) (parent p) (exit_state p) (sleep_space p) (pgtbl p)
  (heap_top p) (ustack_pages p) (p_mmap p) (tf p) (kstack p) (ctx p) (filelist p) (cwd p).
Definition set_state v p := mkProc (plk p) (pid p) v (parent p) (exit_state p) (sleep_space p) (pgtbl p)
  (heap_top p) (ustack_pages p) (p_mmap p) (tf p) (kstack p) (ctx p) (filelist p) (cwd p).
Definition set_parent v p := mkProc (plk p) (pid p) (state p) v (exit_state p) (sleep_space p) (pgtbl p)
  (heap_top p) (ustack_pages p) (p_mmap p) (tf p) (kstack p) (ctx p) (filelist p) (cwd p).
Definition set_exit_state v p := mkProc (plk p) (pid p) (state p) (parent p) v (sleep_space p) (pgtbl p)
  (heap_top p) (ustack_pages p) (p_mmap p) (tf p) (kstack p) (ctx p) (filelist p) (cwd p).
Definition set_sleep_space v p := mkProc (plk p) (pid p) (state p) (parent p) (exit_state p) v (pgtbl p)
  (heap_top p) (ustack_pages p) (p_mmap p) (tf p) (kstack p) (ctx p) (filelist p) (cwd p).
Definition set_pgtbl v p := mkProc (plk p) (pid p) (state p) (parent p) (exit_state p) (sleep_space p) v
  (heap_top p) (ustack_pages p) (p_mmap p) (tf p) (kstack p) (ctx p) (filelist p) (cwd p).
Definition set_heap_top v p := mkProc (plk p) (pid p) (state p) (parent p) (exit_state p) (sleep_space p) (pgtbl p)
  v (ustack_pages p) (p_mmap p) (tf p) (kstack p) (ctx p) (filelist p) (cwd p).
Definition set_ustack_pages v p := mkProc (plk p) (pid p) (state p) (parent p) (exit_state p) (sleep_space p) (pgtbl p)
  (heap_top p) v (p_mmap p) (tf p) (kstack p) (ctx p) (filelist p) (cwd p).
Definition set_p_mmap v p := mkProc (plk p) (pid p) (state p) (parent p) (exit_state p) (sleep_space p) (pgtbl p)
  (heap_top p) (ustack_pages p) v (tf p) (kstack p) (ctx p) (filelist p) (cwd p).
Definition set_tf v p := mkProc (plk p) (pid p) (state p) (parent p) (exit_state p) (sleep_space p) (pgtbl p)
  (heap_top p) (ustack_pages p) (p_mmap p) v (kstack p) (ctx p) (filelist p) (cwd p).
Definition set_kstack v p := mkProc (plk p) (pid p) (state p) (parent p) (exit_state p) (sleep_space p) (pgtbl p)
  (heap_top p) (ustack_pages p) (p_mmap p) (tf p) v (ctx p) (filelist p) (cwd p).
Definition set_ctx v p := mkProc (plk p) (pid p) (state p) (parent p) (exit_state p) (sleep_space p) (pgtbl p)
  (heap_top p) (ustack_pages p) (p_mmap p) (tf p) (kstack p) v (filelist p) (cwd p).
Definition set_filelist v p := mkProc (plk p) (pid p) (state p) (parent p) (exit_state p) (sleep_space p) (pgtbl p)
  (heap_top p) (ustack_pages p) (p_mmap p) (tf p) (kstack p) (ctx p) v (cwd p).
Definition set_cwd v p := mkProc (plk p) (pid p) (state p) (parent p) (exit_state p) (sleep_space p) (pgtbl p)
  (heap_top p) (ustack_pages p) (p_mmap p) (tf p) (kstack p) (ctx p) (filelist p) v.

Definition set_kpm v k := mkK v (krepo k) (procs k) (proczero k) (global_pid k) (lk_pid k).
Definition set_procs v k := mkK (kpm k) (krepo k) v (proczero k) (global_pid k) (lk_pid k).

(** ** Lenses *)

Definition k_pmem : lens kstate pmem := Lens kpm set_kpm.
Definition k_cpu : lens kstate cpu :=
  Lens (fun k => pcpu (kpm k)) (fun c k => set_kpm (set_pcpu c (kpm k)) k).
Definition k_repo : lens kstate mstate :=
  Lens (fun k => (pcpu (kpm k), krepo k))
       (fun s k => mkK (set_pcpu (fst s) (kpm k)) (snd s) (procs k) (proczero k) (global_pid k) (lk_pid k)).
Definition k_lk_pid : lens kstate (cpu * spinlock) :=
  Lens (fun k => (pcpu (kpm k), lk_pid k))
       (fun s k => mkK (set_pcpu (fst s) (kpm k)) (krepo k) (procs k) (proczero k) (global_pid k) (snd s)).
Definition dummy_proc : proc :=
  mkProc (spinlock_init "") 0 UNUSED None 0 None 0 0 0 None 0 0 (mkCtx 0 0) [] None.
Definition proc_at (k : kstate) (i : nat) : proc := default dummy_proc (procs k !! i).
Definition upd_procs (i : nat) (f : proc -> proc) (k : kstate) : kstate := set_procs (alter f i (procs k)) k.
(** &procs[i].lk *)
Definition k_plk (i : nat) : lens kstate (cpu * spinlock) :=
  Lens (fun k => (pcpu (kpm k), plk (proc_at k i)))
       (fun s k => upd_procs i (set_plk (snd s)) (set_kpm (set_pcpu (fst s) (kpm k)) k)).
(** The mmap routines on the list of process [i]. *)
Definition k_vproc (i : nat) : lens kstate vproc :=
  Lens (fun k => mkVproc (kpm k) (krepo k) (p_mmap (proc_at k i)))
       (fun v k => upd_procs i (set_p_mmap (pmmap v))
                     (mkK (vpm v) (vrepo v) (procs k) (proczero k) (global_pid k) (lk_pid k))).

Definition rd_proc (i : nat) : M kstate proc := gets (fun k => proc_at k i).
Definition wr_proc (i : nat) (f : proc -> proc) : M kstate unit := modify (upd_procs i f).
Definition plock (i : nat) : M kstate unit := zoom (k_plk i) spinlock_acquire.
Definition punlock (i : nat) : M kstate unit := zoom (k_plk i) spinlock_release.

(** mycpu(), mycpuid() and myproc(). *)
Definition mycpuid : M kstate Z := gets (fun k => cpu_id (pcpu (kpm k))).
Definition myproc_opt : M kstate (option nat) := gets (fun k => cproc (pcpu (kpm k))).
(** A routine that dereferences myproc() faults when there is no process. *)
Definition myproc : M kstate nat :=
  let* p := myproc_opt in match p with Some i => ret i | None => fault end.

(** Trapframe and memory accesses. *)
Definition wr_mem (f : memory -> memory) : M kstate unit :=
  zoom k_pmem (modify (fun s => set_pm (f (pm s)) s)).
Definition tf_write (i : nat) (off v : Z) : M kstate unit :=
  let* p := rd_proc i in
  if tf p =? NULL then fault else wr_mem (fun m => st64 m (tf p + off) v).
Definition tf_read (i : nat) (off : Z) : M kstate Z :=
  let* p := rd_proc i in
  if tf p =? NULL then fault else gets (fun k => ld64 (pm (kpm k)) (tf p + off)).

(** Bytes of an array copied to memory. *)
Fixpoint write_bytes (m : memory) (a : Z) (l : list Z) : memory :=
  match l with [] => m | b :: l => write_bytes (st8 m a b) (a + 1) l end.

Section proc.
(** Link-time addresses (trampoline.S, trap_user.c, fork_return), the satp value
    of the kernel page table, and the address of procs[i].exit_state. *)
Context (trampoline trap_user_handler fork_return_addr r_satp : Z) (exit_state_addr : nat -> Z).

(** ** Allocation and release of processes *)

Definition alloc_pid : M kstate Z :=
  zoom k_lk_pid spinlock_acquire;;;
  let* g := gets global_pid in
  assert_ (0 <=? g) "alloc_pid: overflow";;;
  modify (fun k => mkK (kpm k) (krepo k) (procs k) (proczero k) (i32 (g + 1)) (lk_pid k));;;
  zoom k_lk_pid spinlock_release;;;
  ret g.

Definition proc_pgtbl_init (trapframe : Z) : M pmem Z :=
  let* pgtbl := pmem_alloc false in
  when (pgtbl =? NULL) (panic "proc_pgtbl_init: failed to allocate page table");;;
  zero_page pgtbl;;;
  vm_mappages pgtbl TRAMPOLINE trampoline PGSIZE (Z.lor PTE_R PTE_X);;;
  vm_mappages pgtbl TRAPFRAME trapframe PGSIZE (Z.lor PTE_R PTE_W);;;
  ret pgtbl.

(** The search loop: the slot found, its lock held. *)
Definition find_unused : M kstate (option nat) :=
  for_exit (Z.to_nat NPROC) 0 1 (fun z =>
    let i := Z.to_nat z in
    plock i;;;
    let* p := rd_proc i in
    if bool_decide (state p = UNUSED) then ret (Some i)
    else punlock i;;; ret None).

Definition proc_alloc : M kstate (option nat) :=
  let* f := find_unused in
  match f with
  | None => ret None
  | Some i =>
      let* n := alloc_pid in
      wr_proc i (set_pid n);;;
      let* t := zoom k_pmem (pmem_alloc false) in
      wr_proc i (set_tf t);;;
      if t =? NULL then punlock i;;; ret None
      else
        wr_mem (fun m => memset m t 0 sizeof_trapframe);;;
        let* pt := zoom k_pmem (proc_pgtbl_init t) in
        wr_proc i (set_pgtbl pt);;;
        if pt =? NULL then
          zoom k_pmem (pmem_free t false);;;
          wr_proc i (set_tf NULL);;;
          punlock i;;; ret None
        else
          let* p := rd_proc i in
          wr_proc i (set_ctx (mkCtx fork_return_addr (u64 (kstack p + PGSIZE))));;;
          wr_proc i (set_parent None);;;
          wr_proc i (set_exit_state 0);;;
          wr_proc i (set_sleep_space None);;;
          wr_proc i (set_heap_top 0);;;
          wr_proc i (set_ustack_pages 0);;;
          wr_proc i (set_p_mmap None);;;
          ret (Some i)
  end.

(** The list loop of proc_free. *)
Fixpoint free_mmaps (fuel : nat) (mmap : option nat) : M mstate unit :=
  match fuel, mmap with
  | O, _ => no_fuel
  | _, None => ret tt
  | S fuel, Some _ =>
      let* n := node mmap in
      let next := mnext (Mmap.mmap n) in
      mmap_region_free mmap;;;
      free_mmaps fuel next
  end.

Definition proc_free (i : nat) : M kstate unit :=
  let* p := rd_proc i in
  when (negb (tf p =? NULL)) (zoom k_pmem (pmem_free (tf p) false);;; wr_proc i (set_tf NULL));;;
  when (negb (pgtbl p =? NULL)) (zoom k_pmem (uvm_destroy_pgtbl (pgtbl p));;; wr_proc i (set_pgtbl NULL));;;
  zoom k_repo (free_mmaps list_fuel (p_mmap p));;;
  wr_proc i (set_p_mmap None);;;
  wr_proc i (set_pid 0);;;
  wr_proc i (set_state UNUSED);;;
  wr_proc i (set_parent None);;;
  wr_proc i (set_exit_state 0);;;
  wr_proc i (set_sleep_space None);;;
  wr_proc i (set_heap_top 0);;;
  wr_proc i (set_ustack_pages 0).

Definition proc_init : M kstate unit :=
  modify (fun k => mkK (kpm k) (krepo k) (procs k) (proczero k) (global_pid k) (spinlock_init "pid"));;;
  for_ (Z.to_nat NPROC) 0 1 (fun z =>
    let i := Z.to_nat z in
    wr_proc i (set_plk (spinlock_init "proc"));;;
    wr_proc i (set_kstack (KSTACK z));;;
    wr_proc i (set_state UNUSED)).

(** initcode.h: the bytes of the first program. *)
Definition proc_make_first (initcode : list Z) : M kstate unit :=
  let* z := proc_alloc in
  modify (fun k => mkK (kpm k) (krepo k) (procs k) z (global_pid k) (lk_pid k));;;
  match z with
  | None => panic "proc_make_first: failed to allocate process"
  | Some i =>
      wr_proc i (set_pid 0);;;
      let* page := zoom k_pmem (pmem_alloc false) in
      when (page =? 0) (panic "proc_make_first: failed to allocate user stack");;;
      zoom k_pmem (zero_page page);;;
      wr_proc i (set_ustack_pages 1);;;
      let ustack_va := TRAPFRAME - PGSIZE in
      let* p := rd_proc i in
      zoom k_pmem (vm_mappages (pgtbl p) ustack_va page PGSIZE (Z.lor (Z.lor PTE_R PTE_W) PTE_U));;;
      assert_ (Z.of_nat (length initcode) <=? PGSIZE) "proc_make_first: initcode too big";;;
      let* page := zoom k_pmem (pmem_alloc false) in
      when (page =? 0) (panic "proc_make_first: failed to allocate code page");;;
      zoom k_pmem (zero_page page);;;
      wr_mem (fun m => write_bytes m page initcode);;;
      zoom k_pmem (vm_mappages (pgtbl p) PGSIZE page PGSIZE (Z.lor (Z.lor (Z.lor PTE_R PTE_W) PTE_X) PTE_U));;;
      wr_proc i (set_heap_top (2 * PGSIZE));;;
      wr_proc i (set_p_mmap None);;;
      tf_write i tf_epc PGSIZE;;;
      tf_write i tf_sp (ustack_va + PGSIZE);;;
      tf_write i tf_kernel_satp r_satp;;;
      tf_write i tf_kernel_sp (u64 (kstack p + PGSIZE));;;
      tf_write i tf_kernel_trap trap_user_handler;;;
      let* hart := mycpuid in
      tf_write i tf_kernel_hartid hart;;;
      wr_proc i (set_state RUNNABLE);;;
      punlock i
  end.

(** ** fork *)

(** Where the copied list is to be linked: np->mmap or a node's next field. *)
Definition store_link (np : nat) (dst : option nat) (v : option nat) : M kstate unit :=
  match dst with
  | None => wr_proc np (set_p_mmap v)
  | Some _ => zoom k_repo (upd_node dst (upd_mmap (set_mnext v)))
  end.
(** mmap_region_alloc panics rather than return NULL, so the early return of the
    source's loop is unreachable; it is kept as [Some (-1)]. *)
Fixpoint copy_mmaps (fuel : nat) (np : nat) (src dst : option nat) : M kstate (option Z) :=
  match fuel, src with
  | O, _ => no_fuel
  | _, None => ret None
  | S fuel, Some _ =>
      let* new_mmap := zoom k_repo mmap_region_alloc in
      match new_mmap with
      | None => proc_free np;;; punlock np;;; ret (Some (-1))
      | Some _ =>
          let* n := zoom k_repo (node src) in
          zoom k_repo (upd_node new_mmap (upd_mmap (set_mbegin (mbegin (Mmap.mmap n)))));;;
          zoom k_repo (upd_node new_mmap (upd_mmap (set_mnpages (mnpages (Mmap.mmap n)))));;;
          zoom k_repo (upd_node new_mmap (upd_mmap (set_mnext None)));;;
          store_link np dst new_mmap;;;
          let* n := zoom k_repo (node src) in
          copy_mmaps fuel np (mnext (Mmap.mmap n)) new_mmap
      end
  end.

Definition proc_fork : M kstate Z :=
  let* p := myproc in
  let* n := proc_alloc in
  match n with
  | None => ret (-1)
  | Some np =>
      let* page := zoom k_pmem (pmem_alloc false) in
      if page =? 0 then proc_free np;;; punlock np;;; ret (-1)
      else
        zoom k_pmem (zero_page page);;;
        let* pp := rd_proc p in
        wr_proc np (set_ustack_pages (ustack_pages pp));;;
        let ustack_va := TRAPFRAME - PGSIZE in
        let* c := rd_proc np in
        zoom k_pmem (vm_mappages (pgtbl c) ustack_va page PGSIZE (Z.lor (Z.lor PTE_R PTE_W) PTE_U));;;
        zoom k_pmem (uvm_copy_pgtbl (pgtbl pp) (pgtbl c) (heap_top pp) (u32 (ustack_pages pp)));;;
        wr_proc np (set_heap_top (heap_top pp));;;
        let* r := copy_mmaps list_fuel np (p_mmap pp) None in
        match r with
        | Some e => ret e
        | None =>
            wr_mem (fun m => memmove m (tf c) (tf pp) sizeof_trapframe);;;
            tf_write np (tf_a 0) 0;;;
            tf_write np tf_kernel_sp (u64 (kstack c + PGSIZE));;;
            tf_write np tf_kernel_satp r_satp;;;
            tf_write np tf_kernel_trap trap_user_handler;;;
            wr_proc np (set_parent (Some p));;;
            let* c := rd_proc np in
            wr_proc np (set_state RUNNABLE);;;
            punlock np;;;
            ret (pid c)
        end
  end.

(** ** Switching *)

Definition proc_sched : M kstate unit :=
  let* p := myproc in
  let* pp := rd_proc p in
  let* c := gets (fun k => pcpu (kpm k)) in
  assert_ (spinlock_holding c (plk pp)) "proc_sched: not holding lock";;;
  assert_ (noff c =? 1) "proc_sched: locks";;;
  assert_ (negb (bool_decide (state pp = RUNNING))) "proc_sched: running";;;
  assert_ (negb (sie c)) "proc_sched: interruptible";;;
  let intena := origin c in
  swtch;;;
  zoom k_cpu (modify (set_origin intena)).

Definition proc_yield : M kstate unit :=
  let* p := myproc in
  plock p;;;
  wr_proc p (set_state RUNNABLE);;;
  proc_sched;;;
  punlock p.

(** One pass of the scheduler over the process table: the body of its [for (;;)]
    up to wfi.  last_pid only selects what is printed. *)
Definition sched_slot (z : Z) : M kstate unit :=
  let i := Z.to_nat z in
  plock i;;;
  let* p := rd_proc i in
  when (bool_decide (state p = RUNNABLE))
    (wr_proc i (set_state RUNNING);;;
     zoom k_cpu (modify (set_cproc (Some i)));;;
     swtch;;;
     zoom k_cpu (modify (set_cproc None)));;;
  punlock i.
Definition sched_pass : M kstate unit :=
  zoom k_cpu intr_on;;;
  for_ (Z.to_nat NPROC) 0 1 sched_slot;;;
  zoom k_cpu intr_on.
Fixpoint sched_loop (fuel : nat) : M kstate unit :=
  match fuel with O => no_fuel | S fuel => sched_pass;;; sched_loop fuel end.
Definition proc_scheduler (fuel : nat) : M kstate unit :=
  zoom k_cpu (modify (set_cproc None));;;
  sched_loop fuel.

(** ** Sleep and wakeup, over any state that contains a [kstate] *)

(** A spin lock of a larger state together with the CPU it is taken on. *)
Definition cond_lens {S : Type} (kl : lens S kstate) (cl : lens S spinlock) : lens S (cpu * spinlock) :=
  Lens (fun s => (pcpu (kpm (lget kl s)), lget cl s))
       (fun p s => lset cl (snd p) (lset kl (lset k_cpu (fst p) (lget kl s)) s)).

Section sleep.
Context {S : Type} (kl : lens S kstate).

(** [lk] is [None] when it is the process's own lock. *)
Definition proc_sleep (sleep_space : chan) (lk : option (lens S (cpu * spinlock))) : M S unit :=
  let* p := zoom kl myproc in
  (match lk with
   | None => ret tt
   | Some l => zoom kl (plock p);;; zoom l spinlock_release
   end);;;
  zoom kl (wr_proc p (set_sleep_space (Some sleep_space)));;;
  zoom kl (wr_proc p (set_state SLEEPING));;;
  zoom kl proc_sched;;;
  zoom kl (wr_proc p (set_sleep_space None));;;
  match lk with
  | None => ret tt
  | Some l => zoom kl (punlock p);;; zoom l spinlock_acquire
  end.
End sleep.

Definition proc_wakeup (sleep_space_ : chan) : M kstate unit :=
  for_ (Z.to_nat NPROC) 0 1 (fun z =>
    let i := Z.to_nat z in
    let* me := myproc_opt in
    when (negb (bool_decide (Some i = me)))
      (plock i;;;
       let* p := rd_proc i in
       when (bool_decide (state p = SLEEPING) && bool_decide (sleep_space p = Some sleep_space_))
         (wr_proc i (set_state RUNNABLE));;;
       punlock i)).

(** ** wait and exit *)

Definition k_id : lens kstate kstate := Lens (fun k => k) (fun k _ => k).

(** One slot in the scan of proc_wait: havekids, and the value to return if there is one. *)
Definition wait_slot (p : nat) (addr : Z) (havekids : bool) (z : Z) : M kstate (bool * option Z) :=
  let i := Z.to_nat z in
  let* pp := rd_proc i in
  if bool_decide (parent pp = Some p) then
    plock i;;;
    let* pp := rd_proc i in
    if bool_decide (state pp = ZOMBIE) then
      let* me := rd_proc p in
      when (negb (addr =? 0))
        (wr_mem (fun m => st32 m (exit_state_addr i) (u32 (exit_state pp)));;;
         zoom k_pmem (uvm_copyout (pgtbl me) addr (exit_state_addr i) 4));;;
      proc_free i;;;
      punlock i;;;
      punlock p;;;
      ret (true, Some (pid pp))
    else punlock i;;; ret (true, None)
  else ret (havekids, None).
Fixpoint wait_scan (n : nat) (z : Z) (p : nat) (addr : Z) (havekids : bool) : M kstate (bool * option Z) :=
  match n with
  | O => ret (havekids, None)
  | S n =>
      let* r := wait_slot p addr havekids z in
      match snd r with
      | Some _ => ret r
      | None => wait_scan n (z + 1) p addr (fst r)
      end
  end.
Fixpoint wait_loop (fuel : nat) (p : nat) (addr : Z) : M kstate Z :=
  match fuel with
  | O => no_fuel
  | S fuel =>
      let* r := wait_scan (Z.to_nat NPROC) 0 p addr false in
      match snd r with
      | Some v => ret v
      | None =>
          if negb (fst r) then punlock p;;; ret (-1)
          else proc_sleep k_id (ChProc p) None;;; wait_loop fuel p addr
      end
  end.
(** [fuel] bounds the number of wakeups; the source's loop has no bound. *)
Definition proc_wait (fuel : nat) (addr : Z) : M kstate Z :=
  let* p := myproc in
  plock p;;;
  wait_loop fuel p addr.

Definition proc_reparent (par : nat) : M kstate unit :=
  for_ (Z.to_nat NPROC) 0 1 (fun z =>
    let i := Z.to_nat z in
    let* p := rd_proc i in
    when (bool_decide (parent p = Some par))
      (let* pz := gets proczero in wr_proc i (set_parent pz))).

Definition proc_wakeup_one (i : nat) : M kstate unit :=
  plock i;;;
  let* p := rd_proc i in
  when (bool_decide (state p = SLEEPING) && bool_decide (sleep_space p = Some (ChProc i)))
    (wr_proc i (set_state RUNNABLE));;;
  punlock i.

(** proc_exit up to the wakeup of the parent, and from there on. *)
Definition exit_notify : M kstate nat :=
  let* p := myproc in
  let* pz := gets proczero in
  when (bool_decide (Some p = pz)) (panic "proc_exit: proczero exiting");;;
  proc_reparent p;;;
  let* pp := rd_proc p in
  (match parent pp with None => fault | Some par => proc_wakeup_one par end);;;
  ret p.
Definition exit_finish (p : nat) (exit_state_ : Z) : M kstate unit :=
  plock p;;;
  wr_proc p (set_exit_state exit_state_);;;
  wr_proc p (set_state ZOMBIE);;;
  proc_sched;;;
  panic "proc_exit: zombie exit".
Definition proc_exit (exit_state_ : Z) : M kstate unit :=
  let* p := exit_notify in exit_finish p exit_state_.

End proc.

(** ** Sleeping locks *)

Record sleeplock : Type := mkSleep { slocked : bool; slk : spinlock; sname : string; spid : Z }.

Definition sleeplock_init (name : string) : sleeplock := mkSleep false (spinlock_init "sleeplock") name 0.

Section sleeplock.
Context {S : Type} (kl : lens S kstate).
(** The lock operated on and the channel its address stands for. *)
Context (sl : lens S sleeplock) (ch : chan).

Definition sl_slk : lens S spinlock :=
  Lens (fun s => slk (lget sl s))
       (fun q s => let l := lget sl s in lset sl (mkSleep (slocked l) q (sname l) (spid l)) s).
Definition sl_spin : lens S (cpu * spinlock) := cond_lens kl sl_slk.

Fixpoint sl_wait (fuel : nat) (p : option nat) : M S unit :=
  match fuel with
  | O => no_fuel
  | Datatypes.S fuel =>
      let* l := gets (lget sl) in
      if slocked l then
        (match p with
         | Some _ => proc_sleep kl ch (Some sl_spin)
         | None => zoom sl_spin spinlock_release;;; zoom sl_spin spinlock_acquire
         end);;;
        sl_wait fuel p
      else ret tt
  end.
(** [fuel] bounds the number of times the lock is found taken. *)
Definition sleeplock_acquire (fuel : nat) : M S unit :=
  zoom sl_spin spinlock_acquire;;;
  let* p := zoom kl myproc_opt in
  sl_wait fuel p;;;
  let* n := (match p with Some i => let* pp := zoom kl (rd_proc i) in ret (pid pp) | None => ret (-1) end) in
  modify (fun s => let l := lget sl s in lset sl (mkSleep true (slk l) (sname l) n) s);;;
  zoom sl_spin spinlock_release.

Definition sleeplock_release : M S unit :=
  zoom sl_spin spinlock_acquire;;;
  modify (fun s => let l := lget sl s in lset sl (mkSleep false (slk l) (sname l) 0) s);;;
  zoom kl (proc_wakeup ch);;;
  zoom sl_spin spinlock_release.

Definition sleeplock_holding : M S bool :=
  zoom sl_spin spinlock_acquire;;;
  let* p := zoom kl myproc_opt in
  let* l := gets (lget sl) in
  let* r := (match p with
             | Some i => let* pp := zoom kl (rd_proc i) in ret (slocked l && (spid l =? pid pp))
             | None => ret (slocked l && (spid l =? -1))
             end) in
  zoom sl_spin spinlock_release;;;
  ret r.
End sleeplock.
