(* ===== verification/ProcSpec.v ===== *)
(** * Properties of the process code

    Locks of the process table, sleep and wakeup, the hand-over between a
    process and the scheduler, and the life cycle of a process. *)

From Stdlib Require Import FunctionalExtensionality.
From S2P Require Import Prelude Machine Str Lock Pmem Kvm KvmSpec Mmap Uvm Proc.

(** ** The locks of the process table *)

Definition kcpu (k : kstate) : cpu := pcpu (kpm k).
Definition set_kcpu (c : cpu) (k : kstate) : kstate := set_kpm (set_pcpu c (kpm k)) k.
(** Process [i] locked by the running CPU. *)
Definition locked_state (i : nat) (k : kstate) : kstate :=
  upd_procs i (set_plk (lk_held (kcpu k) (plk (proc_at k i)))) (set_kcpu (pushed (kcpu k)) k).

(** An update that leaves the lock alone. *)
Definition lock_free_upd (f : proc -> proc) : Prop := forall l p, f (set_plk l p) = set_plk l (f p).

Lemma proc_at_upd i f k : (i < length (procs k))%nat -> proc_at (upd_procs i f k) i = f (proc_at k i).
Proof.
  intros Hi. unfold proc_at, upd_procs. cbn. rewrite list_lookup_alter_eq.
  destruct (lookup_lt_is_Some_2 _ _ Hi) as [p ->]. done.
Qed.
Lemma proc_at_upd_ne i j f k : i <> j -> proc_at (upd_procs i f k) j = proc_at k j.
Proof. intros Hi. unfold proc_at, upd_procs. cbn. by rewrite list_lookup_alter_ne. Qed.
Lemma set_plk_set_plk l l' p : set_plk l (set_plk l' p) = set_plk l p.
Proof. done. Qed.
Lemma set_plk_id p : set_plk (plk p) p = p.
Proof. by destruct p. Qed.
Lemma lock_free_upd_plk f p : lock_free_upd f -> plk (f p) = plk p.
Proof. intros Hf. rewrite <- (set_plk_id p) at 1. by rewrite Hf. Qed.

Lemma alter_id_at {A} (f : A -> A) (l : list A) i : (forall x, l !! i = Some x -> f x = x) -> alter f i l = l.
Proof.
  intros H. apply list_eq. intros j. destruct (decide (i = j)) as [->|].
  - rewrite list_lookup_alter_eq. destruct (l !! j) as [x|] eqn:E; [|done]. cbn. by rewrite H.
  - by rewrite list_lookup_alter_ne.
Qed.
Lemma alter_alter {A} (f g : A -> A) (l : list A) i : alter f i (alter g i l) = alter (fun x => f (g x)) i l.
Proof.
  apply list_eq. intros j. destruct (decide (i = j)) as [->|].
  - rewrite !list_lookup_alter_eq. by destruct (l !! j).
  - by rewrite !list_lookup_alter_ne.
Qed.

Lemma plock_run i k : lk_free (plk (proc_at k i)) -> plock i k = Ret tt (locked_state i k).
Proof.
  intros Hl. unfold plock. erewrite zoom_run by (by apply spinlock_acquire_run).
  unfold locked_state, set_kcpu, kcpu. cbn. done.
Qed.

(** Unlocking after an update that leaves the lock alone. *)
Lemma punlock_run i f k : (i < length (procs k))%nat -> lk_free (plk (proc_at k i)) -> cpu_wf (kcpu k) ->
  lock_free_upd f ->
  punlock i (upd_procs i f (locked_state i k)) = Ret tt (upd_procs i f (set_kcpu (synced (kcpu k)) k)).
Proof.
  intros Hi Hl Hc Hf. unfold punlock.
  assert (lget (k_plk i) (upd_procs i f (locked_state i k)) =
    (pushed (kcpu k), lk_held (kcpu k) (plk (proc_at k i)))) as Hg.
  { cbn [lget k_plk]. f_equal. rewrite proc_at_upd by (unfold locked_state, upd_procs; cbn; by rewrite length_alter).
    unfold locked_state. rewrite proc_at_upd by done. rewrite Hf. done. }
  erewrite zoom_run; [|rewrite Hg; by apply spinlock_release_run].
  f_equal. cbn [lset k_plk fst snd]. unfold locked_state, upd_procs, set_kcpu, set_kpm, set_procs. cbn.
  rewrite !alter_alter. f_equal.
  apply list_eq. intros j. destruct (decide (i = j)) as [->|]; [|by rewrite !list_lookup_alter_ne].
  rewrite !list_lookup_alter_eq. destruct (lookup_lt_is_Some_2 _ _ Hi) as [p Hp].
  unfold proc_at. rewrite Hp. cbn. f_equal. rewrite Hf, set_plk_set_plk.
  by rewrite <- Hf, set_plk_id.
Qed.

(** ** proc_wakeup *)

(** What one visit does to a process. *)
Definition wake (me : option nat) (ch : chan) (i : nat) (p : proc) : proc :=
  if bool_decide (Some i <> me) && (bool_decide (state p = SLEEPING) && bool_decide (sleep_space p = Some ch))
  then set_state RUNNABLE p else p.

(** Process locks other than the running process's own are free. *)
Definition locks_free (me : option nat) (k : kstate) : Prop :=
  length (procs k) = Z.to_nat NPROC /\ forall i, Some i <> me -> lk_free (plk (proc_at k i)).

Lemma wake_visit me ch i k :
  cproc (kcpu k) = me -> Some i <> me -> (i < length (procs k))%nat -> lk_free (plk (proc_at k i)) -> cpu_wf (kcpu k) ->
  (plock i;;;
   let* p := rd_proc i in
   when (bool_decide (state p = SLEEPING) && bool_decide (sleep_space p = Some ch))
     (wr_proc i (set_state RUNNABLE));;;
   punlock i) k = Ret tt (upd_procs i (wake me ch i) (set_kcpu (synced (kcpu k)) k)).
Proof.
  intros Hme Hi Hlt Hl Hc. mrun (plock_run i k Hl). unfold rd_proc. mstep.
  assert (proc_at (locked_state i k) i = set_plk (lk_held (kcpu k) (plk (proc_at k i))) (proc_at k i)) as ->.
  { unfold locked_state. by rewrite proc_at_upd. }
  cbn [state sleep_space set_plk].
  assert (forall f, upd_procs i f (locked_state i k) = upd_procs i f (locked_state i k)) as _ by done.
  destruct (bool_decide (state (proc_at k i) = SLEEPING) && bool_decide (sleep_space (proc_at k i) = Some ch)) eqn:E.
  - unfold wr_proc. mstep. rewrite (punlock_run i (set_state RUNNABLE) k) by done. f_equal.
    unfold upd_procs. f_equal. cbn.
    apply list_eq. intros j. destruct (decide (i = j)) as [->|]; [|by rewrite !list_lookup_alter_ne].
    rewrite !list_lookup_alter_eq. unfold proc_at in E. destruct (procs k !! j) as [p|]; [|done]. cbn in *. f_equal.
    unfold wake. rewrite E. by rewrite bool_decide_eq_true_2.
  - mstep. assert (locked_state i k = upd_procs i (fun p => p) (locked_state i k)) as Hid.
    { unfold upd_procs. rewrite alter_id_at by done. by destruct (locked_state i k). }
    rewrite Hid, (punlock_run i (fun p => p) k) by done. f_equal. unfold upd_procs. f_equal. cbn.
    apply list_eq. intros j. destruct (decide (i = j)) as [->|]; [|by rewrite !list_lookup_alter_ne].
    rewrite !list_lookup_alter_eq. unfold proc_at in E. destruct (procs k !! j) as [p|]; [|done]. cbn in *. f_equal.
    unfold wake. by rewrite E, andb_false_r.
Qed.

#[local] Arguments Nat.ltb : simpl never.

(** The table after the first [n] visits. *)
Definition woken (me : option nat) (ch : chan) (n : nat) (k : kstate) : list proc :=
  imap (fun i p => if Nat.ltb i n then wake me ch i p else p) (procs k).

Lemma proc_wakeup_run ch k : locks_free (cproc (kcpu k)) k -> cpu_wf (kcpu k) ->
  exists c, proc_wakeup ch k = Ret tt (set_procs (woken (cproc (kcpu k)) ch (Z.to_nat NPROC) k) (set_kcpu c k)) /\
    (c = synced (kcpu k) \/ c = kcpu k).
Proof.
  intros [Hlen Hfree] Hc. set (me := cproc (kcpu k)) in *. unfold proc_wakeup.
  set (body := fun z : Z => let i := Z.to_nat z in let* me := myproc_opt in _).
  destruct (for_inv (fun n k' => exists c, k' = set_procs (woken me ch n k) (set_kcpu c k) /\
      (c = synced (kcpu k) \/ c = kcpu k)) (Z.to_nat NPROC) 0 1 body k) as (k' & Hrun & c & -> & Hcc).
  - exists (kcpu k). split; [|by right].
    assert (woken me ch 0 k = procs k) as ->.
    { unfold woken. apply list_eq. intros j. rewrite list_lookup_imap. by destruct (procs k !! j). }
    destruct k as [[c m kr ur] r ps z g l]. done.
  - intros n k' Hn (c & -> & Hcc). rewrite Z.mul_1_r, Z.add_0_l. unfold body. cbn zeta. rewrite Nat2Z.id.
    assert (cproc c = me /\ cpu_wf c /\ synced c = synced (kcpu k)) as (Hcm & Hcw & Hcs).
    { destruct Hcc as [->| ->]; [|done]. rewrite synced_cproc, synced_idem. split_and!; [done|by apply synced_wf|done]. }
    set (k1 := set_procs (woken me ch n k) (set_kcpu c k)). unfold myproc_opt. mstep.
    replace (cproc (pcpu (kpm k1))) with me by (symmetry; exact Hcm).
    assert (length (woken me ch n k) = length (procs k)) as Hwl by (unfold woken; by rewrite length_imap).
    assert (forall (f : nat -> proc -> proc), (forall i p, procs k !! i = Some p ->
        f i p = if Nat.ltb i (S n) then wake me ch i p else p) -> imap f (procs k) = woken me ch (S n) k) as Hext.
    { intros f Hf. unfold woken. apply list_eq. intros i. rewrite !list_lookup_imap.
      destruct (procs k !! i) as [p|] eqn:Ep; [|done]. cbn. f_equal. by apply Hf. }
    destruct (decide (Some n = me)) as [Heq|Hne].
    + rewrite bool_decide_eq_true_2 by done. cbn [negb when]. exists k1. split; [done|]. exists c. split; [|done].
      unfold k1. f_equal. unfold woken at 1. apply Hext. intros i p Hp.
      destruct (Nat.ltb_spec i n), (Nat.ltb_spec i (S n)); try lia; try done.
      assert (i = n) as -> by lia. unfold wake. by rewrite bool_decide_eq_false_2 by (intros Hx; by apply Hx).
    + rewrite bool_decide_eq_false_2 by done. cbn [negb when].
      assert (proc_at k1 n = proc_at k n) as Hat.
      { unfold proc_at, k1. cbn. unfold woken. rewrite list_lookup_imap.
        destruct (procs k !! n) as [p|]; [|done]. cbn. by rewrite Nat.ltb_irrefl. }
      rewrite (wake_visit me ch n k1); [|done|done| |rewrite Hat; by apply Hfree|done].
      2:{ unfold k1. cbn. rewrite Hwl, Hlen. done. }
      eexists. split; [done|]. exists (synced c). split; [|left; done].
      unfold upd_procs, k1, set_kcpu, set_kpm, set_procs, kcpu. cbn. f_equal.
      rewrite <- (Hext (fun i p => if Nat.ltb i (S n) then wake me ch i p else p)) by done.
      apply list_eq. intros i. destruct (decide (n = i)) as [->|].
      * rewrite list_lookup_alter_eq. unfold woken. rewrite !list_lookup_imap.
        destruct (procs k !! i) as [p|]; [|done]. cbn.
        rewrite Nat.ltb_irrefl. destruct (Nat.ltb_spec i (S i)); [done|lia].
      * rewrite list_lookup_alter_ne by done. unfold woken. rewrite !list_lookup_imap.
        destruct (procs k !! i) as [p|]; [|done]. cbn.
        destruct (Nat.ltb_spec i n), (Nat.ltb_spec i (S n)); (done || lia).
  - exists c. split; [done|done].
Qed.

(** ** The hand-over between a process and the scheduler *)

(** Process [i] is current on this CPU, which holds its lock and no other, with
    interrupts off: the condition both sides of swtch rely on. *)
Definition handover (i : nat) (k : kstate) : Prop :=
  (i < length (procs k))%nat /\ cproc (kcpu k) = Some i /\ noff (kcpu k) = 1 /\ sie (kcpu k) = false /\
  exists n, plk (proc_at k i) = mkLock true n (cpu_id (kcpu k)).

(** The state after the lock of [i] is given back at depth 1. *)
Definition unlocked_state (i : nat) (k : kstate) : kstate :=
  upd_procs i (set_plk (mkLock false (lname (plk (proc_at k i))) (-1))) (set_kcpu (popped (kcpu k)) k).

Lemma punlock_held i k n : plk (proc_at k i) = mkLock true n (cpu_id (kcpu k)) ->
  noff (kcpu k) = 1 -> sie (kcpu k) = false -> punlock i k = Ret tt (unlocked_state i k).
Proof.
  intros Hl Hn Hs. unfold punlock.
  apply (zoom_run (k_plk i) spinlock_release k tt (popped (kcpu k), mkLock false (lname (plk (proc_at k i))) (-1))).
  cbn [lget k_plk]. fold (kcpu k).
  unfold spinlock_release. mstep. cbn [fst snd]. unfold spinlock_holding. rewrite Hl. cbn [locked lcpuid andb].
  rewrite Z.eqb_refl. mstep. cbn [fst snd lname].
  erewrite zoom_run; [|apply pop_off_run; cbn; [done|lia]]. done.
Qed.
Lemma zoom_k_id {A} (m : M kstate A) k : zoom k_id m k = m k.
Proof.
  unfold zoom. cbn [lget k_id]. generalize (m k) as o. intros o. revert k.
  induction o as [| | |s f IH|]; intros k; try done. cbn. f_equal.
  apply functional_extensionality. intros s'. apply IH.
Qed.

Lemma obind_Swtch {S A B} (m : M S A) (f : A -> M S B) s s' k :
  m s = Swtch s' k -> bind m f s = Swtch s' (fun s'' => obind (k s'') f).
Proof. intros H. unfold bind. by rewrite H. Qed.

Lemma proc_sched_run i k : handover i k -> state (proc_at k i) <> RUNNING ->
  exists cont, proc_sched k = Swtch k cont /\
    forall k', cont k' = Ret tt (set_kcpu (set_origin (origin (kcpu k)) (kcpu k')) k').
Proof.
  intros (Hi & Hp & Hn & Hs & n & Hl) Hst. unfold proc_sched, myproc, myproc_opt, rd_proc. mstep.
  fold (kcpu k). rewrite Hp. mstep.
  unfold spinlock_holding. rewrite Hl. cbn [locked lcpuid andb]. rewrite Z.eqb_refl. mstep.
  change (pcpu (kpm k)) with (kcpu k). rewrite Hn. cbn [Z.eqb Pos.eqb]. mstep. rewrite bool_decide_eq_false_2 by done. mstep. rewrite Hs. mstep.
  eexists. split; [by apply obind_Swtch|]. intros k'. cbn. unfold set_kcpu, kcpu.
  erewrite zoom_run; [|apply modify_run]. done.
Qed.

(** Process [i] running outside the kernel's critical sections. *)
Definition running (i : nat) (k : kstate) : Prop :=
  (i < length (procs k))%nat /\ cproc (kcpu k) = Some i /\ noff (kcpu k) = 0 /\ cpu_wf (kcpu k) /\
  lk_free (plk (proc_at k i)).

Lemma locked_handover i k f : running i k -> lock_free_upd f -> handover i (upd_procs i f (locked_state i k)) /\
  proc_at (upd_procs i f (locked_state i k)) i = set_plk (lk_held (kcpu k) (plk (proc_at k i))) (f (proc_at k i)) /\
  origin (kcpu (upd_procs i f (locked_state i k))) = sie (kcpu k).
Proof.
  intros (Hi & Hp & Hn & Hw & Hl) Hf.
  assert (proc_at (upd_procs i f (locked_state i k)) i =
    set_plk (lk_held (kcpu k) (plk (proc_at k i))) (f (proc_at k i))) as Hat.
  { rewrite proc_at_upd by (unfold locked_state, upd_procs; cbn; by rewrite length_alter).
    unfold locked_state. rewrite proc_at_upd by done. by rewrite Hf. }
  split_and!; [|done|cbn; by rewrite Hn].
  split_and!; [unfold locked_state, upd_procs; cbn; by rewrite !length_alter|done|cbn; lia|done|].
  exists (lname (plk (proc_at k i))). by rewrite Hat.
Qed.

(** What being resumed and unlocking gives back to the process. *)
Lemma resume_unlock i k o : handover i k ->
  exists k3, punlock i (set_kcpu (set_origin o (kcpu k)) k) = Ret tt k3 /\
    running i k3 /\ sie (kcpu k3) = o /\ (forall l, set_plk l (proc_at k3 i) = set_plk l (proc_at k i)) /\
    pm (kpm k3) = pm (kpm k) /\ cpu_id (kcpu k3) = cpu_id (kcpu k).
Proof.
  intros (Hi & Hp & Hn & Hs & n & Hl). set (k' := set_kcpu (set_origin o (kcpu k)) k).
  exists (unlocked_state i k'). split; [by eapply punlock_held|].
  assert (proc_at (unlocked_state i k') i = set_plk (mkLock false (lname (plk (proc_at k i))) (-1)) (proc_at k i)) as Hat.
  { unfold unlocked_state. by rewrite proc_at_upd. }
  assert (sie (kcpu (unlocked_state i k')) = o) as Hsie.
  { unfold unlocked_state, popped. cbn. rewrite Hn, Hs. by destruct o. }
  split_and!; try done.
  - split_and!.
    + unfold unlocked_state, upd_procs. cbn. by rewrite length_alter.
    + done.
    + cbn. lia.
    + unfold cpu_wf. cbn. lia.
    + by rewrite Hat.
  - intros l. by rewrite Hat.
Qed.

Lemma upd_id i k : upd_procs i (fun p => p) k = k.
Proof. unfold upd_procs. rewrite alter_id_at by done. by destruct k. Qed.
Lemma upd_upd i f g k : upd_procs i f (upd_procs i g k) = upd_procs i (fun p => f (g p)) k.
Proof. unfold upd_procs. cbn. by rewrite alter_alter. Qed.
(** Updates that leave the lock alone keep the hand-over condition. *)
Lemma handover_upd i k f : handover i k -> lock_free_upd f ->
  handover i (upd_procs i f k) /\ proc_at (upd_procs i f k) i = f (proc_at k i).
Proof.
  intros (Hi & Hp & Hn & Hs & n & Hl) Hf. pose proof (proc_at_upd i f k Hi) as Hat. split; [|done].
  split_and!; [unfold upd_procs; cbn; by rewrite length_alter|done..|].
  exists n. by rewrite Hat, lock_free_upd_plk.
Qed.
Lemma handover_origin i k o : handover i k -> handover i (set_kcpu (set_origin o (kcpu k)) k).
Proof. intros (Hi & Hp & Hn & Hs & n & Hl). split_and!; try done. by exists n. Qed.

(** proc_sleep on the process's own lock, which it holds. *)
Lemma proc_sleep_own i k ch : handover i k ->
  exists k1 cont, proc_sleep k_id ch None k = Swtch k1 cont /\ handover i k1 /\
     state (proc_at k1 i) = SLEEPING /\ sleep_space (proc_at k1 i) = Some ch /\ (forall j, j <> i -> proc_at k1 j = proc_at k j) /\
     length (procs k1) = length (procs k) /\
     forall k2, handover i k2 -> exists k3, cont k2 = Ret tt k3 /\ handover i k3 /\
       sleep_space (proc_at k3 i) = None /\ origin (kcpu k3) = origin (kcpu k) /\ (forall j, j <> i -> proc_at k3 j = proc_at k2 j) /\
       length (procs k3) = length (procs k2) /\ parent (proc_at k3 i) = parent (proc_at k2 i).
Proof.
  intros Hh. pose proof Hh as (Hi & Hp & Hn & Hs & n & Hl). unfold proc_sleep.
  assert (zoom k_id myproc k = Ret i k) as Hmy.
  { rewrite zoom_k_id. unfold myproc, myproc_opt. mstep. fold (kcpu k). by rewrite Hp. }
  mrun Hmy.
  assert (forall f k', zoom k_id (wr_proc i f) k' = Ret tt (upd_procs i f k')) as Hwr
    by (intros; by rewrite zoom_k_id).
  rewrite (bind_run _ _ _ _ _ (Hwr _ _)), (bind_run _ _ _ _ _ (Hwr _ _)), upd_upd.
  destruct (handover_upd i k (fun p => set_state SLEEPING (set_sleep_space (Some ch) p)) Hh) as [Hh1 Hat1]; [done|].
  set (k1 := upd_procs i _ k) in *.
  destruct (proc_sched_run i k1 Hh1) as (cont & Hrun & Hcont); [by rewrite Hat1|].
  assert (zoom k_id proc_sched k1 = Swtch k1 cont) as Hz by (by rewrite zoom_k_id).
  eexists _, _. split; [by apply obind_Swtch|]. rewrite Hat1. split_and!; try done.
  1: intros j Hj; by apply proc_at_upd_ne.
  1: cbn; by rewrite length_alter.
  intros k2 Hh2. cbn beta. rewrite Hcont. cbn [obind].
  destruct (handover_upd i (set_kcpu (set_origin (origin (kcpu k1)) (kcpu k2)) k2) (set_sleep_space None)) as [Hh3 Hat3];
    [by apply handover_origin|done|].
  rewrite (bind_run _ _ _ _ _ (Hwr _ _)). eexists. split; [done|]. split_and!; [done|by rewrite Hat3|done| |cbn; by rewrite length_alter|by rewrite Hat3].
  intros j Hj. by rewrite proc_at_upd_ne.
Qed.

(** ** proc_reparent and proc_exit *)

Definition adopt (par : nat) (z : option nat) (p : proc) : proc :=
  if bool_decide (parent p = Some par) then set_parent z p else p.

Lemma proc_reparent_run par k :
  length (procs k) = Z.to_nat NPROC ->
  proc_reparent par k = Ret tt (set_procs (adopt par (proczero k) <$> procs k) k).
Proof.
  intros Hlen. unfold proc_reparent.
  set (body := fun z : Z => let i := Z.to_nat z in let* p := rd_proc i in _).
  destruct (for_inv (fun n k' => k' = set_procs (imap (fun i p => if Nat.ltb i n then adopt par (proczero k) p else p)
      (procs k)) k) (Z.to_nat NPROC) 0 1 body k) as (k' & Hrun & ->).
  - assert (imap (fun i p => if Nat.ltb i 0 then adopt par (proczero k) p else p) (procs k) = procs k) as ->.
    { apply list_eq. intros j. rewrite list_lookup_imap. by destruct (procs k !! j). }
    by destruct k.
  - intros n k' Hn ->. rewrite Z.mul_1_r, Z.add_0_l. unfold body, rd_proc, wr_proc. cbn zeta. rewrite Nat2Z.id. mstep.
    set (k1 := set_procs _ k).
    assert (proc_at k1 n = proc_at k n) as Hat.
    { unfold proc_at, k1. cbn. rewrite list_lookup_imap. destruct (procs k !! n); [|done]. cbn. by rewrite Nat.ltb_irrefl. }
    rewrite Hat. replace (proczero k1) with (proczero k) by done.
    exists (set_procs (imap (fun i p => if Nat.ltb i (S n) then adopt par (proczero k) p else p) (procs k)) k).
    split; [|done]. destruct (lookup_lt_is_Some_2 (procs k) n) as [p Hp]; [lia|].
    assert (proc_at k n = p) as Hpn by (unfold proc_at; by rewrite Hp). rewrite Hpn.
    destruct (bool_decide (parent p = Some par)) eqn:E; cbn [when]; mstep; f_equal.
    + unfold upd_procs, k1, set_procs. cbn. f_equal. apply list_eq. intros i. destruct (decide (n = i)) as [<-|].
      * rewrite list_lookup_alter_eq, !list_lookup_imap, Hp. cbn. rewrite Nat.ltb_irrefl.
        destruct (Nat.ltb_spec n (S n)); [|lia]. unfold adopt. by rewrite E.
      * rewrite list_lookup_alter_ne, !list_lookup_imap by done. destruct (procs k !! i); [|done]. cbn.
        destruct (Nat.ltb_spec i n), (Nat.ltb_spec i (S n)); (done || lia).
    + unfold k1. f_equal. apply list_eq. intros i. rewrite !list_lookup_imap.
      destruct (procs k !! i) as [q|] eqn:Hq; [|done]. cbn. f_equal.
      destruct (Nat.ltb_spec i n), (Nat.ltb_spec i (S n)); try (done || lia).
      assert (i = n) as -> by lia. rewrite Hp in Hq. injection Hq as <-. unfold adopt. by rewrite E.
  - rewrite Hrun. do 2 f_equal. apply list_eq. intros i. rewrite list_lookup_imap, list_lookup_fmap.
    destruct (procs k !! i) as [p|] eqn:Hp; [|done]. cbn. apply lookup_lt_Some in Hp.
    destruct (Nat.ltb_spec i (Z.to_nat NPROC)); [done|lia].
Qed.

(** What proc_wakeup_one does to its target. *)
Definition wake_one (i : nat) (p : proc) : proc :=
  if bool_decide (state p = SLEEPING) && bool_decide (sleep_space p = Some (ChProc i))
  then set_state RUNNABLE p else p.
Lemma proc_wakeup_one_run i k : (i < length (procs k))%nat -> lk_free (plk (proc_at k i)) -> cpu_wf (kcpu k) ->
  proc_wakeup_one i k = Ret tt (upd_procs i (wake_one i) (set_kcpu (synced (kcpu k)) k)).
Proof.
  intros Hi Hl Hc. unfold proc_wakeup_one. mrun (plock_run i k Hl). unfold rd_proc. mstep.
  assert (proc_at (locked_state i k) i = set_plk (lk_held (kcpu k) (plk (proc_at k i))) (proc_at k i)) as ->.
  { unfold locked_state. by rewrite proc_at_upd. }
  cbn [state sleep_space set_plk].
  assert (forall f, lock_free_upd f -> f (proc_at k i) = wake_one i (proc_at k i) ->
    punlock i (upd_procs i f (locked_state i k)) = Ret tt (upd_procs i (wake_one i) (set_kcpu (synced (kcpu k)) k))) as Hu.
  { intros f Hf Heq. rewrite punlock_run by done. f_equal. unfold upd_procs. f_equal. cbn.
    apply list_eq. intros j. destruct (decide (i = j)) as [->|]; [|by rewrite !list_lookup_alter_ne].
    rewrite !list_lookup_alter_eq. unfold proc_at in Heq. destruct (procs k !! j) as [p|]; [|done]. cbn in *. by rewrite Heq. }
  destruct (_ && _) eqn:E.
  - unfold wr_proc. mstep. apply Hu; [done|]. unfold wake_one. by rewrite E.
  - mstep. rewrite <- (upd_id i (locked_state i k)). apply Hu; [done|]. unfold wake_one. by rewrite E.
Qed.

(** The table after proc_exit of [p] has switched away. *)
Definition exited (p par : nat) (k : kstate) (j : nat) (pj : proc) : proc :=
  let pj := adopt p (proczero k) pj in
  if decide (j = par) then wake_one par pj else pj.

(** proc_exit up to the wakeup of the parent. *)
Lemma exit_notify_run p par k :
  running p k -> length (procs k) = Z.to_nat NPROC -> (forall j, (j < Z.to_nat NPROC)%nat -> lk_free (plk (proc_at k j))) ->
  Some p <> proczero k -> parent (proc_at k p) = Some par -> par <> p -> (par < Z.to_nat NPROC)%nat ->
  exists k1, exit_notify k = Ret p k1 /\ running p k1 /\ length (procs k1) = Z.to_nat NPROC /\
    forall j, (j < Z.to_nat NPROC)%nat -> proc_at k1 j = exited p par k j (proc_at k j).
Proof.
  intros (Hi & Hp & Hn & Hw & Hl) Hlen Hfree Hz Hpar Hne Hlt.
  unfold exit_notify, myproc, myproc_opt. mstep. fold (kcpu k). rewrite Hp. mstep.
  rewrite bool_decide_eq_false_2 by done. cbn [when]. mstep.
  mrun (proc_reparent_run p k Hlen). set (k0 := set_procs (adopt p (proczero k) <$> procs k) k).
  assert (forall j, (j < Z.to_nat NPROC)%nat -> proc_at k0 j = adopt p (proczero k) (proc_at k j)) as Hk0.
  { intros j Hj. unfold proc_at, k0. cbn. rewrite list_lookup_fmap.
    destruct (lookup_lt_is_Some_2 (procs k) j) as [q ->]; [lia|]. done. }
  assert (length (procs k0) = Z.to_nat NPROC) as Hlen0 by (unfold k0; cbn; by rewrite length_fmap).
  assert (forall q, plk (adopt p (proczero k) q) = plk q) as Hpk by (intros q; unfold adopt; by case_bool_decide).
  unfold rd_proc. mstep.
  assert (parent (proc_at k0 p) = Some par) as ->.
  { rewrite Hk0 by lia. unfold adopt. case_bool_decide as Hb; [|done]. congruence. }
  assert (lk_free (plk (proc_at k0 par))) as Hlpar by (rewrite Hk0, Hpk by done; by apply Hfree).
  mrun (proc_wakeup_one_run par k0 ltac:(lia) Hlpar Hw).
  set (k1 := upd_procs par (wake_one par) (set_kcpu (synced (kcpu k0)) k0)). exists k1.
  assert (length (procs k1) = Z.to_nat NPROC) as Hlen1 by (unfold k1, upd_procs; cbn; by rewrite length_alter, length_fmap).
  split; [done|]. split; [|split; [done|]].
  - split_and!; [lia| | | |].
    + unfold k1. cbn. by rewrite synced_cproc.
    + unfold k1. cbn. by rewrite synced_noff.
    + unfold k1. cbn. by apply synced_wf.
    + unfold k1. rewrite proc_at_upd_ne by done. change (proc_at (set_kcpu _ k0) p) with (proc_at k0 p).
      rewrite Hk0, Hpk by lia. done.
  - intros j Hj. unfold exited, k1. destruct (decide (j = par)) as [->|Hjpar].
    + rewrite proc_at_upd by (change (procs (set_kcpu _ k0)) with (procs k0); lia).
      change (proc_at (set_kcpu _ k0) par) with (proc_at k0 par). by rewrite Hk0.
    + rewrite proc_at_upd_ne by done. by apply Hk0.
Qed.
(** And from there on. *)
Lemma exit_finish_run p k v : running p k ->
  exists k1 cont, exit_finish p v k = Swtch k1 cont /\ handover p k1 /\ state (proc_at k1 p) = ZOMBIE /\ exit_state (proc_at k1 p) = v /\
    parent (proc_at k1 p) = parent (proc_at k p) /\ (forall j, j <> p -> proc_at k1 j = proc_at k j) /\
    (forall k2, handover p k2 -> cont k2 = Panic "proc_exit: zombie exit").
Proof.
  intros Hr. unfold exit_finish. pose proof Hr as (_ & _ & _ & _ & Hl1). mrun (plock_run p k Hl1). unfold wr_proc. mstep.
  rewrite upd_upd. destruct (locked_handover p k (fun q => set_state ZOMBIE (set_exit_state v q)) Hr) as (Hh & Hat & _); [done|].
  set (k2 := upd_procs p _ (locked_state p k)) in *.
  destruct (proc_sched_run p k2 Hh) as (cont & Hrun & Hcont); [by rewrite Hat|].
  eexists _, _. split; [by apply obind_Swtch|]. rewrite Hat. split_and!; try done.
  - intros j Hjp. unfold k2, locked_state. by rewrite !proc_at_upd_ne by done.
  - intros k3 _. cbn beta. by rewrite Hcont.
Qed.
Lemma proc_exit_run p par k v :
  running p k -> length (procs k) = Z.to_nat NPROC -> (forall j, (j < Z.to_nat NPROC)%nat -> lk_free (plk (proc_at k j))) ->
  Some p <> proczero k -> parent (proc_at k p) = Some par -> par <> p -> (par < Z.to_nat NPROC)%nat ->
  exists k1 cont, proc_exit v k = Swtch k1 cont /\ handover p k1 /\
    state (proc_at k1 p) = ZOMBIE /\ exit_state (proc_at k1 p) = v /\
    (forall j, (j < Z.to_nat NPROC)%nat -> j <> p -> proc_at k1 j = exited p par k j (proc_at k j)) /\
    (forall k2, handover p k2 -> cont k2 = Panic "proc_exit: zombie exit").
Proof.
  intros Hr Hlen Hfree Hz Hpar Hne Hlt. destruct (exit_notify_run p par k Hr Hlen Hfree Hz Hpar Hne Hlt) as (k1 & E1 & Hr1 & _ & Hat).
  destruct (exit_finish_run p k1 v Hr1) as (k2 & cont & E2 & Hh & Hst & Hex & _ & Hoth & Hres).
  exists k2, cont. unfold proc_exit. rewrite (bind_run _ _ _ _ _ E1). split_and!; try done.
  intros j Hj Hjp. rewrite Hoth by done. by apply Hat.
Qed.

(** ** The scheduler *)

Lemma sched_slot_run i k : (i < length (procs k))%nat -> lk_free (plk (proc_at k i)) -> noff (kcpu k) = 0 -> cpu_wf (kcpu k) ->
  (state (proc_at k i) = RUNNABLE ->
     exists k1 cont, sched_slot (Z.of_nat i) k = Swtch k1 cont /\ handover i k1 /\
       proc_at k1 i = set_plk (lk_held (kcpu k) (plk (proc_at k i))) (set_state RUNNING (proc_at k i)) /\
       (forall j, j <> i -> proc_at k1 j = proc_at k j) /\
       forall k2, handover i k2 -> exists k3, cont k2 = Ret tt k3 /\ cproc (kcpu k3) = None /\ noff (kcpu k3) = 0 /\
         lk_free (plk (proc_at k3 i)) /\ (forall l, set_plk l (proc_at k3 i) = set_plk l (proc_at k2 i)) /\
         (forall j, j <> i -> proc_at k3 j = proc_at k2 j)) /\
  (state (proc_at k i) <> RUNNABLE -> sched_slot (Z.of_nat i) k = Ret tt (set_kcpu (synced (kcpu k)) k)).
Proof.
  intros Hi Hl Hn Hw. unfold sched_slot. rewrite Nat2Z.id.
  assert (proc_at (locked_state i k) i = set_plk (lk_held (kcpu k) (plk (proc_at k i))) (proc_at k i)) as Hat.
  { unfold locked_state. by rewrite proc_at_upd. }
  split; intros Hst; mrun (plock_run i k Hl); unfold rd_proc; mstep; rewrite Hat; cbn [state set_plk].
  - rewrite bool_decide_eq_true_2 by done. cbn [when]. unfold wr_proc. mstep.
    set (ka := upd_procs i (set_state RUNNING) (locked_state i k)).
    assert (zoom k_cpu (modify (set_cproc (Some i))) ka = Ret tt (set_kcpu (set_cproc (Some i) (kcpu ka)) ka)) as Hz by done.
    mrun Hz. set (kb := set_kcpu (set_cproc (Some i) (kcpu ka)) ka).
    assert (proc_at kb i = set_plk (lk_held (kcpu k) (plk (proc_at k i))) (set_state RUNNING (proc_at k i))) as Hb.
    { change (proc_at kb i) with (proc_at ka i). unfold ka. rewrite proc_at_upd, Hat; [done|].
      unfold locked_state, upd_procs. cbn. by rewrite length_alter. }
    assert (handover i kb) as Hh.
    { split_and!; try done.
      - unfold kb, ka, locked_state, upd_procs. cbn. by rewrite !length_alter.
      - unfold kb. cbn. lia.
      - exists (lname (plk (proc_at k i))). by rewrite Hb. }
    eexists kb, _. split; [by apply obind_Swtch|]. split_and!; try done.
    + intros j Hj. change (proc_at kb j) with (proc_at ka j). unfold ka, locked_state. by rewrite !proc_at_upd_ne by done.
    + intros k2 (Hi2 & Hp2 & Hn2 & Hs2 & n2 & Hl2). cbn.
      set (k2' := set_kcpu (set_cproc None (kcpu k2)) k2).
      assert (zoom k_cpu (modify (set_cproc None)) k2 = Ret tt k2') as Hz2 by done. mrun Hz2.
      rewrite (punlock_held i k2' n2) by done. eexists. split; [done|].
      assert (proc_at (unlocked_state i k2') i = set_plk (mkLock false (lname (plk (proc_at k2 i))) (-1)) (proc_at k2 i)) as Hat2.
      { unfold unlocked_state. by rewrite proc_at_upd. }
      split_and!; try done.
      * cbn. lia.
      * by rewrite Hat2.
      * intros l. by rewrite Hat2.
      * intros j Hj. unfold unlocked_state. by rewrite proc_at_upd_ne.
  - rewrite bool_decide_eq_false_2 by done. cbn [when]. mstep.
    rewrite <- (upd_id i (locked_state i k)), punlock_run by done. by rewrite upd_id.
Qed.

(** ** Properties *)

(** C23 proc_wakeup makes RUNNABLE exactly the processes that are SLEEPING on the
    given channel, the current one excepted, and changes nothing else in the
    process table, the memory or the repository; the CPU is as before up to the
    remembered interrupt state. *)
Theorem proc_wakeup_exact ch k i :
  locks_free (cproc (kcpu k)) k -> cpu_wf (kcpu k) -> (i < Z.to_nat NPROC)%nat ->
  exists k', proc_wakeup ch k = Ret tt k' /\
    proc_at k' i = (if bool_decide (Some i <> cproc (kcpu k)) && (bool_decide (state (proc_at k i) = SLEEPING) &&
                        bool_decide (sleep_space (proc_at k i) = Some ch))
                    then set_state RUNNABLE (proc_at k i) else proc_at k i) /\
    pm (kpm k') = pm (kpm k) /\ krepo k' = krepo k /\ length (procs k') = length (procs k) /\
    noff (kcpu k') = noff (kcpu k) /\ sie (kcpu k') = sie (kcpu k).
Proof.
  intros Hl Hc Hi. destruct (proc_wakeup_run ch k Hl Hc) as (c & Hrun & Hcc). eexists. split; [exact Hrun|].
  split_and!.
  - unfold proc_at. cbn. unfold woken. rewrite list_lookup_imap.
    destruct Hl as [Hlen _]. destruct (lookup_lt_is_Some_2 (procs k) i) as [p Hp]; [lia|]. rewrite Hp. cbn.
    destruct (Nat.ltb_spec i (Z.to_nat NPROC)); [done|lia].
  - done.
  - done.
  - cbn. unfold woken. by rewrite length_imap.
  - destruct Hcc as [->| ->]; [|done]. cbn. apply synced_noff.
  - destruct Hcc as [->| ->]; [|done]. cbn. apply synced_sie.
Qed.

Lemma proc_yield_run i k : running i k ->
  exists k1 cont, proc_yield k = Swtch k1 cont /\ handover i k1 /\ (exists l, proc_at k1 i = set_plk l (set_state RUNNABLE (proc_at k i))) /\
    pm (kpm k1) = pm (kpm k) /\
    forall k2, handover i k2 -> exists k3, cont k2 = Ret tt k3 /\ running i k3 /\ sie (kcpu k3) = sie (kcpu k) /\
      (forall l, set_plk l (proc_at k3 i) = set_plk l (proc_at k2 i)) /\ pm (kpm k3) = pm (kpm k2) /\
      cpu_id (kcpu k3) = cpu_id (kcpu k2).
Proof.
  intros Hr. pose proof Hr as (Hi & Hp & Hn & Hw & Hl).
  unfold proc_yield, myproc, myproc_opt. mstep. fold (kcpu k). rewrite Hp. mstep.
  mrun (plock_run i k Hl). unfold wr_proc. mstep.
  destruct (locked_handover i k (set_state RUNNABLE) Hr) as (Hh & Hat & Ho); [done|].
  destruct (proc_sched_run i _ Hh) as (cont & Hrun & Hcont); [by rewrite Hat|].
  eexists _, _. split; [by apply obind_Swtch|]. split_and!; [done|by eexists|done|].
  intros k2 Hh2. cbn beta. rewrite Hcont. cbn [obind]. rewrite Ho. apply (resume_unlock i k2 (sie (kcpu k)) Hh2).
Qed.

(** ** A kernel state and a lock inside a larger state *)

Class LockIn {S X : Type} (kl : lens S kstate) (sl : lens S X) (P : S -> Prop) : Prop := {
  li_kk : forall k s, lget kl (lset kl k s) = k;
  li_kid : forall s, lset kl (lget kl s) s = s;
  li_k2 : forall k k' s, lset kl k (lset kl k' s) = lset kl k s;
  li_ss : forall l s, P s -> lget sl (lset sl l s) = l;
  li_sid : forall s, P s -> lset sl (lget sl s) s = s;
  li_s2 : forall l l' s, lset sl l (lset sl l' s) = lset sl l s;
  li_sk : forall k s, lget sl (lset kl k s) = lget sl s;
  li_ks : forall l s, lget kl (lset sl l s) = lget kl s;
  li_comm : forall k l s, lset kl k (lset sl l s) = lset sl l (lset kl k s);
  li_P : forall k s, P s -> P (lset kl k s);
}.

Lemma zoom_Swtch {S X A} (l : lens S X) (m : M X A) s x k : m (lget l s) = Swtch x k ->
  zoom l m s = Swtch (lset l x s) (fun s' => ozoom l s' (k (lget l s'))).
Proof. intros H. unfold zoom. by rewrite H. Qed.

Section lock_at.
Context {S X : Type} {kl : lens S kstate} {sl : lens S X} {P : S -> Prop} {L : LockIn kl sl P}.

(** The state [s] with the kernel part [k] and the lock [l]. *)
Definition at_kl (k : kstate) (l : X) (s : S) : S := lset sl l (lset kl k s).
Lemma at_kl_k k l s : lget kl (at_kl k l s) = k.
Proof. unfold at_kl. by rewrite li_ks, li_kk. Qed.
Lemma at_kl_l k l s : P s -> lget sl (at_kl k l s) = l.
Proof. intros H. unfold at_kl. rewrite li_ss; [done|]. by apply li_P. Qed.
Lemma at_kl_setk k k' l s : lset kl k (at_kl k' l s) = at_kl k l s.
Proof. unfold at_kl. by rewrite li_comm, li_k2. Qed.
Lemma at_kl_setl k l l' s : lset sl l (at_kl k l' s) = at_kl k l s.
Proof. unfold at_kl. by rewrite li_s2. Qed.
Lemma at_kl_id s : P s -> at_kl (lget kl s) (lget sl s) s = s.
Proof. intros H. unfold at_kl. by rewrite li_kid, li_sid. Qed.
End lock_at.

(** A process that holds the condition lock, next to its CPU, at depth 1. *)
Record holds_cond {S : Type} (kl : lens S kstate) (cl : lens S spinlock) (i : nat) (s : S) : Prop := {
  hc_slot : (i < length (procs (lget kl s)))%nat;
  hc_cur : cproc (kcpu (lget kl s)) = Some i;
  hc_depth : noff (kcpu (lget kl s)) = 1;
  hc_off : sie (kcpu (lget kl s)) = false;
  hc_held : exists n, lget cl s = mkLock true n (cpu_id (kcpu (lget kl s)));
  hc_plk : lk_free (plk (proc_at (lget kl s) i));
}.

Lemma release_held c n : sie c = false -> 0 < noff c -> spinlock_release (c, mkLock true n (cpu_id c)) = Ret tt (popped c, mkLock false n (-1)).
Proof.
  intros Hs Hn. unfold spinlock_release. mstep. cbn [fst snd]. unfold spinlock_holding. cbn [locked lcpuid andb].
  rewrite Z.eqb_refl. mstep. cbn [fst snd lname]. erewrite zoom_run; [|apply pop_off_run; cbn; [done|lia]]. done.
Qed.

Section cond_sleep.
Context {S : Type} {kl : lens S kstate} {cl : lens S spinlock} {P : S -> Prop} {L : LockIn kl cl P}.
#[local] Notation at_kl := (at_kl (kl := kl) (sl := cl)).

(** Going to sleep: the lock of the process is taken, then the condition lock given back. *)
Lemma cond_swap i k n s : P s -> cproc (kcpu k) = Some i -> (i < length (procs k))%nat -> noff (kcpu k) = 1 -> lk_free (plk (proc_at k i)) ->
  exists k', handover i k' /\ origin (kcpu k') = origin (kcpu k) /\ (forall l, set_plk l (proc_at k' i) = set_plk l (proc_at k i)) /\
    (forall j, j <> i -> proc_at k' j = proc_at k j) /\
    (zoom kl (plock i);;; zoom (cond_lens kl cl) spinlock_release) (at_kl k (mkLock true n (cpu_id (kcpu k))) s) =
    Ret tt (at_kl k' (mkLock false n (-1)) s).
Proof.
  intros HP Hp Hi Hn Hl. set (k1 := locked_state i k). exists (set_kcpu (popped (kcpu k1)) k1).
  assert (kcpu k1 = pushed (kcpu k)) as Hk1 by done.
  assert (proc_at k1 i = set_plk (lk_held (kcpu k) (plk (proc_at k i))) (proc_at k i)) as Hat by (unfold k1, locked_state; by rewrite proc_at_upd).
  split_and!.
  - split_and!; [unfold k1, locked_state, upd_procs; cbn; by rewrite length_alter|done|change (noff (kcpu k) + 1 - 1 = 1); lia|change (sie (popped (pushed (kcpu k))) = false); unfold popped; cbn [noff pushed origin sie]; by rewrite Hn|].
    exists (lname (plk (proc_at k i))). change (plk (proc_at k1 i) = mkLock true (lname (plk (proc_at k i))) (cpu_id (kcpu k))). by rewrite Hat.
  - change (origin (popped (pushed (kcpu k))) = origin (kcpu k)). unfold popped. cbn [noff pushed origin]. by rewrite Hn.
  - intros l. change (set_plk l (proc_at k1 i) = set_plk l (proc_at k i)). by rewrite Hat.
  - intros j Hj. change (proc_at k1 j = proc_at k j). unfold k1, locked_state. by rewrite proc_at_upd_ne.
  - erewrite bind_run; [|apply zoom_run; rewrite at_kl_k; by apply plock_run]. rewrite at_kl_setk. fold k1.
    erewrite zoom_run; [|cbn [lget cond_lens]; rewrite at_kl_k, at_kl_l by done; apply (release_held (pushed (kcpu k))); cbn; [done|lia]].
    cbn [lset cond_lens fst snd]. by rewrite at_kl_k, at_kl_setk, at_kl_setl.
Qed.
(** Coming back: the lock of the process is given back, then the condition lock taken. *)
Lemma cond_swap_back i k l s : P s -> handover i k -> lk_free l -> let o := origin (kcpu k) in
  exists k', cproc (kcpu k') = Some i /\ noff (kcpu k') = 1 /\ sie (kcpu k') = false /\ origin (kcpu k') = o /\ cpu_id (kcpu k') = cpu_id (kcpu k) /\
    (i < length (procs k'))%nat /\ lk_free (plk (proc_at k' i)) /\ (forall l, set_plk l (proc_at k' i) = set_plk l (proc_at k i)) /\
    (forall j, j <> i -> proc_at k' j = proc_at k j) /\
    (zoom kl (punlock i);;; zoom (cond_lens kl cl) spinlock_acquire) (at_kl k l s) = Ret tt (at_kl k' (mkLock true (lname l) (cpu_id (kcpu k))) s).
Proof.
  intros HP (Hi & Hp & Hn & Hs & n & Hl) Hfl o. set (k1 := unlocked_state i k).
  assert (proc_at k1 i = set_plk (mkLock false (lname (plk (proc_at k i))) (-1)) (proc_at k i)) as Hat by (unfold k1, unlocked_state; by rewrite proc_at_upd).
  exists (set_kcpu (pushed (kcpu k1)) k1). split_and!; try done.
  - change (noff (kcpu k) - 1 + 1 = 1). lia.
  - change (origin (pushed (popped (kcpu k))) = o). unfold popped, pushed. cbn [noff origin sie]. rewrite Hn, Hs. unfold o. by destruct (origin (kcpu k)).
  - unfold k1, unlocked_state, upd_procs. cbn. by rewrite length_alter.
  - change (lk_free (plk (proc_at k1 i))). by rewrite Hat.
  - intros l'. change (set_plk l' (proc_at k1 i) = set_plk l' (proc_at k i)). by rewrite Hat.
  - intros j Hj. change (proc_at k1 j = proc_at k j). unfold k1, unlocked_state. by rewrite proc_at_upd_ne.
  - erewrite bind_run; [|apply zoom_run; rewrite at_kl_k; by eapply punlock_held]. rewrite at_kl_setk. fold k1.
    erewrite zoom_run; [|cbn [lget cond_lens]; rewrite at_kl_k, at_kl_l by done; by apply spinlock_acquire_run].
    cbn [lset cond_lens fst snd]. by rewrite at_kl_k, at_kl_setk, at_kl_setl.
Qed.
Lemma zoom_wr_proc i f k l s : zoom kl (wr_proc i f) (at_kl k l s) = Ret tt (at_kl (upd_procs i f k) l s).
Proof. erewrite zoom_run by reflexivity. by rewrite at_kl_k, at_kl_setk. Qed.

(** proc_sleep on a condition lock. *)
Definition sleeps_on (ch : chan) (i : nat) (s : S) (o : outcome S unit) : Prop :=
  exists s1 cont, o = Swtch s1 cont /\ handover i (lget kl s1) /\
    state (proc_at (lget kl s1) i) = SLEEPING /\ sleep_space (proc_at (lget kl s1) i) = Some ch /\ lk_free (lget cl s1) /\
    (forall j, j <> i -> proc_at (lget kl s1) j = proc_at (lget kl s) j) /\
    forall s2, P s2 -> handover i (lget kl s2) -> lk_free (lget cl s2) -> exists s3, cont s2 = Ret tt s3 /\ holds_cond kl cl i s3 /\
      sleep_space (proc_at (lget kl s3) i) = None /\ origin (kcpu (lget kl s3)) = origin (kcpu (lget kl s)) /\
      (forall j, j <> i -> proc_at (lget kl s3) j = proc_at (lget kl s2) j).
Lemma proc_sleep_cond ch i s : P s -> holds_cond kl cl i s -> sleeps_on ch i s (proc_sleep kl ch (Some (cond_lens kl cl)) s).
Proof.
  intros HP [Hi Hp Hn Hs [n Hl] Hlk]. set (k := lget kl s) in *.
  destruct (cond_swap i k n s HP Hp Hi Hn Hlk) as (k1 & Hh & Ho & Hat & Hoth & Hrun).
  assert (at_kl k (mkLock true n (cpu_id (kcpu k))) s = s) as Hid by (rewrite <- Hl; by apply at_kl_id). rewrite Hid in Hrun.
  assert (zoom kl myproc s = Ret i s) as Hmy.
  { erewrite zoom_run; [|unfold myproc, myproc_opt; mstep; fold k; change (pcpu (kpm k)) with (kcpu k); rewrite Hp; reflexivity]. unfold k. by rewrite li_kid. }
  unfold proc_sleep. rewrite (bind_run _ _ _ _ _ Hmy), (bind_run _ _ _ _ _ Hrun), !(bind_run _ _ _ _ _ (zoom_wr_proc _ _ _ _ _)), upd_upd.
  destruct (handover_upd i k1 (fun p => set_state SLEEPING (set_sleep_space (Some ch) p)) Hh) as [Hh1 Hat1]; [done|].
  set (k2 := upd_procs i _ k1) in *.
  destruct (proc_sched_run i k2 Hh1) as (cont & Hsch & Hcont); [by rewrite Hat1|].
  eexists _, _. split; [apply obind_Swtch, zoom_Swtch; rewrite at_kl_k; exact Hsch|].
  rewrite at_kl_setk, at_kl_k, at_kl_l, Hat1 by done. split_and!; try done.
  { intros j Hj. unfold k2. rewrite proc_at_upd_ne by done. by apply Hoth. }
  intros s2 HP2 Hh2 Hl2. cbn beta. rewrite Hcont. cbn [ozoom obind].
  set (k3 := set_kcpu _ (lget kl s2)).
  replace (lset kl k3 s2) with (at_kl k3 (lget cl s2) s2) by (unfold at_kl; rewrite <- li_comm, li_sid; done).
  rewrite (bind_run _ _ _ _ _ (zoom_wr_proc _ _ _ _ _)).
  destruct (handover_upd i k3 (set_sleep_space None) (handover_origin i _ _ Hh2)) as [Hh4 Hat4]; [done|].
  destruct (cond_swap_back i (upd_procs i (set_sleep_space None) k3) (lget cl s2) s2 HP2 Hh4 Hl2)
    as (k' & B1 & B2 & B3 & B4 & B5 & B6 & B7 & B8 & B9 & Hrun2). rewrite Hrun2. eexists. split; [done|].
  rewrite at_kl_k. split; [split; rewrite ?at_kl_k; try done|].
  - rewrite at_kl_l by done. exists (lname (lget cl s2)). by rewrite B5.
  - split_and!; [|rewrite B4; exact Ho|].
    + change (sleep_space (set_plk (spinlock_init "") (proc_at k' i)) = None). rewrite B8, Hat4. done.
    + intros j Hj. rewrite B9 by done. rewrite proc_at_upd_ne by done. done.
Qed.
End cond_sleep.
Arguments sleeps_on {S} kl cl P ch i s o.

(** C19 the process side of a context switch.  proc_yield of a running process
    switches away with the hand-over condition in force and the process RUNNABLE;
    proc_sleep on its own lock switches away likewise, SLEEPING on the channel;
    and whenever either is resumed in any state that meets the hand-over
    condition, on whatever CPU, it returns, with the process lock as it was before
    the call and the interrupt state the process had.  proc_sleep on any other lock,
    wherever it sits in the state, switches away with that lock given back and the
    own lock taken, every other process untouched; resumed with the lock free, it
    returns with the lock taken again, the own lock given back and the channel
    cleared. *)
Theorem yield_sleep_handover i k ch : running i k ->
  (exists k1 cont, proc_yield k = Swtch k1 cont /\ handover i k1 /\ state (proc_at k1 i) = RUNNABLE /\
     forall k2, handover i k2 -> exists k3, cont k2 = Ret tt k3 /\ running i k3 /\ sie (kcpu k3) = sie (kcpu k)) /\
  (exists k1 cont, (plock i;;; proc_sleep k_id ch None) k = Swtch k1 cont /\ handover i k1 /\
     state (proc_at k1 i) = SLEEPING /\ sleep_space (proc_at k1 i) = Some ch /\
     forall k2, handover i k2 -> exists k3, cont k2 = Ret tt k3 /\ handover i k3 /\
       sleep_space (proc_at k3 i) = None /\ origin (kcpu k3) = sie (kcpu k)) /\
  (forall (S : Type) (kl : lens S kstate) (cl : lens S spinlock) (P : S -> Prop), LockIn kl cl P -> forall s, P s ->
     holds_cond kl cl i s -> sleeps_on kl cl P ch i s (proc_sleep kl ch (Some (cond_lens kl cl)) s)).
Proof.
  intros Hr. pose proof Hr as (Hi & Hp & Hn & Hw & Hl). split; [|split; [|intros S kl cl P L s; apply proc_sleep_cond]].
  - destruct (proc_yield_run i k Hr) as (k1 & cont & Hrun & Hh & [l Hst] & _ & Hres). exists k1, cont. split_and!; [done|done|by rewrite Hst|].
    intros k2 Hh2. destruct (Hres k2 Hh2) as (k3 & Hc & Hr3 & Hs3 & _). by exists k3.
  - mrun (plock_run i k Hl). destruct (proc_sleep_own i (locked_state i k) ch) as (k1 & cont & Hrun & Hh1 & Hs1 & Hc1 & _ & _ & Hrest).
    { pose proof (locked_handover i k (fun p => p) Hr) as (Hh & _); [done|].
      by rewrite upd_id in Hh. }
    exists k1, cont. rewrite Hrun. split; [done|].
    assert (origin (kcpu (locked_state i k)) = sie (kcpu k)) as Ho by (cbn; by rewrite Hn).
    rewrite Ho in Hrest. split_and!; [done..|]. intros k2 Hh2. destruct (Hrest k2 Hh2) as (k3 & ? & ? & ? & ? & _). by exists k3.
Qed.

(** C20 the scheduler side of a context switch.  A slot that is not RUNNABLE is
    passed over with nothing changed.  A RUNNABLE process is marked RUNNING and
    switched to with the hand-over condition in force and every other process
    untouched; whenever the scheduler is resumed in a state that meets the
    condition it drops the current process, releases the process lock and goes on,
    changing nothing else in the table. *)
Theorem scheduler_handover i k :
  (i < length (procs k))%nat -> lk_free (plk (proc_at k i)) -> noff (kcpu k) = 0 -> cpu_wf (kcpu k) ->
  (state (proc_at k i) = RUNNABLE ->
     exists k1 cont, sched_slot (Z.of_nat i) k = Swtch k1 cont /\ handover i k1 /\
       state (proc_at k1 i) = RUNNING /\ (forall j, j <> i -> proc_at k1 j = proc_at k j) /\
       forall k2, handover i k2 -> exists k3, cont k2 = Ret tt k3 /\ cproc (kcpu k3) = None /\ noff (kcpu k3) = 0 /\
         lk_free (plk (proc_at k3 i)) /\ state (proc_at k3 i) = state (proc_at k2 i) /\
         (forall j, j <> i -> proc_at k3 j = proc_at k2 j)) /\
  (state (proc_at k i) <> RUNNABLE -> sched_slot (Z.of_nat i) k = Ret tt (set_kcpu (synced (kcpu k)) k)).
Proof.
  intros Hi Hl Hn Hw. destruct (sched_slot_run i k Hi Hl Hn Hw) as [H1 H2]. split; [|done].
  intros Hst. destruct (H1 Hst) as (k1 & cont & Hrun & Hh & Hat & Hoth & Hres).
  exists k1, cont. rewrite Hat. split_and!; try done. intros k2 Hh2.
  destruct (Hres k2 Hh2) as (k3 & Hc3 & Hp3 & Hn3 & Hl3 & Heq & Hoth3). exists k3. split_and!; try done.
  specialize (Heq (spinlock_init "")). by apply (f_equal state) in Heq.
Qed.

(** C21 proc_exit of a process other than proczero hands its children to
    proczero, makes its parent RUNNABLE if the parent sleeps in proc_wait, stores
    the exit status, becomes ZOMBIE and switches away with the hand-over condition
    in force; every other process is unchanged, and if it were ever resumed it
    would panic. *)
Theorem proc_exit_correct p par k v :
  running p k -> length (procs k) = Z.to_nat NPROC -> (forall j, (j < Z.to_nat NPROC)%nat -> lk_free (plk (proc_at k j))) ->
  Some p <> proczero k -> parent (proc_at k p) = Some par -> par <> p -> (par < Z.to_nat NPROC)%nat ->
  exists k1 cont, proc_exit v k = Swtch k1 cont /\ handover p k1 /\
    state (proc_at k1 p) = ZOMBIE /\ exit_state (proc_at k1 p) = v /\
    (forall j, (j < Z.to_nat NPROC)%nat -> j <> p ->
       parent (proc_at k1 j) = (if bool_decide (parent (proc_at k j) = Some p) then proczero k else parent (proc_at k j)) /\
       state (proc_at k1 j) = (if bool_decide (j = par) && (bool_decide (state (proc_at k j) = SLEEPING) &&
          bool_decide (sleep_space (proc_at k j) = Some (ChProc par))) then RUNNABLE else state (proc_at k j)) /\
       pgtbl (proc_at k1 j) = pgtbl (proc_at k j) /\ pid (proc_at k1 j) = pid (proc_at k j)) /\
    (forall k2, handover p k2 -> cont k2 = Panic "proc_exit: zombie exit").
Proof.
  intros Hr Hlen Hfree Hz Hpar Hne Hlt.
  destruct (proc_exit_run p par k v Hr Hlen Hfree Hz Hpar Hne Hlt) as (k1 & cont & Hrun & Hh & Hst & Hex & Hoth & Hres).
  exists k1, cont. split_and!; try done. intros j Hj Hjp. rewrite (Hoth j Hj Hjp). unfold exited.
  assert (state (adopt p (proczero k) (proc_at k j)) = state (proc_at k j) /\
    sleep_space (adopt p (proczero k) (proc_at k j)) = sleep_space (proc_at k j) /\
    pgtbl (adopt p (proczero k) (proc_at k j)) = pgtbl (proc_at k j) /\
    pid (adopt p (proczero k) (proc_at k j)) = pid (proc_at k j)) as (Ha & Hb & Hc & Hd).
  { unfold adopt. by case_bool_decide. }
  destruct (decide (j = par)) as [->|Hjpar].
  - rewrite (bool_decide_eq_true_2 (par = par)) by done. cbn [andb]. unfold wake_one. rewrite Ha, Hb.
    destruct (_ && _); cbn; (split_and!; try done; unfold adopt; by case_bool_decide).
  - rewrite (bool_decide_eq_false_2 (j = par)) by done. cbn [andb]. split_and!; try done.
    unfold adopt. by case_bool_decide.
Qed.

(** ** Concrete systems *)

(** Process [i] with a parent and a state; no memory. *)
Definition mk_proc (n : Z) (st : proc_state) (par : option nat) (ch : option chan) : proc :=
  mkProc (spinlock_init "proc") n st par 0 ch 0 0 0 None 0 0 (mkCtx 0 0) [] None.
Definition cpu_on (id : Z) (p : nat) : cpu := mkCpu id 0 true true (Some p).
(** proczero sleeps; process 1 runs on CPU 0 and its child 2 on CPU 1. *)
Definition family : kstate :=
  mkK (set_pcpu (cpu_on 0 1) blank_pmem) demo_repo
    (mk_proc 0 SLEEPING None (Some (ChProc 0)) :: mk_proc 1 RUNNING (Some O) None ::
     mk_proc 2 RUNNING (Some 1%nat) None :: replicate 61 (mk_proc 0 UNUSED None None))
    (Some O) 3 (spinlock_init "pid").
Definition on_cpu (c : cpu) (k : kstate) : kstate := set_kcpu c k.

Lemma proc_wakeup_exact_witness :
  exists k', proc_wakeup (ChProc 0) family = Ret tt k' /\ state (proc_at k' 0) = RUNNABLE /\ state (proc_at k' 1) = RUNNING.
Proof.
  assert (locks_free (cproc (kcpu family)) family) as Hl.
  { split; [reflexivity|]. intros i _. do 64 (destruct i as [|i]; [split; reflexivity|]). split; reflexivity. }
  assert (cpu_wf (kcpu family)) as Hc by (unfold cpu_wf; cbn; lia).
  destruct (proc_wakeup_exact (ChProc 0) family 0 Hl Hc) as (k' & Hrun & H0 & _); [vm_compute; lia|].
  destruct (proc_wakeup_exact (ChProc 0) family 1 Hl Hc) as (k'' & Hrun' & H1 & _); [vm_compute; lia|].
  rewrite Hrun in Hrun'. injection Hrun' as <-.
  exists k'. split; [exact Hrun|]. rewrite H0, H1. split; reflexivity.
Defined.

Lemma family_running : running 1 family.
Proof. split_and!; [vm_compute; lia|reflexivity|reflexivity|unfold cpu_wf; cbn; lia|split; reflexivity]. Qed.

(** A kernel with one more lock, which process 1 holds. *)
Definition fst_kl : lens (kstate * spinlock) kstate := Lens fst (fun k s => (k, snd s)).
Definition snd_cl : lens (kstate * spinlock) spinlock := Lens snd (fun l s => (fst s, l)).
Lemma pair_lock_in : LockIn fst_kl snd_cl (fun _ => True).
Proof. by split; try intros [? ?]. Qed.
Definition holder : kstate * spinlock := (on_cpu (pushed (cpu_on 0 1)) family, mkLock true "lk" 0).
Lemma yield_sleep_handover_witness :
  (exists k1 cont, proc_yield family = Swtch k1 cont /\ state (proc_at k1 1) = RUNNABLE /\
    exists k3, cont k1 = Ret tt k3 /\ sie (kcpu k3) = true) /\
  (exists s1 cont s3, proc_sleep fst_kl ChTicks (Some (cond_lens fst_kl snd_cl)) holder = Swtch s1 cont /\ locked (snd s1) = false /\
    cont s1 = Ret tt s3 /\ locked (snd s3) = true).
Proof.
  destruct (yield_sleep_handover 1 family ChTicks family_running) as ((k1 & cont & Hrun & Hh & Hst & Hres) & _ & Hc). split.
  - exists k1, cont. split; [exact Hrun|]. split; [exact Hst|].
    destruct (Hres k1 Hh) as (k3 & Hc3 & _ & Hs). exists k3. split; [exact Hc3|exact Hs].
  - destruct (Hc _ _ _ _ pair_lock_in holder I) as (s1 & cont1 & E & Hh1 & _ & _ & Hf & _ & Hres1).
    { split; [vm_compute; lia|reflexivity|reflexivity|reflexivity|exists "lk"; reflexivity|split; reflexivity]. }
    destruct (Hres1 s1 I Hh1 Hf) as (s3 & E3 & [_ _ _ _ [n Hl] _] & _). exists s1, cont1, s3.
    split; [exact E|]. split; [exact (proj1 Hf)|]. split; [exact E3|]. exact (f_equal locked Hl).
Defined.

(** The scheduler's CPU between two processes. *)
Definition idle_cpu : cpu := mkCpu 0 0 true true None.
Definition ready : kstate := upd_procs 2 (set_state RUNNABLE) (on_cpu idle_cpu family).
Lemma scheduler_handover_witness :
  exists k1 cont, sched_slot 2 ready = Swtch k1 cont /\ state (proc_at k1 2) = RUNNING.
Proof.
  destruct (scheduler_handover 2 ready) as [H _].
  1: vm_compute; lia.
  1: split; reflexivity.
  1: reflexivity.
  1: unfold cpu_wf; cbn; lia.
  destruct (H eq_refl) as (k1 & cont & Hrun & _ & Hst & _). exists k1, cont. split; [exact Hrun|exact Hst].
Defined.

Lemma proc_exit_correct_witness :
  exists k1 cont, proc_exit 7 (on_cpu (cpu_on 1 2) family) = Swtch k1 cont /\
    state (proc_at k1 2) = ZOMBIE /\ exit_state (proc_at k1 2) = 7.
Proof.
  destruct (proc_exit_correct 2 1 (on_cpu (cpu_on 1 2) family) 7) as (k1 & cont & Hrun & _ & H1 & H2 & _).
  - split_and!; [vm_compute; lia|reflexivity|reflexivity|unfold cpu_wf; cbn; lia|split; reflexivity].
  - reflexivity.
  - intros j _. do 64 (destruct j as [|j]; [split; reflexivity|]). split; reflexivity.
  - discriminate.
  - reflexivity.
  - discriminate.
  - vm_compute. lia.
  - exists k1, cont. split; [exact Hrun|]. split; [exact H1|exact H2].
Defined.

(** The value a routine returns. *)
Definition result {S A} (o : outcome S A) : option A :=
  match o with Ret a _ => Some a | _ => None end.

(** The demonstration machine after mmap_init and proc_init. *)
Definition booted : kstate :=
  let k := mkK (set_pcpu idle_cpu demo_pmem) demo_repo (replicate 64 dummy_proc) None 1 (spinlock_init "") in
  match (zoom k_repo mmap_init;;; proc_init) k with Ret _ k => k | _ => k end.
(** Create a process, free it as proc_wait would, and allocate [n] pages. *)
Fixpoint grab (n : nat) : M kstate (list Z) :=
  match n with
  | O => ret []
  | S n => let* p := zoom k_pmem (pmem_alloc false) in let* l := grab n in ret (p :: l)
  end.
Definition reap_and_grab (n : nat) : M kstate (Z * list Z) :=
  let* i := proc_alloc 0x80007000 0 in
  match i with
  | None => panic "no process"
  | Some i =>
      let* p := rd_proc i in
      proc_free i;;; punlock i;;;
      let* l := grab n in ret (tf p, l)
  end.

(** proc_free releases the trapframe page twice: once through p->tf and again
    through the TRAPFRAME mapping that uvm_destroy_pgtbl removes with freeit.  A
    process created on a freshly booted machine with 16 user pages and freed again
    leaves a free list on which its trapframe page follows itself: the allocator
    then hands that page out twice in a row and reports that memory is exhausted,
    the other 12 free pages being lost. *)
Theorem proc_free_double_free :
  result (reap_and_grab 7 booted) =
    Some (0x8041f000, [0x8041e000; 0x8041d000; 0x8041c000; 0x8041f000; 0x8041f000; NULL; NULL]) /\
  allocable (user_region (kpm booted)) = 16.
Proof. split; vm_compute; reflexivity. Qed.

(** proc_pgtbl_init, with seven free pages, returns a user page table in order
    that maps exactly two pages: the trampoline, readable and executable by the
    kernel only, and the process's trapframe, readable and writable by the kernel
    only. *)
Theorem proc_pgtbl_init_maps trampoline trapframe s fl :
  pmem_ok s fl -> 0 <= trampoline < 2 ^ 43 -> 0 <= trapframe < 2 ^ 43 -> 7 <= Z.of_nat (length (fl false)) ->
  exists root s' fl', proc_pgtbl_init trampoline trapframe s = Ret root s' /\ root <> NULL /\
    pmem_ok s' fl' /\ pt_ok (pm s') root (user_region s') (fl' false) /\
    forall va, 0 <= va < VA_MAX -> pte_of (pm s') root va =
      if va / PGSIZE =? TRAMPOLINE / PGSIZE then leaf_pte trampoline RX
      else if va / PGSIZE =? TRAPFRAME / PGSIZE then leaf_pte trapframe RW else 0.
Proof.
  intros Hs Htr Htf Hlen. unfold proc_pgtbl_init.
  destruct (kvm_root "proc_pgtbl_init: failed to allocate page table" s fl 6 Hs ltac:(lia) ltac:(lia))
    as (root & s0 & fl0 & Hrun & K & Hpg). rewrite Hrun. clear Hrun.
  pose proof (rok_begin _ _ _ (pok_regions _ _ Hs false)) as [Hpos _]. cbn in Hpos.
  change (vm_mappages root) with (kvm_map root). kvm_next K 4. kvm_next K 2. mstep.
  destruct K as [Hs' Hpt' Hh' _]. do 3 eexists. split; [reflexivity|].
  split; [destruct Hpg as (_ & ? & _); unfold NULL; lia|]. split; [exact Hs'|]. split; [exact Hpt'|].
  intros va Hva. rewrite Hh' by done. unfold put. change ((PGSIZE - 1) / PGSIZE + 1) with 1. rewrite !Z.mul_1_l.
  change VA_MAX with (2 ^ 38) in *. unfold TRAPFRAME, TRAMPOLINE in *. change VA_MAX with (2 ^ 38) in *.
  change ((2 ^ 38 - PGSIZE) / PGSIZE) with (2 ^ 26 - 1). change ((2 ^ 38 - PGSIZE - PGSIZE) / PGSIZE) with (2 ^ 26 - 2).
  unfold PGSIZE in *. pose proof (Z.div_mod va 4096). pose proof (Z.mod_pos_bound va 4096).
  bcase (va / 4096 =? 2 ^ 26 - 1); [|bcase (va / 4096 =? 2 ^ 26 - 2)].
  - bcase (2 ^ 38 - 4096 - 4096 <=? va); bcase (va <? 2 ^ 38 - 4096 - 4096 + 4096);
      bcase (2 ^ 38 - 4096 <=? va); bcase (va <? 2 ^ 38 - 4096 + 4096); cbn [andb]; try lia.
    f_equal. rewrite Z.div_small by lia. lia.
  - bcase (2 ^ 38 - 4096 - 4096 <=? va); bcase (va <? 2 ^ 38 - 4096 - 4096 + 4096); cbn [andb]; try lia.
    f_equal. rewrite Z.div_small by lia. lia.
  - bcase (2 ^ 38 - 4096 - 4096 <=? va); bcase (va <? 2 ^ 38 - 4096 - 4096 + 4096);
      bcase (2 ^ 38 - 4096 <=? va); bcase (va <? 2 ^ 38 - 4096 + 4096); cbn [andb]; try lia.
Qed.
Lemma proc_pgtbl_init_maps_witness :
  exists root s', proc_pgtbl_init 0x80007000 0x80410000 demo_pmem = Ret root s' /\
    PTE_TO_PA (pte_of (pm s') root TRAPFRAME) = 0x80410000 /\ pte_of (pm s') root 0x1000 = 0.
Proof.
  destruct (proc_pgtbl_init_maps 0x80007000 0x80410000 demo_pmem _ demo_pmem_ok)
    as (root & s' & fl' & Hrun & _ & _ & _ & Hm).
  1-3: first [lia | (vm_compute; congruence)].
  exists root, s'. split; [exact Hrun|]. split.
  - rewrite Hm by (vm_compute; split; congruence). reflexivity.
  - rewrite Hm by (vm_compute; split; congruence). reflexivity.
Defined.
