(* ===== verification/SleepSpec.v ===== *)
(** * Sleeping locks without contention

    What sleeplock_acquire, sleeplock_release and sleeplock_holding do when the
    lock is not contended: the base of the specifications of the buffer and inode
    layers.  A [quiet] kernel state is one in which the running CPU holds no
    process lock and nobody sleeps on a buffer or inode lock. *)

From S2P Require Import Prelude Machine Str Lock Pmem Kvm KvmSpec Mmap Uvm Proc ProcSpec.

(** The channels of the sleeping locks. *)
Definition lock_chan (ch : chan) : Prop :=
  match ch with ChBufLock _ | ChInodeLock _ => True | _ => False end.

Record quiet (k : kstate) : Prop := {
  q_wf : cpu_wf (kcpu k);
  q_sync : synced (kcpu k) = kcpu k;
  q_len : length (procs k) = Z.to_nat NPROC;
  q_free : forall i, lk_free (plk (proc_at k i));
  q_wait : forall i ch, state (proc_at k i) = SLEEPING -> sleep_space (proc_at k i) = Some ch -> ~ lock_chan ch;
}.

(** The pid a sleeping lock records for the running CPU. *)
Definition me_pid (k : kstate) : Z :=
  match cproc (kcpu k) with Some i => pid (proc_at k i) | None => -1 end.

Lemma set_kcpu_kcpu c k : kcpu (set_kcpu c k) = c.
Proof. done. Qed.
Lemma set_kcpu_id k : set_kcpu (kcpu k) k = k.
Proof. destruct k as [[] ? ? ? ? ?]. done. Qed.
Lemma quiet_pushed k : quiet k -> quiet (set_kcpu (pushed (kcpu k)) k).
Proof. intros []. split; try done; [by apply pushed_wf|by apply synced_pushed]. Qed.

#[local] Arguments Nat.ltb : simpl never.
(** A wakeup nobody waits for. *)
Lemma wakeup_none ch k : cpu_wf (kcpu k) -> synced (kcpu k) = kcpu k -> length (procs k) = Z.to_nat NPROC ->
  (forall i, lk_free (plk (proc_at k i))) ->
  (forall i, state (proc_at k i) = SLEEPING -> sleep_space (proc_at k i) <> Some ch) ->
  proc_wakeup ch k = Ret tt k.
Proof.
  intros Hwf Hs Hlen Hfree Hwait.
  destruct (proc_wakeup_run ch k) as (c & -> & Hc); [by split|done|].
  assert (c = kcpu k) as -> by (by destruct Hc as [->| ->]). rewrite set_kcpu_id. f_equal.
  assert (woken (cproc (kcpu k)) ch (Z.to_nat NPROC) k = procs k) as ->; [|by destruct k].
  unfold woken. apply list_eq. intros i. rewrite list_lookup_imap. destruct (procs k !! i) as [p|] eqn:Hp; [|done].
  cbn. f_equal. destruct (Nat.ltb i (Z.to_nat NPROC)); [|done]. unfold wake.
  assert (proc_at k i = p) as Hat by (unfold proc_at; by rewrite Hp).
  destruct (bool_decide (state p = SLEEPING)) eqn:E1; [|by rewrite andb_false_r].
  destruct (bool_decide (sleep_space p = Some ch)) eqn:E2; [|by rewrite !andb_false_r].
  apply bool_decide_eq_true in E1, E2. exfalso. eapply (Hwait i); rewrite Hat; done.
Qed.
Lemma wakeup_quiet ch k : quiet k -> lock_chan ch -> proc_wakeup ch k = Ret tt k.
Proof.
  intros [Hwf Hs Hlen Hfree Hwait] Hch. apply wakeup_none; try done.
  intros i Hst Hsp. by eapply Hwait.
Qed.

(** ** The sleeping lock *)

(** Free: as sleeplock_init and sleeplock_release leave it; held by the process [n]. *)
Definition sl_free (l : sleeplock) : Prop := slocked l = false /\ lk_free (slk l) /\ spid l = 0.
Definition sl_taken (n : Z) (l : sleeplock) : sleeplock := mkSleep true (slk l) (sname l) n.
Definition sl_held (n : Z) (l : sleeplock) : Prop := slocked l = true /\ lk_free (slk l) /\ spid l = n.
Definition sl_given (l : sleeplock) : sleeplock := mkSleep false (slk l) (sname l) 0.

Lemma sl_given_free n l : sl_held n l -> sl_free (sl_given l).
Proof. intros (? & ? & ?). done. Qed.
Lemma sl_taken_held n l : sl_free l -> sl_held n (sl_taken n l).
Proof. intros (? & ? & ?). done. Qed.

Section lock_in.
Context {S : Type} {kl : lens S kstate} {sl : lens S sleeplock} {P : S -> Prop} {L : LockIn kl sl P}.
#[local] Notation at_kl := (ProcSpec.at_kl (kl := kl) (sl := sl)).

Lemma spin_acquire_run k l s : P s -> lk_free (slk l) ->
  zoom (sl_spin kl sl) spinlock_acquire (at_kl k l s) =
  Ret tt (at_kl (set_kcpu (pushed (kcpu k)) k) (mkSleep (slocked l) (lk_held (kcpu k) (slk l)) (sname l) (spid l)) s).
Proof.
  intros HP Hl.
  erewrite zoom_run; [|cbn [lget sl_spin cond_lens sl_slk]; rewrite at_kl_k, at_kl_l by done; by apply spinlock_acquire_run].
  cbn [lset lget sl_spin cond_lens sl_slk fst snd]. rewrite at_kl_k, at_kl_setk, at_kl_l, at_kl_setl by done. done.
Qed.
Lemma spin_release_run k b l n s : P s -> lk_free (slk l) -> cpu_wf (kcpu k) -> synced (kcpu k) = kcpu k ->
  zoom (sl_spin kl sl) spinlock_release
    (at_kl (set_kcpu (pushed (kcpu k)) k) (mkSleep b (lk_held (kcpu k) (slk l)) (sname l) n) s) =
  Ret tt (at_kl k (mkSleep b (slk l) (sname l) n) s).
Proof.
  intros HP Hl Hw Hs.
  erewrite zoom_run; [|cbn [lget sl_spin cond_lens sl_slk]; rewrite at_kl_k, at_kl_l by done; by apply spinlock_release_run].
  cbn [lset lget sl_spin cond_lens sl_slk fst snd]. rewrite at_kl_k, at_kl_setk, at_kl_l, at_kl_setl by done. cbn.
  f_equal. f_equal. rewrite Hs. apply (set_kcpu_id k).
Qed.

Lemma zoom_myproc k l s : zoom kl myproc_opt (at_kl k l s) = Ret (cproc (kcpu k)) (at_kl k l s).
Proof. erewrite zoom_run by reflexivity. by rewrite at_kl_k, at_kl_setk. Qed.
Lemma zoom_rd_proc i k l s : zoom kl (rd_proc i) (at_kl k l s) = Ret (proc_at k i) (at_kl k l s).
Proof. erewrite zoom_run by reflexivity. by rewrite at_kl_k, at_kl_setk. Qed.

Lemma sleeplock_acquire_run ch fuel s : P s -> quiet (lget kl s) -> sl_free (lget sl s) -> (0 < fuel)%nat ->
  sleeplock_acquire kl sl ch fuel s = Ret tt (lset sl (sl_taken (me_pid (lget kl s)) (lget sl s)) s).
Proof.
  intros HP Q (Hf & Hlk & _) Hfuel. destruct fuel as [|fuel]; [lia|].
  rewrite <- (at_kl_id s) at 1 by done. set (k := lget kl s) in *. set (l := lget sl s) in *.
  unfold sleeplock_acquire. mrun (spin_acquire_run k l s HP Hlk). mrun (zoom_myproc _ _ _).
  cbn [sl_wait]. mstep. rewrite at_kl_l by done. cbn [slocked]. rewrite Hf. mstep.
  assert (forall n, (modify (fun s => let l := lget sl s in lset sl (mkSleep true (slk l) (sname l) n) s);;;
     zoom (sl_spin kl sl) spinlock_release)
     (at_kl (set_kcpu (pushed (kcpu k)) k) (mkSleep false (lk_held (kcpu k) (slk l)) (sname l) (spid l)) s) =
     Ret tt (lset sl (sl_taken n l) s)) as Hend.
  { intros n. mstep. rewrite at_kl_l, at_kl_setl by done. cbn [slk sname].
    rewrite (spin_release_run k true l n s) by (done || apply Q).
    unfold at_kl, k. by rewrite li_kid. }
  rewrite set_kcpu_kcpu, pushed_cproc. unfold me_pid. destruct (cproc (kcpu k)) as [i|].
  - mstep. mrun (zoom_rd_proc _ _ _ _). apply Hend.
  - mstep. apply Hend.
Qed.

Lemma sleeplock_release_run ch s n : P s -> quiet (lget kl s) -> sl_held n (lget sl s) -> lock_chan ch ->
  sleeplock_release kl sl ch s = Ret tt (lset sl (sl_given (lget sl s)) s).
Proof.
  intros HP Q (Hh & Hlk & _) Hch.
  rewrite <- (at_kl_id s) at 1 by done. set (k := lget kl s) in *. set (l := lget sl s) in *.
  unfold sleeplock_release. mrun (spin_acquire_run k l s HP Hlk). rewrite at_kl_l, at_kl_setl by done. cbn [slk sname].
  assert (zoom kl (proc_wakeup ch) (at_kl (set_kcpu (pushed (kcpu k)) k)
    (mkSleep false (lk_held (kcpu k) (slk l)) (sname l) 0) s) = Ret tt (at_kl (set_kcpu (pushed (kcpu k)) k)
    (mkSleep false (lk_held (kcpu k) (slk l)) (sname l) 0) s)) as Hw.
  { erewrite zoom_run; [by rewrite at_kl_setk|]. rewrite at_kl_k. apply wakeup_quiet; [by apply quiet_pushed|done]. }
  mrun Hw. rewrite (spin_release_run k false l 0 s) by (done || apply Q). unfold at_kl, k. by rewrite li_kid.
Qed.

Lemma sleeplock_holding_run s : P s -> quiet (lget kl s) -> lk_free (slk (lget sl s)) ->
  sleeplock_holding kl sl s = Ret (slocked (lget sl s) && (spid (lget sl s) =? me_pid (lget kl s))) s.
Proof.
  intros HP Q Hlk.
  rewrite <- (at_kl_id s) at 1 by done. set (k := lget kl s) in *. set (l := lget sl s) in *.
  unfold sleeplock_holding. mrun (spin_acquire_run k l s HP Hlk). mrun (zoom_myproc _ _ _).
  rewrite at_kl_l by done. cbn [slocked spid].
  assert (forall b : bool, (zoom (sl_spin kl sl) spinlock_release;;; ret b)
     (at_kl (set_kcpu (pushed (kcpu k)) k) (mkSleep (slocked l) (lk_held (kcpu k) (slk l)) (sname l) (spid l)) s) =
     Ret b s) as Hend.
  { intros b. mrun (spin_release_run k (slocked l) l (spid l) s ltac:(done) ltac:(done) (q_wf _ Q) (q_sync _ Q)).
    f_equal. transitivity (at_kl k l s); [by destruct l|by apply at_kl_id]. }
  rewrite set_kcpu_kcpu, pushed_cproc. unfold me_pid. destruct (cproc (kcpu k)) as [i|].
  - mstep. mrun (zoom_rd_proc _ _ _ _). apply Hend.
  - mstep. apply Hend.
Qed.
End lock_in.
