(* ===== verification/SleepConc.v ===== *)
(** * Sleeping locks under every interleaving

    lib/sleeplock.c with the parts of proc/proc.c it stands on, proc_sleep(),
    proc_wakeup() and the scheduler's hand-over, for any number of processes that
    contend for one sleeping lock.  The spin locks are taken and released in one
    step each; Lock shows that a spin lock has one owner under every interleaving
    of its memory accesses.  Outside of the lock's code the state of a process may
    change in any way under its own lock, as preemption and sleeping elsewhere do.
    The spinning of sleeplock_acquire() before there are processes (p == NULL) is in
    [sleeplock_acquire] of Proc only. *)

From S2P Require Import Prelude Machine Str Lock Pmem Kvm Mmap Uvm Proc.

Module SleepSys.

(** The next access of a process to the lock, its own process lock or the table. *)
Inductive phase : Type :=
| Out             (* does not have the sleeping lock *)
| Acq             (* acquire: spinning on lk->lk *)
| Test            (* acquire: has lk->lk, about to read lk->locked *)
| Take            (* acquire: locked was 0, about to write locked = 1 *)
| TakePid         (* acquire: about to write lk->pid *)
| TakeRel         (* acquire: about to release lk->lk *)
| Own             (* acquire returned *)
| PLock           (* proc_sleep: has lk->lk, spinning on p->lk *)
| RelLk           (* proc_sleep: about to release lk->lk *)
| SetSpace        (* proc_sleep: about to write p->sleep_space *)
| SetState        (* proc_sleep: about to write p->state = SLEEPING *)
| Switching       (* proc_sched: about to switch, p->lk still held *)
| Away            (* switched away; the scheduler has released p->lk *)
| Back            (* switched to again, with p->lk; about to clear p->sleep_space *)
| RelP            (* proc_sleep: about to release p->lk *)
| Rel             (* release: spinning on lk->lk *)
| Clr             (* release: about to write locked = 0 *)
| ClrPid          (* release: about to write lk->pid = 0 *)
| Wake (z : nat)    (* proc_wakeup: at procs[z], spinning on its lock *)
| WakeIn (z : nat)  (* proc_wakeup: has the lock of procs[z], about to look at it *)
| WakeRel (z : nat) (* proc_wakeup: about to release the lock of procs[z] *)
| WakeEnd.        (* release: about to release lk->lk *)

(** lk->lk and the process locks with their owners, lk->locked and lk->pid, and the
    state and sleep_space (is it the lock?) of each process. *)
Record sys : Type := mkSys {
  ph : nat -> phase;
  lk : option nat;
  pl : nat -> option nat;
  locked : bool;
  lpid : Z;
  pst : nat -> proc_state;
  space : nat -> bool;
}.
Notation upd := Conc.upd.
Definition go (i : nat) (p : phase) (s : sys) : sys := mkSys (upd i p (ph s)) (lk s) (pl s) (locked s) (lpid s) (pst s) (space s).
Definition set_lk (o : option nat) (s : sys) : sys := mkSys (ph s) o (pl s) (locked s) (lpid s) (pst s) (space s).
Definition set_pl (j : nat) (o : option nat) (s : sys) : sys := mkSys (ph s) (lk s) (upd j o (pl s)) (locked s) (lpid s) (pst s) (space s).
Definition set_locked (b : bool) (s : sys) : sys := mkSys (ph s) (lk s) (pl s) b (lpid s) (pst s) (space s).
Definition set_lpid (n : Z) (s : sys) : sys := mkSys (ph s) (lk s) (pl s) (locked s) n (pst s) (space s).
Definition set_pst (j : nat) (p : proc_state) (s : sys) : sys := mkSys (ph s) (lk s) (pl s) (locked s) (lpid s) (upd j p (pst s)) (space s).
Definition set_space (j : nat) (b : bool) (s : sys) : sys := mkSys (ph s) (lk s) (pl s) (locked s) (lpid s) (pst s) (upd j b (space s)).

Section sleep_conc.
(** The processes, numbered by their slots, and their process numbers. *)
Context (nproc : nat) (pid : nat -> Z).

Inductive step : sys -> sys -> Prop :=
(* sleeplock_acquire *)
| s_acquire i s : (i < nproc)%nat -> ph s i = Out -> pst s i = RUNNING -> step s (go i Acq s)
| s_acq_lk i s : ph s i = Acq -> lk s = None -> step s (go i Test (set_lk (Some i) s))
| s_test i s : ph s i = Test -> step s (go i (if locked s then PLock else Take) s)
| s_take i s : ph s i = Take -> step s (go i TakePid (set_locked true s))
| s_take_pid i s : ph s i = TakePid -> step s (go i TakeRel (set_lpid (pid i) s))
| s_take_rel i s : ph s i = TakeRel -> step s (go i Own (set_lk None s))
(* proc_sleep *)
| s_plock i s : ph s i = PLock -> pl s i = None -> step s (go i RelLk (set_pl i (Some i) s))
| s_rel_lk i s : ph s i = RelLk -> step s (go i SetSpace (set_lk None s))
| s_set_space i s : ph s i = SetSpace -> step s (go i SetState (set_space i true s))
| s_set_state i s : ph s i = SetState -> step s (go i Switching (set_pst i SLEEPING s))
(* swtch to the scheduler, which releases the lock of the process *)
| s_switch i s : ph s i = Switching -> step s (go i Away (set_pl i None s))
(* the scheduler takes the lock of a RUNNABLE process and switches to it *)
| s_resume i s : ph s i = Away -> pst s i = RUNNABLE -> pl s i = None ->
    step s (go i Back (set_pst i RUNNING (set_pl i (Some i) s)))
| s_back i s : ph s i = Back -> step s (go i RelP (set_space i false s))
| s_rel_p i s : ph s i = RelP -> step s (go i Acq (set_pl i None s))
(* sleeplock_release *)
| s_release i s : ph s i = Own -> pst s i = RUNNING -> step s (go i Rel s)
| s_rel_acq i s : ph s i = Rel -> lk s = None -> step s (go i Clr (set_lk (Some i) s))
| s_clr i s : ph s i = Clr -> step s (go i ClrPid (set_locked false s))
| s_clr_pid i s : ph s i = ClrPid -> step s (go i (Wake 0) (set_lpid 0 s))
(* proc_wakeup *)
| s_wake_end i s : ph s i = Wake nproc -> step s (go i WakeEnd s)
| s_wake_me i s : ph s i = Wake i -> step s (go i (Wake (S i)) s)
| s_wake_lock i z s : ph s i = Wake z -> (z < nproc)%nat -> z <> i -> pl s z = None -> step s (go i (WakeIn z) (set_pl z (Some i) s))
| s_wake_set i z s : ph s i = WakeIn z -> pst s z = SLEEPING -> space s z = true -> step s (go i (WakeRel z) (set_pst z RUNNABLE s))
| s_wake_skip i z s : ph s i = WakeIn z -> pst s z <> SLEEPING \/ space s z = false -> step s (go i (WakeRel z) s)
| s_wake_rel i z s : ph s i = WakeRel z -> step s (go i (Wake (S z)) (set_pl z None s))
| s_wake_done i s : ph s i = WakeEnd -> step s (go i Out (set_lk None s))
(* outside of the lock's code: preempted, asleep on something else, exited, scheduled again, ... *)
| s_elsewhere i st s : ph s i = Out \/ ph s i = Own -> pl s i = None -> step s (set_pst i st s).

(** Every process runs, nobody has the lock. *)
Definition init : sys := mkSys (fun _ => Out) None (fun _ => None) false 0 (fun _ => RUNNING) (fun _ => false).
Inductive reachable : sys -> Prop :=
| r_init : reachable init
| r_step s s' : reachable s -> step s s' -> reachable s'.

(** ** What a phase says *)

(** Has lk->lk; has the sleeping lock; has seen it taken; the slot whose lock it has. *)
Definition has_lk (p : phase) : bool :=
  match p with Test | Take | TakePid | TakeRel | PLock | RelLk | Clr | ClrPid | Wake _ | WakeIn _ | WakeRel _ | WakeEnd => true | _ => false end.
Definition owns (p : phase) : bool := match p with TakePid | TakeRel | Own | Rel | Clr => true | _ => false end.
Definition has_pl (p : phase) (i : nat) : option nat :=
  match p with RelLk | SetSpace | SetState | Switching | Back | RelP => Some i | WakeIn z | WakeRel z => Some z | _ => None end.
(** Where the wakeup of a release still has to look. *)
Definition wakes (p : phase) : option nat :=
  match p with ClrPid => Some O | Wake z | WakeIn z => Some z | WakeRel z => Some (S z) | _ => None end.
(** On the way to sleep or asleep, not to be woken by itself. *)
Definition waiting (s : sys) (j : nat) : Prop :=
  match ph s j with SetSpace | SetState | Switching => True | Away => pst s j = SLEEPING | _ => False end.
(** Between the writes of p->sleep_space. *)
Definition sleeps (p : phase) : bool := match p with SetState | Switching | Away | Back => true | _ => false end.
(** What a phase says about the shared fields. *)
Definition local (s : sys) (i : nat) : Prop :=
  match ph s i with
  | Take => locked s = false
  | PLock | RelLk => locked s = true
  | TakeRel | Own | Rel | Clr => lpid s = pid i
  | ClrPid | WakeEnd => locked s = false
  | Wake z => locked s = false /\ (z <= nproc)%nat
  | WakeIn z | WakeRel z => locked s = false /\ (z < nproc)%nat /\ z <> i
  | _ => True
  end /\ (ph s i <> Out -> (i < nproc)%nat) /\ space s i = sleeps (ph s i) /\
  match ph s i with
  | Out | Own => True
  | Switching => pst s i = SLEEPING
  | Away => pst s i = SLEEPING \/ pst s i = RUNNABLE
  | _ => pst s i = RUNNING
  end.

Record inv (s : sys) : Prop := {
  i_lk : forall i, has_lk (ph s i) = true <-> lk s = Some i;
  i_pl : forall i j, has_pl (ph s i) i = Some j <-> pl s j = Some i;
  i_one : forall i j, owns (ph s i) = true -> owns (ph s j) = true -> i = j;
  i_locked : locked s = true <-> exists i, owns (ph s i) = true;
  i_local : forall i, local s i;
  i_wake : locked s = false -> forall j, waiting s j -> exists i z, wakes (ph s i) = Some z /\ (z <= j)%nat;
}.

Lemma upd_same {A} i (x : A) f j : i = j -> upd i x f j = x.
Proof. intros <-. apply Conc.upd_eq. Qed.
Lemma upd_other {A} i (x : A) f j : i <> j -> upd i x f j = f j.
Proof. intros H. rewrite Conc.upd_at. by case_decide. Qed.

(** One goal for each step, with the facts about the process that makes it. *)
Ltac steps St := destruct St as [i s Hl Hp Hst|i s Hp Hk|i s Hp|i s Hp|i s Hp|i s Hp|i s Hp Hq|i s Hp|i s Hp|i s Hp|i s Hp|i s Hp Hst Hq
  |i s Hp|i s Hp|i s Hp Hst|i s Hp Hk|i s Hp|i s Hp|i s Hp|i s Hp|i z s Hp Hz Hne Hq|i z s Hp Hst Hsp|i z s Hp Hor|i z s Hp|i s Hp|i st s [Hp|Hp] Hq].
(** Look at one place of the updated functions, and close. *)
Ltac look := rewrite ?Conc.upd_at in *; repeat case_decide; subst; cbn in *; try naive_solver congruence.

Lemma lk_step s s' : inv s -> step s s' -> forall k, has_lk (ph s' k) = true <-> lk s' = Some k.
Proof.
  intros [A _ _ _ _ _] St k. steps St; pose proof (A i) as Ai; pose proof (A k) as Ak; rewrite Hp in Ai; cbn in *;
    try (destruct (locked s); cbn in * ); look.
Qed.
Lemma pl_step s s' : inv s -> step s s' -> forall a b, has_pl (ph s' a) a = Some b <-> pl s' b = Some a.
Proof.
  intros [_ B _ _ _ _] St a b. steps St; pose proof (B i i) as Bi; pose proof (B a b) as Bab; pose proof (B i b) as Bib; rewrite Hp in Bi, Bib; cbn in *;
    try pose proof (B i z) as Biz; try rewrite Hp in Biz; cbn in *; try (destruct (locked s); cbn in * ); look.
Qed.
Lemma one_step s s' : inv s -> step s s' -> forall a b, owns (ph s' a) = true -> owns (ph s' b) = true -> a = b.
Proof.
  intros [_ _ C D E _] St a b. steps St; pose proof (C a b) as Cab; pose proof (C i a) as Cia; pose proof (C i b) as Cib; pose proof (E i) as Ei; unfold local in Ei; rewrite Hp in Cia, Cib, Ei; cbn in *;
    try (destruct (locked s) eqn:El; cbn in * ); look.
Qed.
Lemma owner_moves i p f : owns p = owns (f i) -> (exists a, owns (upd i p f a) = true) <-> exists a, owns (f a) = true.
Proof.
  intros H. assert (forall a, owns (upd i p f a) = owns (f a)) as Ha by (intros a; rewrite Conc.upd_at; case_decide; [by subst|done]).
  by setoid_rewrite Ha.
Qed.
Lemma locked_step s s' : inv s -> step s s' -> locked s' = true <-> exists a, owns (ph s' a) = true.
Proof.
  intros [_ _ C D E _] St. steps St; cbn; try exact D; try (rewrite owner_moves; [exact D|rewrite Hp; try destruct (locked s); done]).
  - split; [intros _; exists i; by rewrite upd_same|done].
  - split; [done|]. intros [a Ha]. rewrite Conc.upd_at in Ha. case_decide as E'; [done|]. destruct E'. apply C; [by rewrite Hp|done].
Qed.
(** The others: what they rely on is protected by a lock they have. *)
Lemma local_frame s s' k : ph s' k = ph s k -> space s' k = space s k -> (pst s' k = pst s k \/ ph s k = Away /\ pst s' k = RUNNABLE) ->
  (locked s' = locked s \/ has_lk (ph s k) = false) -> (lpid s' = lpid s \/ owns (ph s k) = false) -> local s k -> local s' k.
Proof.
  unfold local. intros -> -> Hst Hlo Hpi (H1 & H2 & H3 & H4). split; [|split; [exact H2|split; [exact H3|]]].
  - destruct (ph s k); cbn in *; try done; first [destruct Hlo as [->|?]; done | destruct Hpi as [->|?]; done].
  - destruct Hst as [->|[Hk Hst]]; [exact H4|]. rewrite Hk. by right.
Qed.
Lemma lk_other s i k : inv s -> has_lk (ph s i) = true -> i <> k -> has_lk (ph s k) = false.
Proof. intros [A _ _ _ _ _] Hi Hk. apply not_true_is_false. intros Hx. apply A in Hi, Hx. congruence. Qed.
(** The process a wakeup finds asleep has been switched away from. *)
Lemma asleep_away s i k : inv s -> has_pl (ph s i) i = Some k -> k <> i -> pst s k = SLEEPING -> space s k = true -> ph s k = Away.
Proof.
  intros [_ B _ _ E _] Hi Hk Hst Hsp. apply B in Hi. destruct (E k) as (_ & _ & E3 & E4). rewrite Hsp in E3.
  destruct (ph s k) eqn:Ek; cbn in *; try congruence.
  assert (pl s k = Some k) as H by (apply B; by rewrite Ek). congruence.
Qed.
Lemma local_step s s' : inv s -> step s s' -> forall k, local s' k.
Proof.
  intros Hinv St k. pose proof Hinv as [A B C D E _]. pose proof (E k) as Ek. steps St; pose proof (E i) as Ei; unfold local in Ei; rewrite Hp in Ei; destruct Ei as (Ei1 & Ei2 & Ei3 & Ei4);
    destruct (decide (i = k)) as [<-|Hik].
  1,3,5,7,9,11,13,15,17,19,21,23,25,27,29,31,33,35,37,39,41,43,45,47,49,51,53: clear Hinv A B C D E Ek; unfold local; cbn; rewrite ?upd_same by done; rewrite ?Hp; try (destruct (locked s) eqn:El); cbn; intuition (try congruence; try lia).
  1: rewrite upd_other by tauto; assumption.
  all: apply (local_frame s); cbn; rewrite ?upd_other by done; try done; try (by left).
  - right. apply (lk_other s i k); [done|by rewrite Hp|done].
  - right. apply not_true_is_false. intros Ho. apply Hik, C; [by rewrite Hp|done].
  - right. apply (lk_other s i k); [done|by rewrite Hp|done].
  - right. apply not_true_is_false. intros Ho. assert (locked s = true) as H by (apply D; by exists k). congruence.
  - destruct (decide (z = k)) as [->|Hz]; [right|left; by rewrite upd_other]. rewrite upd_same by done. split; [|done].
    apply (asleep_away s i k Hinv); [by rewrite Hp|done..].
Qed.
(** A process that is not waiting yet starts to while the lock is taken. *)
Lemma waiting_step s s' j : inv s -> step s s' -> locked s' = false -> waiting s' j ->
  locked s = false /\ waiting s j \/ exists i, ph s' i = ClrPid.
Proof.
  intros [_ _ _ _ E _] St Hlo Hw. pose proof (E j) as Ej. unfold local in Ej. unfold waiting in *.
  steps St; cbn in *; try (right; exists i; by rewrite upd_same); left; (split; [done|]);
    rewrite ?Conc.upd_at in Hw; repeat case_decide; subst; try rewrite Hp in *; try destruct (locked s); cbn in *; try done;
    try (destruct (ph s j); naive_solver congruence).
Qed.
Lemma waiting_away s i j : inv s -> waiting s j -> has_pl (ph s i) i = Some j -> j <> i -> ph s j = Away /\ pst s j = SLEEPING /\ space s j = true.
Proof.
  intros [_ B _ _ E _] Hw Hi Hne. apply B in Hi. destruct (E j) as (_ & _ & E3 & _). pose proof (B j j) as Bj. unfold waiting in Hw.
  destruct (ph s j); cbn in *; try done; naive_solver congruence.
Qed.
Lemma wakein_other s i z : inv s -> ph s i = WakeIn z -> z <> i.
Proof. intros [_ _ _ _ E _] Hp. destruct (E i) as [H _]. rewrite Hp in H. apply H. Qed.
(** A wakeup passes a slot only when the process there is not waiting any more. *)
Lemma wakes_step s s' a z0 j : inv s -> step s s' -> waiting s j -> waiting s' j -> wakes (ph s a) = Some z0 -> (z0 <= j)%nat ->
  exists z, wakes (ph s' a) = Some z /\ (z <= j)%nat.
Proof.
  intros Hinv St Hw Hw' Ha Hle.
  assert (j < nproc)%nat as Hj. { destruct Hinv as [_ _ _ _ E _]. apply (E j). unfold waiting in Hw. by destruct (ph s j). }
  steps St; cbn in *; try (exists z0; done); (destruct (decide (i = a)) as [<-|Hia]; [|exists z0; rewrite upd_other by done; done]);
    rewrite Hp in Ha; cbn in Ha; try discriminate; injection Ha as <-; rewrite upd_same by done; try lia; eexists; (split; [reflexivity|]); try lia.
  - assert (j <> i); [|lia]. intros ->. unfold waiting in Hw. by rewrite Hp in Hw.
  - assert (j <> z); [|lia]. intros ->. destruct (waiting_away s i z) as (H1 & _); [done|done|by rewrite Hp|by apply (wakein_other s)|].
    unfold waiting in Hw'. cbn in Hw'. rewrite upd_other in Hw' by congruence. rewrite H1, upd_same in Hw' by done. done.
  - assert (j <> z); [|lia]. intros ->. destruct (waiting_away s i z) as (_ & H2 & H3); [done|done|by rewrite Hp|by apply (wakein_other s)|].
    destruct Hor; congruence.
Qed.
Lemma wake_step s s' : inv s -> step s s' -> locked s' = false -> forall j, waiting s' j -> exists i z, wakes (ph s' i) = Some z /\ (z <= j)%nat.
Proof.
  intros Hinv St Hlo j Hw. destruct (waiting_step s s' j Hinv St Hlo Hw) as [[Hl Hw0]|[i Hi]].
  - destruct (i_wake _ Hinv Hl j Hw0) as (i & z & Hi & Hz). exists i. eapply wakes_step; eassumption.
  - exists i, O. rewrite Hi. split; [done|lia].
Qed.

Lemma sleep_inv_init : inv init.
Proof.
  constructor; cbn; try done.
  split; [done|]. by intros [? ?].
Qed.
Lemma sleep_inv_step s s' : inv s -> step s s' -> inv s'.
Proof.
  intros Hi St. constructor; [eapply lk_step|eapply pl_step|eapply one_step|eapply locked_step|eapply local_step|eapply wake_step]; eassumption.
Qed.
Lemma sleep_inv_reachable s : reachable s -> inv s.
Proof. induction 1; [apply sleep_inv_init|eapply sleep_inv_step; eassumption]. Qed.

(** ** Somebody can always go on *)

(** A process in the lock's code makes its next access. *)
Definition moves (s : sys) : Prop := exists s' i, step s s' /\ ph s i <> Out /\ ph s' i <> ph s i.
Lemma moves_go s i p t : ph s i <> Out -> step s t -> ph t = upd i p (ph s) -> p <> ph s i -> moves s.
Proof. intros H St Ht Hp. exists t, i. split_and!; [done|done|]. rewrite Ht. by rewrite upd_same. Qed.
Ltac goes Hp := eapply moves_go; [erewrite Hp; discriminate|solve [econstructor; first [exact Hp|eassumption]]|reflexivity|rewrite Hp; try discriminate; try (injection; lia)].
(** The owner of a process lock is never stopped. *)
Lemma pl_owner_moves s i j : has_pl (ph s i) i = Some j -> moves s.
Proof.
  destruct (ph s i) eqn:Hp; cbn; try discriminate; intros H; try solve [goes Hp].
  - destruct (decide (pst s z = SLEEPING)) as [Hs|Hs]; [destruct (space s z) eqn:Hz|].
    + eapply moves_go; [by rewrite Hp|by apply (s_wake_set i z)|reflexivity|by rewrite Hp].
    + eapply moves_go; [by rewrite Hp|apply (s_wake_skip i z); [done|by right]|reflexivity|by rewrite Hp].
    + eapply moves_go; [by rewrite Hp|apply (s_wake_skip i z); [done|by left]|reflexivity|by rewrite Hp].
Qed.
Lemma pl_free_or_moves s j : inv s -> pl s j = None \/ moves s.
Proof.
  intros [_ B _ _ _ _]. destruct (pl s j) as [i|] eqn:Hj; [right|by left]. apply B in Hj. by eapply pl_owner_moves.
Qed.
(** The owner of lk->lk waits for a process lock at most. *)
Lemma lk_owner_moves s i : inv s -> has_lk (ph s i) = true -> moves s.
Proof.
  intros Hinv. pose proof (i_local _ Hinv i) as [E _]. destruct (ph s i) eqn:Hp; cbn in *; try discriminate; intros _; try solve [goes Hp].
  - destruct (locked s) eqn:Hl; (eapply moves_go; [by rewrite Hp|by apply (s_test i)|cbn; rewrite Hl; reflexivity|by rewrite Hp]).
  - destruct (pl_free_or_moves s i Hinv) as [Hn|Hm]; [goes Hp|exact Hm].
  - destruct (decide (z = nproc)) as [->|Hn]; [goes Hp|]. destruct (decide (z = i)) as [->|Hi]; [goes Hp|].
    destruct (pl_free_or_moves s z Hinv) as [Hf|Hm]; [|exact Hm].
    eapply moves_go; [by rewrite Hp|apply (s_wake_lock i z); [done|lia|done|done]|reflexivity|by rewrite Hp].
  - apply (pl_owner_moves s i z). by rewrite Hp.
Qed.
Lemma lk_free_or_moves s : inv s -> lk s = None \/ moves s.
Proof.
  intros Hinv. destruct (lk s) as [i|] eqn:Hk; [right|by left]. apply (lk_owner_moves s i Hinv). by apply (i_lk _ Hinv).
Qed.
(** The code of the lock stops only while a process that has the lock is outside of it. *)
Lemma inside_moves s i : inv s -> (forall k, ph s k <> Own) -> ph s i <> Out -> moves s.
Proof.
  intros Hinv Hown Hi. pose proof (i_local _ Hinv i) as (_ & _ & _ & E). destruct (has_lk (ph s i)) eqn:Hl; [by apply (lk_owner_moves s i)|].
  destruct (has_pl (ph s i) i) as [j|] eqn:Hj; [by apply (pl_owner_moves s i j)|].
  destruct (lk_free_or_moves s Hinv) as [Hk|Hm]; [|exact Hm].
  destruct (ph s i) eqn:Hp; cbn in *; try discriminate; try congruence; try solve [goes Hp].
  destruct E as [E|E].
  - destruct (locked s) eqn:Hlo.
    + apply (i_locked _ Hinv) in Hlo as [a Ha]. destruct (ph s a) eqn:Hpa; cbn in *; try discriminate;
        try (apply (lk_owner_moves s a Hinv); by rewrite Hpa); [by destruct (Hown a)|goes Hpa].
    + destruct (i_wake _ Hinv Hlo i) as (a & z & Ha & _); [unfold waiting; by rewrite Hp|].
      apply (lk_owner_moves s a Hinv). by destruct (ph s a).
  - destruct (pl_free_or_moves s i Hinv) as [Hf|Hm]; [goes Hp|exact Hm].
Qed.
End sleep_conc.

(** C8 Sleeping locks (sleeplock_acquire(), sleeplock_release() with proc_sleep(), proc_wakeup()
    and the scheduler) under every interleaving of any number of processes, each of which may
    also be preempted or sleep elsewhere outside of the lock's code: at most one process has the
    lock, and lk->locked says exactly whether there is one, with its number in lk->pid; no
    wakeup is lost: while the lock is free, every process asleep on it, or on the way there, is
    still ahead of the wakeup loop of a release, so without such a loop nobody sleeps on a free
    lock; and there is no deadlock inside: while no owner is outside, some process in the
    code can make its next access. *)
Theorem sleeplock_safe nproc pid s : reachable nproc pid s ->
  (forall i j, owns (ph s i) = true -> owns (ph s j) = true -> i = j) /\
  (locked s = true <-> exists i, owns (ph s i) = true) /\
  (forall i, ph s i = Own -> lpid s = pid i) /\
  (locked s = false -> forall j, waiting s j -> exists i z, wakes (ph s i) = Some z /\ (z <= j)%nat) /\
  ((forall k, ph s k <> Own) -> (exists i, ph s i <> Out) -> moves nproc pid s).
Proof.
  intros Hr%sleep_inv_reachable. split_and!; [apply (i_one _ _ _ Hr)|apply (i_locked _ _ _ Hr)| |apply (i_wake _ _ _ Hr)|].
  - intros i Hi. destruct (i_local _ _ _ Hr i) as [E _]. by rewrite Hi in E.
  - intros Hown [i Hi]. by apply (inside_moves _ _ s i).
Qed.

(** Process 1 falls asleep on the lock of process 0, which is about to wake it. *)
Definition sleeper : sys :=
  let got := go 0 Own (set_lk None (go 0 TakeRel (set_lpid 10 (go 0 TakePid (set_locked true (go 0 Take (go 0 Test (set_lk (Some 0%nat) (go 0 Acq init))))))))) in
  let asleep := go 1 Away (set_pl 1 None (go 1 Switching (set_pst 1 SLEEPING (go 1 SetState (set_space 1 true
    (go 1 SetSpace (set_lk None (go 1 RelLk (set_pl 1 (Some 1%nat) (go 1 PLock (go 1 Test (set_lk (Some 1%nat) (go 1 Acq got))))))))))))) in
  go 0 (Wake 0) (set_lpid 0 (go 0 ClrPid (set_locked false (go 0 Clr (set_lk (Some 0%nat) (go 0 Rel asleep)))))).
Lemma sleeper_reachable : reachable 2 (fun i => Z.of_nat i + 10) sleeper.
Proof.
  unfold sleeper.
  eapply r_step; [|apply s_clr_pid; reflexivity]. eapply r_step; [|apply s_clr; reflexivity].
  eapply r_step; [|apply s_rel_acq; reflexivity]. eapply r_step; [|apply s_release; reflexivity].
  eapply r_step; [|apply s_switch; reflexivity]. eapply r_step; [|apply s_set_state; reflexivity].
  eapply r_step; [|apply s_set_space; reflexivity]. eapply r_step; [|apply s_rel_lk; reflexivity].
  eapply r_step; [|apply s_plock; reflexivity]. match goal with |- reachable ?n ?q (go ?i _ ?t) => refine (r_step n q t _ _ (s_test n q i t eq_refl)) end.
  eapply r_step; [|apply s_acq_lk; reflexivity]. eapply r_step; [|apply s_acquire; [lia|reflexivity..]].
  eapply r_step; [|apply s_take_rel; reflexivity]. match goal with |- reachable ?n ?q (go ?i _ (set_lpid _ ?t)) => refine (r_step n q t _ _ (s_take_pid n q i t eq_refl)) end.
  eapply r_step; [|apply s_take; reflexivity]. match goal with |- reachable ?n ?q (go ?i _ ?t) => refine (r_step n q t _ _ (s_test n q i t eq_refl)) end.
  eapply r_step; [|apply s_acq_lk; reflexivity]. eapply r_step; [|apply s_acquire; [lia|reflexivity..]]. apply r_init.
Qed.
Lemma sleeplock_safe_witness : waiting sleeper 1 /\ locked sleeper = false /\ (exists i z, wakes (ph sleeper i) = Some z /\ (z <= 1)%nat) /\
  moves 2 (fun i => Z.of_nat i + 10) sleeper.
Proof.
  destruct (sleeplock_safe 2 _ sleeper sleeper_reachable) as (_ & _ & _ & Hw & Hm).
  split; [reflexivity|]. split; [reflexivity|]. split; [apply Hw; reflexivity|]. apply Hm; [|by exists 0%nat].
  intros [|[|k]]; discriminate.
Defined.
End SleepSys.
