(* ===== verification/WaitSpec.v ===== *)
(** * proc_wait

    The scan of the process table for children, on every branch: no child, children
    that all still live, and the first child that has exited. *)

From S2P Require Import Prelude Machine Str Lock Pmem Kvm KvmSpec Mmap Uvm Proc ProcSpec.

Section wait.
Context (exit_state_addr : nat -> Z).

(** What proc_wait looks for. *)
Definition is_kid (p : nat) (k : kstate) (j : nat) : Prop := parent (proc_at k j) = Some p.
Definition is_zombie (p : nat) (k : kstate) (j : nat) : Prop := is_kid p k j /\ state (proc_at k j) = ZOMBIE.
#[global] Instance is_kid_dec p k j : Decision (is_kid p k j) := decide (parent (proc_at k j) = Some p).
(** Process [p] holds its own lock and no other lock of the table is taken. *)
Record waiting_for_kids (p : nat) (k : kstate) : Prop := {
  w_hand : handover p k;
  w_len : length (procs k) = Z.to_nat NPROC;
  w_free : forall j, (j < Z.to_nat NPROC)%nat -> j <> p -> lk_free (plk (proc_at k j));
  w_self : ~ is_kid p k p;
}.
(** Collecting child [i], whose lock is held as well: its status, its memory, its slot. *)
Definition reap (p i : nat) (addr : Z) : M kstate Z :=
  let* pp := rd_proc i in
  let* me := rd_proc p in
  when (negb (addr =? 0))
    (wr_mem (fun m => st32 m (exit_state_addr i) (u32 (exit_state pp)));;;
     zoom k_pmem (uvm_copyout (pgtbl me) addr (exit_state_addr i) 4));;;
  proc_free i;;;
  punlock i;;;
  punlock p;;;
  ret (pid pp).

Lemma locked_child p k i : waiting_for_kids p k -> (i < Z.to_nat NPROC)%nat -> is_kid p k i -> 
  plock i k = Ret tt (locked_state i k) /\ punlock i (locked_state i k) = Ret tt k /\
  state (proc_at (locked_state i k) i) = state (proc_at k i) /\ pid (proc_at (locked_state i k) i) = pid (proc_at k i).
Proof.
  intros [Hh Hlen Hf Hs] Hi Hk. destruct Hh as (Hp & _ & Hn & Hsie & _).
  assert (i <> p) as Hne by (intros ->; by apply Hs). pose proof (Hf i Hi Hne) as Hl. rewrite <- Hlen in Hi.
  split; [by apply plock_run|]. split.
  - pose proof (punlock_run i (fun p => p) k Hi Hl) as H. rewrite !upd_id in H. rewrite H; [|unfold cpu_wf; split; [lia|done]|done].
    unfold synced. rewrite Hn. by destruct k as [[] ? ? ? ? ?].
  - unfold locked_state. rewrite proc_at_upd by done. done.
Qed.

Lemma wait_slot_passes p k i addr h : waiting_for_kids p k -> (i < Z.to_nat NPROC)%nat -> ~ is_zombie p k i ->
  wait_slot exit_state_addr p addr h (Z.of_nat i) k = Ret (bool_decide (is_kid p k i) || h, None) k.
Proof.
  intros Hw Hi Hz. unfold wait_slot, rd_proc. rewrite Nat2Z.id. mstep. unfold is_kid. 
  destruct (bool_decide (parent (proc_at k i) = Some p)) eqn:Hk; [|done]. apply bool_decide_eq_true in Hk.
  destruct (locked_child p k i Hw Hi Hk) as (H1 & H2 & H3 & _). mrun H1. mstep. rewrite H3.
  rewrite bool_decide_eq_false_2 by (intros ?; by apply Hz). mrun H2. done.
Qed.
Lemma wait_slot_reaps p k i addr h : waiting_for_kids p k -> (i < Z.to_nat NPROC)%nat -> is_zombie p k i ->
  wait_slot exit_state_addr p addr h (Z.of_nat i) k = bind (reap p i addr) (fun v => ret (true, Some v)) (locked_state i k).
Proof.
  intros Hw Hi [Hk Hz]. unfold wait_slot, reap, rd_proc. rewrite Nat2Z.id. mstep. rewrite bool_decide_eq_true_2 by done.
  destruct (locked_child p k i Hw Hi Hk) as (H1 & _ & H3 & H4). mrun H1. mstep. rewrite bool_decide_eq_true_2 by congruence. mstep.
  apply bind_ext. intros _ s1. mstep. apply bind_ext. intros _ s2. mstep. apply bind_ext. intros _ s3. mstep. apply bind_ext. intros _ s4. by mstep.
Qed.

Lemma wait_scan_passes p k addr n : waiting_for_kids p k -> forall i h, (i + n <= Z.to_nat NPROC)%nat ->
  (forall j, (i <= j < i + n)%nat -> ~ is_zombie p k j) ->
  wait_scan exit_state_addr n (Z.of_nat i) p addr h k = Ret (existsb (fun j => bool_decide (is_kid p k j)) (seq i n) || h, None) k.
Proof.
  intros Hw. induction n as [|n IH]; intros i h Hn Hz; [done|]. cbn [wait_scan].
  mrun (wait_slot_passes p k i addr h Hw ltac:(lia) (Hz i ltac:(lia))). cbn [fst snd].
  replace (Z.of_nat i + 1) with (Z.of_nat (S i)) by lia. rewrite IH; [|lia|intros j Hj; apply Hz; lia].
  cbn [seq existsb]. do 2 f_equal. by destruct (bool_decide _), (existsb _ _).
Qed.
Lemma wait_scan_reaps p k addr n z : waiting_for_kids p k -> is_zombie p k z -> forall i h, (i + n <= Z.to_nat NPROC)%nat -> (i <= z < i + n)%nat ->
  (forall j, (i <= j < z)%nat -> ~ is_zombie p k j) ->
  wait_scan exit_state_addr n (Z.of_nat i) p addr h k = bind (reap p z addr) (fun v => ret (true, Some v)) (locked_state z k).
Proof.
  intros Hw Hz. induction n as [|n IH]; intros i h Hn Hi Hb; [lia|]. cbn [wait_scan]. destruct (decide (i = z)) as [->|Hne].
  - unfold bind at 1. rewrite (wait_slot_reaps p k z addr h Hw ltac:(lia) Hz). apply (bind_bind_ext (reap p z addr)).
    intros v s. by mstep.
  - mrun (wait_slot_passes p k i addr h Hw ltac:(lia) (Hb i ltac:(lia))). cbn [fst snd].
    replace (Z.of_nat i + 1) with (Z.of_nat (S i)) by lia. apply IH; [lia|lia|intros j Hj; apply Hb; lia].
Qed.

(** The outcome of a round of proc_wait in a state in which the process has its own lock. *)
Definition wait_cases (p : nat) (addr : Z) (fuel : nat) (k : kstate) (o : outcome kstate Z) : Prop :=
  let slot j := (j < Z.to_nat NPROC)%nat in
  ((forall j, slot j -> ~ is_kid p k j) -> o = Ret (-1) (unlocked_state p k)) /\
  ((exists j, slot j /\ is_kid p k j) -> (forall j, slot j -> ~ is_zombie p k j) ->
     exists k1 cont, o = Swtch k1 cont /\ handover p k1 /\ state (proc_at k1 p) = SLEEPING /\ sleep_space (proc_at k1 p) = Some (ChProc p) /\
       (forall j, j <> p -> proc_at k1 j = proc_at k j) /\ length (procs k1) = length (procs k) /\
       forall k2, waiting_for_kids p k2 -> exists k3, cont k2 = wait_loop exit_state_addr fuel p addr k3 /\ waiting_for_kids p k3 /\
         sleep_space (proc_at k3 p) = None /\ forall j, j <> p -> proc_at k3 j = proc_at k2 j) /\
  (forall i, slot i -> is_zombie p k i -> (forall j, (j < i)%nat -> ~ is_zombie p k j) -> o = reap p i addr (locked_state i k)).

Lemma wait_loop_sleeps p addr fuel k : waiting_for_kids p k -> exists k1 cont,
  (let* _ := proc_sleep k_id (ChProc p) None in wait_loop exit_state_addr fuel p addr) k = Swtch k1 cont /\
  handover p k1 /\ state (proc_at k1 p) = SLEEPING /\ sleep_space (proc_at k1 p) = Some (ChProc p) /\
  (forall j, j <> p -> proc_at k1 j = proc_at k j) /\ length (procs k1) = length (procs k) /\
  forall k2, waiting_for_kids p k2 -> exists k3, cont k2 = wait_loop exit_state_addr fuel p addr k3 /\ waiting_for_kids p k3 /\
    sleep_space (proc_at k3 p) = None /\ forall j, j <> p -> proc_at k3 j = proc_at k2 j.
Proof.
  intros [Hh _ _ _]. destruct (proc_sleep_own p k (ChProc p) Hh) as (k1 & cont & Hrun & Hh1 & Hst & Hsp & Ho & Hl & Hres).
  eexists k1, _. split; [by apply obind_Swtch|]. split_and!; try done.
  intros k2 [Hh2 Hl2 Hf2 Hs2]. destruct (Hres k2 Hh2) as (k3 & Hc & Hh3 & Hsp3 & _ & Ho3 & Hl3 & Hp3). exists k3. cbn beta. rewrite Hc.
  split; [done|]. split; [|done]. split; [done|by rewrite Hl3| |unfold is_kid; by rewrite Hp3].
  intros j Hj Hjp. rewrite Ho3 by done. by apply Hf2.
Qed.
Lemma wait_loop_cases p addr fuel k : waiting_for_kids p k -> wait_cases p addr fuel k (wait_loop exit_state_addr (S fuel) p addr k).
Proof.
  intros Hw. pose proof (wait_scan_passes p k addr (Z.to_nat NPROC) Hw 0 false (le_n _)) as Hpass. unfold wait_cases. cbn [wait_loop].
  split_and!.
  - intros Hno. rewrite orb_false_r in Hpass. mrun (Hpass (fun j Hj H => Hno j (proj2 Hj) (proj1 H))). cbn [fst snd].
    destruct (existsb _ _) eqn:E.
    { apply existsb_exists in E as (j & Hj%in_seq & Hk%bool_decide_eq_true). destruct (Hno j); [lia|done]. }
    cbn [negb]. destruct Hw as [(_ & _ & Hn & Hs & n & Hl) _ _ _]. by mrun (punlock_held p k n Hl Hn Hs).
  - intros (i & Hi & Hk) Hno. rewrite orb_false_r in Hpass. mrun (Hpass (fun j Hj => Hno j (proj2 Hj))). cbn [fst snd].
    rewrite (proj2 (existsb_exists _ _)); [|exists i; split; [apply in_seq; lia|by apply bool_decide_eq_true]].
    by apply wait_loop_sleeps.
  - intros i Hi Hz Hb. pose proof (wait_scan_reaps p k addr (Z.to_nat NPROC) i Hw Hz 0 false (le_n _) ltac:(lia) ltac:(intros; apply Hb; lia)) as H.
    change (Z.of_nat 0) with 0 in H. unfold bind at 1. rewrite H. transitivity (bind (reap p i addr) ret (locked_state i k)).
    + apply (bind_bind_ext (reap p i addr)). intros v s. by mstep.
    + apply bind_ret_r.
Qed.

(** Process [p] runs, with every lock of the table free. *)
Record may_wait (p : nat) (k : kstate) : Prop := {
  m_run : running p k;
  m_len : length (procs k) = Z.to_nat NPROC;
  m_free : forall j, (j < Z.to_nat NPROC)%nat -> lk_free (plk (proc_at k j));
  m_self : ~ is_kid p k p;
}.
Lemma may_wait_locked p k : may_wait p k -> waiting_for_kids p (locked_state p k).
Proof.
  intros [Hr Hl Hf Hs]. pose proof (locked_handover p k (fun p => p) Hr) as (Hh & Hat & _); [done|]. rewrite upd_id in Hh, Hat. split; [done| | |].
  - unfold locked_state. cbn. by rewrite length_alter.
  - intros j Hj Hjp. unfold locked_state. rewrite proc_at_upd_ne by done. by apply Hf.
  - unfold is_kid. by rewrite Hat.
Qed.

Lemma proc_wait_round p addr fuel :
  (forall k, may_wait p k -> wait_cases p addr fuel (locked_state p k) (proc_wait exit_state_addr (S fuel) addr k)) /\
  (forall k, waiting_for_kids p k -> wait_cases p addr fuel k (wait_loop exit_state_addr (S fuel) p addr k)).
Proof.
  split; [|apply wait_loop_cases]. intros k Hw. pose proof (may_wait_locked p k Hw) as Hl. destruct Hw as [(Hi & Hp & Hn & Hc & Hlk) _ _ _].
  assert (proc_wait exit_state_addr (S fuel) addr k = wait_loop exit_state_addr (S fuel) p addr (locked_state p k)) as ->.
  { unfold proc_wait, myproc, myproc_opt. mstep. fold (kcpu k). rewrite Hp. mstep. by mrun (plock_run p k Hlk). }
  by apply wait_loop_cases.
Qed.

(** C22 proc_wait() on every branch, in the first round after taking its own lock and in each
    round after a wakeup: without a child it returns -1 with its lock released; with children of
    which none is ZOMBIE it goes to sleep on itself, the lock still held up to the switch and every
    other process untouched, and once resumed it scans again; otherwise it takes the child of the
    lowest slot that is ZOMBIE, locked, and collects it: exit status to the user address (unless
    that is 0), memory and slot freed, both locks released, the number of the child returned. *)
Theorem proc_wait_cases p addr fuel :
  (forall k, may_wait p k -> wait_cases p addr fuel (locked_state p k) (proc_wait exit_state_addr (S fuel) addr k)) /\
  (forall k, waiting_for_kids p k -> wait_cases p addr fuel k (wait_loop exit_state_addr (S fuel) p addr k)).
Proof. apply proc_wait_round. Qed.
Lemma adopt_lock p z q : plk (adopt p z q) = plk q.
Proof. unfold adopt. by case_bool_decide. Qed.
Lemma exited_lock p par k j q : plk (exited p par k j q) = plk q.
Proof. unfold exited, wake_one. case_decide; [destruct (_ && _)|]; apply adopt_lock. Qed.
Lemma exited_kid p par k j q : parent (exited p par k j q) = parent (adopt p (proczero k) q).
Proof. unfold exited, wake_one. case_decide; [by destruct (_ && _)|done]. Qed.
Lemma exited_zombie p par k j q : state (exited p par k j q) = ZOMBIE -> state q = ZOMBIE.
Proof.
  assert (state (adopt p (proczero k) q) = state q) as E by (unfold adopt; by case_bool_decide).
  unfold exited, wake_one. rewrite E. case_decide; [destruct (_ && _)|]; (done || by rewrite E).
Qed.

(** C37 proc_exit loses wakeups.  It wakes its parent before it becomes ZOMBIE, without a lock held
    across the two.  Process [p] exits on one CPU while its parent [par] is RUNNING on another, whose
    record is [cp], and no child of [par] or of [p] is ZOMBIE yet.  In the schedule "[p] runs
    proc_exit up to and including the wakeup; [par] runs proc_wait until it switches away and its
    CPU releases its lock; [p] goes on" the parent ends up SLEEPING on itself with [p] ZOMBIE,
    every other process as the first part of proc_exit left it, and [p] never wakes anybody again:
    nobody is left to wake the parent for it. *)
Theorem proc_exit_lost_wakeup p par k (cp : cpu) v addr fuel :
  running p k -> length (procs k) = Z.to_nat NPROC -> (forall j, (j < Z.to_nat NPROC)%nat -> lk_free (plk (proc_at k j))) ->
  Some p <> proczero k -> parent (proc_at k p) = Some par -> par <> p -> (par < Z.to_nat NPROC)%nat ->
  cproc cp = Some par -> noff cp = 0 -> state (proc_at k par) = RUNNING ->
  parent (proc_at k par) <> Some par -> parent (proc_at k par) <> Some p -> state (proc_at k p) <> ZOMBIE ->
  (forall j, (j < Z.to_nat NPROC)%nat -> is_kid par k j \/ is_kid p k j -> state (proc_at k j) <> ZOMBIE) ->
  exists k1 k2 k3 cont2 cont3,
    exit_notify k = Ret p k1 /\ proc_exit v k = exit_finish p v k1 /\
    proc_wait exit_state_addr (S fuel) addr (set_kcpu cp k1) = Swtch k2 cont2 /\
    exit_finish p v (set_kcpu (kcpu k1) (unlocked_state par k2)) = Swtch k3 cont3 /\
    state (proc_at k3 par) = SLEEPING /\ sleep_space (proc_at k3 par) = Some (ChProc par) /\
    state (proc_at k3 p) = ZOMBIE /\ parent (proc_at k3 p) = Some par /\
    (forall j, j <> p -> j <> par -> proc_at k3 j = proc_at k1 j) /\
    (forall k4, handover p k4 -> cont3 k4 = Panic "proc_exit: zombie exit").
Proof.
  intros Hr Hlen Hfree Hz Hpar Hne Hlt Hcp Hn Hrun Hnk1 Hnk2 Hnz Hkids.
  destruct (exit_notify_run p par k Hr Hlen Hfree Hz Hpar Hne Hlt) as (k1 & E1 & Hr1 & Hlen1 & Hat1).
  pose proof (proj1 Hr) as Hp. rewrite Hlen in Hp.
  set (kp := set_kcpu cp k1). assert (forall j, proc_at kp j = proc_at k1 j) as Hatp by done.
  assert (forall j, (j < Z.to_nat NPROC)%nat -> lk_free (plk (proc_at k1 j))) as Hfree1 by (intros j Hj; rewrite Hat1, exited_lock by done; by apply Hfree).
  assert (may_wait par kp) as Hw.
  { split; [|done|done|].
    - split_and!; [change (procs kp) with (procs k1); rewrite Hlen1; exact Hlt|exact Hcp|exact Hn|split; [cbn; lia|cbn; lia]|by apply Hfree1].
    - unfold is_kid. rewrite Hatp, Hat1, exited_kid by done. unfold adopt. by rewrite bool_decide_eq_false_2. }
  set (kl := locked_state par kp) in *. pose proof (may_wait_locked par kp Hw) as Hwl. fold kl in Hwl.
  assert (forall j, j <> par -> proc_at kl j = proc_at k1 j) as Hatl by (intros j Hj; unfold kl, locked_state; by rewrite proc_at_upd_ne).
  assert (proc_at k1 p = proc_at k p) as Hk1p.
  { rewrite Hat1 by done. unfold exited. rewrite decide_False by done. unfold adopt. rewrite bool_decide_eq_false_2; [done|]. congruence. }
  destruct (proj1 (proc_wait_round par addr fuel) kp Hw) as (_ & Hsl & _). fold kl in Hsl.
  destruct Hsl as (k2 & cont2 & E2 & Hh2 & Hst2 & Hsp2 & Hoth2 & Hlen2 & _).
  - exists p. split; [done|]. unfold is_kid. by rewrite Hatl, Hk1p.
  - intros j Hj [Hk Hzm]. assert (j <> par) as Hjp by (intros ->; by apply (w_self _ _ Hwl)).
    unfold is_kid in Hk. rewrite Hatl, Hat1 in Hk, Hzm by done. apply exited_zombie in Hzm. rewrite exited_kid in Hk.
    revert Hzm. apply Hkids; [done|]. unfold adopt in Hk. unfold is_kid. case_bool_decide; [by right|by left].
  - set (ku := unlocked_state par k2). set (kc := set_kcpu (kcpu k1) ku).
    assert (forall j, j <> par -> proc_at kc j = proc_at k1 j) as Hatc.
    { intros j Hj. change (proc_at kc j) with (proc_at ku j). unfold ku, unlocked_state. rewrite proc_at_upd_ne by done.
      change (proc_at (set_kcpu _ k2) j) with (proc_at k2 j). by rewrite Hoth2, Hatl. }
    assert (running p kc) as Hrc.
    { destruct Hr1 as (R1 & R2 & R3 & R4 & R5). split_and!; [|exact R2|exact R3|exact R4|by rewrite Hatc].
      change (procs kc) with (procs ku). unfold ku, unlocked_state, upd_procs. cbn. rewrite length_alter, Hlen2. unfold kl, locked_state, upd_procs. cbn. rewrite length_alter. by rewrite Hlen1. }
    destruct (exit_finish_run p kc v Hrc) as (k3 & cont3 & E3 & _ & Hz3 & _ & Hp3 & Hoth3 & Hres3).
    exists k1, k2, k3, cont2, cont3. split; [exact E1|]. split; [unfold proc_exit; by mrun E1|]. split; [exact E2|]. split; [exact E3|].
    assert (proc_at k3 par = set_plk (mkLock false (lname (plk (proc_at k2 par))) (-1)) (proc_at k2 par)) as Hpar3.
    { rewrite Hoth3 by done. change (proc_at kc par) with (proc_at ku par). unfold ku, unlocked_state. rewrite proc_at_upd; [done|exact (proj1 Hh2)]. }
    rewrite Hpar3, Hp3, Hatc, Hk1p by done. split_and!; try done.
    intros j Hj Hjp. by rewrite Hoth3, Hatc.
Qed.
End wait.

(** Process 1 of [family] waits for its child 2: first the child lives, then it has exited. *)
Definition bereft : kstate := upd_procs 2 (set_state ZOMBIE) family.
Lemma family_may_wait k : k = family \/ k = bereft -> may_wait 1 k.
Proof.
  intros [->| ->]; (split; [split_and!; [vm_compute; lia|reflexivity|reflexivity|unfold cpu_wf; cbn; lia|split; reflexivity]|reflexivity| |discriminate]);
    intros j _; do 64 (destruct j as [|j]; [split; reflexivity|]); split; reflexivity.
Qed.
Lemma proc_wait_cases_witness :
  (exists k1 cont, proc_wait (fun _ => 0) 1 0 family = Swtch k1 cont /\ state (proc_at k1 1) = SLEEPING) /\
  proc_wait (fun _ => 0) 1 0 bereft = reap (fun _ => 0) 1 2 0 (locked_state 2 (locked_state 1 bereft)) /\
  result (proc_wait (fun _ => 0) 1 0 bereft) = Some 2.
Proof.
  destruct (proc_wait_cases (fun _ => 0) 1 0 0) as [H _]. split; [|split; [|vm_compute; reflexivity]].
  - destruct (H family (family_may_wait _ (or_introl eq_refl))) as (_ & H2 & _). destruct H2 as (k1 & cont & Hr & _ & Hs & _).
    + exists 2%nat. split; [vm_compute; lia|reflexivity].
    + intros j _ [_ Hz]. revert Hz. do 64 (destruct j as [|j]; [discriminate|]). discriminate.
    + exists k1, cont. split; [exact Hr|exact Hs].
  - destruct (H bereft (family_may_wait _ (or_intror eq_refl))) as (_ & _ & H3). apply H3.
    + vm_compute. lia.
    + split; reflexivity.
    + intros j Hj [_ Hz]. revert Hz. do 2 (destruct j as [|j]; [discriminate|]). lia.
Defined.
(** Process 2 of [family] exits on CPU 1 while its parent, process 1, runs on CPU 0. *)
Lemma proc_exit_lost_wakeup_witness : exists k1 k2 k3 cont2 cont3,
  exit_notify (on_cpu (cpu_on 1 2) family) = Ret 2%nat k1 /\
  proc_wait (fun _ => 0) 1 0 (set_kcpu (cpu_on 0 1) k1) = Swtch k2 cont2 /\
  exit_finish 2 7 (set_kcpu (kcpu k1) (unlocked_state 1 k2)) = Swtch k3 cont3 /\
  state (proc_at k3 1) = SLEEPING /\ sleep_space (proc_at k3 1) = Some (ChProc 1) /\ state (proc_at k3 2) = ZOMBIE.
Proof.
  destruct (proc_exit_lost_wakeup (fun _ => 0) 2 1 (on_cpu (cpu_on 1 2) family) (cpu_on 0 1) 7 0 0)
    as (k1 & k2 & k3 & c2 & c3 & E1 & _ & E2 & E3 & Hs & Hc & Hz & _).
  - split_and!; [vm_compute; lia|reflexivity|reflexivity|unfold cpu_wf; cbn; lia|split; reflexivity].
  - reflexivity.
  - intros j _. do 64 (destruct j as [|j]; [split; reflexivity|]). split; reflexivity.
  - discriminate.
  - reflexivity.
  - discriminate.
  - vm_compute; lia.
  - reflexivity.
  - reflexivity.
  - reflexivity.
  - discriminate.
  - discriminate.
  - discriminate.
  - intros j _ _. do 64 (destruct j as [|j]; [discriminate|]). discriminate.
  - exists k1, k2, k3, c2, c3. exact (conj E1 (conj E2 (conj E3 (conj Hs (conj Hc Hz))))).
Defined.
