(* ===== verification/ForkSpec.v ===== *)
(** * Properties of proc_fork()

    The child of a fork: its slot, its address space, its trapframe and its list of
    free mmap regions, against the parent and the memory that was free before. *)

From S2P Require Import Prelude Machine Str Lock Pmem Kvm KvmSpec Mmap Uvm UvmSpec MmapSpec CopySpec Proc ProcSpec SleepSpec.

(** ** The CPU record under the memory routines *)

(** Inside a critical section a routine leaves the CPU record as it found it. *)
Definition calm {A} (m : M pmem A) : Prop :=
  forall s a s', m s = Ret a s' -> 0 < noff (pcpu s) -> cpu_wf (pcpu s) -> pcpu s' = pcpu s.

Lemma bind_Ret {S A B} (m : M S A) (f : A -> M S B) s b s2 : bind m f s = Ret b s2 ->
  exists a s1, m s = Ret a s1 /\ f a s1 = Ret b s2.
Proof. unfold bind. destruct (m s) as [a s1| | | |]; try done. by exists a, s1. Qed.
Lemma calm_ret {A} (a : A) : calm (ret a).
Proof. intros s b s' E _ _. by injection E as _ ->. Qed.
Lemma calm_gets {A} (g : pmem -> A) : calm (gets g).
Proof. intros s b s' E _ _. by injection E as _ ->. Qed.
Lemma calm_pm g : calm (modify (fun s => set_pm (g s) s)).
Proof. intros s b s' E _ _. by injection E as _ <-. Qed.
Lemma calm_panic {A} msg : calm (panic msg : M pmem A).
Proof. by intros s b s' E. Qed.
Lemma calm_bind {A B} (m : M pmem A) (f : A -> M pmem B) : calm m -> (forall a, calm (f a)) -> calm (bind m f).
Proof.
  intros Hm Hf s b s2 (a & s1 & E1 & E2)%bind_Ret Hn Hc. pose proof (Hm _ _ _ E1 Hn Hc) as H1.
  rewrite <- H1. eapply Hf; [exact E2| |]; by rewrite H1.
Qed.
Lemma calm_when b (m : M pmem unit) : calm m -> calm (when b m).
Proof. intros Hm. destruct b; [done|apply calm_ret]. Qed.
Lemma calm_region b f : calm (modify (fun s => set_region b (f s) s)).
Proof. intros s a s' E _ _. injection E as _ <-. by destruct b. Qed.

Lemma acquire_cpu c l c' l' : spinlock_acquire (c, l) = Ret tt (c', l') -> c' = pushed c.
Proof.
  unfold spinlock_acquire. rewrite (bind_run _ _ _ _ _ (zoom_run fst_lens push_off (c, l) tt (pushed c) (push_off_run c))), bind_get.
  cbn. destruct (spinlock_holding _ _); [done|]. destruct (locked l); [done|]. intros E. by injection E as -> _.
Qed.
Lemma release_cpu c l c' l' : spinlock_release (c, l) = Ret tt (c', l') -> sie c = false -> 1 <= noff c -> c' = popped c.
Proof.
  unfold spinlock_release. rewrite bind_get. cbn. destruct (spinlock_holding _ _); [|done]. rewrite bind_modify.
  intros E Hs Hn. cbn in E. unfold zoom in E. cbn in E. rewrite (pop_off_run c Hs Hn) in E. by injection E as -> _.
Qed.
Lemma lock_cpu b s a s' : zoom (region_lock b) spinlock_acquire s = Ret a s' -> pcpu s' = pushed (pcpu s).
Proof.
  unfold zoom. cbn [lget region_lock]. destruct (spinlock_acquire _) as [[] [c l]| | | |] eqn:E; try done.
  intros H. injection H as _ <-. apply acquire_cpu in E as ->. by destruct b.
Qed.
Lemma unlock_cpu b s a s' c : zoom (region_lock b) spinlock_release s = Ret a s' -> cpu_wf c -> 0 < noff c ->
  pcpu s = pushed c -> pcpu s' = c.
Proof.
  unfold zoom. cbn [lget region_lock]. destruct (spinlock_release _) as [[] [c' l]| | | |] eqn:E; try done.
  intros H Hc Hn Hs. injection H as _ <-. rewrite Hs in E. apply release_cpu in E as ->; [|done|cbn; destruct Hc; lia].
  destruct b; cbn; rewrite popped_pushed by done; unfold synced; by bcase (noff c =? 0); [lia|].
Qed.
Lemma calm_alloc b : calm (pmem_alloc b).
Proof.
  intros s a s' (? & s1 & E1 & E)%bind_Ret Hn Hc. apply lock_cpu in E1. rewrite bind_gets in E.
  apply bind_Ret in E as (? & s2 & E2 & E). apply bind_Ret in E as (? & s3 & E3 & E).
  assert (pcpu s2 = pushed (pcpu s)) as H2.
  { rewrite <- E1. eapply calm_when; [|exact E2|..]; [apply calm_region|rewrite E1; cbn; lia|rewrite E1; by apply pushed_wf]. }
  pose proof (unlock_cpu _ _ _ _ _ E3 Hc Hn H2) as H3. rewrite <- H3. eapply (calm_bind _ _ (calm_when _ _ (calm_pm _)) (fun _ => calm_ret _)); [exact E|..]; by rewrite H3.
Qed.

Lemma calm_memmove dst src n : calm (memmove_m dst src n).
Proof. unfold memmove_m. destruct (dst =? NULL); [by intros s a s' E|apply calm_pm]. Qed.
Lemma calm_assert b msg : calm (assert_ b msg).
Proof. destruct b; [apply calm_ret|apply calm_panic]. Qed.
Lemma calm_pages f va e body : (forall x, calm (body x)) -> calm (for_pages f va e body).
Proof.
  intros Hb. revert va. induction f as [|f IH]; intros va; cbn [for_pages]; [by intros s a s' E|].
  destruct (va <? e); [|apply calm_ret]. apply calm_bind; [apply Hb|]. intros _. apply IH.
Qed.

(** [calm_tac] follows the text of a routine down to the calls proved calm. *)
Create HintDb calm.
#[export] Hint Resolve calm_gets calm_pm calm_alloc calm_memmove calm_assert : calm.
#[export] Hint Opaque vm_getpte vm_mappages pmem_alloc memmove_m for_pages bind : calm.
Ltac calm_tac := repeat match goal with
  | |- calm (bind _ _) => apply calm_bind; [|intros ?]
  | |- calm (for_pages _ _ _ _) => apply calm_pages; intros ?
  | |- calm (when _ _) => apply calm_when
  | |- calm (ret _) => apply calm_ret
  | |- calm (panic _) => apply calm_panic
  | |- calm (if ?b then _ else _) => destruct b
  | |- calm (match ?o with Some _ => _ | None => _ end) => destruct o
  | |- calm _ => solve [eauto with calm nocore]
  end.

Lemma calm_getpte_loop n : forall pgtbl va b, calm (getpte_loop n pgtbl va b).
Proof. induction n as [|n IH]; intros pgtbl va b; cbn [getpte_loop]; unfold peek64, poke64, zero_page; calm_tac. Qed.
#[export] Hint Resolve calm_getpte_loop : calm.
Lemma calm_getpte pgtbl va b : calm (vm_getpte pgtbl va b).
Proof. unfold vm_getpte. calm_tac. Qed.
#[export] Hint Resolve calm_getpte : calm.
Lemma calm_mappages_loop f : forall pgtbl cur e pa perm, calm (mappages_loop f pgtbl cur e pa perm).
Proof. induction f as [|f IH]; intros; cbn [mappages_loop]; [by intros s a s' E|]. unfold peek64, poke64. calm_tac. Qed.
#[export] Hint Resolve calm_mappages_loop : calm.
Lemma calm_mappages pgtbl va pa len perm : calm (vm_mappages pgtbl va pa len perm).
Proof. unfold vm_mappages. calm_tac. Qed.
#[export] Hint Resolve calm_mappages : calm.
Lemma calm_copy_pgtbl old new h n : calm (uvm_copy_pgtbl old new h n).
Proof. unfold uvm_copy_pgtbl, copy_range, peek64. calm_tac. Qed.
Lemma calm_pgtbl_init trampoline t : calm (proc_pgtbl_init trampoline t).
Proof. unfold proc_pgtbl_init, zero_page. calm_tac. Qed.

Lemma pcpu_set_pm m s : pcpu (set_pm m s) = pcpu s.
Proof. done. Qed.
(** With a lock taken by [push_off()] on top of [c]. *)
Lemma calm_held {A} (m : M pmem A) s a s' c : calm m -> m s = Ret a s' -> cpu_wf c -> pcpu s = pushed c -> pcpu s' = pushed c.
Proof.
  intros Hm E Hc Hs. rewrite <- Hs. eapply Hm; [exact E|rewrite Hs; cbn; destruct Hc; lia|rewrite Hs; by apply pushed_wf].
Qed.

(** ** Building an address space from free pages *)

Section build.
Context (s0 : pmem) (fl : bool -> list Z) (l0 : list Z) (Hs0 : pmem_ok s0 (fl_set false l0 fl)).

(** A page of the list [l0] that is no longer free. *)
Definition used (l : list Z) (p : Z) : Prop := p ∈ l0 /\ p ∉ l.
(** The table [root], its pages taken from [l0], of which [l] is left; at most [n]
    pages are gone, and no byte outside the pages of [l0] has changed since [s0]. *)
Record building (root n : Z) (s : pmem) (l : list Z) : Prop := {
  bd_ok : pmem_ok s (fl_set false l fl);
  bd_pt : pt_ok (pm s) root (user_region s) l;
  bd_list : exists tk, l0 = tk ++ l;
  bd_left : Z.of_nat (length l0) <= Z.of_nat (length l) + n;
  bd_tables : forall q t, prefix_ok q -> tbl_at (pm s) root q = Some t -> t ∈ l0;
  bd_frame : forall x, (forall p, p ∈ l0 -> ~ p <= x < p + PGSIZE) -> ld8 (pm s) x = ld8 (pm s0) x;
  bd_begin : rbegin (user_region s) = rbegin (user_region s0);
  bd_end : rend (user_region s) = rend (user_region s0);
}.

Lemma base_page p : p ∈ l0 -> p mod PGSIZE = 0 /\ 0 < p < 2 ^ 43.
Proof. intros Hp. destruct (pmem_ok_page _ _ false p Hs0) as (? & ? & _); [by rewrite fl_set_eq|]. done. Qed.
Lemma base_nodup : NoDup l0.
Proof. pose proof (rok_nodup _ _ _ (pok_regions _ _ Hs0 false)) as H. by rewrite fl_set_eq in H. Qed.
Lemma sub_base root n s l p : building root n s l -> p ∈ l -> p ∈ l0.
Proof. intros B Hp. destruct (bd_list _ _ _ _ B) as [tk ->]. apply elem_of_app. by right. Qed.

(** Bytes of a used page that is no table may be changed. *)
Lemma building_fill root n s l p m1 : building root n s l -> used l p ->
  (forall q t, prefix_ok q -> tbl_at (pm s) root q = Some t -> t <> p) -> fills p (pm s) m1 ->
  building root n (set_pm m1 s) l /\ forall va, pte_of m1 root va = pte_of (pm s) root va.
Proof.
  intros B [Hp Hn] Hnt Hf. pose proof B as [H1 H2 H3 H4 H5 H6 H7 H8]. destruct (base_page p Hp) as [Hpm Hpb].
  assert (tables_kept (pm s) m1 root) as K.
  { intros a Ha. apply Hf. intros Hx. by apply (page_not_table _ _ _ _ p a H2 Hpm Hnt Hx). }
  assert (page_in (user_region s) p) as Hpin.
  { destruct (pmem_ok_page _ _ false p Hs0) as (_ & _ & Hi); [by rewrite fl_set_eq|]. unfold page_in in *. cbn in Hi. by rewrite H7, H8. }
  split; [|apply (pte_frame _ _ _ K)]. split; try done.
  - apply pmem_ok_set_pm; [|done]. intros b q Hq. assert (q <> p) as Hqp
      by (intros ->; by apply (page_not_free s _ p H1 Hpin ltac:(by rewrite fl_set_eq) b p Hq)).
    destruct (pmem_ok_page _ _ _ _ H1 Hq) as (Hqm & _).
    apply ld_ext. intros c Hc. apply Hf. pose proof (pages_apart q p Hqm Hpm Hqp). unfold PGSIZE in *. simpl in Hc. lia.
  - split; cbn [pm set_pm user_region]; intros *; [intros Hq Hq'|intros Hq]; rewrite !(tbl_frame _ _ _ K) by done; [by eapply pt_inj|by eapply pt_page].
  - intros q t Hq. cbn. rewrite (tbl_frame _ _ _ K) by done. by apply H5.
  - intros x Hx. cbn. rewrite <- H6 by done. apply Hf. by apply Hx.
Qed.
(** The next page off the list. *)
Lemma building_alloc root n s p l : building root n s (p :: l) ->
  pmem_alloc false s = Ret p (alloc_post false p s) /\ building root (n + 1) (alloc_post false p s) l /\ used l p /\
  (forall q t, prefix_ok q -> tbl_at (pm (alloc_post false p s)) root q = Some t -> t <> p) /\
  forall va, pte_of (pm (alloc_post false p s)) root va = pte_of (pm s) root va.
Proof.
  intros B. pose proof B as [H1 H2 [tk H3] H4 H5 H6 H7 H8].
  assert (fl_set false (p :: l) fl false = p :: l) as Hfl by apply fl_set_eq.
  assert (p ∈ l0) as Hp by (rewrite H3; apply elem_of_app; right; left).
  pose proof base_nodup as Hnd. rewrite H3 in Hnd. apply NoDup_app in Hnd as (_ & _ & [Hn _]%NoDup_cons).
  destruct (alloc_pt root s _ p l H1 Hfl H2) as (A1 & A2 & A3 & A4).
  split; [by eapply pmem_alloc_cons|]. split; [|split; [done|split; [|done]]].
  - split; try done.
    + eapply pmem_ok_ext; [|exact A1]. intros b. apply fl_set_set.
    + exists (tk ++ [p]). by rewrite <- app_assoc.
    + cbn [length] in H4. lia.
    + intros q t Hq. rewrite A3 by done. by apply H5.
    + intros x Hx. rewrite alloc_frame by (by apply Hx). by apply H6.
  - intros q t Hq. rewrite A3 by done. intros Ht ->. destruct (pt_page _ _ _ _ H2 _ _ Hq Ht) as [_ Hx]. apply Hx. left.
Qed.
(** One page mapped; at most two pages become tables. *)
Lemma building_map root n s l va pa perm : building root n s l ->
  0 <= va -> va mod PGSIZE = 0 -> va + PGSIZE <= VA_MAX -> 0 <= pa -> pa + PGSIZE <= 2 ^ 56 -> 0 <= perm < 1024 ->
  n + 2 <= Z.of_nat (length l0) ->
  exists s' l', vm_mappages root va pa PGSIZE perm s = Ret tt s' /\ building root (n + 2) s' l' /\
    (forall va', 0 <= va' < VA_MAX -> pte_of (pm s') root va' = if decide (PG_ROUND_DOWN va' = va) then leaf_pte pa perm else pte_of (pm s) root va') /\
    (forall p, used l p -> (forall q t, prefix_ok q -> tbl_at (pm s) root q = Some t -> t <> p) ->
       used l' p /\ (forall q t, prefix_ok q -> tbl_at (pm s') root q = Some t -> t <> p) /\
       forall x, p <= x < p + PGSIZE -> ld8 (pm s') x = ld8 (pm s) x).
Proof.
  intros B Hva Hm Hmax Hpa Hpa' Hperm Hn. pose proof B as [H1 H2 [tk H3] H4 H5 H6 H7 H8]. destruct (npages_one va Hm) as [Hnp Hreg].
  destruct (vm_mappages_ok root s (fl_set false l fl) va pa PGSIZE perm (Z.of_nat (length l) - 2))
    as (s' & l' & E & S1 & S2 & V & Hx & Hmap); rewrite ?fl_set_eq, ?Hnp, ?Hreg; try done; try lia.
  rewrite Hnp, PG_ROUND_DOWN_aligned in Hmap by done. rewrite fl_set_eq in V. pose proof V as [[tk' V1] _ V3 V4 _ V6 V7 V8].
  assert (forall p, p ∈ l -> p ∈ l0) as Hsub by (intros p; rewrite H3, elem_of_app; by right).
  exists s', l'. split; [exact E|]. split; [|split].
  - split; try done.
    + eapply pmem_ok_ext; [|exact S1]. intros b. apply fl_set_set.
    + exists (tk ++ tk'). by rewrite H3, V1, app_assoc.
    + lia.
    + intros q t Hq Ht. destruct (V7 q t Hq Ht) as [Ho|Ho]; [by eapply H5|by apply Hsub].
    + intros x Hx'. rewrite V8; [by apply H6| |].
      * intros q t Hq Ht. apply Hx'. by eapply H5.
      * intros p Hp _. by apply Hx', Hsub.
    + congruence.
    + congruence.
  - intros va' Hva'. rewrite Hmap by done. rewrite Z.mul_1_l. pose proof (round_in va' va Hm) as Hr.
    destruct (decide (PG_ROUND_DOWN va' = va)) as [Hd|Hd]; bcase (va <=? va'); bcase (va' <? va + PGSIZE); cbn [andb]; try tauto; try lia.
    f_equal. rewrite Z.div_small by lia. lia.
  - intros p [Hp Hpn] Hnt. destruct (base_page p Hp) as [Hpm _].
    assert (forall q t, prefix_ok q -> tbl_at (pm s') root q = Some t -> t <> p) as Hnt'.
    { intros q t Hq Ht ->. destruct (V7 q p Hq Ht) as [Ho|Ho]; [by eapply Hnt|done]. }
    split; [split; [done|]; intros Hx'; apply Hpn; rewrite V1; apply elem_of_app; by right|]. split; [done|].
    intros x Hx'. apply V8.
    + intros q t Hq Ht Hxt. destruct (pt_page _ _ _ _ H2 _ _ Hq Ht) as [(Htm & _) _]. pose proof (pages_apart t p Htm Hpm (Hnt _ _ Hq Ht)). lia.
    + intros t Ht _ Hxt. destruct (base_page t (Hsub t Ht)) as [Htm _]. assert (t <> p) as Hne by (by intros ->). pose proof (pages_apart t p Htm Hpm Hne). lia.
Qed.

Lemma building_root r l (s1 := set_pm (memset (pm (alloc_post false r s0)) r 0 PGSIZE) (alloc_post false r s0)) : l0 = r :: l ->
  pmem_alloc false s0 = Ret r (alloc_post false r s0) /\ building r 1 s1 l /\ (forall va, pte_of (pm s1) r va = 0) /\ r <> 0.
Proof.
  intros Hl. assert (fl_set false l0 fl false = r :: l) as Hfl by (by rewrite fl_set_eq).
  assert (r ∈ l0) as Hr by (rewrite Hl; left). destruct (base_page r Hr) as [Hrm Hrb].
  assert (r ∉ l) as Hn by (pose proof base_nodup as Hnd; rewrite Hl in Hnd; by apply NoDup_cons in Hnd as [? _]).
  destruct (pmem_ok_page _ _ false r Hs0) as (_ & _ & Hpg); [by rewrite fl_set_eq|].
  assert (forall a, r <= a < r + PGSIZE -> ld8 (pm s1) a = 0) as Hz by (intros a Ha; by apply memset_in).
  assert (page_in (user_region s1) r) as Hpg1 by (unfold s1; rewrite alloc_post_user; exact Hpg).
  destruct (pt_ok_fresh (pm s1) r (user_region s1) l Hpg1 Hn Hz) as [Hpt Hpte]. destruct (tbl_zero (pm s1) r Hz) as [_ Hroot].
  split; [by eapply pmem_alloc_cons|]. split; [|split; [done|lia]]. split; try done.
  - apply pmem_ok_set_pm.
    + intros b q Hq. apply ld_ext. intros c Hc. apply memset_out; [done|].
      assert (q mod PGSIZE = 0 /\ q <> r) as [Hqm Hqr].
      { destruct b; [|destruct (base_page q) as [? _]; [rewrite Hl; by right|]; split; [done|by intros ->]].
        split; [by apply (pmem_ok_page _ _ true q Hs0)|]. intros ->. apply (pmem_ok_disjoint _ _ false true r r Hs0); [by rewrite fl_set_eq|done|done|done]. }
      pose proof (pages_apart q r Hqm Hrm Hqr). unfold PGSIZE in *. simpl in Hc. lia.
    + eapply pmem_ok_ext; [|by eapply pmem_alloc_ok]. intros b. apply fl_set_set.
  - exists [r]. exact Hl.
  - rewrite Hl. cbn. lia.
  - intros q t Hq Ht. destruct (Hroot q t Hq Ht) as [_ ->]. exact Hr.
  - intros x Hx. assert (~ r <= x < r + PGSIZE) by (by apply Hx). cbn [pm set_pm s1]. rewrite memset_out by (done || lia). by apply alloc_frame.
Qed.

Lemma top_pages : (0 <= TRAMPOLINE /\ TRAMPOLINE mod PGSIZE = 0 /\ TRAMPOLINE + PGSIZE <= VA_MAX) /\
  (0 <= TRAPFRAME /\ TRAPFRAME mod PGSIZE = 0 /\ TRAPFRAME + PGSIZE <= VA_MAX) /\
  (0 <= TRAPFRAME - PGSIZE /\ (TRAPFRAME - PGSIZE) mod PGSIZE = 0 /\ TRAPFRAME - PGSIZE + PGSIZE <= VA_MAX).
Proof. vm_compute. repeat split; congruence. Qed.
(** proc_pgtbl_init(): the table with the trampoline and the trapframe. *)
Lemma pgtbl_init_run trampoline t : 0 <= trampoline < 2 ^ 43 -> 0 <= t < 2 ^ 43 -> 7 <= Z.of_nat (length l0) ->
  exists root s l, proc_pgtbl_init trampoline t s0 = Ret root s /\ building root 5 s l /\ root <> 0 /\ root ∈ l0 /\
    forall va, 0 <= va < VA_MAX -> pte_of (pm s) root va =
      if decide (PG_ROUND_DOWN va = TRAPFRAME) then leaf_pte t RW
      else if decide (PG_ROUND_DOWN va = TRAMPOLINE) then leaf_pte trampoline RX else 0.
Proof.
  intros Htr Ht Hlen. assert (exists r l, l0 = r :: l) as (r & l & Hl)
    by (clear -Hlen; destruct l0 as [|r l]; [cbn in Hlen; lia|by exists r, l]).
  destruct (building_root r l Hl) as (E & B & Hz & Hr0). unfold proc_pgtbl_init. rewrite (bind_run _ _ _ _ _ E).
  bcase (r =? NULL); [done|]. mstep. unfold zero_page. mstep.
  assert (0 <= RX < 1024 /\ 0 <= RW < 1024) as [HRX HRW] by (vm_compute; repeat split; congruence).
  destruct top_pages as ((A1 & A2 & A3) & (A4 & A5 & A6) & _).
  destruct (building_map r 1 _ l TRAMPOLINE trampoline RX B A1 A2 A3 ltac:(lia) ltac:(unfold PGSIZE; lia) HRX ltac:(lia))
    as (s1 & l1 & E1 & B1 & P1 & _).
  change (vm_mappages r TRAMPOLINE trampoline PGSIZE (Z.lor PTE_R PTE_X)) with (vm_mappages r TRAMPOLINE trampoline PGSIZE RX).
  rewrite (bind_run _ _ _ _ _ E1).
  destruct (building_map r 3 _ l1 TRAPFRAME t RW B1 A4 A5 A6 ltac:(lia) ltac:(unfold PGSIZE; lia) HRW ltac:(lia))
    as (s2 & l2 & E2 & B2 & P2 & _).
  change (vm_mappages r TRAPFRAME t PGSIZE (Z.lor PTE_R PTE_W)) with (vm_mappages r TRAPFRAME t PGSIZE RW).
  rewrite (bind_run _ _ _ _ _ E2). exists r, s2, l2. split; [done|]. split; [done|]. split; [done|]. split; [rewrite Hl; left|].
  intros va Hva. rewrite P2, P1 by done. cbn [pm set_pm] in Hz. by rewrite Hz.
Qed.

(** An address space in use: its tables and pages are not free. *)
Record space_ok (old : Z) : Prop := {
  sp_pt : pt_ok (pm s0) old (user_region s0) l0;
  sp_nonnull : tables_nonnull (pm s0) old;
  sp_leaf : forall va, 0 <= va < VA_MAX -> uvalid (pm s0) old va = true ->
    PTE_TO_PA (pte_of (pm s0) old va) mod PGSIZE = 0 /\ PTE_TO_PA (pte_of (pm s0) old va) ∉ l0;
}.
(** A byte in no page of [l0]. *)
Definition far (x : Z) : Prop := forall p, p ∈ l0 -> ~ p <= x < p + PGSIZE.
Lemma page_far t x : t mod PGSIZE = 0 -> t ∉ l0 -> t <= x < t + PGSIZE -> far x.
Proof.
  intros Ht Hn Hx p Hp Hxp. destruct (base_page p Hp) as [Hpm _]. assert (p <> t) as Hne by (by intros ->).
  pose proof (pages_apart p t Hpm Ht Hne). lia.
Qed.
Lemma old_far old : space_ok old -> (forall x, table_byte (pm s0) old x -> far x) /\
  (forall va, 0 <= va < VA_MAX -> uvalid (pm s0) old va = true -> forall i, 0 <= i < PGSIZE -> far (PTE_TO_PA (pte_of (pm s0) old va) + i)).
Proof.
  intros [P _ L]. split.
  - intros x (q & t & Hq & Ht & Hx). destruct (pt_page _ _ _ _ P _ _ Hq Ht) as [(Htm & _) Hn]. by eapply page_far.
  - intros va Hva Hv i Hi. destruct (L va Hva Hv) as [Hm Hn]. eapply page_far; [exact Hm|exact Hn|lia].
Qed.
Lemma building_old root n s l old : space_ok old -> building root n s l -> tables_kept (pm s0) (pm s) old.
Proof. intros O B x Hx. apply (bd_frame _ _ _ _ B). by apply (proj1 (old_far old O)). Qed.
Lemma building_apart root n s l old : space_ok old -> building root n s l -> source_apart old root s l.
Proof.
  intros O B. pose proof (building_old _ _ _ _ _ O B) as K. destruct (old_far old O) as [F1 F2].
  assert (forall x, far x -> spared root s l x) as Hsp.
  { intros x Hx. split; [|intros p Hp; apply Hx; by apply (sub_base root n s l p B)].
    intros (q & t & Hq & Ht & Hxt). apply (Hx t); [|done]. by apply (bd_tables _ _ _ _ B q t). }
  split.
  - apply (nonnull_kept _ _ _ K), O.
  - intros x Hx. apply Hsp, F1. by apply (table_byte_frame _ _ _ K).
  - intros va Hva Hv i Hi. unfold uvalid in Hv. rewrite (pte_frame _ _ _ K) in *. apply Hsp. by apply F2.
Qed.
(** The copy of [old] is part of the building. *)
Lemma building_copy root n s l old heap_top ustack (L := fork_pages old s heap_top ustack) : space_ok old -> building root n s l ->
  heap_top <= VA_MAX -> 0 <= ustack < 2 ^ 20 ->
  (forall x, PGSIZE <= x < heap_top \/ TRAPFRAME - ustack * PGSIZE <= x < TRAPFRAME -> x mod PGSIZE = 0 -> uvalid (pm s0) old x = true) ->
  n + 3 * Z.of_nat (length L) <= Z.of_nat (length l0) ->
  exists s' l', uvm_copy_pgtbl old root heap_top ustack s = Ret tt s' /\ building root (n + 3 * Z.of_nat (length L)) s' l' /\
    copied old root s l L s' l'.
Proof.
  intros O B Hh Hu Hv Hbud. pose proof B as [H1 H2 [tk H3] H4 H5 H6 H7 H8]. pose proof (building_old _ _ _ _ _ O B) as K.
  destruct (uvm_copy_ok old root s (fl_set false l fl) heap_top ustack) as (s' & E & l' & S1 & S2 & C); rewrite ?fl_set_eq; try assumption.
  - by eapply building_apart.
  - intros x Hx Hm. rewrite (uvalid_kept _ _ _ K). by apply Hv.
  - fold L. lia.
  - rewrite fl_set_eq in C. exists s', l'. split; [exact E|]. split; [|exact C]. pose proof C as [[tk' C1] C2 _ _ _ C6 C7 C8 C9].
    assert (forall p, p ∈ l -> p ∈ l0) as Hsub by (intros p; by apply (sub_base root n s l p B)).
    split; [|exact S2|exists (tk ++ tk'); by rewrite H3, C1, app_assoc| | | |congruence|congruence].
    + eapply pmem_ok_ext; [|exact S1]. intros b. apply fl_set_set.
    + fold L in C2. lia.
    + intros q t Hq Ht. destruct (C7 q t Hq Ht) as [Ho|Ho]; [by eapply H5|by apply Hsub].
    + intros x Hx. rewrite C6; [by apply H6| |intros p Hp; by apply Hx, Hsub].
      intros (q & t & Hq & Ht & Hxt). apply (Hx t); [|done]. by eapply H5.
Qed.
End build.

(** ** A state with one slot of the table open *)

(** The kernel of [k] with slot [np] holding [ch], memory [s], repository [r] and
    next process number [g]. *)
Definition slot (np : nat) (ch : proc) (s : pmem) (r : mrepo) (g : Z) (k : kstate) : kstate :=
  mkK s r (<[np := ch]> (procs k)) (proczero k) g (lk_pid k).

Section slot.
Context (k : kstate) (np : nat) (Hnp : (np < length (procs k))%nat).

Lemma slot_at ch s r g : proc_at (slot np ch s r g k) np = ch.
Proof. unfold proc_at. cbn. by rewrite list_lookup_insert_eq. Qed.
Lemma slot_other ch s r g j : j <> np -> proc_at (slot np ch s r g k) j = proc_at k j.
Proof. intros Hj. unfold proc_at. cbn. by rewrite list_lookup_insert_ne. Qed.
Lemma slot_upd ch s r g f : upd_procs np f (slot np ch s r g k) = slot np (f ch) s r g k.
Proof.
  unfold upd_procs, set_procs, slot. cbn. f_equal. apply list_eq. intros j. destruct (decide (j = np)) as [->|].
  - by rewrite list_lookup_alter_eq, !list_lookup_insert_eq.
  - by rewrite list_lookup_alter_ne, !list_lookup_insert_ne.
Qed.
Lemma slot_rd ch s r g : rd_proc np (slot np ch s r g k) = Ret ch (slot np ch s r g k).
Proof. unfold rd_proc, gets. by rewrite slot_at. Qed.
Lemma slot_wr ch s r g f : wr_proc np f (slot np ch s r g k) = Ret tt (slot np (f ch) s r g k).
Proof. unfold wr_proc, modify. by rewrite slot_upd. Qed.
Lemma slot_mem {A} (m : M pmem A) ch s r g a s' : m s = Ret a s' ->
  zoom k_pmem m (slot np ch s r g k) = Ret a (slot np ch s' r g k).
Proof. intros E. exact (zoom_run k_pmem m (slot np ch s r g k) _ _ E). Qed.
Lemma slot_wr_mem ch s r g f : wr_mem f (slot np ch s r g k) = Ret tt (slot np ch (set_pm (f (pm s)) s) r g k).
Proof. done. Qed.
Lemma slot_tf ch s r g off v : tf ch <> NULL ->
  tf_write np off v (slot np ch s r g k) = Ret tt (slot np ch (set_pm (st64 (pm s) (tf ch + off) v) s) r g k).
Proof. intros Ht. unfold tf_write. rewrite (bind_run _ _ _ _ _ (slot_rd ch s r g)). bcase (tf ch =? NULL); [done|]. apply slot_wr_mem. Qed.
Lemma slot_unlock ch s r g c l : plk ch = lk_held c l -> lk_free l -> cpu_wf c -> pcpu s = pushed c ->
  punlock np (slot np ch s r g k) = Ret tt (slot np (set_plk l ch) (set_pcpu (synced c) s) r g k).
Proof.
  intros Hl Hf Hc Hs. unfold punlock.
  assert (lget (k_plk np) (slot np ch s r g k) = (pushed c, lk_held c l)) as Hg by (cbn [lget k_plk]; rewrite slot_at, Hl; by rewrite <- Hs).
  erewrite zoom_run; [|rewrite Hg; by apply spinlock_release_run]. f_equal. cbn [lset k_plk fst snd].
  change (set_kpm (set_pcpu (synced c) (kpm (slot np ch s r g k))) (slot np ch s r g k)) with (slot np ch (set_pcpu (synced c) s) r g k).
  apply slot_upd.
Qed.
Lemma slot_lock : lk_free (plk (proc_at k np)) -> plock np k =
  Ret tt (slot np (set_plk (lk_held (kcpu k) (plk (proc_at k np))) (proc_at k np)) (set_pcpu (pushed (kcpu k)) (kpm k)) (krepo k) (global_pid k) k).
Proof.
  intros Hl. rewrite (plock_run np k Hl). f_equal. unfold locked_state, upd_procs, set_procs, slot. cbn. f_equal. apply list_eq. intros j.
  destruct (decide (j = np)) as [->|]; [|by rewrite list_lookup_alter_ne, list_lookup_insert_ne].
  rewrite list_lookup_alter_eq, list_lookup_insert_eq by done. unfold proc_at. by destruct (lookup_lt_is_Some_2 _ _ Hnp) as [p ->].
Qed.
End slot.

(** ** proc_alloc() *)

Lemma pushed_synced c : pushed (synced c) = pushed c.
Proof. destruct c as [i n o b p]. unfold synced, pushed. cbn. by destruct (n =? 0) eqn:E; cbn; rewrite ?E. Qed.
Lemma synced_cpu_id c : cpu_id (synced c) = cpu_id c.
Proof. unfold synced. by destruct (noff c =? 0). Qed.

(** The process locks are free, and [np] is the first unused slot. *)
Record table_ok (k : kstate) (np : nat) : Prop := {
  to_len : length (procs k) = Z.to_nat NPROC;
  to_locks : forall i, (i < Z.to_nat NPROC)%nat -> lk_free (plk (proc_at k i));
  to_np : (np < Z.to_nat NPROC)%nat;
  to_unused : state (proc_at k np) = UNUSED;
  to_before : forall i, (i < np)%nat -> state (proc_at k i) <> UNUSED;
}.
(** A slot that is visited and passed over. *)
Lemma pass_slot i k : (i < length (procs k))%nat -> lk_free (plk (proc_at k i)) -> cpu_wf (kcpu k) -> state (proc_at k i) <> UNUSED ->
  (plock i;;; let* p := rd_proc i in if bool_decide (state p = UNUSED) then ret (Some i) else punlock i;;; ret None) k =
  Ret None (set_kcpu (synced (kcpu k)) k).
Proof.
  intros Hi Hl Hc Hs. rewrite (bind_run _ _ _ _ _ (slot_lock k i Hi Hl)), (bind_run _ _ _ _ _ (slot_rd k i Hi _ _ _ _)).
  rewrite bool_decide_eq_false_2 by done. rewrite (bind_run _ _ _ _ _ (slot_unlock k i Hi (set_plk (lk_held (kcpu k) (plk (proc_at k i))) (proc_at k i)) (set_pcpu (pushed (kcpu k)) (kpm k)) _ _ (kcpu k) _ eq_refl Hl Hc eq_refl)).
  unfold ret. f_equal. unfold slot, set_kcpu, set_kpm. cbn. rewrite set_plk_set_plk, set_plk_id. f_equal.
  apply list_insert_id. unfold proc_at. by destruct (lookup_lt_is_Some_2 _ _ Hi) as [p ->].
Qed.
Lemma find_unused_run k np : table_ok k np -> cpu_wf (kcpu k) ->
  find_unused k = Ret (Some np) (slot np (set_plk (lk_held (kcpu k) (plk (proc_at k np))) (proc_at k np))
    (set_pcpu (pushed (kcpu k)) (kpm k)) (krepo k) (global_pid k) k).
Proof.
  intros [Hlen Hl Hnp Hu Hb] Hc. unfold find_unused.
  match goal with |- for_exit _ _ _ ?f _ = Ret _ ?r => set (body := f); set (res := r) end.
  assert (forall d j c, (j + d = np)%nat -> cpu_wf c -> pushed c = pushed (kcpu k) -> cpu_id c = cpu_id (kcpu k) ->
    for_exit (Z.to_nat NPROC - j) (Z.of_nat j) 1 body (set_kcpu c k) = Ret (Some np) res) as H.
  { induction d as [|d IH]; intros j c Hj Hcw Hp Hid.
    - assert (Z.to_nat NPROC - j = S (Z.to_nat NPROC - j - 1))%nat as -> by lia. cbn [for_exit].
      assert (body (Z.of_nat j) (set_kcpu c k) = Ret (Some np) res) as E; [|by rewrite (bind_run _ _ _ _ _ E)].
      unfold body. cbn zeta. rewrite Nat2Z.id. replace j with np by lia.
      assert (np < length (procs (set_kcpu c k)))%nat as Hn' by (cbn; lia).
      rewrite (bind_run _ _ _ _ _ (slot_lock (set_kcpu c k) np Hn' (Hl np Hnp))), (bind_run _ _ _ _ _ (slot_rd (set_kcpu c k) np Hn' _ _ _ _)).
      rewrite bool_decide_eq_true_2 by exact Hu. unfold res, ret, slot, lk_held. cbn. by rewrite Hp, Hid.
    - assert (Z.to_nat NPROC - j = S (Z.to_nat NPROC - S j))%nat as -> by lia. cbn [for_exit].
      assert (body (Z.of_nat j) (set_kcpu c k) = Ret None (set_kcpu (synced c) k)) as E.
      { unfold body. cbn zeta. rewrite Nat2Z.id. apply (pass_slot j (set_kcpu c k)); [cbn; lia|apply Hl; lia|done|apply Hb; lia]. }
      rewrite (bind_run _ _ _ _ _ E). replace (Z.of_nat j + 1) with (Z.of_nat (S j)) by lia.
      apply IH; [lia|by apply synced_wf|by rewrite pushed_synced|by rewrite synced_cpu_id]. }
  specialize (H np O (kcpu k) ltac:(lia) Hc eq_refl eq_refl). rewrite set_kcpu_id, Nat.sub_0_r in H. exact H.
Qed.
Lemma slot_pid k np ch s r g c : lk_free (lk_pid k) -> pcpu s = pushed c -> cpu_wf c -> 0 <= g ->
  alloc_pid (slot np ch s r g k) = Ret g (slot np ch s r (i32 (g + 1)) k).
Proof.
  intros Hl Hs Hc Hg. unfold alloc_pid.
  assert (cpu_wf (pcpu s)) as Hw by (rewrite Hs; by apply pushed_wf).
  rewrite (bind_run _ _ _ _ _ (zoom_run k_lk_pid spinlock_acquire (slot np ch s r g k) _ _ (spinlock_acquire_run (pcpu s) (lk_pid k) Hl))).
  cbn [lset k_lk_pid fst snd].
  mstep. cbn [global_pid slot]. bcase (0 <=? g); [|lia]. mstep.
  match goal with |- context [bind (zoom k_lk_pid spinlock_release) _ ?st] => assert (zoom k_lk_pid spinlock_release st = Ret tt (slot np ch s r (i32 (g + 1)) k)) as Er end.
  { erewrite (zoom_run k_lk_pid); [|apply spinlock_release_run; [exact Hw|exact Hl]]. f_equal.
    unfold slot. cbn. f_equal. rewrite Hs, synced_pushed, <- Hs by done. by destruct s. }
  by rewrite (bind_run _ _ _ _ _ Er).
Qed.

(** The trapframe page: taken, zeroed, its frame part zeroed again. *)
Lemma frame_page s fl t l (sA := alloc_post false t s) (sB := set_pm (memset (pm sA) t 0 sizeof_trapframe) sA) :
  pmem_ok s fl -> fl false = t :: l ->
  pmem_ok sB (fl_set false l fl) /\ (forall x, ~ t <= x < t + PGSIZE -> ld8 (pm sB) x = ld8 (pm s) x) /\
  rbegin (user_region sB) = rbegin (user_region s) /\ rend (user_region sB) = rend (user_region s) /\
  pcpu sB = synced (pcpu s) /\ t ∉ l /\ t mod PGSIZE = 0 /\ 0 < t < 2 ^ 43.
Proof.
  intros Hs Hfl. assert (t ∈ fl false) as Ht by (rewrite Hfl; left). destruct (pmem_ok_page _ _ _ _ Hs Ht) as (Htm & Htb & _).
  pose proof (rok_nodup _ _ _ (pok_regions _ _ Hs false)) as Hnd. rewrite Hfl in Hnd. apply NoDup_cons in Hnd as [Hn _].
  pose proof (pmem_alloc_ok false s fl t l Hs Hfl) as HA. fold sA in HA.
  split_and!; try done; try lia; try (by unfold sB, sA; rewrite alloc_post_user).
  - apply pmem_ok_set_pm; [|exact HA]. intros b q Hq. apply ld_ext. intros c Hc. apply memset_out; [done|].
    assert (q <> t) as Hne.
    { intros ->. destruct b; [|by rewrite fl_set_eq in Hq]. apply (pmem_ok_disjoint _ _ false true t t Hs); [done|done|done|done]. }
    destruct (pmem_ok_page _ _ _ _ HA Hq) as (Hqm & _). pose proof (pages_apart q t Hqm Htm Hne). unfold sizeof_trapframe, PGSIZE in *. simpl in Hc. lia.
  - intros x Hx. unfold sB. cbn [pm set_pm]. rewrite memset_out by (unfold sizeof_trapframe, PGSIZE in *; lia). by apply alloc_frame.
Qed.

(** The slot as proc_alloc() leaves it. *)
Definition fresh_slot (fork_return_addr g root t : Z) (p : proc) : proc :=
  mkProc (plk p) g (state p) None 0 None root 0 0 None t (kstack p) (mkCtx fork_return_addr (u64 (kstack p + PGSIZE))) (filelist p) (cwd p).

Section alloc.
Context (trampoline fork_return_addr : Z) (Htr : 0 <= trampoline < 2 ^ 43).
Context (k : kstate) (np : nat) (fl : bool -> list Z) (t : Z) (l1 : list Z).
Context (Htab : table_ok k np) (Hcpu : cpu_wf (kcpu k)) (Hpid : lk_free (lk_pid k)) (Hg : 0 <= global_pid k).
Context (Hpm : pmem_ok (kpm k) fl) (Hfl : fl false = t :: l1) (Hlen : 7 <= Z.of_nat (length l1)).

Definition locked_mem : pmem := set_pcpu (pushed (kcpu k)) (kpm k).
Definition base : pmem :=
  let sA := alloc_post false t locked_mem in set_pm (memset (pm sA) t 0 sizeof_trapframe) sA.
Definition locked_slot : proc := set_plk (lk_held (kcpu k) (plk (proc_at k np))) (proc_at k np).

Lemma base_ok : pmem_ok base (fl_set false l1 fl) /\ (forall x, ~ t <= x < t + PGSIZE -> ld8 (pm base) x = ld8 (pm (kpm k)) x) /\
  rbegin (user_region base) = rbegin (user_region (kpm k)) /\ rend (user_region base) = rend (user_region (kpm k)) /\
  pcpu base = pushed (kcpu k) /\ t ∉ l1 /\ t mod PGSIZE = 0 /\ 0 < t < 2 ^ 43.
Proof.
  destruct (frame_page locked_mem fl t l1 (pmem_pcpu _ _ _ Hpm (pushed_wf _ Hcpu)) Hfl) as (H1 & H2 & H3 & H4 & H5 & H6).
  split; [exact H1|]. split; [exact H2|]. split; [exact H3|]. split; [exact H4|]. split; [|exact H6].
  unfold base. rewrite H5. cbn. by apply synced_pushed.
Qed.
Lemma proc_alloc_run : exists root s l,
  proc_alloc trampoline fork_return_addr k =
    Ret (Some np) (slot np (fresh_slot fork_return_addr (global_pid k) root t locked_slot) s (krepo k) (i32 (global_pid k + 1)) k) /\
  building base fl l1 root 5 s l /\ root <> 0 /\ pcpu s = pushed (kcpu k) /\
  forall va, 0 <= va < VA_MAX -> pte_of (pm s) root va =
    if decide (PG_ROUND_DOWN va = TRAPFRAME) then leaf_pte t RW
    else if decide (PG_ROUND_DOWN va = TRAMPOLINE) then leaf_pte trampoline RX else 0.
Proof.
  destruct base_ok as (B1 & _ & _ & _ & B5 & B6 & B7 & B8). assert (np < length (procs k))%nat as Hnp by (rewrite (to_len _ _ Htab); apply Htab).
  destruct (pgtbl_init_run base fl l1 B1 trampoline t Htr ltac:(lia) Hlen) as (root & s & l & E & B & Hr & _ & P).
  exists root, s, l. split; [|split; [done|split; [done|split; [|done]]]].
  2:{ exact (calm_held _ _ _ _ _ (calm_pgtbl_init _ _) E Hcpu B5). }
  unfold proc_alloc. rewrite (bind_run _ _ _ _ _ (find_unused_run k np Htab Hcpu)). fold locked_slot locked_mem.
  rewrite (bind_run _ _ _ _ _ (slot_pid k np locked_slot locked_mem _ _ (kcpu k) Hpid eq_refl Hcpu Hg)).
  rewrite (bind_run _ _ _ _ _ (slot_wr k np Hnp _ _ _ _ _)).
  assert (pmem_alloc false locked_mem = Ret t (alloc_post false t locked_mem)) as Ea
    by (eapply pmem_alloc_cons; [|exact Hfl]; by apply pmem_pcpu, pushed_wf).
  rewrite (bind_run _ _ _ _ _ (slot_mem k np _ _ _ _ _ _ _ Ea)), (bind_run _ _ _ _ _ (slot_wr k np Hnp _ _ _ _ _)).
  bcase (t =? NULL); [unfold NULL in *; lia|]. rewrite (bind_run _ _ _ _ _ (slot_wr_mem k np _ _ _ _ _)). fold base.
  rewrite (bind_run _ _ _ _ _ (slot_mem k np _ _ _ _ _ _ _ E)), (bind_run _ _ _ _ _ (slot_wr k np Hnp _ _ _ _ _)).
  bcase (root =? NULL); [done|]. rewrite (bind_run _ _ _ _ _ (slot_rd k np Hnp _ _ _ _)).
  do 7 rewrite (bind_run _ _ _ _ _ (slot_wr k np Hnp _ _ _ _ _)). reflexivity.
Qed.
End alloc.

(** ** The list of free regions *)

Section regions.
Context (k : kstate) (np : nat) (Hnp : (np < length (procs k))%nat) (s : pmem) (c : cpu) (Hs : pcpu s = pushed c) (Hc : cpu_wf c) (g : Z).
Notation at_ ch r := (slot np ch s r g k).

Lemma slot_repo {A} (m : M mstate A) ch r a r' : m (pcpu s, r) = Ret a (pcpu s, r') -> zoom k_repo m (at_ ch r) = Ret a (at_ ch r').
Proof.
  intros E. rewrite (zoom_run k_repo m (at_ ch r) _ _ E). f_equal. unfold slot. cbn. f_equal. by destruct s.
Qed.
Lemma slot_node ch r i x : mmap_at r i = Some x -> exists n, zoom k_repo (node (Some i)) (at_ ch r) = Ret n (at_ ch r) /\ Mmap.mmap n = x.
Proof. intros H. destruct (node_read i x (pcpu s) r H) as (n & E & Hn). exists n. split; [by apply slot_repo|done]. Qed.
Lemma slot_node_wr ch r i x f : mmap_at r i = Some x -> zoom k_repo (upd_node (Some i) (upd_mmap f)) (at_ ch r) = Ret tt (at_ ch (rput i (f x) r)).
Proof. intros H. apply slot_repo. by apply node_write. Qed.
Lemma slot_region ch r i fr : repo_ok r (i :: fr) -> exists r', zoom k_repo mmap_region_alloc (at_ ch r) = Ret (Some i) (at_ ch r') /\
  repo_ok r' fr /\ mmap_at r' i = Some (mkMmap 0 0 None) /\ forall j, j <> i -> mmap_at r' j = mmap_at r j.
Proof.
  intros Hr. assert (cpu_wf (pcpu s)) as Hw by (rewrite Hs; by apply pushed_wf).
  destruct (mmap_region_alloc_ok (pcpu s) r i fr Hw Hr) as (r' & E & H). exists r'. split; [|exact H]. apply slot_repo.
  by rewrite E, Hs, synced_pushed by done.
Qed.
(** A node with a new region, in one piece. *)
Lemma slot_fill {B} ch r j a x (f : M kstate B) : mmap_at r j = Some x ->
  (zoom k_repo (upd_node (Some j) (upd_mmap (set_mbegin (fst a))));;;
   zoom k_repo (upd_node (Some j) (upd_mmap (set_mnpages (snd a))));;;
   zoom k_repo (upd_node (Some j) (upd_mmap (set_mnext None)));;; f) (at_ ch r) = f (at_ ch (rput j (mkMmap (fst a) (snd a) None) r)).
Proof.
  intros H. assert (forall y r0 x0, mmap_at r0 j = Some x0 -> mmap_at (rput j y r0) j = Some y) as Hj
    by (intros y r0 x0 H0; by rewrite mmap_at_rput, decide_True, H0).
  rewrite (bind_run _ _ _ _ _ (slot_node_wr ch r j x _ H)).
  rewrite (bind_run _ _ _ _ _ (slot_node_wr ch _ j _ _ (Hj _ _ _ H))), rput_rput.
  by rewrite (bind_run _ _ _ _ _ (slot_node_wr ch _ j _ _ (Hj _ _ _ H))), rput_rput.
Qed.

(** Where the next copied node is linked. *)
Definition link_ok (ch : proc) (r : mrepo) (fr : list nat) (l : list cell) (dst : option nat) : Prop :=
  match dst with
  | None => p_mmap ch = None
  | Some d => d ∉ O :: fr /\ d ∉ l.*1 /\ exists b n, mmap_at r d = Some (mkMmap b n None)
  end.
Definition linked_to (head dst : option nat) (ch : proc) : proc := match dst with None => set_p_mmap head ch | Some _ => ch end.
Definition link (j : nat) (dst : option nat) (r : mrepo) : mrepo :=
  match dst with
  | None => r
  | Some d => match mmap_at r d with Some x => rput d (set_mnext (Some j) x) r | None => r end
  end.
Lemma store_link_run ch r fr l dst j : link_ok ch r fr l dst ->
  store_link np dst (Some j) (at_ ch r) = Ret tt (at_ (linked_to (Some j) dst ch) (link j dst r)).
Proof.
  destruct dst as [d|]; cbn [store_link linked_to link link_ok].
  - intros (_ & _ & b & n & Hd). rewrite Hd. by apply slot_node_wr.
  - intros _. by apply slot_wr.
Qed.
Lemma link_at j dst r i : Some i <> dst -> mmap_at (link j dst r) i = mmap_at r i.
Proof. destruct dst as [d|]; [|done]. intros Hi. cbn. destruct (mmap_at r d); [|done]. rewrite mmap_at_rput, decide_False by congruence. done. Qed.
Lemma link_repo j dst r fr : repo_ok r fr -> repo_ok (link j dst r) fr.
Proof. intros H. destruct dst as [d|]; [|done]. cbn. destruct (mmap_at r d); [by apply repo_rput|done]. Qed.

Lemma copy_mmaps_run l : forall fuel src dst fr r ch,
  (length l < fuel)%nat -> repo_ok r fr -> (length l <= length fr)%nat -> lseg (mmap_at r) src l None -> NoDup (l.*1 ++ O :: fr) ->
  link_ok ch r fr l dst ->
  exists r' cs head, copy_mmaps fuel np src dst (at_ ch r) = Ret None (at_ (linked_to head dst ch) r') /\
    repo_ok r' (drop (length l) fr) /\ cs.*2 = l.*2 /\ cs.*1 = take (length l) fr /\ lseg (mmap_at r') head cs None /\
    (forall d, dst = Some d -> mmap_at r' d = set_mnext head <$> mmap_at r d) /\
    (forall j, j ∉ cs.*1 -> Some j <> dst -> mmap_at r' j = mmap_at r j).
Proof.
  induction l as [|[i a] l IH]; intros fuel src dst fr r ch Hf Hr Hlen Hl Hnd Hlk; destruct fuel as [|fuel]; try (cbn in Hf; lia).
  - cbn in Hl. subst src. exists r, [], None. split_and!; try done; cbn.
    + unfold ret. do 2 f_equal. destruct dst as [d|]; [done|]. cbn in *. destruct ch; cbn in *. by subst.
    + intros d ->. destruct Hlk as (_ & _ & b & n & ->). done.
  - destruct Hl as (-> & nx & Hi & Hl). destruct fr as [|j fr]; [cbn in Hlen; lia|]. cbn [length] in *. cbn [copy_mmaps].
    destruct (slot_region ch r j fr Hr) as (r1 & E1 & Hr1 & Hj1 & Ho1). rewrite (bind_run _ _ _ _ _ E1).
    cbn [fmap list_fmap fst] in Hnd, Hlk. apply NoDup_cons in Hnd as [Hni Hnd]. rewrite elem_of_app, !elem_of_cons in Hni.
    apply NoDup_app in Hnd as (Nl & Nx & [N0 Nf]%NoDup_cons). apply NoDup_cons in Nf as [Nj Nf]. rewrite elem_of_cons in N0.
    assert (i <> j) as Hij by tauto. assert (j ∉ l.*1) as Hjl by (intros Hx; apply (Nx j Hx); right; left).
    assert (Some i <> dst /\ Some j <> dst) as [Hid Hjd].
    { destruct dst as [d|]; [|done]. destruct Hlk as (D1 & D2 & _). rewrite !elem_of_cons in D1. rewrite fmap_cons, elem_of_cons in D2. cbn [fst] in D2. split; intros [= ->]; tauto. }
    destruct (slot_node ch r1 i _ ltac:(rewrite Ho1 by done; exact Hi)) as (n & En & Hn). rewrite (bind_run _ _ _ _ _ En), Hn. cbn [mbegin mnpages].
    set (r2 := rput j (mkMmap (fst a) (snd a) None) r1). set (r3 := link j dst r2).
    rewrite (slot_fill ch r1 j a _ _ Hj1). fold r2.
    assert (forall x, x <> j -> mmap_at r2 x = mmap_at r x) as H2 by (intros x Hx; unfold r2; rewrite mmap_at_rput, decide_False by done; by apply Ho1).
    assert (link_ok ch r2 fr l dst) as Hlk2.
    { destruct dst as [d|]; [|done]. destruct Hlk as (D1 & D2 & D3). rewrite fmap_cons in D2. cbn [link_ok]. rewrite !elem_of_cons in *. split; [tauto|]. split; [tauto|]. by rewrite H2 by congruence. }
    rewrite (bind_run _ _ _ _ _ (store_link_run ch r2 fr l dst j Hlk2)). fold r3.
    assert (forall x, x <> j -> Some x <> dst -> mmap_at r3 x = mmap_at r x) as H3 by (intros x Hx Hxd; unfold r3; rewrite link_at by done; by apply H2).
    destruct (slot_node (linked_to (Some j) dst ch) r3 i _ ltac:(rewrite H3 by done; exact Hi)) as (n' & En' & Hn').
    rewrite (bind_run _ _ _ _ _ En'), Hn'. cbn [mnext].
    assert (mmap_at r3 j = Some (mkMmap (fst a) (snd a) None)) as Hj3 by (unfold r3; rewrite link_at by done; unfold r2; by rewrite mmap_at_rput, decide_True, Hj1).
    destruct (IH fuel nx (Some j) fr r3 (linked_to (Some j) dst ch)) as (r' & cs & head & E & R & C2 & C1 & C3 & C4 & C5); try lia.
    + by apply link_repo, repo_rput.
    + eapply lseg_frame; [|exact Hl]. intros x Hx. apply H3; [by intros ->|].
      intros <-. destruct Hlk as (_ & D2 & _). apply D2. by right.
    + apply NoDup_app. split; [done|]. split; [|apply NoDup_cons; split; [tauto|done]].
      intros x Hx Hx'. apply (Nx x Hx). rewrite !elem_of_cons in *. tauto.
    + split; [rewrite elem_of_cons; intros [->|?]; tauto|]. split; [done|]. by do 2 eexists.
    + exists r', ((j, a) :: cs), (Some j). assert (j ∉ cs.*1) as Hjc by (rewrite C1; intros Hx; by apply Nj, (subseteq_take (length l))).
      split; [exact E|]. split; [done|]. split; [cbn; by rewrite C2|]. split; [cbn; by rewrite C1|]. split; [|split].
      * split; [done|]. exists head. by rewrite (C4 j eq_refl), Hj3.
      * intros d ->. destruct Hlk as (D1 & D2 & b & m & Hd). rewrite !elem_of_cons in *.
        rewrite C5; [|rewrite C1; intros Hx; apply D1; right; right; by apply (subseteq_take (length l))|congruence].
        unfold r3. cbn [link]. assert (mmap_at r2 d = Some (mkMmap b m None)) as -> by (rewrite H2 by tauto; exact Hd).
        rewrite mmap_at_rput, decide_True, H2, Hd by tauto. done.
      * intros x Hx Hxd. cbn in Hx. apply not_elem_of_cons in Hx as [Hxj Hx]. rewrite C5 by (done || congruence). by apply H3.
Qed.
End regions.

(** ** proc_fork() *)

(** The trapframe of the child: the parent's, with five words of its own. *)
Definition child_frame (satp handler : Z) (m : memory) (t src sp : Z) : memory :=
  st64 (st64 (st64 (st64 (memmove m t src sizeof_trapframe) (t + tf_a 0) 0) (t + tf_kernel_sp) sp) (t + tf_kernel_satp) satp)
    (t + tf_kernel_trap) handler.
Lemma child_frame_out satp handler m t src sp : fills t m (child_frame satp handler m t src sp).
Proof.
  intros a Ha. unfold child_frame, tf_a, tf_kernel_sp, tf_kernel_satp, tf_kernel_trap, PGSIZE in *. rewrite !ld8_st_ne by (simpl; lia).
  apply memmove_out; unfold sizeof_trapframe; lia.
Qed.
(** What the child finds in its trapframe. *)
Record frame_ok (satp handler : Z) (m m' : memory) (t src sp : Z) : Prop := {
  fo_regs : forall i, 24 <= i < sizeof_trapframe -> ~ tf_a 0 <= i < tf_a 1 -> ld8 m' (t + i) = ld8 m (src + i);
  fo_a0 : ld64 m' (t + tf_a 0) = 0;
  fo_sp : ld64 m' (t + tf_kernel_sp) = sp;
  fo_satp : ld64 m' (t + tf_kernel_satp) = satp;
  fo_trap : ld64 m' (t + tf_kernel_trap) = handler;
}.
Lemma child_frame_in satp handler m t src sp : 0 <= satp < 2 ^ 64 -> 0 <= handler < 2 ^ 64 -> 0 <= sp < 2 ^ 64 ->
  frame_ok satp handler m (child_frame satp handler m t src sp) t src sp.
Proof.
  intros H1 H2 H3. unfold child_frame. split; unfold tf_a, tf_kernel_sp, tf_kernel_satp, tf_kernel_trap in *.
  - intros i Hi Hn. rewrite !ld8_st_ne by (simpl; lia). rewrite memmove_in by lia. f_equal. lia.
  - rewrite !ld64_st64_ne by lia. apply ld64_st64_eq. lia.
  - rewrite !ld64_st64_ne by lia. by apply ld64_st64_eq.
  - rewrite ld64_st64_ne by lia. by apply ld64_st64_eq.
  - by apply ld64_st64_eq.
Qed.

Lemma frame_from satp handler m1 m m' t src sp : frame_ok satp handler m1 m' t src sp ->
  (forall i, 0 <= i < PGSIZE -> ld8 m1 (src + i) = ld8 m (src + i)) -> frame_ok satp handler m m' t src sp.
Proof.
  intros [F1 F2 F3 F4 F5] H. split; [|exact F2|exact F3|exact F4|exact F5]. intros i Hi Hn. rewrite (F1 i Hi Hn). apply H.
  unfold sizeof_trapframe, PGSIZE in *. lia.
Qed.

Section fork.
Context (trampoline trap_user_handler fork_return_addr r_satp : Z).
Context (k : kstate) (p np : nat) (fl : bool -> list Z) (fr : list nat) (l : list cell).
Notation pp := (proc_at k p).
Notation old := (pgtbl pp).

(** An address of the child that has the parent's flags and byte, at a physical
    address that no address of the parent has. *)
Record child_page (m m' : memory) (old root va : Z) : Prop := {
  ch_flags : PTE_FLAGS (pte_of m' root va) = PTE_FLAGS (pte_of m old va);
  ch_byte : ubyte m' root va = ubyte m old va;
  ch_apart : forall va', 0 <= va' < VA_MAX -> uvalid m old va' = true -> upa m' root va <> upa m' old va';
}.
(** A running parent, an unused slot, and memory and nodes for the child. *)
Record fork_ready : Prop := {
  fk_tramp : 0 <= trampoline < 2 ^ 43;
  fk_regs : 0 <= r_satp < 2 ^ 64 /\ 0 <= trap_user_handler < 2 ^ 64;
  fk_table : table_ok k np;
  fk_cpu : cpu_wf (kcpu k);
  fk_pid : lk_free (lk_pid k);
  fk_gpid : 0 <= global_pid k;
  fk_proc : cproc (kcpu k) = Some p;
  fk_state : state pp <> UNUSED;
  fk_mem : pmem_ok (kpm k) fl;
  fk_space : space_ok (kpm k) (fl false) old;
  fk_frame : tf pp mod PGSIZE = 0 /\ tf pp ∉ fl false;
  fk_ustack : 1 <= ustack_pages pp < 2 ^ 20;
  fk_heap : heap_top pp <= TRAPFRAME - ustack_pages pp * PGSIZE;
  fk_valid : forall x, PGSIZE <= x < heap_top pp \/ TRAPFRAME - ustack_pages pp * PGSIZE <= x < TRAPFRAME ->
    x mod PGSIZE = 0 -> uvalid (pm (kpm k)) old x = true;
  fk_list : mlist_ok (mkVproc (kpm k) (krepo k) (p_mmap pp)) fr l;
  fk_nodes : (length l <= length fr)%nat;
  fk_pages : 9 + 3 * Z.of_nat (length (fork_pages old (kpm k) (heap_top pp) (ustack_pages pp))) <= Z.of_nat (length (fl false));
}.
Context (R : fork_ready).

Lemma parent_ne : p <> np.
Proof. intros E. apply (fk_state R). rewrite E. apply (to_unused _ _ (fk_table R)). Qed.
Lemma first_page : exists t l1, fl false = t :: l1 /\ 8 + 3 * Z.of_nat (length (fork_pages old (kpm k) (heap_top pp) (ustack_pages pp))) <= Z.of_nat (length l1).
Proof. pose proof (fk_pages R) as H. destruct (fl false) as [|t l1]; [cbn in H; lia|]. exists t, l1. split; [done|]. cbn [length] in H. lia. Qed.

Section taken.
Context (t : Z) (l1 : list Z) (Hfl : fl false = t :: l1).
Notation base := (base k t).

Lemma fork_base : pmem_ok base (fl_set false l1 fl) /\ (forall x, ~ t <= x < t + PGSIZE -> ld8 (pm base) x = ld8 (pm (kpm k)) x) /\
  rbegin (user_region base) = rbegin (user_region (kpm k)) /\ rend (user_region base) = rend (user_region (kpm k)) /\
  pcpu base = pushed (kcpu k) /\ t ∉ l1 /\ t mod PGSIZE = 0 /\ 0 < t < 2 ^ 43.
Proof. apply base_ok; [apply R|apply R|done]. Qed.
(** The parent is out of reach of all that is written. *)
Lemma parent_kept : tables_kept (pm (kpm k)) (pm base) old.
Proof.
  destruct fork_base as (_ & F & _ & _ & _ & _ & Htm & _). intros x (q & a & Hq & Ha & Hx). apply F. intros Hxt.
  destruct (pt_page _ _ _ _ (sp_pt _ _ _ (fk_space R)) _ _ Hq Ha) as [(Ham & _) Hn].
  assert (a <> t) as Hne by (intros ->; apply Hn; rewrite Hfl; left). pose proof (pages_apart a t Ham Htm Hne). lia.
Qed.
Lemma parent_space : space_ok base l1 old.
Proof.
  destruct fork_base as (_ & _ & Hb & He & _). pose proof parent_kept as K. pose proof (fk_space R) as [P N L].
  assert (forall x, x ∉ fl false -> x ∉ l1) as Hsub by (intros x Hx Hx'; apply Hx; rewrite Hfl; by right). split.
  - split; intros *; [intros Hq Hq'|intros Hq]; rewrite !(tbl_frame _ _ _ K) by done; [by apply (pt_inj _ _ _ _ P)|].
    intros Ht. destruct (pt_page _ _ _ _ P _ _ Hq Ht) as [Hi Hn]. split; [unfold page_in in *; by rewrite Hb, He|by apply Hsub].
  - by apply (nonnull_kept _ _ _ K).
  - intros va Hva Hv. unfold uvalid in Hv. rewrite (pte_frame _ _ _ K) in *. destruct (L va Hva Hv) as [Hm Hn]. split; [done|by apply Hsub].
Qed.
Lemma fork_pages_kept s h u : tables_kept (pm (kpm k)) (pm s) old -> fork_pages old s h u = fork_pages old (kpm k) h u.
Proof.
  intros K. unfold fork_pages. f_equal. apply list_filter_iff. intros x. by rewrite (uvalid_kept _ _ _ K).
Qed.
Notation pages := (fork_pages old (kpm k) (heap_top pp) (ustack_pages pp)).
Lemma stack_top : forall va, PG_ROUND_DOWN va = TRAPFRAME - PGSIZE -> forked old (kpm k) (heap_top pp) (ustack_pages pp) va.
Proof. intros va E. right. left. rewrite E. pose proof (fk_ustack R). unfold PGSIZE. lia. Qed.

Lemma forked_valid va : forked old (kpm k) (heap_top pp) (ustack_pages pp) va -> uvalid (pm (kpm k)) old va = true.
Proof.
  intros Hf. assert (PG_ROUND_DOWN va mod PGSIZE = 0) as Hm by (rewrite PG_ROUND_DOWN_eq; by apply Z.mod_mul).
  unfold uvalid. rewrite <- pte_round. destruct Hf as [H|[H|[_ H]]]; [apply (fk_valid R); [by left|exact Hm]|apply (fk_valid R); [by right|exact Hm]|].
  by rewrite pte_round.
Qed.

(** The memory routines of proc_fork(), one after the other. *)
Lemma fork_memory root s ls : 8 + 3 * Z.of_nat (length pages) <= Z.of_nat (length l1) ->
  building base fl l1 root 5 s ls -> pcpu s = pushed (kcpu k) ->
  exists page sP sM lM s3 l3, pmem_alloc false s = Ret page sP /\ page <> 0 /\
    vm_mappages root (TRAPFRAME - PGSIZE) page PGSIZE RWU (set_pm (memset (pm sP) page 0 PGSIZE) sP) = Ret tt sM /\
    building base fl l1 root 8 sM lM /\
    (forall va, 0 <= va < VA_MAX -> PG_ROUND_DOWN va <> TRAPFRAME - PGSIZE -> pte_of (pm sM) root va = pte_of (pm s) root va) /\
    uvm_copy_pgtbl old root (heap_top pp) (ustack_pages pp) sM = Ret tt s3 /\
    building base fl l1 root (8 + 3 * Z.of_nat (length pages)) s3 l3 /\ copied old root sM lM pages s3 l3 /\ pcpu s3 = pushed (kcpu k).
Proof.
  intros Hlen B Hcpu. destruct fork_base as (Hb & _). destruct ls as [|page ls]; [pose proof (bd_left _ _ _ _ _ _ _ B) as Hx; cbn in Hx; lia|].
  destruct (building_alloc base fl l1 Hb root 5 s page ls B) as (E1 & B1 & U1 & N1 & P1).
  destruct (building_fill base fl l1 Hb root 6 _ ls page (memset (pm (alloc_post false page s)) page 0 PGSIZE) B1 U1 N1) as [B2 P2].
  { intros a Ha. apply memset_out; [done|lia]. }
  destruct top_pages as (_ & _ & A1 & A2 & A3). destruct (base_page base fl l1 Hb page (proj1 U1)) as [_ Hpg].
  assert (0 <= RWU < 1024) as HRWU by (vm_compute; split; congruence).
  destruct (building_map base fl l1 Hb root 6 _ ls (TRAPFRAME - PGSIZE) page RWU B2 A1 A2 A3 ltac:(lia) ltac:(unfold PGSIZE; lia) HRWU ltac:(lia))
    as (sM & lM & E3 & B3 & P3 & _). change (6 + 2) with 8 in B3.
  assert (tables_kept (pm (kpm k)) (pm sM) old) as K.
  { intros x Hx. rewrite (building_old base fl l1 Hb root 8 sM lM old parent_space B3); [by apply parent_kept|].
    destruct Hx as (q & a & Hq & Ha & Hx). exists q, a. split; [exact Hq|]. split; [|exact Hx].
    rewrite (tbl_frame _ _ _ parent_kept q Hq). exact Ha. }
  pose proof (fk_heap R) as Hh. pose proof (fk_ustack R) as Hu.
  destruct (building_copy base fl l1 Hb root 8 sM lM old (heap_top pp) (ustack_pages pp) parent_space B3) as (s3 & l3 & E4 & B4 & C4).
  { change VA_MAX with (2 ^ 38). change TRAPFRAME with (2 ^ 38 - 2 * 4096) in Hh. unfold PGSIZE in Hh. lia. }
  { lia. }
  { intros x Hx Hm. rewrite (uvalid_kept _ _ _ parent_kept). by apply (fk_valid R). }
  { rewrite (fork_pages_kept sM _ _ K). lia. }
  rewrite (fork_pages_kept sM _ _ K) in B4, C4.
  exists page, (alloc_post false page s), sM, lM, s3, l3. split; [exact E1|]. split; [lia|]. split; [exact E3|]. split; [exact B3|].
  split; [|split; [exact E4|split; [exact B4|split; [exact C4|]]]].
  - intros va Hva Hne. rewrite (P3 va Hva), (decide_False _ _ Hne). cbn [pm set_pm]. rewrite P2. apply P1.
  - pose proof (fk_cpu R) as Hc. eapply (calm_held _ _ _ _ _ (calm_copy_pgtbl _ _ _ _) E4 Hc).
    eapply (calm_held _ _ _ _ _ (calm_mappages _ _ _ _ _) E3 Hc). rewrite pcpu_set_pm. exact (calm_held _ _ _ _ _ (calm_alloc false) E1 Hc Hcpu).
Qed.

Lemma parent_far : (forall x, table_byte (pm (kpm k)) old x -> far (fl false) x) /\
  (forall va, 0 <= va < VA_MAX -> uvalid (pm (kpm k)) old va = true ->
     forall i, 0 <= i < PGSIZE -> far (fl false) (PTE_TO_PA (pte_of (pm (kpm k)) old va) + i)) /\
  (forall i, 0 <= i < PGSIZE -> far (fl false) (tf pp + i)).
Proof.
  assert (pmem_ok (kpm k) (fl_set false (fl false) fl)) as H by (eapply pmem_ok_ext; [|apply (fk_mem R)]; by intros []).
  destruct (old_far (kpm k) fl (fl false) H old (fk_space R)) as [H1 H2]. split; [exact H1|]. split; [exact H2|].
  intros i Hi. destruct (fk_frame R) as [F1 F2]. apply (page_far (kpm k) fl (fl false) H (tf pp)); [exact F1|exact F2|lia].
Qed.
(** After the child is built and its trapframe filled. *)
Section built.
Context (root n : Z) (s : pmem) (ls : list Z) (m : memory) (B : building base fl l1 root n s ls) (Hm : fills t (pm s) m).

Lemma far_kept x : far (fl false) x -> ld8 m x = ld8 (pm (kpm k)) x.
Proof.
  intros Hx. destruct fork_base as (_ & F & _). assert (~ t <= x < t + PGSIZE) as Ht by (apply Hx; rewrite Hfl; left).
  rewrite (Hm x Ht), (bd_frame _ _ _ _ _ _ _ B x); [by apply F|]. intros q Hq. apply Hx. rewrite Hfl. by right.
Qed.
Lemma built_old : tables_kept (pm (kpm k)) m old.
Proof. intros x Hx. apply far_kept. by apply (proj1 parent_far). Qed.
Lemma built_page q x : q ∈ l1 -> q <= x < q + PGSIZE -> ld8 m x = ld8 (pm s) x.
Proof.
  intros Hq Hx. destruct fork_base as (Hb & _ & _ & _ & _ & Hn & Htm & _). destruct (base_page base fl l1 Hb q Hq) as [Hqm _].
  apply Hm. assert (q <> t) as Hne by (by intros ->). pose proof (pages_apart q t Hqm Htm Hne). lia.
Qed.
Lemma built_root va : pte_of m root va = pte_of (pm s) root va.
Proof. apply pte_frame. intros x (q & a & Hq & Ha & Hx). apply (built_page a); [by apply (bd_tables _ _ _ _ _ _ _ B q a)|done]. Qed.
Lemma built_ok : pmem_ok (set_pm m s) (fl_set false ls fl).
Proof.
  destruct fork_base as (Hb & _ & _ & _ & _ & Hn & Htm & _). pose proof (bd_ok _ _ _ _ _ _ _ B) as Ho. apply pmem_ok_set_pm; [|exact Ho].
  intros b q Hq. apply ld_ext. intros x Hx. apply Hm. destruct (pmem_ok_page _ _ _ _ Ho Hq) as (Hqm & _).
  assert (q <> t) as Hne.
  { intros ->. destruct b.
    - apply (pmem_ok_disjoint _ _ false true t t (fk_mem R)); [by rewrite Hfl; left|exact Hq|done|done].
    - rewrite fl_set_eq in Hq. apply Hn. by eapply sub_base. }
  pose proof (pages_apart q t Hqm Htm Hne). unfold PGSIZE in *. simpl in Hx. lia.
Qed.
End built.

(** The address space of the child, and the parent's next to it. *)
Lemma fork_space root s sM lM s3 l3 m' :
  building base fl l1 root 8 sM lM -> building base fl l1 root (8 + 3 * Z.of_nat (length pages)) s3 l3 -> copied old root sM lM pages s3 l3 ->
  (forall va, 0 <= va < VA_MAX -> PG_ROUND_DOWN va <> TRAPFRAME - PGSIZE -> pte_of (pm sM) root va = pte_of (pm s) root va) ->
  fills t (pm s3) m' ->
  (forall va, 0 <= va < VA_MAX -> forked old (kpm k) (heap_top pp) (ustack_pages pp) va -> child_page (pm (kpm k)) m' old root va) /\
  (forall va, 0 <= va < VA_MAX -> ~ forked old (kpm k) (heap_top pp) (ustack_pages pp) va -> pte_of m' root va = pte_of (pm s) root va) /\
  (forall va, 0 <= va < VA_MAX -> pte_of m' old va = pte_of (pm (kpm k)) old va /\
     (uvalid (pm (kpm k)) old va = true -> ubyte m' old va = ubyte (pm (kpm k)) old va)).
Proof.
  intros BM B3 C Hrest Hm. destruct fork_base as (Hb & _). destruct parent_far as (_ & F2 & _). pose proof (fk_ustack R) as Hu.
  assert (fills t (pm sM) (pm sM)) as HfM by done. pose proof (pte_frame _ _ _ (built_old root 8 sM lM (pm sM) BM HfM)) as HM.
  pose proof (pte_frame _ _ _ (built_old root _ s3 l3 m' B3 Hm)) as Hold.
  assert (forall va, 0 <= va mod PGSIZE < PGSIZE) as Hmod by (intros va; by apply Z.mod_pos_bound).
  assert (forall va, 0 <= va < VA_MAX -> PG_ROUND_DOWN va ∈ pages <-> forked old (kpm k) (heap_top pp) (ustack_pages pp) va) as Hel
    by (intros va Hva; apply fork_pages_elem; [exact Hva|lia]). split; [|split].
  - intros va Hva Hf. pose proof (forked_valid va Hf) as Hv. apply (Hel va Hva) in Hf.
    destruct (cp_page _ _ _ _ _ _ _ C _ Hf) as (q & Hq & _ & Hpte & Hby & _). rewrite !pte_round, !HM in *.
    pose proof (sub_base base fl l1 Hb root 8 sM lM q BM Hq) as Hq1. destruct (base_page base fl l1 Hb q Hq1) as [Hqm Hqb].
    pose proof (PTE_FLAGS_bound (pte_of (pm (kpm k)) old va)) as Hfb. pose proof (built_root root _ s3 l3 m' B3 Hm va) as Hr. rewrite Hpte in Hr.
    assert (PTE_TO_PA (pte_of m' root va) = q) as Hpa by (rewrite Hr; apply leaf_pte_pa; [lia|exact Hqm|exact Hfb]). split.
    + rewrite Hr, leaf_pte_flags; [by apply flags_valid|lia|exact Hfb].
    + unfold ubyte, upa. rewrite Hpa, (built_page s3 m' Hm q) by (exact Hq1 || (specialize (Hmod va); lia)).
      rewrite (Hby _ (Hmod va)). apply (far_kept root 8 sM lM (pm sM) BM HfM). by apply F2.
    + intros va' Hva' Hv'. unfold upa. rewrite Hpa, Hold. intros Heq.
      apply (F2 va' Hva' Hv' _ (Hmod va') q); [rewrite Hfl; by right|]. specialize (Hmod va). lia.
  - intros va Hva Hf. rewrite (built_root root _ s3 l3 m' B3 Hm), (cp_rest _ _ _ _ _ _ _ C va Hva) by (by rewrite Hel).
    apply Hrest; [exact Hva|]. intros E. apply Hf. by apply stack_top.
  - intros va Hva. split; [apply Hold|]. intros Hv. unfold ubyte, upa. rewrite Hold. apply (far_kept root _ s3 l3 m' B3 Hm). by apply F2.
Qed.
End taken.

Definition child_slot (root t : Z) (head : option nat) : proc :=
  mkProc (plk (proc_at k np)) (global_pid k) RUNNABLE (Some p) 0 None root (heap_top pp) (ustack_pages pp) head t (kstack (proc_at k np))
    (mkCtx fork_return_addr (u64 (kstack (proc_at k np) + PGSIZE))) (filelist (proc_at k np)) (cwd (proc_at k np)).
(** Parent and child after the call: [cs] are the nodes of the child's list. *)
Record forked_child (k' : kstate) (root t : Z) (head : option nat) (cs : list cell) : Prop := {
  fc_slot : proc_at k' np = child_slot root t head;
  fc_others : forall j, j <> np -> proc_at k' j = proc_at k j;
  fc_pid : global_pid k' = i32 (global_pid k + 1);
  fc_cpu : kcpu k' = synced (kcpu k);
  fc_mem : exists l', pmem_ok (kpm k') (fl_set false l' fl);
  fc_copy : forall va, 0 <= va < VA_MAX -> forked old (kpm k) (heap_top pp) (ustack_pages pp) va ->
    child_page (pm (kpm k)) (pm (kpm k')) old root va;
  fc_rest : forall va, 0 <= va < VA_MAX -> ~ forked old (kpm k) (heap_top pp) (ustack_pages pp) va ->
    pte_of (pm (kpm k')) root va = if decide (PG_ROUND_DOWN va = TRAPFRAME) then leaf_pte t RW
      else if decide (PG_ROUND_DOWN va = TRAMPOLINE) then leaf_pte trampoline RX else 0;
  fc_parent : forall va, 0 <= va < VA_MAX -> pte_of (pm (kpm k')) old va = pte_of (pm (kpm k)) old va /\
    (uvalid (pm (kpm k)) old va = true -> ubyte (pm (kpm k')) old va = ubyte (pm (kpm k)) old va);
  fc_frame : frame_ok r_satp trap_user_handler (pm (kpm k)) (pm (kpm k')) t (tf pp) (u64 (kstack (proc_at k np) + PGSIZE));
  fc_repo : repo_ok (krepo k') (drop (length l) fr);
  fc_list : lseg (mmap_at (krepo k')) (p_mmap pp) l None;
  fc_regions : cs.*2 = l.*2 /\ cs.*1 = take (length l) fr /\ lseg (mmap_at (krepo k')) head cs None;
}.

Lemma myproc_run (k0 : kstate) i : cproc (kcpu k0) = Some i -> myproc k0 = Ret i k0.
Proof. intros H. unfold myproc, myproc_opt. rewrite bind_gets. cbn beta. unfold kcpu in H. by rewrite H. Qed.
Lemma fork_tail ch s r g sp lk : tf ch <> NULL -> plk ch = lk_held (kcpu k) lk -> lk_free lk -> pcpu s = pushed (kcpu k) ->
  (wr_mem (fun m => memmove m (tf ch) (tf pp) sizeof_trapframe);;; tf_write np (tf_a 0) 0;;; tf_write np tf_kernel_sp sp;;;
   tf_write np tf_kernel_satp r_satp;;; tf_write np tf_kernel_trap trap_user_handler;;; wr_proc np (set_parent (Some p));;;
   let* c := rd_proc np in wr_proc np (set_state RUNNABLE);;; punlock np;;; ret (pid c)) (slot np ch s r g k) =
  Ret (pid ch) (slot np (set_plk lk (set_state RUNNABLE (set_parent (Some p) ch)))
    (set_pcpu (synced (kcpu k)) (set_pm (child_frame r_satp trap_user_handler (pm s) (tf ch) (tf pp) sp) s)) r g k).
Proof.
  intros Ht Hl Hf Hs. assert (np < length (procs k))%nat as Hnp by (rewrite (to_len _ _ (fk_table R)); apply (fk_table R)).
  rewrite (bind_run _ _ _ _ _ (slot_wr_mem k np _ _ _ _ _)). do 4 rewrite (bind_run _ _ _ _ _ (slot_tf k np Hnp ch _ _ _ _ _ Ht)).
  rewrite (bind_run _ _ _ _ _ (slot_wr k np Hnp _ _ _ _ _)), (bind_run _ _ _ _ _ (slot_rd k np Hnp _ _ _ _)), (bind_run _ _ _ _ _ (slot_wr k np Hnp _ _ _ _ _)).
  match goal with |- context [slot np ?c ?x _ _ k] => rewrite (bind_run _ _ _ _ _ (slot_unlock k np Hnp c x r g (kcpu k) lk Hl Hf (fk_cpu R) Hs)) end.
  reflexivity.
Qed.
(** The calls of proc_fork() put together. *)
Lemma fork_run root t s page sP sM s3 : (0 < t)%Z -> pcpu s3 = pushed (kcpu k) ->
  proc_alloc trampoline fork_return_addr k =
    Ret (Some np) (slot np (fresh_slot fork_return_addr (global_pid k) root t (locked_slot k np)) s (krepo k) (i32 (global_pid k + 1)) k) ->
  pmem_alloc false s = Ret page sP -> page <> 0 ->
  vm_mappages root (TRAPFRAME - PGSIZE) page PGSIZE RWU (set_pm (memset (pm sP) page 0 PGSIZE) sP) = Ret tt sM ->
  uvm_copy_pgtbl old root (heap_top pp) (ustack_pages pp) sM = Ret tt s3 ->
  exists r' cs head, proc_fork trampoline trap_user_handler fork_return_addr r_satp k =
      Ret (global_pid k) (slot np (child_slot root t head) (set_pcpu (synced (kcpu k))
        (set_pm (child_frame r_satp trap_user_handler (pm s3) t (tf pp) (u64 (kstack (proc_at k np) + PGSIZE))) s3)) r' (i32 (global_pid k + 1)) k) /\
    repo_ok r' (drop (length l) fr) /\ lseg (mmap_at r') (p_mmap pp) l None /\
    cs.*2 = l.*2 /\ cs.*1 = take (length l) fr /\ lseg (mmap_at r') head cs None.
Proof.
  intros Ht Hc3 E1 E2 Hpage E3 E4. pose proof (fk_cpu R) as Hc. pose proof (fk_ustack R) as Hu. pose proof (fk_list R) as ML.
  assert (np < length (procs k))%nat as Hnp by (rewrite (to_len _ _ (fk_table R)); apply (fk_table R)).
  assert (tf (fresh_slot fork_return_addr (global_pid k) root t (locked_slot k np)) <> NULL) as Htf by (unfold NULL; cbn; lia).
  set (c1 := set_heap_top (heap_top pp) (set_ustack_pages (ustack_pages pp) (fresh_slot fork_return_addr (global_pid k) root t (locked_slot k np)))).
  destruct (copy_mmaps_run k np Hnp s3 (kcpu k) Hc3 Hc (i32 (global_pid k + 1)) l list_fuel (p_mmap pp) None fr (krepo k) c1)
    as (r' & cs & head & E5 & R1 & R2 & R3 & R4 & _ & R5); [exact (mlist_len _ _ _ ML)|exact (ml_repo _ _ _ ML)|exact (fk_nodes R)|exact (ml_seg _ _ _ ML)|exact (ml_ids _ _ _ ML)|reflexivity|].
  exists r', cs, head. split; [|split; [exact R1|split; [|split; [exact R2|split; [exact R3|exact R4]]]]].
  2:{ eapply lseg_frame; [|exact (ml_seg _ _ _ ML)]. intros j Hj. apply R5; [|done]. rewrite R3. intros Hx.
      pose proof (ml_ids _ _ _ ML) as Hnd. apply NoDup_app in Hnd as (_ & Hd & _). apply (Hd j Hj). right. by apply (subseteq_take (length l)). }
  unfold proc_fork. rewrite (bind_run _ _ _ _ _ (myproc_run k p (fk_proc R))), (bind_run _ _ _ _ _ E1), (bind_run _ _ _ _ _ (slot_mem k np _ _ _ _ _ _ _ E2)). rewrite (proj2 (Z.eqb_neq page 0) Hpage).
  assert (forall ch s r g, zoom k_pmem (zero_page page) (slot np ch s r g k) = Ret tt (slot np ch (set_pm (memset (pm s) page 0 PGSIZE) s) r g k)) as Ez by reflexivity.
  rewrite (bind_run _ _ _ _ _ (Ez _ _ _ _)).
  assert (forall ch s r g, rd_proc p (slot np ch s r g k) = Ret pp (slot np ch s r g k)) as Ep
    by (intros; unfold rd_proc, gets; rewrite (slot_other k np) by exact parent_ne; reflexivity).
  rewrite (bind_run _ _ _ _ _ (Ep _ _ _ _)), (bind_run _ _ _ _ _ (slot_wr k np Hnp _ _ _ _ _)). cbn zeta.
  rewrite (bind_run _ _ _ _ _ (slot_rd k np Hnp _ _ _ _)), (bind_run _ _ _ _ _ (slot_mem k np _ _ _ _ _ _ _ E3)).
  rewrite (u32_small (ustack_pages pp)) by lia. rewrite (bind_run _ _ _ _ _ (slot_mem k np _ _ _ _ _ _ _ E4)), (bind_run _ _ _ _ _ (slot_wr k np Hnp _ _ _ _ _)).
  fold c1. rewrite (bind_run _ _ _ _ _ E5).
  exact (fork_tail (linked_to head None c1) s3 r' _ (u64 (kstack (proc_at k np) + PGSIZE)) _ Htf eq_refl (to_locks _ _ (fk_table R) np (to_np _ _ (fk_table R))) Hc3).
Qed.

(** C16 proc_fork(), the whole call.  With an unused slot, nodes for the regions and
    nine pages plus three for each page of the parent that is copied, it returns
    the child's process number, and the child is the parent again: runnable, with
    the parent as parent, heap top and stack size as the parent's; at each forked
    address the flags and the byte of the parent, in pages of its own; elsewhere
    only trapframe and trampoline; the parent's registers with a0 = 0 and the
    child's own kernel stack; a copy of the list of free regions.  The parent, all
    its memory and the other slots are as before, the allocator and the pool of
    nodes are in order and no lock is left held. *)
Theorem proc_fork_copies : exists k' root t head cs,
  proc_fork trampoline trap_user_handler fork_return_addr r_satp k = Ret (global_pid k) k' /\ forked_child k' root t head cs.
Proof.
  destruct first_page as (t & l1 & Hfl & Hlen). pose proof R as [Q1 [Q2 Q2'] Q3 Q4 Q5 Q6 Q7 Q8 Q9 Q10 Q11 Q12 Q13 Q14 Q15 Q16 Q17].
  pose proof parent_ne as Hne. assert (np < length (procs k))%nat as Hnp by (rewrite (to_len _ _ Q3); apply Q3).
  destruct (proc_alloc_run trampoline fork_return_addr Q1 k np fl t l1 Q3 Q4 Q5 Q6 Q9 Hfl ltac:(lia)) as (root & s & ls & E1 & B1 & Hroot & Hc1 & P1).
  destruct (fork_memory t l1 Hfl root s ls Hlen B1 Hc1) as (page & sP & sM & lM & s3 & l3 & E2 & Hpage & E3 & BM & PM & E4 & B3 & C3 & Hc3).
  destruct (base_ok k fl t l1 Q4 Q9 Hfl) as (_ & _ & _ & _ & _ & _ & _ & Htb).
  destruct (fork_run root t s page sP sM s3 ltac:(lia) Hc3 E1 E2 Hpage E3 E4) as (r' & cs & head & E & R1 & R2 & R3).
  set (m' := child_frame _ _ _ _ _ _) in E. assert (fills t (pm s3) m') as Hm by apply child_frame_out.
  destruct (fork_space t l1 Hfl root s sM lM s3 l3 m' BM B3 C3 PM Hm) as (S1 & S2 & S3).
  do 5 eexists. split; [exact E|]. split; [apply (slot_at k np Hnp)|apply (slot_other k np)|reflexivity|reflexivity| |exact S1| |exact S3| |exact R1|exact R2|exact R3].
  - exists l3. apply pmem_pcpu; [|by apply synced_wf]. by apply (built_ok t l1 Hfl root _ s3 l3 m' B3 Hm).
  - intros va Hva Hf. etransitivity; [exact (S2 va Hva Hf)|exact (P1 va Hva)].
  - assert (0 <= u64 (kstack (proc_at k np) + PGSIZE) < 2 ^ 64) as Hsp by (by apply Z.mod_pos_bound).
    apply (frame_from _ _ (pm s3)); [exact (child_frame_in r_satp trap_user_handler (pm s3) t (tf pp) _ Q2 Q2' Hsp)|].
    destruct parent_far as (_ & _ & F). assert (fills t (pm s3) (pm s3)) as Hr by (intros a _; reflexivity).
    intros i Hi. apply (far_kept t l1 Hfl root _ s3 l3 (pm s3) B3 Hr). exact (F i Hi).
Qed.
End fork.

(** ** A parent with one stack page *)

Definition parent_slot (root : Z) (head : option nat) : proc :=
  mkProc (spinlock_init "proc") 1 RUNNING None 0 None root PGSIZE 1 head demo_begin 0 (mkCtx 0 0) [] None.
Definition parent_state (s : pmem) (r : mrepo) (root : Z) (head : option nat) : kstate :=
  mkK (set_pcpu (cpu_on 0 0) s) r (parent_slot root head :: replicate 63 (mk_proc 0 UNUSED None None)) (Some O) 2 (spinlock_init "pid").

Notation demo_pages := (init_lists demo_begin demo_end false).
Lemma demo_parent : exists root page s ls, building demo_pmem (init_lists demo_begin demo_end) demo_pages root 4 s ls /\
  page ∈ demo_pages /\ page ∉ ls /\ forall va, 0 <= va < VA_MAX -> pte_of (pm s) root va =
    if decide (PG_ROUND_DOWN va = TRAPFRAME - PGSIZE) then leaf_pte page RWU else 0.
Proof.
  set (fl := init_lists demo_begin demo_end). assert (pmem_ok demo_pmem (fl_set false demo_pages fl)) as H0
    by (eapply pmem_ok_ext; [|exact demo_pmem_ok]; by intros []).
  destruct (building_root demo_pmem fl demo_pages H0 _ _ demo_split) as (_ & B1 & Z1 & _).
  assert (exists page l, demo_fl false = page :: l) as (page & l & El) by (vm_compute; by do 2 eexists). rewrite El in B1.
  destruct (building_alloc _ _ _ H0 _ _ _ _ _ B1) as (_ & B2 & U2 & N2 & P2).
  destruct top_pages as (_ & _ & A1 & A2 & A3). destruct (base_page _ _ _ H0 page (proj1 U2)) as [_ Hpg].
  assert (0 <= RWU < 1024) as HR by (vm_compute; split; congruence).
  assert (1 + 1 + 2 <= Z.of_nat (length demo_pages)) as Hlen by (vm_compute; congruence).
  destruct (building_map _ _ _ H0 _ _ _ _ (TRAPFRAME - PGSIZE) page RWU B2 A1 A2 A3 ltac:(lia) ltac:(unfold PGSIZE; lia) HR Hlen)
    as (s & ls & _ & B3 & P3 & U3).
  exists demo_root, page, s, ls. split; [exact B3|]. split; [exact (proj1 U2)|]. split; [exact (proj2 (proj1 (U3 page U2 N2)))|].
  intros va Hva. rewrite (P3 va Hva), (P2 va). destruct (decide _); [reflexivity|exact (Z1 va)].
Qed.

(** Only the stack page is mapped. *)
Lemma demo_stack root page s ls va : building demo_pmem (init_lists demo_begin demo_end) demo_pages root 4 s ls ->
  (forall va, 0 <= va < VA_MAX -> pte_of (pm s) root va = if decide (PG_ROUND_DOWN va = TRAPFRAME - PGSIZE) then leaf_pte page RWU else 0) ->
  page ∈ demo_pages -> 0 <= va < VA_MAX ->
  (uvalid (pm s) root va = true <-> PG_ROUND_DOWN va = TRAPFRAME - PGSIZE) /\
  (PG_ROUND_DOWN va = TRAPFRAME - PGSIZE -> PTE_TO_PA (pte_of (pm s) root va) = page /\ page mod PGSIZE = 0).
Proof.
  intros B H Hp Hva. unfold uvalid. rewrite (H va Hva). destruct (decide _) as [E|E]; [|split; [split; done|done]].
  destruct (pmem_ok_page _ _ false page demo_pmem_ok Hp) as (Hm & Hb & _).
  assert (0 <= RWU < 1024) as HR by (vm_compute; split; congruence).
  split; [split; [done|intros _; apply leaf_pte_valid; (exact HR || lia)]|].
  intros _. split; [apply leaf_pte_pa; (exact HR || exact Hm || lia)|exact Hm].
Qed.
Lemma demo_space root page s ls : building demo_pmem (init_lists demo_begin demo_end) demo_pages root 4 s ls ->
  (forall va, 0 <= va < VA_MAX -> pte_of (pm s) root va = if decide (PG_ROUND_DOWN va = TRAPFRAME - PGSIZE) then leaf_pte page RWU else 0) ->
  page ∈ demo_pages -> page ∉ ls -> space_ok s ls root.
Proof.
  intros B H Hp Hn. split; [exact (bd_pt _ _ _ _ _ _ _ B)| |].
  - intros q t Hq Ht. pose proof (bd_tables _ _ _ _ _ _ _ B q t Hq Ht) as Hx. destruct (pmem_ok_page _ _ false t demo_pmem_ok Hx) as (_ & Hb & _). lia.
  - intros va Hva Hv. destruct (demo_stack root page s ls va B H Hp Hva) as [[H1 _] H2]. destruct (H2 (H1 Hv)) as [-> Hm]. split; [exact Hm|exact Hn].
Qed.

Lemma demo_fork_one root page s ls : building demo_pmem (init_lists demo_begin demo_end) demo_pages root 4 s ls ->
  (forall va, 0 <= va < VA_MAX -> pte_of (pm s) root va = if decide (PG_ROUND_DOWN va = TRAPFRAME - PGSIZE) then leaf_pte page RWU else 0) ->
  page ∈ demo_pages -> (length (fork_pages root s PGSIZE 1) <= 1)%nat.
Proof.
  intros B H Hp. unfold fork_pages. rewrite !length_app, !pages_length.
  assert (length (filter (fun x => uvalid (pm s) root x = true) (pages MMAP_BEGIN (pages_below MMAP_BEGIN MMAP_END))) = 0)%nat as ->.
  { apply length_zero_iff_nil. destruct (filter _ _) as [|x r] eqn:E; [reflexivity|]. assert (x ∈ x :: r) as Hx by left. rewrite <- E in Hx.
    apply list_elem_of_filter in Hx as [Hv Hx]. assert (0 <= MMAP_BEGIN /\ MMAP_BEGIN mod PGSIZE = 0 /\ MMAP_END <= TRAPFRAME - PGSIZE /\ MMAP_END <= VA_MAX) as (H1 & H2 & H3 & H4)
      by (vm_compute; repeat split; congruence).
    apply pages_below_elem in Hx as [Hx Hm]; [|exact H1|exact H2].
    destruct (demo_stack root page s ls x B H Hp ltac:(lia)) as [[Hs _] _]. specialize (Hs Hv). rewrite PG_ROUND_DOWN_aligned in Hs by exact Hm. lia. }
  vm_compute. lia.
Qed.
Lemma demo_ready : exists root s r head fr ls l, l.*2 = [whole] /\
  fork_ready 0x80007000 0 0 (parent_state s r root head) 0 1 (fl_set false ls (init_lists demo_begin demo_end)) fr l.
Proof.
  destruct demo_parent as (root & page & s & ls & B & Hp & Hn & H). destruct demo_mlist as (v & fr & l & Hv & El & Hfr & _).
  exists root, s, (vrepo v), (pmmap v), fr, ls, l. split; [exact El|].
  assert (cpu_wf (cpu_on 0 0)) as Hc by (unfold cpu_wf; cbn; lia).
  assert (0 <= TRAPFRAME - PGSIZE /\ TRAPFRAME <= VA_MAX) as [Ht1 Ht2] by (vm_compute; split; congruence).
  split; unfold kcpu; cbn [parent_state kpm krepo lk_pid global_pid].
  - lia.
  - lia.
  - split; [reflexivity| |apply Nat.ltb_lt; reflexivity|reflexivity|intros i Hi; assert (i = O) as -> by lia; discriminate].
    intros i _. do 64 (destruct i as [|i]; [split; reflexivity|]). split; reflexivity.
  - exact Hc.
  - split; reflexivity.
  - lia.
  - reflexivity.
  - discriminate.
  - apply pmem_pcpu; [exact (bd_ok _ _ _ _ _ _ _ B)|exact Hc].
  - rewrite fl_set_eq. destruct (demo_space root page s ls B H Hp Hn) as [S1 S2 S3]. split; [destruct S1; split; assumption|exact S2|exact S3].
  - split; [reflexivity|]. rewrite fl_set_eq. intros Hx. destruct (bd_list _ _ _ _ _ _ _ B) as [tk Etk].
    assert (demo_begin ∉ demo_pages) as Hd by (apply (bool_decide_unpack _); by vm_compute).
    apply Hd. rewrite Etk. apply elem_of_app. right. exact Hx.
  - cbn. lia.
  - vm_compute. congruence.
  - cbn [proc_at parent_slot heap_top ustack_pages]. intros x Hx Hm. change (uvalid (pm s) root x = true). cbn in Hx.
    assert (TRAPFRAME - PGSIZE <= x < TRAPFRAME) as Hx' by (unfold PGSIZE in *; lia).
    apply (demo_stack root page s ls x B H Hp); [lia|]. destruct top_pages as (_ & _ & _ & A2 & _). apply (round_in x _ A2). lia.
  - destruct Hv as [M1 _ M3 M4 M5]. split; [exact M1|exact Hc|exact M3|exact M4|exact M5].
  - apply (f_equal length) in El. rewrite length_fmap in El. cbn in El. lia.
  - rewrite fl_set_eq. pose proof (bd_left _ _ _ _ _ _ _ B) as Hleft. change (Z.of_nat (length demo_pages)) with 16 in Hleft.
    pose proof (demo_fork_one root page s ls B H Hp) as H1.
    change (9 + 3 * Z.of_nat (length (fork_pages root s PGSIZE 1)) <= Z.of_nat (length ls)). lia.
Qed.

(** The parent of one stack page forks: child 2 has its own copy of the page. *)
Lemma proc_fork_copies_witness : exists s r root head k' root' t head' cs,
  proc_fork 0x80007000 0 0 0 (parent_state s r root head) = Ret 2 k' /\
  proc_at k' 1 = child_slot 0 (parent_state s r root head) 0 1 root' t head' /\
  ubyte (pm (kpm k')) root' (TRAPFRAME - 1) = ubyte (pm s) root (TRAPFRAME - 1) /\
  lseg (mmap_at (krepo k')) head' cs None /\ cs.*2 = [whole].
Proof.
  destruct demo_ready as (root & s & r & head & fr & ls & l & El & R).
  destruct (proc_fork_copies 0x80007000 0 0 0 (parent_state s r root head) 0 1 _ fr l R) as (k' & root' & t & head' & cs & E & C).
  exists s, r, root, head, k', root', t, head', cs. split; [exact E|]. split; [exact (fc_slot _ _ _ _ _ _ _ _ _ _ _ _ _ _ _ C)|].
  destruct (fc_regions _ _ _ _ _ _ _ _ _ _ _ _ _ _ _ C) as (C1 & _ & C2). split; [|split; [exact C2|by rewrite C1]].
  assert (0 <= TRAPFRAME - 1 < VA_MAX /\ TRAPFRAME - 1 * PGSIZE <= PG_ROUND_DOWN (TRAPFRAME - 1) < TRAPFRAME) as [H1 H2]
    by (vm_compute; repeat split; congruence).
  exact (ch_byte _ _ _ _ _ (fc_copy _ _ _ _ _ _ _ _ _ _ _ _ _ _ _ C _ H1 (or_intror (or_introl H2)))).
Defined.
