(* ===== verification/Buf.v ===== *)
(** * fs/buf.c: the block buffer cache

    64 buffers on a doubly linked ring with a head node (index 64), most recently
    released first.  The disk behind the cache is any implementation of the
    interface [BlockDev]: what the cache needs from virtio_disk_rw is that a
    completed write is what later reads of the block return and that it changes no
    other block. *)

From S2P Require Import Prelude Machine Str Lock Pmem Mmap Proc.

(** ** The disk interface *)

Class BlockDev (D : Type) : Type := {
  blk_get : D -> Z -> list Z;
  blk_put : D -> Z -> list Z -> D;
  blk_get_eq : forall d b l, Z.of_nat (length l) = BLOCK_SIZE -> blk_get (blk_put d b l) b = l;
  blk_get_ne : forall d b b' l, b <> b' -> blk_get (blk_put d b l) b' = blk_get d b';
  blk_len : forall d b, Z.of_nat (length (blk_get d b)) = BLOCK_SIZE;
}.

(** ** Data *)

Definition N_BLOCK_BUF : Z := 64.
Definition BLOCK_NUM_UNUSED : Z := 0xFFFFFFFF.

Record buf : Type := mkBuf { bslk : sleeplock; block_num : Z; data : list Z; buf_ref : Z }.
Record buf_node : Type := mkBnode { bbuf : buf; bnext : option nat; bprev : option nat }.
(** Nodes 0 .. 63 are buf_cache[], node 64 is head_buf. *)
Definition head_buf : nat := 64.

Record bstate (D : Type) : Type := mkB {
  bk : kstate;
  buf_cache : list buf_node;
  lk_buf_cache : spinlock;
  disk : D;
}.
Arguments mkB {D}. Arguments bk {D}. Arguments buf_cache {D}. Arguments lk_buf_cache {D}. Arguments disk {D}.

Definition blank_sleep : sleeplock := sleeplock_init "".
Definition blank_node : buf_node := mkBnode (mkBuf blank_sleep 0 [] 0) None None.

Definition set_bnext (p : option nat) (n : buf_node) : buf_node := mkBnode (bbuf n) p (bprev n).
Definition set_bprev (p : option nat) (n : buf_node) : buf_node := mkBnode (bbuf n) (bnext n) p.
Definition upd_buf (f : buf -> buf) (n : buf_node) : buf_node := mkBnode (f (bbuf n)) (bnext n) (bprev n).
Definition set_bslk (l : sleeplock) (b : buf) : buf := mkBuf l (block_num b) (data b) (buf_ref b).
Definition set_block_num (n : Z) (b : buf) : buf := mkBuf (bslk b) n (data b) (buf_ref b).
Definition set_data (d : list Z) (b : buf) : buf := mkBuf (bslk b) (block_num b) d (buf_ref b).
Definition set_buf_ref (n : Z) (b : buf) : buf := mkBuf (bslk b) (block_num b) (data b) n.

Section buf.
Context {D : Type} {HD : BlockDev D}.
(** Bound on how often a sleeping lock is found taken before it is obtained. *)
Context (sl_fuel : nat).

Definition bnode_at (s : bstate D) (i : nat) : buf_node := default blank_node (buf_cache s !! i).
Definition buf_at (s : bstate D) (i : nat) : buf := bbuf (bnode_at s i).
Definition upd_bnode (i : nat) (f : buf_node -> buf_node) (s : bstate D) : bstate D :=
  mkB (bk s) (alter f i (buf_cache s)) (lk_buf_cache s) (disk s).

Definition b_k : lens (bstate D) kstate :=
  Lens bk (fun k s => mkB k (buf_cache s) (lk_buf_cache s) (disk s)).
Definition b_lk : lens (bstate D) (cpu * spinlock) :=
  Lens (fun s => (pcpu (kpm (bk s)), lk_buf_cache s))
       (fun p s => mkB (lset k_cpu (fst p) (bk s)) (buf_cache s) (snd p) (disk s)).
Definition b_slk (i : nat) : lens (bstate D) sleeplock :=
  Lens (fun s => bslk (buf_at s i)) (fun l s => upd_bnode i (upd_buf (set_bslk l)) s).

Definition wr_bnode (i : nat) (f : buf_node -> buf_node) : M (bstate D) unit := modify (upd_bnode i f).
Definition wr_buf (i : nat) (f : buf -> buf) : M (bstate D) unit := wr_bnode i (upd_buf f).
(** A node through a next or prev pointer. *)
Definition wr_link (p : option nat) (f : buf_node -> buf_node) : M (bstate D) unit :=
  match p with Some i => wr_bnode i f | None => fault end.

Definition buf_lock (i : nat) : M (bstate D) unit := sleeplock_acquire b_k (b_slk i) (ChBufLock i) sl_fuel.
Definition buf_unlock (i : nat) : M (bstate D) unit := sleeplock_release b_k (b_slk i) (ChBufLock i).
Definition buf_holding (i : nat) : M (bstate D) bool := sleeplock_holding b_k (b_slk i).

(** virtio_disk_rw as the cache uses it: the transfer has completed on return. *)
Definition disk_rw (i : nat) (write : bool) : M (bstate D) unit :=
  modify (fun s => let b := buf_at s i in
    if write then mkB (bk s) (buf_cache s) (lk_buf_cache s) (blk_put (disk s) (block_num b) (data b))
    else upd_bnode i (upd_buf (set_data (blk_get (disk s) (block_num b)))) s).

(** ** Operations *)

Definition insert_head (i : nat) (head_next : bool) : M (bstate D) unit :=
  let* n := gets (fun s => bnode_at s i) in
  (match bnext n, bprev n with
   | Some nx, Some _ =>
       wr_bnode nx (set_bprev (bprev n));;;
       let* n := gets (fun s => bnode_at s i) in
       wr_link (bprev n) (set_bnext (bnext n))
   | _, _ => ret tt
   end);;;
  if head_next then
    wr_bnode i (set_bprev (Some head_buf));;;
    let* h := gets (fun s => bnode_at s head_buf) in
    wr_bnode i (set_bnext (bnext h));;;
    let* h := gets (fun s => bnode_at s head_buf) in
    wr_link (bnext h) (set_bprev (Some i));;;
    wr_bnode head_buf (set_bnext (Some i))
  else
    wr_bnode i (set_bnext (Some head_buf));;;
    let* h := gets (fun s => bnode_at s head_buf) in
    wr_bnode i (set_bprev (bprev h));;;
    let* h := gets (fun s => bnode_at s head_buf) in
    wr_link (bprev h) (set_bnext (Some i));;;
    wr_bnode head_buf (set_bprev (Some i)).

Definition buf_init : M (bstate D) unit :=
  modify (fun s => mkB (bk s) (buf_cache s) (spinlock_init "buf_cache") (disk s));;;
  wr_bnode head_buf (set_bnext (Some head_buf));;;
  wr_bnode head_buf (set_bprev (Some head_buf));;;
  for_ (Z.to_nat N_BLOCK_BUF) 0 1 (fun z =>
    let i := Z.to_nat z in
    wr_buf i (set_block_num BLOCK_NUM_UNUSED);;;
    wr_buf i (set_buf_ref 0);;;
    wr_buf i (set_bslk (sleeplock_init "buf"));;;
    insert_head i false).

(** The two search loops of buf_read: along next for the block, along prev for a
    buffer nobody uses.  A ring of distinct nodes has at most 65 of them. *)
Fixpoint find_block (fuel : nat) (bn : option nat) (num : Z) : M (bstate D) (option nat) :=
  match fuel with
  | O => no_fuel
  | S fuel =>
      match bn with
      | None => fault
      | Some i =>
          if bool_decide (i = head_buf) then ret None
          else
            let* n := gets (fun s => bnode_at s i) in
            if block_num (bbuf n) =? num then ret (Some i) else find_block fuel (bnext n) num
      end
  end.
Fixpoint find_free (fuel : nat) (bn : option nat) : M (bstate D) (option nat) :=
  match fuel with
  | O => no_fuel
  | S fuel =>
      match bn with
      | None => fault
      | Some i =>
          if bool_decide (i = head_buf) then ret None
          else
            let* n := gets (fun s => bnode_at s i) in
            if buf_ref (bbuf n) =? 0 then ret (Some i) else find_free fuel (bprev n)
      end
  end.
Definition ring_fuel : nat := Z.to_nat (N_BLOCK_BUF + 1).

Definition buf_read (num : Z) : M (bstate D) nat :=
  zoom b_lk spinlock_acquire;;;
  let* h := gets (fun s => bnode_at s head_buf) in
  let* hit := find_block ring_fuel (bnext h) num in
  match hit with
  | Some i =>
      let* b := gets (fun s => buf_at s i) in
      wr_buf i (set_buf_ref (u32 (buf_ref b + 1)));;;
      zoom b_lk spinlock_release;;;
      buf_lock i;;;
      ret i
  | None =>
      let* h := gets (fun s => bnode_at s head_buf) in
      let* fr := find_free ring_fuel (bprev h) in
      match fr with
      | Some i =>
          wr_buf i (set_block_num num);;;
          wr_buf i (set_buf_ref 1);;;
          zoom b_lk spinlock_release;;;
          buf_lock i;;;
          disk_rw i false;;;
          ret i
      | None => panic "buf_read: no free buf"
      end
  end.

Definition buf_write (i : nat) : M (bstate D) unit :=
  let* h := buf_holding i in
  assert_ h "buf_write: not holding lock";;;
  disk_rw i true.

Definition buf_release (i : nat) : M (bstate D) unit :=
  let* h := buf_holding i in
  assert_ h "buf_release: not holding lock";;;
  buf_unlock i;;;
  zoom b_lk spinlock_acquire;;;
  let* b := gets (fun s => buf_at s i) in
  wr_buf i (set_buf_ref (u32 (buf_ref b - 1)));;;
  let* b := gets (fun s => buf_at s i) in
  when (buf_ref b =? 0) (insert_head i true);;;
  zoom b_lk spinlock_release.

(** What buf_print prints: index, references, block and first bytes of each node. *)
Fixpoint print_loop (fuel : nat) (bn : option nat) : M (bstate D) (list (nat * Z * Z * list Z)) :=
  match fuel with
  | O => no_fuel
  | S fuel =>
      match bn with
      | None => fault
      | Some i =>
          if bool_decide (i = head_buf) then ret []
          else
            let* n := gets (fun s => bnode_at s i) in
            let* l := print_loop fuel (bnext n) in
            ret ((i, buf_ref (bbuf n), block_num (bbuf n), take 8 (data (bbuf n))) :: l)
      end
  end.
Definition buf_print : M (bstate D) (list (nat * Z * Z * list Z)) :=
  let* h := gets (fun s => bnode_at s head_buf) in
  zoom b_lk spinlock_acquire;;;
  let* l := print_loop ring_fuel (bnext h) in
  zoom b_lk spinlock_release;;;
  ret l.

(** Access to the data of a buffer the caller has locked. *)
Definition rd_data (i : nat) : M (bstate D) (list Z) := gets (fun s => data (buf_at s i)).
Definition wr_data (i : nat) (f : list Z -> list Z) : M (bstate D) unit :=
  modify (fun s => upd_bnode i (upd_buf (fun b => set_data (f (data b)) b)) s).

End buf.

(** A disk as a table of blocks: the reference instance. *)
Abbreviation block_map := (gmap Z (list Z)).
Definition fit (l : list Z) : list Z := take (Z.to_nat BLOCK_SIZE) (l ++ replicate (Z.to_nat BLOCK_SIZE) 0).
Lemma fit_len l : Z.of_nat (length (fit l)) = BLOCK_SIZE.
Proof.
  unfold fit. rewrite length_take, length_app, length_replicate.
  change (Z.to_nat BLOCK_SIZE) with 1024%nat. unfold BLOCK_SIZE. lia.
Qed.
Lemma fit_id l : Z.of_nat (length l) = BLOCK_SIZE -> fit l = l.
Proof. intros H. unfold fit. rewrite take_app_le by lia. rewrite take_ge by lia. done. Qed.
Definition bm_get (d : block_map) (b : Z) : list Z := fit (default [] (d !! b)).
Definition bm_put (d : block_map) (b : Z) (l : list Z) : block_map := <[b := l]> d.
Lemma bm_get_eq d b l : Z.of_nat (length l) = BLOCK_SIZE -> bm_get (bm_put d b l) b = l.
Proof. intros H. unfold bm_get, bm_put. rewrite lookup_insert_eq. by apply fit_id. Qed.
Lemma bm_get_ne d b b' l : b <> b' -> bm_get (bm_put d b l) b' = bm_get d b'.
Proof. intros H. unfold bm_get, bm_put. by rewrite lookup_insert_ne. Qed.
#[export] Instance block_map_dev : BlockDev block_map := {
  blk_get := bm_get; blk_put := bm_put; blk_get_eq := bm_get_eq; blk_get_ne := bm_get_ne;
  blk_len := fun d b => fit_len _;
}.
