(* ===== verification/BufSpec.v ===== *)
(** * Properties of the buffer cache

    The ring of buffers, the searches over it, and what buf_read, buf_write and
    buf_release do to the cache and the disk when no other process interferes. *)

From S2P Require Import Prelude Machine Str Lock Pmem Kvm KvmSpec Mmap Uvm Proc ProcSpec SleepSpec Buf.

(** ** The ring *)

Abbreviation nodes := (list buf_node).
Definition node_of (c : nodes) (x : nat) : buf_node := default blank_node (c !! x).
Definition nxt (c : nodes) (x : nat) : option nat := bnext (node_of c x).
Definition prv (c : nodes) (x : nat) : option nat := bprev (node_of c x).

(** Consecutive nodes of the path point at each other. *)
Fixpoint linked (c : nodes) (p : list nat) : Prop :=
  match p with
  | a :: ((b :: _) as r) => nxt c a = Some b /\ prv c b = Some a /\ linked c r
  | _ => True
  end.
(** The ring: head_buf, the nodes [l] in order of their next pointers, head_buf. *)
Definition ring (c : nodes) (l : list nat) : Prop :=
  linked c (head_buf :: l ++ [head_buf]) /\ NoDup (head_buf :: l) /\ Forall (fun x => (x < length c)%nat) (head_buf :: l).

Lemma node_of_alter c i f x : (x < length c)%nat ->
  node_of (alter f i c) x = if decide (i = x) then f (node_of c x) else node_of c x.
Proof.
  intros Hx. unfold node_of. case_decide as E.
  - subst. rewrite list_lookup_alter_eq. destruct (lookup_lt_is_Some_2 _ _ Hx) as [n ->]. done.
  - by rewrite list_lookup_alter_ne.
Qed.

Lemma linked_cons c a b p : linked c (a :: b :: p) <-> nxt c a = Some b /\ prv c b = Some a /\ linked c (b :: p).
Proof. done. Qed.
Lemma linked_app c p x q : linked c (p ++ x :: q) <-> linked c (p ++ [x]) /\ linked c (x :: q).
Proof.
  induction p as [|a p IH]; [cbn; tauto|].
  destruct p as [|b p]; [destruct q; cbn; tauto|].
  change ((a :: b :: p) ++ x :: q) with (a :: b :: (p ++ x :: q)).
  change ((a :: b :: p) ++ [x]) with (a :: b :: (p ++ [x])).
  rewrite !linked_cons. change (b :: p ++ x :: q) with ((b :: p) ++ x :: q).
  change (b :: p ++ [x]) with ((b :: p) ++ [x]). rewrite IH. tauto.
Qed.

(** A path only depends on the next pointers of all but its last node and the
    prev pointers of all but its first. *)
Lemma linked_ext c c' p : (forall x q r, p = q ++ x :: r -> r <> [] -> nxt c' x = nxt c x) ->
  (forall x q r, p = q ++ x :: r -> q <> [] -> prv c' x = prv c x) -> linked c p -> linked c' p.
Proof.
  induction p as [|a p IH]; [done|]. intros Hn Hp. destruct p as [|b p]; [done|].
  rewrite !linked_cons. intros (H1 & H2 & H3). split_and!.
  - rewrite <- H1. by apply (Hn a [] (b :: p)).
  - rewrite <- H2. by apply (Hp b [a] p).
  - apply IH; [| |done].
    + intros x q r Heq Hr. apply (Hn x (a :: q) r); [by rewrite Heq|done].
    + intros x q r Heq Hq. apply (Hp x (a :: q) r); [by rewrite Heq|done].
Qed.

(** Setting a next (prev) pointer keeps the paths whose next (prev) pointers do
    not include it. *)
Lemma linked_set_next c i v p q : linked c (p ++ [q]) -> Forall (fun x => (x < length c)%nat) (p ++ [q]) -> i ∉ p ->
  linked (alter (set_bnext v) i c) (p ++ [q]).
Proof.
  intros Hl Hf Hi. rewrite Forall_forall in Hf. eapply linked_ext; [| |done].
  - intros x q' r Heq Hr. unfold nxt. rewrite node_of_alter.
    + case_decide as E; [|done]. subst x. destruct Hi.
      destruct (exists_last Hr) as (r' & z & ->).
      rewrite app_comm_cons, app_assoc in Heq. apply app_inj_tail in Heq as [-> _].
      apply elem_of_app. right. apply list_elem_of_here.
    + apply Hf. rewrite Heq. apply elem_of_app. right. apply list_elem_of_here.
  - intros x q' r Heq Hq. unfold prv. rewrite node_of_alter.
    + by case_decide.
    + apply Hf. rewrite Heq. apply elem_of_app. right. apply list_elem_of_here.
Qed.
Lemma linked_set_prev c i v x p : linked c (x :: p) -> Forall (fun x => (x < length c)%nat) (x :: p) -> i ∉ p ->
  linked (alter (set_bprev v) i c) (x :: p).
Proof.
  intros Hl Hf Hi. rewrite Forall_forall in Hf. eapply linked_ext; [| |done].
  - intros y q r Heq Hr. unfold nxt. rewrite node_of_alter.
    + by case_decide.
    + apply Hf. rewrite Heq. apply elem_of_app. right. apply list_elem_of_here.
  - intros y q r Heq Hq. unfold prv. rewrite node_of_alter.
    + case_decide as E; [|done]. subst y. destruct Hi. destruct q as [|z q]; [done|].
      injection Heq as _ ->. apply elem_of_app. right. apply list_elem_of_here.
    + apply Hf. rewrite Heq. apply elem_of_app. right. apply list_elem_of_here.
Qed.
Lemma nxt_set_next c i v : (i < length c)%nat -> nxt (alter (set_bnext v) i c) i = v.
Proof. intros H. unfold nxt. rewrite node_of_alter by done. by case_decide. Qed.
Lemma prv_set_prev c i v : (i < length c)%nat -> prv (alter (set_bprev v) i c) i = v.
Proof. intros H. unfold prv. rewrite node_of_alter by done. by case_decide. Qed.
Lemma nxt_set_prev c i v x : (x < length c)%nat -> nxt (alter (set_bprev v) i c) x = nxt c x.
Proof. intros H. unfold nxt. rewrite node_of_alter by done. by case_decide. Qed.
Lemma prv_set_next c i v x : (x < length c)%nat -> prv (alter (set_bnext v) i c) x = prv c x.
Proof. intros H. unfold prv. rewrite node_of_alter by done. by case_decide. Qed.
Lemma nxt_set_next_ne c i v x : (x < length c)%nat -> i <> x -> nxt (alter (set_bnext v) i c) x = nxt c x.
Proof. intros H E. unfold nxt. rewrite node_of_alter by done. by case_decide. Qed.
Lemma prv_set_prev_ne c i v x : (x < length c)%nat -> i <> x -> prv (alter (set_bprev v) i c) x = prv c x.
Proof. intros H E. unfold prv. rewrite node_of_alter by done. by case_decide. Qed.

(** Taking node [i] out, and putting a node in behind or before the head. *)
Definition unlink_c (a b : nat) (c : nodes) : nodes :=
  alter (set_bnext (Some b)) a (alter (set_bprev (Some a)) b c).
Definition front_c (i b : nat) (c : nodes) : nodes :=
  alter (set_bnext (Some i)) head_buf (alter (set_bprev (Some i)) b
    (alter (set_bnext (Some b)) i (alter (set_bprev (Some head_buf)) i c))).
Definition back_c (i a : nat) (c : nodes) : nodes :=
  alter (set_bprev (Some i)) head_buf (alter (set_bnext (Some i)) a
    (alter (set_bprev (Some a)) i (alter (set_bnext (Some head_buf)) i c))).

Lemma Forall_lt_alter c (f : buf_node -> buf_node) i l :
  Forall (fun x => (x < length c)%nat) l -> Forall (fun x => (x < length (alter f i c))%nat) l.
Proof. by rewrite length_alter. Qed.

Lemma cons_app_last (h : nat) l : exists p a, h :: l = p ++ [a].
Proof. destruct (exists_last (l := h :: l)) as (p & a & ->); [done|]. by exists p, a. Qed.
Lemma app_cons_first l (h : nat) : exists b q, l ++ [h] = b :: q /\ (b = h /\ q = [] \/ exists l', l = b :: l' /\ q = l' ++ [h]).
Proof. destruct l as [|b l]; cbn; [exists h, []; auto|]. exists b, (l ++ [h]). split; [done|]. right. by exists l. Qed.

(** What the parts of a ring around [i] have in common: nothing. *)
Lemma ring_parts c l1 i l2 : ring c (l1 ++ i :: l2) -> NoDup (head_buf :: l1 ++ l2) /\ NoDup (head_buf :: l1) /\ NoDup l2 /\
  (forall x, x ∈ head_buf :: l1 -> x ∈ l2 -> False) /\
  (forall x, x ∈ head_buf :: l1 \/ x ∈ l2 -> x <> i /\ (x < length c)%nat) /\
  (forall x, x ∈ l2 ++ [head_buf] -> x ∈ head_buf :: l1 \/ x ∈ l2).
Proof.
  intros (_ & Hd & Hf). assert (head_buf :: l1 ++ i :: l2 ≡ₚ i :: head_buf :: l1 ++ l2) as Hperm.
  { rewrite <- Permutation_middle. apply Permutation_swap. }
  rewrite Hperm in Hd, Hf. apply NoDup_cons in Hd as [Hi Hd]. apply Forall_cons in Hf as [_ Hf].
  pose proof Hd as Hd'. rewrite app_comm_cons in Hd'. apply NoDup_app in Hd' as (Hd1 & Hno & Hd2). rewrite Forall_forall in Hf.
  split_and!; [done|done|done|intros x Hx Hy; by apply (Hno x)| |].
  - intros x Hx. assert (x ∈ head_buf :: l1 ++ l2) as Hx' by (rewrite app_comm_cons; by apply elem_of_app).
    split; [by intros ->|by apply Hf].
  - intros x [Hx|Hx]%elem_of_app; [by right|]. apply list_elem_of_singleton in Hx as ->. left. apply list_elem_of_here.
Qed.
Lemma ring_unlink c l1 i l2 : ring c (l1 ++ i :: l2) ->
  exists a b, nxt c i = Some b /\ prv c i = Some a /\ a <> i /\ b <> i /\
    (a < length c)%nat /\ (b < length c)%nat /\ ring (unlink_c a b c) (l1 ++ l2).
Proof.
  intros R. pose proof R as (Hl & _). destruct (ring_parts c l1 i l2 R) as (Hd & Hd1 & Hd2 & Hsep & Hin & Hend).
  destruct (cons_app_last head_buf l1) as (P & a & HP). destruct (app_cons_first l2 head_buf) as (b & Q & HQ & Hb).
  assert (head_buf :: (l1 ++ i :: l2) ++ [head_buf] = P ++ a :: i :: b :: Q) as Hpath.
  { rewrite <- app_assoc. cbn. rewrite HQ, app_comm_cons, HP, <- app_assoc. done. }
  assert (head_buf :: (l1 ++ l2) ++ [head_buf] = P ++ a :: b :: Q) as Hpath'.
  { rewrite <- app_assoc, HQ, app_comm_cons, HP, <- app_assoc. done. }
  rewrite Hpath, linked_app, !linked_cons in Hl. destruct Hl as (Hl1 & Hai & Hia & Hib & Hbi & Hl2).
  assert (a ∈ head_buf :: l1) as Ha by (rewrite HP; apply elem_of_app; right; apply list_elem_of_here).
  assert (b ∈ l2 ++ [head_buf]) as Hbin by (rewrite HQ; apply list_elem_of_here).
  destruct (Hin a (or_introl Ha)) as [Hai' Halt]. destruct (Hin b (Hend b Hbin)) as [Hbi' Hblt].
  assert (Forall (fun x => (x < length c)%nat) (head_buf :: l1)) as Hf1
    by (apply Forall_forall; intros x Hx; by apply Hin; left).
  assert (Forall (fun x => (x < length c)%nat) (l2 ++ [head_buf])) as Hf2
    by (apply Forall_forall; intros x Hx; by apply Hin, Hend).
  exists a, b. split_and!; try done. split_and!; [|done|].
  2:{ unfold unlink_c. rewrite !length_alter. apply Forall_forall. intros x Hx. apply Hin. rewrite app_comm_cons in Hx. by apply elem_of_app in Hx. }
  rewrite Hpath', linked_app, linked_cons. unfold unlink_c. split_and!.
  - rewrite <- HP. rewrite HP at 1. apply linked_set_next.
    + rewrite <- HP. apply linked_set_prev; [by rewrite HP|done|].
      intros Hbl. apply elem_of_app in Hbin as [Hb'|Hb'].
      * apply (Hsep b); [by apply list_elem_of_further|done].
      * apply list_elem_of_singleton in Hb'. subst. by apply NoDup_cons in Hd1 as [? _].
    + rewrite length_alter, <- HP. done.
    + rewrite HP in Hd1. apply NoDup_app in Hd1 as (_ & Hno & _). intros HaP. apply (Hno a HaP). apply list_elem_of_here.
  - apply nxt_set_next. by rewrite length_alter.
  - rewrite prv_set_next by (by rewrite length_alter). by apply prv_set_prev.
  - rewrite <- HQ. apply linked_set_next.
    + rewrite HQ. apply linked_set_prev; [done|by rewrite <- HQ|].
      destruct Hb as [[-> ->]|(l' & Hl2' & ->)]; [by apply not_elem_of_nil|]. subst l2.
      intros Hx. apply elem_of_app in Hx as [Hx|Hx]; [by apply NoDup_cons in Hd2 as [? _]|].
      apply list_elem_of_singleton in Hx. subst. eapply Hsep; apply list_elem_of_here.
    + by rewrite length_alter.
    + intros Hx. by apply (Hsep a).
Qed.

Lemma ring_front c i m : ring c m -> i ∉ head_buf :: m -> (i < length c)%nat ->
  exists b, nxt c head_buf = Some b /\ (b < length c)%nat /\ b <> i /\ ring (front_c i b c) (i :: m).
Proof.
  intros (Hl & Hd & Hf) Hi Hil. destruct (app_cons_first m head_buf) as (b & Q & HQ & Hb).
  rewrite HQ, linked_cons in Hl. destruct Hl as (Hhb & _ & Hl).
  assert (b ∈ head_buf :: m) as Hbin.
  { destruct Hb as [[-> _]|(l' & -> & _)]; [apply list_elem_of_here|apply list_elem_of_further, list_elem_of_here]. }
  assert (b <> i) as Hbi by (by intros ->).
  assert (head_buf <> i) as Hhi by (intros <-; apply Hi, list_elem_of_here).
  pose proof Hf as Hf'. rewrite Forall_forall in Hf'. pose proof (Hf' _ Hbin) as Hbl.
  pose proof (Hf' head_buf (list_elem_of_here _ _)) as Hhl.
  apply NoDup_cons in Hd as [Hhm Hdm].
  assert (i ∉ m) as Him by (intros ?; by apply Hi, list_elem_of_further).
  assert (Forall (fun x => (x < length c)%nat) (m ++ [head_buf])) as Hfm.
  { apply Forall_app. apply Forall_cons in Hf as [? ?]. by split; [|apply Forall_cons]. }
  exists b. split_and!; try done. split_and!.
  - change (head_buf :: (i :: m) ++ [head_buf]) with (head_buf :: i :: (m ++ [head_buf])). rewrite HQ. unfold front_c.
    rewrite !linked_cons. split_and!.
    + apply nxt_set_next. by rewrite !length_alter.
    + rewrite prv_set_next, prv_set_prev_ne, prv_set_next, prv_set_prev by (rewrite ?length_alter; done). done.
    + rewrite nxt_set_next_ne, nxt_set_prev, nxt_set_next by (rewrite ?length_alter; done). done.
    + rewrite prv_set_next, prv_set_prev by (rewrite ?length_alter; done). done.
    + rewrite <- HQ. apply linked_set_next; [|by rewrite !length_alter|done].
      rewrite HQ. apply linked_set_prev; [|by rewrite !length_alter, <- HQ|].
      * rewrite <- HQ. apply linked_set_next; [|by rewrite !length_alter|done].
        rewrite HQ. apply linked_set_prev; [done|by rewrite <- HQ|].
        intros Hx. assert (i ∈ m ++ [head_buf]) as Hx' by (rewrite HQ; by apply list_elem_of_further).
        apply elem_of_app in Hx' as [?|Hx']; [done|]. by apply list_elem_of_singleton in Hx'.
      * destruct Hb as [[-> ->]|(l' & -> & ->)]; [by apply not_elem_of_nil|].
        intros Hx. apply elem_of_app in Hx as [Hx|Hx]; [by apply NoDup_cons in Hdm as [? _]|].
        apply list_elem_of_singleton in Hx. subst. apply Hhm, list_elem_of_here.
  - apply NoDup_cons. split; [|by apply NoDup_cons].
    intros Hx. apply elem_of_cons in Hx as [Hx|Hx]; [by symmetry in Hx|done].
  - unfold front_c. rewrite !length_alter. rewrite !Forall_cons in *. naive_solver.
Qed.

Lemma ring_back c i m : ring c m -> i ∉ head_buf :: m -> (i < length c)%nat ->
  exists a, prv c head_buf = Some a /\ (a < length c)%nat /\ a <> i /\ ring (back_c i a c) (m ++ [i]).
Proof.
  intros (Hl & Hd & Hf) Hi Hil. destruct (cons_app_last head_buf m) as (P & a & HP).
  assert (head_buf :: m ++ [head_buf] = P ++ a :: [head_buf]) as Hpath by (rewrite app_comm_cons, HP, <- app_assoc; done).
  rewrite Hpath, linked_app in Hl. destruct Hl as (Hl & _ & Hha & _).
  assert (a ∈ head_buf :: m) as Hain by (rewrite HP; apply elem_of_app; right; apply list_elem_of_here).
  assert (a <> i) as Hai by (by intros ->).
  assert (head_buf <> i) as Hhi by (intros <-; apply Hi, list_elem_of_here).
  pose proof Hf as Hf'. rewrite Forall_forall in Hf'. pose proof (Hf' _ Hain) as Hal.
  pose proof (Hf' head_buf (list_elem_of_here _ _)) as Hhl.
  exists a. split_and!; try done.
  assert (i ∉ m) as Him by (intros ?; by apply Hi, list_elem_of_further).
  assert (head_buf ∉ m) as Hhm by (by apply NoDup_cons in Hd as [? _]).
  assert (a ∉ P) as HaP.
  { rewrite HP in Hd. apply NoDup_app in Hd as (_ & Hno & _). intros Hx. apply (Hno a Hx), list_elem_of_here. }
  assert (i ∉ P) as HiP.
  { intros Hx. apply Hi. rewrite HP. apply elem_of_app. by left. }
  split_and!.
  - change (head_buf :: (m ++ [i]) ++ [head_buf]) with ((head_buf :: m ++ [i]) ++ [head_buf]).
    rewrite app_comm_cons, HP, <- !app_assoc. cbn [app]. rewrite linked_app. unfold back_c. split.
    + rewrite <- HP. apply linked_set_prev; [|by rewrite !length_alter|done].
      rewrite HP. apply linked_set_next; [|by rewrite !length_alter, <- HP|done].
      rewrite <- HP. apply linked_set_prev; [|by rewrite !length_alter|done].
      rewrite HP. apply linked_set_next; [done|by rewrite <- HP|done].
    + rewrite !linked_cons. split_and!; [| | | |done].
      * rewrite nxt_set_prev, nxt_set_next by (rewrite ?length_alter; done). done.
      * rewrite prv_set_prev_ne, prv_set_next, prv_set_prev by (rewrite ?length_alter; done). done.
      * rewrite nxt_set_prev, nxt_set_next_ne, nxt_set_prev, nxt_set_next by (rewrite ?length_alter; done). done.
      * rewrite prv_set_prev by (rewrite ?length_alter; done). done.
  - rewrite app_comm_cons. apply NoDup_app. split_and!; [done| |apply NoDup_singleton].
    intros x Hx Hy. apply list_elem_of_singleton in Hy. by subst.
  - unfold back_c. rewrite !length_alter, app_comm_cons, Forall_app. split; [done|]. rewrite Forall_singleton. done.
Qed.

(** ** insert_head *)

(** The same buffers, with other links. *)
Definition same_bufs (c c' : nodes) : Prop :=
  length c' = length c /\ forall x, bbuf (node_of c' x) = bbuf (node_of c x).
Lemma same_bufs_refl c : same_bufs c c.
Proof. done. Qed.
Lemma same_bufs_trans c1 c2 c3 : same_bufs c1 c2 -> same_bufs c2 c3 -> same_bufs c1 c3.
Proof. intros [H1 H2] [H3 H4]. split; [congruence|]. intros x. by rewrite H4. Qed.
Lemma same_bufs_alter c f i : (forall n, bbuf (f n) = bbuf n) -> same_bufs c (alter f i c).
Proof.
  intros Hf. split; [apply length_alter|]. intros x. destruct (decide (x < length c)%nat) as [Hx|Hx].
  - rewrite node_of_alter by done. case_decide; [apply Hf|done].
  - unfold node_of. rewrite !lookup_ge_None_2; [done|lia|rewrite length_alter; lia].
Qed.
#[local] Hint Resolve same_bufs_refl : core.
Lemma same_bufs_step c c' f i : (forall n, bbuf (f n) = bbuf n) -> same_bufs c c' -> same_bufs c (alter f i c').
Proof. intros Hf H. eapply same_bufs_trans; [done|]. by apply same_bufs_alter. Qed.

Section bufspec.
Context {D : Type} {HD : BlockDev D}.
Definition set_cache (c : nodes) (s : bstate D) : bstate D := mkB (bk s) c (lk_buf_cache s) (disk s).

Lemma insert_head_front i (s : bstate D) l1 l2 : ring (buf_cache s) (l1 ++ i :: l2) ->
  exists c', insert_head i true s = Ret tt (set_cache c' s) /\ ring c' (i :: l1 ++ l2) /\ same_bufs (buf_cache s) c'.
Proof.
  intros Hr. pose proof Hr as (_ & Hd & Hf).
  assert (head_buf :: l1 ++ i :: l2 ≡ₚ i :: head_buf :: l1 ++ l2) as Hperm.
  { rewrite <- Permutation_middle. apply Permutation_swap. }
  rewrite Hperm in Hd, Hf. apply NoDup_cons in Hd as [Hi _]. apply Forall_cons in Hf as [Hil Hf].
  apply Forall_cons in Hf as [Hhl _].
  destruct (ring_unlink _ _ _ _ Hr) as (a & b & Hn & Hp & Hai & Hbi & Hal & Hbl & Hr1).
  set (c1 := unlink_c a b (buf_cache s)) in *.
  assert (length c1 = length (buf_cache s)) as Hlen by (unfold c1, unlink_c; by rewrite !length_alter).
  destruct (ring_front c1 i (l1 ++ l2) Hr1 Hi) as (b' & Hh & Hbl' & Hbi' & Hr2); [by rewrite Hlen|].
  assert (head_buf <> i) as Hhi by (intros <-; apply Hi, list_elem_of_here).
  exists (front_c i b' c1). split_and!; [|done|].
  - assert (forall c : nodes, (i < length c)%nat -> bnext (bnode_at (set_cache c s) i) = nxt c i /\
      bprev (bnode_at (set_cache c s) i) = prv c i) as Hrdi by done.
    unfold insert_head, wr_bnode. mstep. change (bnext (bnode_at s i)) with (nxt (buf_cache s) i).
    change (bprev (bnode_at s i)) with (prv (buf_cache s) i). rewrite Hn, Hp. mstep.
    change (upd_bnode b (set_bprev (Some a)) s) with (set_cache (alter (set_bprev (Some a)) b (buf_cache s)) s).
    destruct (Hrdi (alter (set_bprev (Some a)) b (buf_cache s))) as [E3 E4]; [by rewrite length_alter|].
    rewrite E3, E4, nxt_set_prev, prv_set_prev_ne, Hn, Hp by done. cbn [wr_link]. unfold wr_bnode. mstep.
    change (upd_bnode a (set_bnext (Some b)) (set_cache (alter (set_bprev (Some a)) b (buf_cache s)) s)) with (set_cache c1 s).
    assert (forall c : nodes, (head_buf < length c)%nat -> bnext (bnode_at (set_cache c s) head_buf) = nxt c head_buf) as Hrd by done.
    change (upd_bnode i (set_bprev (Some head_buf)) (set_cache c1 s)) with (set_cache (alter (set_bprev (Some head_buf)) i c1) s).
    rewrite Hrd, nxt_set_prev, Hh by (rewrite ?length_alter, ?Hlen; done).
    change (upd_bnode i (set_bnext (Some b')) (set_cache (alter (set_bprev (Some head_buf)) i c1) s))
      with (set_cache (alter (set_bnext (Some b')) i (alter (set_bprev (Some head_buf)) i c1)) s).
    rewrite Hrd, nxt_set_next_ne, nxt_set_prev, Hh by (rewrite ?length_alter, ?Hlen; done).
    cbn [wr_link]. unfold wr_bnode. mstep. done.
  - unfold front_c, c1, unlink_c. repeat (apply same_bufs_step; [done|]). done.
Qed.

(** A node that is on no list yet. *)
Lemma insert_head_back i (s : bstate D) m : ring (buf_cache s) m -> i ∉ head_buf :: m -> (i < length (buf_cache s))%nat ->
  nxt (buf_cache s) i = None ->
  exists c', insert_head i false s = Ret tt (set_cache c' s) /\ ring c' (m ++ [i]) /\ same_bufs (buf_cache s) c' /\
    forall x, x ∉ i :: head_buf :: m -> node_of c' x = node_of (buf_cache s) x.
Proof.
  intros Hr Hi Hil Hn. set (c := buf_cache s) in *. pose proof Hr as (Hlk & _ & Hf). pose proof Hf as Hf0.
  apply Forall_cons in Hf as [Hhl _].
  destruct (ring_back c i m Hr Hi Hil) as (a & Hh & Hal & Hai & Hr2).
  assert (head_buf <> i) as Hhi by (intros <-; apply Hi, list_elem_of_here).
  assert (a ∈ head_buf :: m) as Hain.
  { destruct (cons_app_last head_buf m) as (P & a' & HP).
    assert (linked c (P ++ a' :: [head_buf])) as Hl by (replace (P ++ a' :: [head_buf]) with (head_buf :: m ++ [head_buf]); [done|rewrite app_comm_cons, HP, <- app_assoc; done]).
    apply linked_app in Hl as (_ & _ & Hpa & _). assert (a = a') as -> by congruence.
    rewrite HP. apply elem_of_app. right. apply list_elem_of_here. }
  exists (back_c i a c). split_and!; [|done| |].
  - unfold insert_head, wr_bnode. mstep. change (bnext (bnode_at s i)) with (nxt c i). rewrite Hn. mstep.
    assert (forall c : nodes, bprev (bnode_at (set_cache c s) head_buf) = prv c head_buf) as Hrd by done.
    change (upd_bnode i (set_bnext (Some head_buf)) s) with (set_cache (alter (set_bnext (Some head_buf)) i c) s).
    rewrite Hrd, prv_set_next, Hh by (rewrite ?length_alter; done).
    change (upd_bnode i (set_bprev (Some a)) (set_cache (alter (set_bnext (Some head_buf)) i c) s))
      with (set_cache (alter (set_bprev (Some a)) i (alter (set_bnext (Some head_buf)) i c)) s).
    rewrite Hrd, prv_set_prev_ne, prv_set_next, Hh by (rewrite ?length_alter; done).
    cbn [wr_link]. unfold wr_bnode. mstep. done.
  - unfold back_c. repeat (apply same_bufs_step; [done|]). done.
  - intros x Hx. unfold back_c, node_of.
    assert (x <> i) as H1 by (intros ->; apply Hx, list_elem_of_here).
    assert (x ∉ head_buf :: m) as H2 by (intros ?; by apply Hx, list_elem_of_further).
    assert (x <> head_buf) as H3 by (intros ->; apply H2, list_elem_of_here).
    assert (x <> a) as H4 by (by intros ->).
    rewrite !list_lookup_alter_ne by congruence. done.
Qed.

(** ** The searches of buf_read *)

Lemma find_block_run (s : bstate D) num m fuel : linked (buf_cache s) (m ++ [head_buf]) -> head_buf ∉ m ->
  (length m < fuel)%nat ->
  find_block fuel (head (m ++ [head_buf])) num s = Ret (find (fun i => block_num (buf_at s i) =? num) m) s.
Proof.
  revert fuel. induction m as [|x m IH]; intros fuel Hl Hh Hf; (destruct fuel as [|fuel]; [lia|]); cbn in *.
  { done. }
  rewrite bool_decide_eq_false_2 by (intros ->; apply Hh, list_elem_of_here). mstep.
  change (bbuf (bnode_at s x)) with (buf_at s x). destruct (block_num (buf_at s x) =? num) eqn:E; [done|].
  destruct (app_cons_first m head_buf) as (b & Q & HQ & _).
  assert (bnext (bnode_at s x) = head (m ++ [head_buf])) as ->.
  { rewrite HQ in *. cbn in *. apply Hl. }
  apply IH; [|by intros ?; apply Hh, list_elem_of_further|lia]. destruct m; cbn in *; apply Hl.
Qed.

Lemma last_app_one {A} (l : list A) x : last (l ++ [x]) = Some x.
Proof. by rewrite last_snoc. Qed.

Lemma find_free_run (s : bstate D) m fuel : linked (buf_cache s) (head_buf :: m) -> head_buf ∉ m ->
  (length m < fuel)%nat ->
  find_free fuel (last (head_buf :: m)) s = Ret (find (fun i => buf_ref (buf_at s i) =? 0) (rev m)) s.
Proof.
  revert fuel. induction m as [|x m IH] using rev_ind; intros fuel Hl Hh Hf; (destruct fuel as [|fuel]; [lia|]).
  { done. }
  rewrite length_app in Hf. cbn in Hf.
  rewrite app_comm_cons, last_app_one. cbn [find_free].
  assert (x <> head_buf) as Hx by (intros ->; apply Hh, elem_of_app; right; apply list_elem_of_here).
  rewrite bool_decide_eq_false_2 by done. mstep. rewrite rev_app_distr. cbn [rev app find].
  change (bbuf (bnode_at s x)) with (buf_at s x). destruct (buf_ref (buf_at s x) =? 0) eqn:E; [done|].
  destruct (cons_app_last head_buf m) as (P & a & HP).
  rewrite app_comm_cons, HP, <- app_assoc in Hl. cbn in Hl. apply linked_app in Hl as (Hl & _ & Hpx & _).
  assert (bprev (bnode_at s x) = last (head_buf :: m)) as ->.
  { change (bprev (bnode_at s x)) with (prv (buf_cache s) x). by rewrite Hpx, HP, last_app_one. }
  apply IH; [by rewrite HP|intros ?; apply Hh, elem_of_app; by left|lia].
Qed.

(** ** The cache between and inside critical sections *)

Definition N_BUF : nat := Z.to_nat N_BLOCK_BUF.

(** [hs]: the buffers the running process holds, [l]: the others and these in the
    order of the ring.  An idle buffer agrees with the disk. *)
Record bok (s : bstate D) (l hs : list nat) : Prop := {
  b_quiet : quiet (bk s);
  b_lkf : lk_free (lk_buf_cache s);
  b_len : length (buf_cache s) = S N_BUF;
  b_ring : ring (buf_cache s) l;
  b_perm : l ≡ₚ seq 0 N_BUF;
  b_hs : NoDup hs /\ forall i, i ∈ hs -> (i < N_BUF)%nat;
  b_idle : forall i, (i < N_BUF)%nat -> i ∉ hs ->
    buf_ref (buf_at s i) = 0 /\ sl_free (bslk (buf_at s i)) /\
    (block_num (buf_at s i) <> BLOCK_NUM_UNUSED -> data (buf_at s i) = blk_get (disk s) (block_num (buf_at s i)));
  b_held : forall i, i ∈ hs ->
    buf_ref (buf_at s i) = 1 /\ sl_held (me_pid (bk s)) (bslk (buf_at s i)) /\
    block_num (buf_at s i) <> BLOCK_NUM_UNUSED /\ Z.of_nat (length (data (buf_at s i))) = BLOCK_SIZE;
  b_uniq : forall i j, (i < N_BUF)%nat -> (j < N_BUF)%nat -> block_num (buf_at s i) = block_num (buf_at s j) ->
    block_num (buf_at s i) <> BLOCK_NUM_UNUSED -> i = j;
}.

Lemma buf_at_upd (s : bstate D) i j f : (j < length (buf_cache s))%nat ->
  buf_at (upd_bnode i (upd_buf f) s) j = if decide (i = j) then f (buf_at s j) else buf_at s j.
Proof.
  intros Hj. unfold buf_at, bnode_at. cbn [buf_cache upd_bnode].
  change (default blank_node (alter (upd_buf f) i (buf_cache s) !! j)) with (node_of (alter (upd_buf f) i (buf_cache s)) j).
  rewrite node_of_alter by done. by case_decide.
Qed.
Lemma ring_upd_buf c i f l : ring c l -> ring (alter (upd_buf f) i c) l.
Proof.
  intros (Hl & Hd & Hf). assert (forall x, nxt (alter (upd_buf f) i c) x = nxt c x /\ prv (alter (upd_buf f) i c) x = prv c x) as H.
  { intros x. destruct (decide (x < length c)%nat) as [Hx|Hx].
    - unfold nxt, prv. rewrite node_of_alter by done. by case_decide.
    - unfold nxt, prv, node_of. rewrite !lookup_ge_None_2; [done|lia|rewrite length_alter; lia]. }
  split_and!; [|done|by apply Forall_lt_alter].
  eapply linked_ext; [| |done]; intros; apply H.
Qed.
Lemma upd_upd_bnode (s : bstate D) i f g :
  upd_bnode i (upd_buf f) (upd_bnode i (upd_buf g) s) = upd_bnode i (upd_buf (fun b => f (g b))) s.
Proof. unfold upd_bnode. cbn. f_equal. by rewrite alter_alter. Qed.
Lemma upd_bnode_ext (s : bstate D) i f g : (f (buf_at s i) = g (buf_at s i)) ->
  upd_bnode i (upd_buf f) s = upd_bnode i (upd_buf g) s.
Proof.
  intros H. unfold upd_bnode. f_equal. apply list_eq. intros j. destruct (decide (i = j)) as [->|].
  - rewrite !list_lookup_alter_eq. unfold buf_at, bnode_at in H. destruct (buf_cache s !! j) as [n|]; [|done].
    cbn in *. f_equal. unfold upd_buf. by rewrite H.
  - by rewrite !list_lookup_alter_ne.
Qed.

#[local] Instance buf_lock_in i : LockIn (b_k (D:=D)) (b_slk i) (fun s => (i < length (buf_cache s))%nat).
Proof.
  split; try done.
  - by intros [].
  - intros l s H. cbn [lget lset b_slk]. rewrite buf_at_upd by done. by rewrite decide_True.
  - intros s H. cbn [lget lset b_slk]. unfold upd_bnode. rewrite alter_id_at; [by destruct s|].
    intros x Hx. unfold buf_at, bnode_at. rewrite Hx. cbn. by destruct x as [[] ? ?].
  - intros l l' s. cbn [lget lset b_slk]. by rewrite upd_upd_bnode.
Qed.

(** *** lk_buf_cache *)

(** The state inside the critical section of lk_buf_cache. *)
Definition b_locked (s : bstate D) : bstate D :=
  mkB (set_kcpu (pushed (kcpu (bk s))) (bk s)) (buf_cache s) (lk_held (kcpu (bk s)) (lk_buf_cache s)) (disk s).
Lemma b_lk_acquire (s : bstate D) : lk_free (lk_buf_cache s) -> zoom b_lk spinlock_acquire s = Ret tt (b_locked s).
Proof. intros H. erewrite zoom_run; [|by apply spinlock_acquire_run]. done. Qed.
Lemma b_lk_release (s : bstate D) : lk_free (lk_buf_cache s) -> quiet (bk s) ->
  zoom b_lk spinlock_release (b_locked s) = Ret tt s.
Proof.
  intros H Q. erewrite zoom_run; [|apply spinlock_release_run; [apply Q|done]].
  rewrite (q_sync _ Q). f_equal. destruct s as [k c l d]. cbn. f_equal. apply (set_kcpu_id k).
Qed.
Lemma buf_at_locked (s : bstate D) i : buf_at (b_locked s) i = buf_at s i.
Proof. done. Qed.

(** ** buf_read *)

(** The buffer buf_read chooses: the one of the block, else the least recently
    released one nobody uses. *)
Definition choose (s : bstate D) (l : list nat) (num : Z) : option nat :=
  match find (fun i => block_num (buf_at s i) =? num) l with
  | Some i => Some i
  | None => find (fun i => buf_ref (buf_at s i) =? 0) (rev l)
  end.
(** Buffer [i] taken for block [num]. *)
Definition grab (i : nat) (num : Z) (s : bstate D) : bstate D :=
  upd_bnode i (upd_buf (fun b => mkBuf (sl_taken (me_pid (bk s)) (bslk b)) num (blk_get (disk s) num) 1)) s.

Lemma elem_l s l hs i : bok s l hs -> i ∈ l <-> (i < N_BUF)%nat.
Proof. intros H. rewrite (b_perm _ _ _ H), elem_of_seq. lia. Qed.
Lemma b_lt s l hs i : bok s l hs -> (i < N_BUF)%nat -> (i < length (buf_cache s))%nat.
Proof. intros H Hi. rewrite (b_len _ _ _ H). lia. Qed.

Lemma buf_lock_run sl_fuel (s : bstate D) i : (i < length (buf_cache s))%nat -> quiet (bk s) ->
  sl_free (bslk (buf_at s i)) -> (0 < sl_fuel)%nat ->
  buf_lock sl_fuel i s = Ret tt (upd_bnode i (upd_buf (set_bslk (sl_taken (me_pid (bk s)) (bslk (buf_at s i))))) s).
Proof. intros Hi Hq Hf Hn. unfold buf_lock. rewrite sleeplock_acquire_run by done. done. Qed.

(** The two ends of the ring, from its head. *)
Lemma ring_ends c l : ring c l -> nxt c head_buf = head (l ++ [head_buf]) /\ prv c head_buf = last (head_buf :: l) /\
  linked c (l ++ [head_buf]) /\ linked c (head_buf :: l).
Proof.
  intros (Hl & _). destruct (cons_app_last head_buf l) as (P & a & HP). pose proof Hl as Hl'.
  change (head_buf :: l ++ [head_buf]) with ((head_buf :: l) ++ [head_buf]) in Hl'.
  rewrite HP, <- app_assoc in Hl'. cbn in Hl'. apply linked_app in Hl' as (Hl1 & _ & Hp & _).
  split_and!; [destruct l; cbn in *; apply Hl|by rewrite HP, last_app_one|destruct l; cbn in *; apply Hl|by rewrite HP].
Qed.
(** The common end of buf_read(): the ring is unlocked and the buffer locked. *)
Lemma take_buf_run sl_fuel (s : bstate D) l hs (b : M (bstate D) nat) i f : bok s l hs -> (0 < sl_fuel)%nat ->
  (i < N_BUF)%nat -> i ∉ hs -> bslk (f (buf_at s i)) = bslk (buf_at s i) ->
  (zoom b_lk spinlock_release;;; buf_lock sl_fuel i;;; b) (upd_bnode i (upd_buf f) (b_locked s)) =
  b (upd_bnode i (upd_buf (fun b => set_bslk (sl_taken (me_pid (bk s)) (bslk (buf_at s i))) (f b))) s).
Proof.
  intros B Hfuel Hi Hni Hf. pose proof B as [Hq Hlk Hlen Hring Hperm Hhs Hidle Hheld Huniq].
  mrun (b_lk_release (upd_bnode i (upd_buf f) s) Hlk Hq).
  assert (buf_at (upd_bnode i (upd_buf f) s) i = f (buf_at s i)) as Hb.
  { rewrite buf_at_upd by (by eapply b_lt). by rewrite decide_True. }
  destruct (Hidle i Hi Hni) as (_ & Hsf & _).
  erewrite bind_run; [|apply buf_lock_run; [cbn; rewrite length_alter; by eapply b_lt|done|by rewrite Hb, Hf|done]].
  by rewrite Hb, Hf, upd_upd_bnode.
Qed.
Lemma buf_read_run sl_fuel (s : bstate D) l hs num : bok s l hs -> (0 < sl_fuel)%nat -> num <> BLOCK_NUM_UNUSED ->
  (forall i, i ∈ hs -> block_num (buf_at s i) <> num) ->
  buf_read sl_fuel num s =
  match choose s l num with Some i => Ret i (grab i num s) | None => Panic "buf_read: no free buf" end.
Proof.
  intros B Hfuel Hnum Hnh. pose proof B as [Hq Hlk Hlen Hring Hperm Hhs Hidle Hheld Huniq].
  unfold buf_read. mrun (b_lk_acquire s Hlk).
  destruct (ring_ends _ _ Hring) as (Hn & Hp & Hl1 & Hl2). destruct Hring as (_ & [Hh _]%NoDup_cons & _).
  assert (length l = N_BUF) as Hll by (by rewrite Hperm, length_seq).
  change (bnext (bnode_at (b_locked s) head_buf)) with (nxt (buf_cache s) head_buf). rewrite Hn.
  mrun (find_block_run (b_locked s) num l ring_fuel Hl1 Hh ltac:(rewrite Hll; unfold ring_fuel, N_BUF, N_BLOCK_BUF; lia)).
  unfold choose. change (fun i => block_num (buf_at (b_locked s) i) =? num) with (fun i => block_num (buf_at s i) =? num).
  destruct (find _ l) as [i|] eqn:Ehit.
  - apply find_some in Ehit as [Hin Hb]. apply Z.eqb_eq in Hb. apply list_elem_of_In in Hin. apply (elem_l _ _ _ _ B) in Hin.
    assert (i ∉ hs) as Hni by (intros Hx; by apply (Hnh i Hx)).
    destruct (Hidle i Hin Hni) as (Href & Hsf & Hdat). mstep. rewrite buf_at_locked, Href. unfold wr_buf, wr_bnode. mstep.
    rewrite (take_buf_run sl_fuel s l hs (ret i) i (set_buf_ref (u32 (0 + 1)))) by done. unfold ret, grab. f_equal.
    apply upd_bnode_ext. destruct (buf_at s i) as [sk bn da re]. cbn in *. subst.
    unfold set_bslk, set_buf_ref. cbn. f_equal. by apply Hdat.
  - mstep. change (bprev (bnode_at (b_locked s) head_buf)) with (prv (buf_cache s) head_buf). rewrite Hp.
    mrun (find_free_run (b_locked s) l ring_fuel Hl2 Hh ltac:(rewrite Hll; unfold ring_fuel, N_BUF, N_BLOCK_BUF; lia)).
    change (fun i => buf_ref (buf_at (b_locked s) i) =? 0) with (fun i => buf_ref (buf_at s i) =? 0).
    destruct (find _ (rev l)) as [i|] eqn:Efree; [|done].
    apply find_some in Efree as [Hin Hr]. apply in_rev, list_elem_of_In in Hin. apply (elem_l _ _ _ _ B) in Hin.
    apply Z.eqb_eq in Hr.
    assert (i ∉ hs) as Hni by (intros Hx; destruct (Hheld i Hx) as (? & _); lia).
    unfold wr_buf, wr_bnode. mstep. rewrite upd_upd_bnode.
    rewrite (take_buf_run sl_fuel s l hs (disk_rw i false;;; ret i) i (fun b => set_buf_ref 1 (set_block_num num b))) by done.
    unfold disk_rw. mstep. rewrite upd_upd_bnode. unfold grab. f_equal. apply upd_bnode_ext.
    rewrite buf_at_upd by (by eapply b_lt). rewrite decide_True by done. done.
Qed.

(** ** The invariant through the operations *)

Lemma choose_some s l hs num i : bok s l hs -> (forall i, i ∈ hs -> block_num (buf_at s i) <> num) ->
  choose s l num = Some i -> (i < N_BUF)%nat /\ i ∉ hs /\
  (forall j, (j < N_BUF)%nat -> j <> i -> num <> BLOCK_NUM_UNUSED -> block_num (buf_at s j) <> num).
Proof.
  intros B Hnh. unfold choose. destruct (find _ l) as [x|] eqn:E.
  - intros [= ->]. apply find_some in E as [Hin Hb]. apply list_elem_of_In, (elem_l _ _ _ _ B) in Hin. apply Z.eqb_eq in Hb.
    split_and!; [done|by intros Hx; apply (Hnh i Hx)|].
    intros j Hj Hne Hu Hbj. apply Hne. symmetry. apply (b_uniq _ _ _ B i j Hin Hj); congruence.
  - intros Hf. apply find_some in Hf as [Hin Hr]. apply in_rev, list_elem_of_In, (elem_l _ _ _ _ B) in Hin. apply Z.eqb_eq in Hr.
    split_and!; [done|intros Hx; destruct (b_held _ _ _ B i Hx) as (? & _); lia|].
    intros j Hj _ _ Hbj. apply (elem_l _ _ _ _ B), list_elem_of_In in Hj. pose proof (find_none _ _ E j Hj) as Hn. cbn in Hn.
    apply Z.eqb_neq in Hn. done.
Qed.

(** A free buffer is always found while fewer than 64 are held. *)
Lemma choose_free s l hs num : bok s l hs -> (length hs < N_BUF)%nat -> choose s l num <> None.
Proof.
  intros B Hlen. unfold choose. destruct (find _ l); [done|]. destruct (find _ (rev l)) eqn:E; [done|]. exfalso.
  assert (l ⊆ hs) as Hsub.
  { intros i Hi. destruct (decide (i ∈ hs)) as [|Hni]; [done|exfalso].
    apply (elem_l _ _ _ _ B) in Hi as Hi'. destruct (b_idle _ _ _ B i Hi' Hni) as (Hr & _).
    apply list_elem_of_In in Hi. apply in_rev in Hi.
    pose proof (find_none _ _ E i Hi) as Hn. cbn in Hn. rewrite Hr in Hn. done. }
  assert (NoDup l) as Hd by (destruct (b_ring _ _ _ B) as (_ & Hd & _); by apply NoDup_cons in Hd as [_ ?]).
  assert (length l <= length hs)%nat as Hle by (apply submseteq_length, NoDup_submseteq; [done|]; intros x; apply Hsub).
  rewrite (b_perm _ _ _ B), length_seq in Hle. lia.
Qed.

Lemma upd_bok (s : bstate D) l hs hs' i f :
  bok s l hs -> (i < N_BUF)%nat -> (NoDup hs' /\ forall j, j ∈ hs' -> (j < N_BUF)%nat) ->
  (forall j, j <> i -> j ∈ hs' <-> j ∈ hs) ->
  (let b := f (buf_at s i) in
   (i ∉ hs' -> buf_ref b = 0 /\ sl_free (bslk b) /\ (block_num b <> BLOCK_NUM_UNUSED -> data b = blk_get (disk s) (block_num b))) /\
   (i ∈ hs' -> buf_ref b = 1 /\ sl_held (me_pid (bk s)) (bslk b) /\ block_num b <> BLOCK_NUM_UNUSED /\
               Z.of_nat (length (data b)) = BLOCK_SIZE) /\
   (block_num b <> BLOCK_NUM_UNUSED -> forall j, (j < N_BUF)%nat -> j <> i -> block_num (buf_at s j) <> block_num b)) ->
  bok (upd_bnode i (upd_buf f) s) l hs'.
Proof.
  intros B Hi Hd Hhs (Hidle & Hheld & Huniq).
  assert (forall j, (j < N_BUF)%nat -> buf_at (upd_bnode i (upd_buf f) s) j = if decide (i = j) then f (buf_at s j) else buf_at s j) as Hat.
  { intros j Hj. apply buf_at_upd. by eapply b_lt. }
  split; try done.
  - apply B.
  - apply B.
  - cbn. rewrite length_alter. apply B.
  - cbn. apply ring_upd_buf, B.
  - apply B.
  - intros j Hj Hn. rewrite Hat by done. cbn [disk upd_bnode]. case_decide as E; [subst; by apply Hidle|].
    apply B; [done|]. by rewrite <- Hhs.
  - intros j Hj. pose proof (proj2 Hd j Hj) as Hjl. rewrite Hat by done. cbn [bk upd_bnode].
    case_decide as E; [subst; by apply Hheld|]. apply B. by rewrite <- Hhs.
  - intros j j' Hj Hj'. rewrite !Hat by done. do 2 case_decide; subst; try done.
    + intros Heq Hne. exfalso. by eapply (Huniq Hne j'); [| |symmetry].
    + intros Heq Hne. exfalso. rewrite Heq in Hne. by eapply (Huniq Hne j).
    + by apply B.
Qed.

Lemma grab_bok s l hs num i : bok s l hs -> num <> BLOCK_NUM_UNUSED ->
  (forall i, i ∈ hs -> block_num (buf_at s i) <> num) -> choose s l num = Some i ->
  i ∉ hs /\ (i < N_BUF)%nat /\ bok (grab i num s) l (i :: hs).
Proof.
  intros B Hnum Hnh Hc. destruct (choose_some _ _ _ _ _ B Hnh Hc) as (Hi & Hni & Hoth). split_and!; [done..|].
  destruct (b_hs _ _ _ B) as [Hd Hlt]. unfold grab. apply (upd_bok s l hs); [done|done| | |].
  - split; [by apply NoDup_cons|]. intros j Hj. apply elem_of_cons in Hj as [->|?]; [done|by apply Hlt].
  - intros j Hj. rewrite elem_of_cons. naive_solver.
  - cbn. destruct (b_idle _ _ _ B i Hi Hni) as (_ & Hsf & _). split_and!.
    + intros Hx. exfalso. apply Hx, list_elem_of_here.
    + intros _. split_and!; [done|by apply sl_taken_held|done|apply blk_len].
    + intros _ j Hj Hne. by apply Hoth.
Qed.

Lemma buf_holding_run s l hs i : bok s l hs -> i ∈ hs -> buf_holding i s = Ret true s.
Proof.
  intros B Hi. destruct (b_held _ _ _ B i Hi) as (_ & (Hl & Hf & Hp) & _). destruct (b_hs _ _ _ B) as [_ Hlt].
  unfold buf_holding. rewrite sleeplock_holding_run; [| |apply B|done].
  - cbn [lget b_slk b_k]. by rewrite Hl, Hp, Z.eqb_refl.
  - eapply b_lt; [done|]. by apply Hlt.
Qed.

Definition put_disk (s : bstate D) (num : Z) (l : list Z) : bstate D :=
  mkB (bk s) (buf_cache s) (lk_buf_cache s) (blk_put (disk s) num l).

Lemma buf_write_run s l hs i : bok s l hs -> i ∈ hs ->
  buf_write i s = Ret tt (put_disk s (block_num (buf_at s i)) (data (buf_at s i))) /\
  bok (put_disk s (block_num (buf_at s i)) (data (buf_at s i))) l hs.
Proof.
  intros B Hi. unfold buf_write. mrun (buf_holding_run s l hs i B Hi). unfold disk_rw. mstep. split; [done|].
  pose proof B as [Hq Hlk Hlen Hring Hperm Hhs Hidle Hheld Huniq]. split; try done.
  intros j Hj Hnj. destruct (Hidle j Hj Hnj) as (H1 & H2 & H3). split_and!; [done|done|].
  intros Hne. cbn [disk put_disk]. change (buf_at (put_disk s _ _) j) with (buf_at s j) in *.
  rewrite blk_get_ne; [by apply H3|]. intros Heq. apply Hnj. destruct (Hheld i Hi) as (_ & _ & Hu & _).
  rewrite <- (Huniq i j); [done|by apply Hhs|done|done|done].
Qed.

Lemma wr_data_bok s l hs i f : bok s l hs -> i ∈ hs ->
  Z.of_nat (length (f (data (buf_at s i)))) = BLOCK_SIZE ->
  wr_data i f s = Ret tt (upd_bnode i (upd_buf (fun b => set_data (f (data b)) b)) s) /\
  bok (upd_bnode i (upd_buf (fun b => set_data (f (data b)) b)) s) l hs.
Proof.
  intros B Hi Hlen. split; [done|]. destruct (b_hs _ _ _ B) as [Hd Hlt].
  destruct (b_held _ _ _ B i Hi) as (Hr & Hh & Hu & _).
  apply (upd_bok s l hs); try done; [by apply Hlt|]. cbn. split_and!; try done.
  intros _ j Hj Hne Heq. apply Hne. symmetry. apply (b_uniq _ _ _ B); [by apply Hlt|done|by symmetry|done].
Qed.

Lemma set_cache_bok s l l' hs c' : bok s l hs -> ring c' l' -> l' ≡ₚ l -> same_bufs (buf_cache s) c' ->
  bok (set_cache c' s) l' hs.
Proof.
  intros B Hr Hp [Hlen Hb]. assert (forall i, buf_at (set_cache c' s) i = buf_at s i) as Hat by (intros i; apply Hb).
  pose proof B as [Hq Hlk Hlen' Hring Hperm Hhs Hidle Hheld Huniq]. split; try done.
  - cbn. by rewrite Hlen.
  - by rewrite Hp.
  - intros i Hi Hn. rewrite Hat. by apply Hidle.
  - intros i Hi. rewrite Hat. by apply Hheld.
  - intros i j. rewrite !Hat. apply Huniq.
Qed.

(** The buffer after its release. *)
Definition released (b : buf) : buf := mkBuf (sl_given (bslk b)) (block_num b) (data b) 0.

(** The steps of buf_release, whatever the data of the buffer. *)
Lemma buf_release_steps s l hs i : bok s l hs -> i ∈ hs ->
  exists c' l1 l2, l = l1 ++ i :: l2 /\
    buf_release i s = Ret tt (set_cache c' (upd_bnode i (upd_buf released) s)) /\
    same_bufs (buf_cache (upd_bnode i (upd_buf released) s)) c' /\ ring c' (i :: l1 ++ l2).
Proof.
  intros B Hi. pose proof (b_hs _ _ _ B) as [Hd Hlt].
  pose proof (Hlt i Hi) as Hil. destruct (b_held _ _ _ B i Hi) as (Hr & Hh & Hu & Hlen).
  assert (i ∈ l) as Hin by (by eapply elem_l). apply list_elem_of_split in Hin as (l1 & l2 & Hl).
  set (s2 := upd_bnode i (upd_buf released) s).
  assert (ring (buf_cache (b_locked s2)) (l1 ++ i :: l2)) as Hring by (rewrite <- Hl; apply ring_upd_buf, B).
  destruct (insert_head_front i (b_locked s2) l1 l2 Hring) as (c' & Hins & Hr' & Hsame).
  exists c', l1, l2. split_and!; try done.
  unfold buf_release. mrun (buf_holding_run s l hs i B Hi).
  assert (buf_unlock i s = Ret tt (upd_bnode i (upd_buf (set_bslk (sl_given (bslk (buf_at s i))))) s)) as Hun.
  { unfold buf_unlock. erewrite sleeplock_release_run; [done| |apply B|done|done]. by eapply b_lt. }
  mrun Hun. mrun (b_lk_acquire (upd_bnode i (upd_buf (set_bslk (sl_given (bslk (buf_at s i))))) s) (b_lkf _ _ _ B)).
  unfold wr_buf, wr_bnode. mstep. rewrite buf_at_locked.
  assert (forall s' : bstate D, buf_ref (buf_at s' i) = 1 -> buf_ref (buf_at s' i) - 1 = 0) as Hsub by (intros; lia).
  rewrite (Hsub (upd_bnode i (upd_buf (set_bslk (sl_given (bslk (buf_at s i))))) s)).
  2:{ rewrite buf_at_upd by (by eapply b_lt). by rewrite decide_True. }
  assert (upd_bnode i (upd_buf (set_buf_ref (u32 0)))
     (b_locked (upd_bnode i (upd_buf (set_bslk (sl_given (bslk (buf_at s i))))) s)) = b_locked s2) as ->.
  { change (upd_bnode i (upd_buf (set_buf_ref (u32 0))) (b_locked ?x)) with (b_locked (upd_bnode i (upd_buf (set_buf_ref (u32 0))) x)).
    rewrite upd_upd_bnode. f_equal. apply upd_bnode_ext. done. }
  rewrite buf_at_locked. unfold s2 at 1. rewrite buf_at_upd by (by eapply b_lt). rewrite decide_True by done. cbn [released buf_ref Z.eqb].
  mstep. mrun Hins. change (set_cache c' (b_locked s2)) with (b_locked (set_cache c' s2)).
  apply b_lk_release; apply B.
Qed.
Lemma buf_release_run s l hs i hs' : bok s l hs -> hs ≡ₚ i :: hs' ->
  data (buf_at s i) = blk_get (disk s) (block_num (buf_at s i)) ->
  exists c' l1 l2, l = l1 ++ i :: l2 /\
    buf_release i s = Ret tt (set_cache c' (upd_bnode i (upd_buf released) s)) /\
    same_bufs (buf_cache (upd_bnode i (upd_buf released) s)) c' /\
    bok (set_cache c' (upd_bnode i (upd_buf released) s)) (i :: l1 ++ l2) hs'.
Proof.
  intros B Hhs Hco. pose proof (b_hs _ _ _ B) as [Hd Hlt]. assert (i ∈ hs) as Hi by (rewrite Hhs; apply list_elem_of_here).
  destruct (buf_release_steps s l hs i B Hi) as (c' & l1 & l2 & Hl & Hrun & Hsame & Hring). exists c', l1, l2. split_and!; try done.
  destruct (b_held _ _ _ B i Hi) as (_ & Hh & Hu & _).
  assert (i ∉ hs' /\ NoDup hs') as [Hni Hd'] by (rewrite Hhs in Hd; by apply NoDup_cons in Hd).
  assert (bok (upd_bnode i (upd_buf released) s) l hs') as B2.
  { apply (upd_bok s l hs); [done|by apply Hlt| | |].
    - split; [done|]. intros j Hj. apply Hlt. rewrite Hhs. by apply list_elem_of_further.
    - intros j Hj. rewrite Hhs, elem_of_cons. naive_solver.
    - cbn. split_and!; [|done|].
      + intros _. split_and!; [done|by eapply sl_given_free|done].
      + intros _ j Hj Hne Heq. apply Hne. symmetry. apply (b_uniq _ _ _ B); [by apply Hlt|done|by symmetry|done]. }
  eapply set_cache_bok; [done|done| |done]. rewrite Hl. by rewrite Permutation_middle.
Qed.

(** ** The interface of the cache to its clients

    The clients see the disk and the buffers they hold. *)

Definition binv (hs : list nat) (s : bstate D) : Prop := exists l, bok s l hs.
(** The kernel part and the buffers of [hs] are the same. *)
Definition bframe (hs : list nat) (s s' : bstate D) : Prop :=
  bk s' = bk s /\ forall j, j ∈ hs -> buf_at s' j = buf_at s j.
Lemma bframe_trans hs s1 s2 s3 : bframe hs s1 s2 -> bframe hs s2 s3 -> bframe hs s1 s3.
Proof. intros [H1 H2] [H3 H4]. split; [congruence|]. intros j Hj. by rewrite H4, H2. Qed.

(** Block [num] can be read next. *)
Definition readable_block (hs : list nat) (num : Z) (s : bstate D) : Prop :=
  num <> BLOCK_NUM_UNUSED /\ (length hs < N_BUF)%nat /\ forall i, i ∈ hs -> block_num (buf_at s i) <> num.
Lemma readable_frame hs num s s' : bframe hs s s' -> readable_block hs num s -> readable_block hs num s'.
Proof. intros [_ H] (H1 & H2 & H3). split_and!; [done..|]. intros i Hi. rewrite H by done. by apply H3. Qed.

Lemma bread_spec sl_fuel hs num s : binv hs s -> readable_block hs num s -> (0 < sl_fuel)%nat ->
  exists i s', buf_read sl_fuel num s = Ret i s' /\ binv (i :: hs) s' /\ i ∉ hs /\ bframe hs s s' /\ disk s' = disk s /\
    block_num (buf_at s' i) = num /\ data (buf_at s' i) = blk_get (disk s) num.
Proof.
  intros [l B] (Hnum & Hlen & Hnh) Hf.
  destruct (choose s l num) as [i|] eqn:Hc; [|by destruct (choose_free s l hs num B Hlen)].
  destruct (grab_bok s l hs num i B Hnum Hnh Hc) as (Hni & Hi & B').
  exists i, (grab i num s). rewrite (buf_read_run sl_fuel s l hs num) by done. rewrite Hc.
  assert (forall j, (j < N_BUF)%nat -> buf_at (grab i num s) j = if decide (i = j) then
    mkBuf (sl_taken (me_pid (bk s)) (bslk (buf_at s j))) num (blk_get (disk s) num) 1 else buf_at s j) as Hat.
  { intros j Hj. unfold grab. apply buf_at_upd. by eapply b_lt. }
  split_and!; try done.
  - by exists l.
  - split; [done|]. intros j Hj. rewrite Hat by (by apply (b_hs _ _ _ B)). by rewrite decide_False by (by intros ->).
  - by rewrite Hat, decide_True by done.
  - by rewrite Hat, decide_True by done.
Qed.

Lemma brelse_spec i hs s : binv (i :: hs) s -> data (buf_at s i) = blk_get (disk s) (block_num (buf_at s i)) ->
  exists s', buf_release i s = Ret tt s' /\ binv hs s' /\ bframe hs s s' /\ disk s' = disk s.
Proof.
  intros [l B] Hco. destruct (buf_release_run s l (i :: hs) i hs B) as (c' & l1 & l2 & _ & Hrun & Hsame & B'); [done|done|].
  eexists. split; [done|]. split_and!; [by eexists| |done]. split; [done|].
  intros j Hj. destruct (b_hs _ _ _ B) as [Hd Hlt]. apply NoDup_cons in Hd as [Hni _].
  transitivity (buf_at (upd_bnode i (upd_buf released) s) j); [apply Hsame|].
  rewrite buf_at_upd by (eapply b_lt; [done|]; apply Hlt; by apply list_elem_of_further).
  by rewrite decide_False by (by intros ->).
Qed.

(** Changing the data of a held buffer and writing it through. *)
Lemma bupdate_spec i hs s f : binv (i :: hs) s ->
  Z.of_nat (length (f (data (buf_at s i)))) = BLOCK_SIZE ->
  exists s', (wr_data i f;;; buf_write i) s = Ret tt s' /\ binv (i :: hs) s' /\ bframe hs s s' /\
    disk s' = blk_put (disk s) (block_num (buf_at s i)) (f (data (buf_at s i))) /\
    block_num (buf_at s' i) = block_num (buf_at s i) /\ data (buf_at s' i) = f (data (buf_at s i)).
Proof.
  intros [l B] Hlen. assert (i ∈ i :: hs) as Hin by apply list_elem_of_here.
  destruct (wr_data_bok s l _ i f B Hin Hlen) as [Hrun B1].
  destruct (buf_write_run _ l _ i B1 Hin) as [Hrun2 B2].
  destruct (b_hs _ _ _ B) as [Hd Hlt]. apply NoDup_cons in Hd as [Hni _].
  assert (buf_at (upd_bnode i (upd_buf (fun b => set_data (f (data b)) b)) s) i = set_data (f (data (buf_at s i))) (buf_at s i)) as Hat.
  { rewrite buf_at_upd by (eapply b_lt; [done|by apply Hlt]). by rewrite decide_True. }
  eexists. split; [mrun Hrun; apply Hrun2|]. split_and!; [by eexists| | |exact (f_equal block_num Hat)|exact (f_equal data Hat)].
  - split; [done|]. intros j Hj.
    transitivity (buf_at (upd_bnode i (upd_buf (fun b => set_data (f (data b)) b)) s) j); [done|].
    rewrite buf_at_upd by (eapply b_lt; [done|]; apply Hlt; by apply list_elem_of_further).
    by rewrite decide_False by (by intros ->).
  - cbn [disk put_disk]. by rewrite Hat.
Qed.

(** Reading a block, and reading, changing and writing back a block, as the
    routines above the cache do. *)
Definition block_get (sl_fuel : nat) (num : Z) : M (bstate D) (list Z) :=
  let* b := buf_read sl_fuel num in
  let* l := rd_data b in
  buf_release b;;;
  ret l.
Lemma block_get_spec sl_fuel hs num s : binv hs s -> readable_block hs num s -> (0 < sl_fuel)%nat ->
  exists s', block_get sl_fuel num s = Ret (blk_get (disk s) num) s' /\ binv hs s' /\ bframe hs s s' /\ disk s' = disk s.
Proof.
  intros B Hr Hf. destruct (bread_spec sl_fuel hs num s B Hr Hf) as (i & s1 & Hrun & B1 & Hni & Hfr & Hd & Hbn & Hda).
  destruct (brelse_spec i hs s1 B1) as (s2 & Hrel & B2 & Hfr2 & Hd2); [by rewrite Hbn, Hda, Hd|].
  exists s2. split_and!; [|done|by eapply bframe_trans|congruence].
  unfold block_get, rd_data. mrun Hrun. rewrite Hda. mrun Hrel. done.
Qed.
Definition block_update (sl_fuel : nat) (num : Z) (f : list Z -> list Z) : M (bstate D) unit :=
  let* b := buf_read sl_fuel num in
  wr_data b f;;;
  buf_write b;;;
  buf_release b.
Lemma block_update_spec sl_fuel hs num f s : binv hs s -> readable_block hs num s -> (0 < sl_fuel)%nat ->
  Z.of_nat (length (f (blk_get (disk s) num))) = BLOCK_SIZE ->
  exists s', block_update sl_fuel num f s = Ret tt s' /\ binv hs s' /\ bframe hs s s' /\
    disk s' = blk_put (disk s) num (f (blk_get (disk s) num)).
Proof.
  intros B Hr Hf Hlen. destruct (bread_spec sl_fuel hs num s B Hr Hf) as (i & s1 & Hrun & B1 & Hni & Hfr & Hd & Hbn & Hda).
  destruct (bupdate_spec i hs s1 f B1) as (s2 & Hup & B2 & Hfr2 & Hd2 & Hbn2 & Hda2); [by rewrite Hda|].
  destruct (brelse_spec i hs s2 B2) as (s3 & Hrel & B3 & Hfr3 & Hd3).
  { rewrite Hda2, Hbn2, Hd2, Hda, Hbn. symmetry. by apply blk_get_eq. }
  exists s3. split_and!; [|done|by do 2 (eapply bframe_trans; [done|])|by rewrite Hd3, Hd2, Hbn, Hda, Hd].
  unfold block_update. mrun Hrun. rewrite <- (bind_assoc (wr_data i f)). by mrun Hup.
Qed.

(** ** buf_init *)

(** The cache at boot: zeroed nodes. *)
Definition fresh_cache (s : bstate D) : Prop :=
  length (buf_cache s) = S N_BUF /\ forall x, nxt (buf_cache s) x = None.
(** Buffer as buf_init leaves it. *)
Definition init_buf (b : buf) : buf := mkBuf (sleeplock_init "buf") BLOCK_NUM_UNUSED (data b) 0.

(** The ring of the first [n] buffers; the others are still untouched. *)
Definition init_inv (s0 : bstate D) (n : nat) (s : bstate D) : Prop :=
  exists c, s = set_cache c s0 /\ length c = S N_BUF /\ ring c (seq 0 n) /\
    (forall x, (x < n)%nat -> bbuf (node_of c x) = init_buf (buf_at s0 x)) /\
    (forall x, (n <= x)%nat -> x <> head_buf -> node_of c x = bnode_at s0 x).

Lemma init_step s0 n s : (n < N_BUF)%nat -> fresh_cache s0 -> init_inv s0 n s ->
  exists s', (wr_buf n (set_block_num BLOCK_NUM_UNUSED);;; wr_buf n (set_buf_ref 0);;;
    wr_buf n (set_bslk (sleeplock_init "buf"));;; insert_head n false) s = Ret tt s' /\ init_inv s0 (S n) s'.
Proof.
  intros Hn [_ Hnone] (c & -> & Hlen & Hring & Hdone & Htodo). unfold wr_buf, wr_bnode. mstep.
  rewrite !upd_upd_bnode. set (f := fun b : buf => _).
  set (c1 := alter (upd_buf f) n c). change (upd_bnode n (upd_buf f) (set_cache c s0)) with (set_cache c1 s0).
  assert (n <> head_buf) as Hnh by (unfold head_buf, N_BUF, N_BLOCK_BUF in *; lia).
  assert (n < length c)%nat as Hnl by lia.
  assert (n ∉ head_buf :: seq 0 n) as Hni.
  { rewrite elem_of_cons, elem_of_seq. lia. }
  assert (nxt c1 n = None) as Hnx.
  { unfold nxt, c1. rewrite node_of_alter by done. rewrite decide_True by done. cbn. rewrite Htodo by (done || lia).
    apply (Hnone n). }
  destruct (insert_head_back n (set_cache c1 s0) (seq 0 n)) as (c2 & Hins & Hr2 & [Hl2 Hsame] & Hoth);
    [by apply ring_upd_buf|done|unfold c1; cbn; by rewrite length_alter|done|].
  cbn [buf_cache set_cache] in *.
  exists (set_cache c2 s0). split; [exact Hins|]. exists c2. split_and!; [done| | | |].
  - rewrite Hl2. unfold c1. by rewrite length_alter.
  - rewrite seq_S. done.
  - intros x Hx. rewrite Hsame. unfold c1. rewrite node_of_alter by lia. case_decide as E.
    + subst. cbn. rewrite Htodo by (done || lia). done.
    + apply Hdone. lia.
  - intros x Hx Hxh. rewrite Hoth by (rewrite !elem_of_cons, elem_of_seq; lia).
    unfold c1. unfold node_of. rewrite list_lookup_alter_ne by lia. apply Htodo; [lia|done].
Qed.

Lemma buf_init_run s : fresh_cache s -> quiet (bk s) ->
  exists s', buf_init s = Ret tt s' /\ bok s' (seq 0 N_BUF) [] /\ bk s' = bk s /\ disk s' = disk s /\
    forall i, (i < N_BUF)%nat -> buf_at s' i = init_buf (buf_at s i).
Proof.
  intros Hfr Hq. pose proof Hfr as [Hlen Hnone]. unfold buf_init, wr_bnode. mstep.
  set (s1 := mkB (bk s) (buf_cache s) (spinlock_init "buf_cache") (disk s)).
  set (c0 := alter (set_bprev (Some head_buf)) head_buf (alter (set_bnext (Some head_buf)) head_buf (buf_cache s))).
  change (upd_bnode head_buf (set_bprev (Some head_buf)) (upd_bnode head_buf (set_bnext (Some head_buf)) s1)) with (set_cache c0 s1).
  assert (head_buf < length (buf_cache s))%nat as Hh by (rewrite Hlen; unfold head_buf, N_BUF, N_BLOCK_BUF; lia).
  set (body := fun z : Z => let i := Z.to_nat z in _).
  destruct (for_inv (init_inv s1) (Z.to_nat N_BLOCK_BUF) 0 1 body (set_cache c0 s1)) as (s' & Hrun & c & -> & Hl & Hr & Hdone & _).
  - exists c0. split_and!; [done|unfold c0; by rewrite !length_alter| | |].
    + split_and!; [|apply NoDup_singleton|apply Forall_singleton; unfold c0; by rewrite !length_alter].
      unfold c0. cbn [app seq linked]. split_and!; [|apply prv_set_prev; by rewrite length_alter|done].
      rewrite nxt_set_prev, nxt_set_next by (rewrite ?length_alter; done). done.
    + intros x Hx. lia.
    + intros x _ Hx. unfold c0, node_of. by rewrite !list_lookup_alter_ne by congruence.
  - intros n s' Hn HI. rewrite Z.mul_1_r, Z.add_0_l. unfold body. cbn zeta. rewrite Nat2Z.id. by apply init_step.
  - fold N_BUF in *. exists (set_cache c s1). split; [done|].
    assert (forall i, (i < N_BUF)%nat -> buf_at (set_cache c s1) i = init_buf (buf_at s i)) as Hat by (intros i Hi; by apply Hdone).
    split_and!; try done. split; try done.
    + split; [apply NoDup_nil_2|]. intros i Hi. by apply not_elem_of_nil in Hi.
    + intros i Hi _. rewrite Hat by done. done.
    + intros i Hi. by apply not_elem_of_nil in Hi.
    + intros i j Hi Hj _ Hne. by rewrite Hat in Hne by done.
Qed.
End bufspec.


(** ** Properties *)

(** A machine without processes in the kernel and an empty disk. *)
Definition calm : kstate := mkK (set_pcpu idle_cpu blank_pmem) demo_repo (replicate 64 dummy_proc) None 1 (spinlock_init "pid").
Lemma calm_proc i : proc_at calm i = dummy_proc.
Proof.
  unfold proc_at, calm. cbn [procs]. destruct (decide (i < 64)%nat).
  - by rewrite lookup_replicate_2.
  - rewrite lookup_ge_None_2; [done|]. rewrite length_replicate. lia.
Qed.
Lemma calm_quiet : quiet calm.
Proof.
  split; [unfold cpu_wf; cbn; lia|reflexivity|reflexivity|intros i; rewrite calm_proc; by split|].
  intros i ch. rewrite calm_proc. cbn. congruence.
Qed.
Definition power_on : bstate block_map := mkB calm (replicate 65 blank_node) (spinlock_init "") ∅.
Lemma power_on_fresh : fresh_cache power_on.
Proof.
  split; [reflexivity|]. intros x. unfold nxt, node_of, power_on. cbn [buf_cache].
  destruct (decide (x < 65)%nat).
  - by rewrite lookup_replicate_2.
  - rewrite lookup_ge_None_2; [done|]. rewrite length_replicate. lia.
Qed.

(** buf_init links all 64 buffers into one ring in index order, every buffer
    unused, unreferenced and unlocked, and leaves the disk alone: the invariant of
    the cache holds with nothing held. *)
Theorem buf_init_ring {D : Type} {HD : BlockDev D} (s : bstate D) : fresh_cache s -> quiet (bk s) ->
  exists s', buf_init s = Ret tt s' /\ ring (buf_cache s') (seq 0 N_BUF) /\ binv [] s' /\ disk s' = disk s /\
    forall i, (i < N_BUF)%nat -> block_num (buf_at s' i) = BLOCK_NUM_UNUSED /\ buf_ref (buf_at s' i) = 0.
Proof.
  intros Hf Hq. destruct (buf_init_run s Hf Hq) as (s' & Hrun & B & _ & Hd & Hat). exists s'.
  split_and!; [done|apply B|by eexists|done|]. intros i Hi. by rewrite Hat.
Qed.
Lemma buf_init_ring_witness :
  exists s', buf_init power_on = Ret tt s' /\ ring (buf_cache s') (seq 0 64) /\ block_num (buf_at s' 63) = 0xFFFFFFFF.
Proof.
  destruct (buf_init_ring power_on power_on_fresh calm_quiet) as (s' & H1 & H2 & _ & _ & H5).
  exists s'. split; [exact H1|]. split; [exact H2|]. apply H5. unfold N_BUF, N_BLOCK_BUF. lia.
Defined.

(** buf_read in terms of the ring: the buffer that caches the block, or else the last one of the
    ring that nobody holds. *)
Lemma buf_read_cases {D : Type} {HD : BlockDev D} sl_fuel (s : bstate D) l hs num : bok s l hs -> (0 < sl_fuel)%nat ->
  num <> BLOCK_NUM_UNUSED -> (forall i, i ∈ hs -> block_num (buf_at s i) <> num) ->
  (exists i s', buf_read sl_fuel num s = Ret i s' /\ i ∉ hs /\ bok s' l (i :: hs) /\ bframe hs s s' /\ disk s' = disk s /\
     block_num (buf_at s' i) = num /\ data (buf_at s' i) = blk_get (disk s) num /\
     (block_num (buf_at s i) = num \/
      (forall j, (j < N_BUF)%nat -> block_num (buf_at s j) <> num) /\ exists l1 l2, l = l1 ++ i :: l2 /\ forall j, j ∈ l2 -> j ∈ hs)) \/
  (buf_read sl_fuel num s = Panic "buf_read: no free buf" /\ (forall j, (j < N_BUF)%nat -> block_num (buf_at s j) <> num) /\
     forall j, (j < N_BUF)%nat -> j ∈ hs).
Proof.
  intros B Hf Hnum Hnh. rewrite (buf_read_run sl_fuel s l hs num) by done.
  assert (forall j, (j < N_BUF)%nat -> buf_ref (buf_at s j) =? 0 = false -> j ∈ hs) as Href.
  { intros j Hj Hr. destruct (decide (j ∈ hs)); [done|]. destruct (b_idle _ _ _ B j) as (H0 & _); [done..|]. by rewrite H0 in Hr. }
  assert (forall E : find (fun i => block_num (buf_at s i) =? num) l = None,
    forall j, (j < N_BUF)%nat -> block_num (buf_at s j) <> num) as Hmiss.
  { intros E j Hj. apply (elem_l _ _ _ _ B), list_elem_of_In in Hj. apply Z.eqb_neq. by apply (find_none _ _ E). }
  destruct (choose s l num) as [i|] eqn:Hc.
  - left. destruct (grab_bok s l hs num i B Hnum Hnh Hc) as (Hni & Hi & B').
    destruct (bread_spec sl_fuel hs num s) as (i' & s' & Hrun & _ & _ & Hfr & Hd & Hbn & Hda).
    { by eexists. } { split_and!; [done| |done]. destruct (b_hs _ _ _ B') as [Hd Hlt]. cbn in Hlt.
      assert (i :: hs ⊆+ seq 0 N_BUF) as Hs.
      { apply NoDup_submseteq; [done|]. intros x Hx. apply elem_of_seq. apply Hlt in Hx. lia. }
      apply submseteq_length in Hs. rewrite length_seq in Hs. cbn in Hs. lia. } { done. }
    rewrite (buf_read_run sl_fuel s l hs num), Hc in Hrun by done. injection Hrun as <- <-.
    exists i, (grab i num s). split_and!; try done. revert Hc. unfold choose. destruct (find _ l) as [x|] eqn:E.
    + intros [= ->]. left. apply find_some in E as [_ E]. by apply Z.eqb_eq in E.
    + intros Hfree. right. split; [by apply Hmiss|].
      assert (exists l1 l2, rev l = l1 ++ i :: l2 /\ forall j, j ∈ l1 -> buf_ref (buf_at s j) =? 0 = false) as (l1 & l2 & Hrev & Hl1).
      { clear -Hfree. induction (rev l) as [|x m IH]; [done|]. cbn in Hfree. destruct (buf_ref (buf_at s x) =? 0) eqn:E.
        - injection Hfree as ->. exists [], m. split; [done|]. intros j Hj. by apply not_elem_of_nil in Hj.
        - destruct (IH Hfree) as (l1 & l2 & -> & H). exists (x :: l1), l2. split; [done|].
          intros j Hj. apply elem_of_cons in Hj as [->|?]; [done|by apply H]. }
      exists (rev l2), (rev l1). split.
      * rewrite <- (rev_involutive l), Hrev, rev_app_distr. cbn. by rewrite <- app_assoc.
      * intros j Hj. apply list_elem_of_In, in_rev, list_elem_of_In in Hj. apply Href; [|by apply Hl1].
        apply (elem_l _ _ _ _ B), list_elem_of_In, in_rev. rewrite Hrev. apply in_or_app. left. by apply list_elem_of_In.
  - right. unfold choose in Hc. destruct (find _ l) eqn:E; [done|]. split_and!; [done|by apply Hmiss|].
    intros j Hj. apply Href; [done|]. apply (elem_l _ _ _ _ B), list_elem_of_In, in_rev in Hj. by apply (find_none _ _ Hc).
Qed.

(** ** Least recently released *)

(** The ring [l] after buffer [i] has moved to the front. *)
Definition to_front (i : nat) (l : list nat) : list nat := i :: filter (fun x => x <> i) l.
(** [j] comes before [i] in [l]. *)
Fixpoint before (l : list nat) (j i : nat) : Prop :=
  match l with [] => False | x :: l => x = j /\ i ∈ l \/ before l j i end.
(** With [rel] the releases so far, the latest first, and [l0] the ring at the start: the last
    release of [j] is later than that of [i], if it had one; or neither was ever released. *)
Definition released_after (l0 rel : list nat) (j i : nat) : Prop :=
  (exists r1 r2, rel = r1 ++ j :: r2 /\ i ∉ r1 ++ [j]) \/ (i ∉ rel /\ j ∉ rel /\ before l0 j i).

Lemma before_in l j i : before l j i -> j ∈ l /\ i ∈ l.
Proof. induction l as [|x l IH]; [done|]. cbn. rewrite !elem_of_cons. naive_solver. Qed.
Lemma before_filter (P : nat -> Prop) `{forall x, Decision (P x)} l j i : before (filter P l) j i -> before l j i.
Proof.
  induction l as [|x l IH]; [done|]. rewrite filter_cons. case_decide; cbn; [|by right; apply IH].
  intros [[-> Hi]|Hb]; [left|right; by apply IH]. apply list_elem_of_filter in Hi. naive_solver.
Qed.
Lemma before_app l1 i l2 j : j ∈ l1 -> before (l1 ++ i :: l2) j i.
Proof.
  induction l1 as [|x l1 IH]; intros Hj; [by apply not_elem_of_nil in Hj|]. cbn. apply elem_of_cons in Hj as [->|Hj]; [left|right; by apply IH].
  split; [done|]. apply elem_of_app. right. apply list_elem_of_here.
Qed.
(** The order of the ring is the order of the last releases. *)
Lemma ring_order l0 rel j i : j <> i -> before (foldr to_front l0 rel) j i -> released_after l0 rel j i.
Proof.
  intros Hne. induction rel as [|k rel IH]; cbn [foldr to_front before].
  - intros H. right. split_and!; [apply not_elem_of_nil|apply not_elem_of_nil|done].
  - intros [[-> Hi]|Hb].
    + left. exists [], rel. split; [done|]. cbn. by rewrite list_elem_of_singleton.
    + pose proof (before_in _ _ _ Hb) as [Hj%list_elem_of_filter Hi%list_elem_of_filter].
      destruct (IH (before_filter _ _ _ _ Hb)) as [(r1 & r2 & -> & Hr)|(H1 & H2 & H3)].
      * left. exists (k :: r1), r2. split; [done|]. cbn. rewrite elem_of_cons. naive_solver.
      * right. rewrite !elem_of_cons. naive_solver.
Qed.
Lemma filter_absent (i : nat) (l : list nat) : i ∉ l -> filter (fun x => x <> i) l = l.
Proof. induction l as [|x l IH]; [done|]. intros H. rewrite not_elem_of_cons in H. rewrite filter_cons_True by naive_solver. by rewrite IH by naive_solver. Qed.
Lemma to_front_split l1 i l2 : NoDup (l1 ++ i :: l2) -> to_front i (l1 ++ i :: l2) = i :: l1 ++ l2.
Proof.
  intros (H1 & H2 & [H3 _]%NoDup_cons)%NoDup_app. unfold to_front. f_equal. rewrite filter_app, filter_cons_False by tauto.
  rewrite !filter_absent; [done|done|].
  intros Hx. apply (H2 i Hx), list_elem_of_here.
Qed.

(** What processes do with the cache: read a block, change a buffer they hold and write it, release
    it.  [hs] are the buffers held and [rel] the releases so far, the latest first. *)
Inductive cache_run {D : Type} {HD : BlockDev D} (sl_fuel : nat) (s0 : bstate D) : list nat -> list nat -> bstate D -> Prop :=
| run_start : cache_run sl_fuel s0 [] [] s0
| run_read num i hs rel s s' : cache_run sl_fuel s0 hs rel s -> readable_block hs num s ->
    buf_read sl_fuel num s = Ret i s' -> cache_run sl_fuel s0 (i :: hs) rel s'
| run_write i f hs rel s s' : cache_run sl_fuel s0 hs rel s -> i ∈ hs -> Z.of_nat (length (f (data (buf_at s i)))) = BLOCK_SIZE ->
    (wr_data i f;;; buf_write i) s = Ret tt s' -> cache_run sl_fuel s0 hs rel s'
| run_release i hs hs' rel s s' : cache_run sl_fuel s0 hs rel s -> hs ≡ₚ i :: hs' ->
    data (buf_at s i) = blk_get (disk s) (block_num (buf_at s i)) ->
    buf_release i s = Ret tt s' -> cache_run sl_fuel s0 hs' (i :: rel) s'.
Lemma cache_run_bok {D : Type} {HD : BlockDev D} sl_fuel (s0 : bstate D) l0 hs rel s : (0 < sl_fuel)%nat -> bok s0 l0 [] ->
  cache_run sl_fuel s0 hs rel s -> bok s (foldr to_front l0 rel) hs.
Proof.
  intros Hf B0. induction 1 as [|num i hs rel s s' _ B (Hnum & _ & Hnh) Hrun|i f hs rel s s' _ B Hi Hlen Hrun|i hs hs' rel s s' _ B Hp Hco Hrun]; [done| | |].
  - destruct (buf_read_cases sl_fuel s _ hs num B Hf Hnum Hnh) as [(i' & s1 & H1 & _ & B1 & _)|(H1 & _)]; congruence.
  - destruct (wr_data_bok s _ hs i f B Hi Hlen) as [H1 B1]. destruct (buf_write_run _ _ hs i B1 Hi) as [H2 B2].
    rewrite (bind_run _ _ _ _ _ H1), H2 in Hrun. by injection Hrun as <-.
  - destruct (buf_release_run s _ hs i hs' B Hp Hco) as (c' & l1 & l2 & Hl & H1 & _ & B1).
    rewrite H1 in Hrun. injection Hrun as <-. cbn [foldr]. rewrite Hl in *. rewrite to_front_split; [done|].
    destruct (b_ring _ _ _ B) as (_ & Hd & _). by apply NoDup_cons in Hd as [_ ?].
Qed.

(** C11 buf_read returns a locked buffer that holds the current contents of the
    block, after any sequence of reads, writes and releases.  It is the buffer that
    already caches the block when there is one, and otherwise the least recently
    released buffer that nobody holds: every other buffer nobody holds was released
    after its last release.  It panics exactly when the block is not cached and
    every buffer is held.  The buffers that were held are not touched. *)
Theorem buf_read_lru {D : Type} {HD : BlockDev D} sl_fuel (s0 s : bstate D) l0 hs rel num :
  bok s0 l0 [] -> (0 < sl_fuel)%nat -> cache_run sl_fuel s0 hs rel s ->
  num <> BLOCK_NUM_UNUSED -> (forall i, i ∈ hs -> block_num (buf_at s i) <> num) ->
  (exists i s', buf_read sl_fuel num s = Ret i s' /\ i ∉ hs /\ bok s' (foldr to_front l0 rel) (i :: hs) /\ bframe hs s s' /\ disk s' = disk s /\
     block_num (buf_at s' i) = num /\ data (buf_at s' i) = blk_get (disk s) num /\
     (block_num (buf_at s i) = num \/
      (forall j, (j < N_BUF)%nat -> block_num (buf_at s j) <> num) /\
      forall j, (j < N_BUF)%nat -> j ∉ hs -> j <> i -> released_after l0 rel j i)) \/
  (buf_read sl_fuel num s = Panic "buf_read: no free buf" /\ (forall j, (j < N_BUF)%nat -> block_num (buf_at s j) <> num) /\
     forall j, (j < N_BUF)%nat -> j ∈ hs).
Proof.
  intros B0 Hf Hrun Hnum Hnh. pose proof (cache_run_bok sl_fuel s0 l0 hs rel s Hf B0 Hrun) as B.
  destruct (buf_read_cases sl_fuel s _ hs num B Hf Hnum Hnh) as [(i & s' & H1 & H2 & H3 & H4 & H5 & H6 & H7 & H8)|H]; [left|by right].
  exists i, s'. split_and!; try done. destruct H8 as [?|(H8 & l1 & l2 & Hl & Hl2)]; [by left|right]. split; [done|].
  intros j Hj Hjh Hji. apply ring_order; [done|]. rewrite Hl. apply before_app.
  apply (elem_l _ _ _ _ B) in Hj. rewrite Hl in Hj. apply elem_of_app in Hj as [?|[?|?]%elem_of_cons]; [done|done|by destruct Hjh; apply Hl2].
Qed.
(** Blocks 7 and 8 are read and released in turn; of their buffers that of block 7 was released first. *)
Lemma buf_read_lru_witness :
  exists s a b s4 i s5, buf_init power_on = Ret tt s /\ cache_run 1 s [] [b; a] s4 /\
    buf_read 1 9 s4 = Ret i s5 /\ data (buf_at s5 i) = blk_get (∅ : block_map) 9.
Proof.
  destruct (buf_init_run power_on power_on_fresh calm_quiet) as (s & H1 & B & _ & Hd & _).
  assert (forall n (s' : bstate block_map), n = 7 \/ n = 8 \/ n = 9 -> readable_block [] n s') as Hr.
  { intros n s' Hn. split; [unfold BLOCK_NUM_UNUSED; lia|]. split; [unfold N_BUF, N_BLOCK_BUF; cbn; lia|].
    intros i Hi. destruct (not_elem_of_nil i Hi). }
  destruct (bread_spec 1 [] 7 s (ex_intro _ _ B) (Hr 7 s ltac:(lia)) ltac:(lia)) as (a & s1 & R1 & B1 & _ & _ & D1 & N1 & C1).
  destruct (brelse_spec a [] s1 B1) as (s2 & R2 & B2 & _ & D2); [rewrite C1, N1, D1; reflexivity|].
  destruct (bread_spec 1 [] 8 s2 B2 (Hr 8 s2 ltac:(lia)) ltac:(lia)) as (b & s3 & R3 & B3 & _ & _ & D3 & N3 & C3).
  destruct (brelse_spec b [] s3 B3) as (s4 & R4 & B4 & _ & D4); [rewrite C3, N3, D3; reflexivity|].
  assert (cache_run 1 s [] [b; a] s4) as Hrun.
  { eapply run_release; [|reflexivity|rewrite C3, N3, D3; reflexivity|exact R4]. eapply run_read; [|apply (Hr 8); lia|exact R3].
    eapply run_release; [|reflexivity|rewrite C1, N1, D1; reflexivity|exact R2]. eapply run_read; [|apply (Hr 7); lia|exact R1]. apply run_start. }
  destruct (buf_read_lru 1 s s4 (seq 0 N_BUF) [] [b; a] 9 B) as [(i & s5 & R5 & _ & _ & _ & _ & _ & Hda & _)|(_ & _ & Hall)].
  - lia.
  - exact Hrun.
  - unfold BLOCK_NUM_UNUSED. lia.
  - intros i Hi. destruct (not_elem_of_nil i Hi).
  - exists s, a, b, s4, i, s5. split; [exact H1|]. split; [exact Hrun|]. split; [exact R5|]. rewrite Hda, D4, D3, D2, D1, Hd. reflexivity.
  - exfalso. apply (not_elem_of_nil O), Hall. unfold N_BUF, N_BLOCK_BUF. lia.
Defined.

(** C6 the cache is write-through and transparent: a block changed through the
    cache (buf_read, change the data, buf_write, buf_release) is at once on the
    disk, and reading any block afterwards through the cache returns its contents
    on that disk, the changed block its new contents and every other block its
    old ones. *)
Theorem cache_write_through {D : Type} {HD : BlockDev D} sl_fuel hs num num' f (s : bstate D) :
  binv hs s -> (0 < sl_fuel)%nat -> readable_block hs num s -> readable_block hs num' s ->
  Z.of_nat (length (f (blk_get (disk s) num))) = BLOCK_SIZE ->
  exists s1 s2, block_update sl_fuel num f s = Ret tt s1 /\
    disk s1 = blk_put (disk s) num (f (blk_get (disk s) num)) /\
    block_get sl_fuel num' s1 =
      Ret (if decide (num' = num) then f (blk_get (disk s) num) else blk_get (disk s) num') s2 /\
    disk s2 = disk s1 /\ binv hs s2.
Proof.
  intros B Hf Hr Hr' Hlen.
  destruct (block_update_spec sl_fuel hs num f s B Hr Hf Hlen) as (s1 & Hrun & B1 & Hfr & Hd).
  destruct (block_get_spec sl_fuel hs num' s1 B1) as (s2 & Hrun2 & B2 & _ & Hd2); [by eapply readable_frame|done|].
  exists s1, s2. split_and!; try done. rewrite Hrun2, Hd. f_equal. case_decide; [subst; by apply blk_get_eq|by apply blk_get_ne].
Qed.
Lemma cache_write_through_witness :
  exists s s1 s2, buf_init power_on = Ret tt s /\
    block_update 1 7 (fun l => <[3%nat := 42]> l) s = Ret tt s1 /\
    block_get 1 7 s1 = Ret (<[3%nat := 42]> (blk_get (∅ : block_map) 7)) s2.
Proof.
  destruct (buf_init_run power_on power_on_fresh calm_quiet) as (s & H1 & B & _ & Hd & _).
  assert (readable_block [] 7 s) as Hr.
  { split; [unfold BLOCK_NUM_UNUSED; lia|]. split; [unfold N_BUF, N_BLOCK_BUF; cbn; lia|].
    intros i Hi. destruct (not_elem_of_nil i Hi). }
  destruct (cache_write_through 1 [] 7 7 (fun l => <[3%nat := 42]> l) s) as (s1 & s2 & Hrun & _ & Hrun2 & _).
  - exists (seq 0 N_BUF). exact B.
  - lia.
  - exact Hr.
  - exact Hr.
  - rewrite length_insert. apply blk_len.
  - exists s, s1, s2. rewrite Hd in Hrun2. split; [exact H1|]. split; [exact Hrun|exact Hrun2].
Defined.
