(* ===== verification/Bitmap.v ===== *)
(** * fs/bitmap.c and the super block of fs/fs.c

    Blocks and inodes are allocated in one bitmap block each, lowest free bit
    first. *)

From S2P Require Import Prelude Machine Str Lock Pmem Mmap Proc Buf.

(** struct super_block *)
Record super_block : Type := mkSb {
  sb_magic : Z; sb_block_size : Z;
  inode_bitmap_start : Z; inode_start : Z; data_bitmap_start : Z; data_start : Z;
  inode_blocks : Z; data_blocks : Z; total_blocks : Z;
}.

Section bitmap.
Context {D : Type} {HD : BlockDev D} (sl_fuel : nat) (sb : super_block).

(** The shift loop over one byte: the first clear bit at or after [shift].
    bit_cmp is a uint8, so [bit_cmp << 1] is cut to 8 bits. *)
Fixpoint clear_bit (n : nat) (shift bit_cmp b : Z) : option (Z * Z) :=
  match n with
  | O => None
  | S n => if Z.land bit_cmp b =? 0 then Some (shift, bit_cmp)
           else clear_bit n (shift + 1) (u8 (Z.shiftl bit_cmp 1)) b
  end.
(** The byte loop. *)
Fixpoint search_bytes (l : list Z) (byte : Z) : option (Z * Z * Z) :=
  match l with
  | [] => None
  | b :: l =>
      match clear_bit 8 0 1 b with
      | Some (shift, bit_cmp) => Some (byte, shift, bit_cmp)
      | None => search_bytes l (byte + 1)
      end
  end.
Definition set_byte (byte : Z) (f : Z -> Z) (l : list Z) : list Z := alter f (Z.to_nat byte) l.

Definition bitmap_search_and_set (bitmap_block : Z) : M (bstate D) Z :=
  let* b := buf_read sl_fuel bitmap_block in
  let* l := rd_data b in
  match search_bytes l 0 with
  | Some (byte, shift, bit_cmp) =>
      wr_data b (set_byte byte (fun x => Z.lor x bit_cmp));;;
      buf_write b;;;
      buf_release b;;;
      ret (byte * 8 + shift)
  | None =>
      buf_release b;;;
      panic "bitmap_search_and_set: no bit left"
  end.

Definition bitmap_unset (bitmap_block num : Z) : M (bstate D) unit :=
  let byte := num / 8 in
  let shift := num mod 8 in
  let bit_cmp := u8 (Z.shiftl 1 shift) in
  let* b := buf_read sl_fuel bitmap_block in
  let* l := rd_data b in
  when (Z.land (l !!! Z.to_nat byte) bit_cmp =? 0) (panic "bitmap_unset: bit already free");;;
  wr_data b (set_byte byte (fun x => Z.land x (u8 (Z.lnot bit_cmp))));;;
  buf_write b;;;
  buf_release b.

Definition bitmap_alloc_block : M (bstate D) Z :=
  let* bit_num := bitmap_search_and_set (data_bitmap_start sb) in
  ret (u32 (data_start sb + bit_num)).
Definition bitmap_free_block (block_num : Z) : M (bstate D) unit :=
  bitmap_unset (data_bitmap_start sb) (u32 (block_num - data_start sb)).
Definition bitmap_alloc_inode : M (bstate D) Z :=
  let* bit_num := bitmap_search_and_set (inode_bitmap_start sb) in
  ret (u16 bit_num).
Definition bitmap_free_inode (inode_num : Z) : M (bstate D) unit :=
  bitmap_unset (inode_bitmap_start sb) inode_num.

(** What bitmap_print prints: the numbers of the set bits of a block. *)
Fixpoint set_bits (n : nat) (num bit_cmp b : Z) : list Z :=
  match n with
  | O => []
  | S n => (if Z.land bit_cmp b =? 0 then [] else [num]) ++ set_bits n (num + 1) (u8 (Z.shiftl bit_cmp 1)) b
  end.
Fixpoint set_bits_of (l : list Z) (num : Z) : list Z :=
  match l with [] => [] | b :: l => set_bits 8 num 1 b ++ set_bits_of l (num + 8) end.
Definition bitmap_print (bitmap_block_num : Z) : M (bstate D) (list Z) :=
  let* b := buf_read sl_fuel bitmap_block_num in
  let* l := rd_data b in
  buf_release b;;;
  ret (set_bits_of l 0).

End bitmap.
