(* ===== verification/BitmapSpec.v ===== *)
(** * Properties of the bitmaps *)

From S2P Require Import Prelude Machine Str Lock Pmem Kvm KvmSpec Mmap Uvm Proc ProcSpec SleepSpec Buf BufSpec Bitmap.

(** ** Bits of a block *)

Definition bit (l : list Z) (n : Z) : bool := Z.testbit (l !!! Z.to_nat (n / 8)) (n mod 8).
Definition bytes_ok (l : list Z) : Prop := Forall (fun x => 0 <= x < 256) l.
Definition BITS : Z := BLOCK_SIZE * 8.

Lemma land_pow2_testbit k b : 0 <= k -> (Z.land (2 ^ k) b =? 0) = negb (Z.testbit b k).
Proof.
  intros Hk. destruct (Z.testbit b k) eqn:E; cbn.
  - apply Z.eqb_neq. intros H. assert (Z.testbit (Z.land (2 ^ k) b) k = Z.testbit 0 k) as H' by (by rewrite H).
    rewrite Z.land_spec, Z.pow2_bits_true, E, Z.bits_0 in H' by done. done.
  - apply Z.eqb_eq. apply Z.bits_inj'. intros n Hn. rewrite Z.land_spec, Z.bits_0, Z.pow2_bits_eqb by done.
    destruct (Z.eqb_spec k n); [by subst|done].
Qed.
Lemma u8_shl_pow2 s : 0 <= s < 7 -> u8 (Z.shiftl (2 ^ s) 1) = 2 ^ (s + 1).
Proof.
  intros Hs. rewrite Z.shiftl_mul_pow2, <- Z.pow_add_r by lia. apply u8_small.
  split; [apply Z.pow_nonneg; lia|]. change 256 with (2 ^ 8). apply Z.pow_lt_mono_r; lia.
Qed.

Lemma clear_bit_spec n s b : Z.of_nat n + s = 8 -> 0 <= s ->
  match clear_bit n s (2 ^ s) b with
  | Some (sh, p) => p = 2 ^ sh /\ s <= sh < 8 /\ Z.testbit b sh = false /\ (forall k, s <= k < sh -> Z.testbit b k = true)
  | None => forall k, s <= k < 8 -> Z.testbit b k = true
  end.
Proof.
  revert s. induction n as [|n IH]; intros s Hn Hs; cbn [clear_bit]; [intros; lia|].
  rewrite land_pow2_testbit by done. destruct (Z.testbit b s) eqn:E; cbn [negb].
  2:{ split_and!; [done|lia|lia|done|]. intros; lia. }
  destruct (decide (s = 7)) as [->|].
  { assert (n = O) as -> by lia. cbn. intros k Hk. by replace k with 7 by lia. }
  rewrite u8_shl_pow2 by lia. specialize (IH (s + 1) ltac:(lia) ltac:(lia)).
  destruct (clear_bit n (s + 1) (2 ^ (s + 1)) b) as [[sh p]|].
  - destruct IH as (-> & Hsh & Hb & Ht). split_and!; [done|lia|lia|done|].
    intros k Hk. destruct (decide (k = s)) as [->|]; [done|]. apply Ht. lia.
  - intros k Hk. destruct (decide (k = s)) as [->|]; [done|]. apply IH. lia.
Qed.

Lemma bit_split byte sh l : 0 <= byte -> 0 <= sh < 8 -> bit l (byte * 8 + sh) = Z.testbit (l !!! Z.to_nat byte) sh.
Proof.
  intros Hb Hs. unfold bit. rewrite Z.div_add_l, (Z.div_small sh 8), Z.add_0_r by lia.
  rewrite Z.add_comm, Z.mod_add, Z.mod_small by lia. done.
Qed.

Lemma search_bytes_spec l byte : 0 <= byte ->
  match search_bytes l byte with
  | Some (by_, sh, p) =>
      exists k, by_ = byte + Z.of_nat k /\ (k < length l)%nat /\ p = 2 ^ sh /\ 0 <= sh < 8 /\
        Z.testbit (l !!! k) sh = false /\ (forall j, 0 <= j < sh -> Z.testbit (l !!! k) j = true) /\
        (forall i j, (i < k)%nat -> 0 <= j < 8 -> Z.testbit (l !!! i) j = true)
  | None => forall i j, (i < length l)%nat -> 0 <= j < 8 -> Z.testbit (l !!! i) j = true
  end.
Proof.
  revert byte. induction l as [|b l IH]; intros byte Hb; cbn [search_bytes]; [cbn; intros; lia|].
  pose proof (clear_bit_spec 8 0 b ltac:(lia) ltac:(lia)) as Hc. change (2 ^ 0) with 1 in Hc.
  destruct (clear_bit 8 0 1 b) as [[sh p]|].
  - destruct Hc as (-> & Hs & Hf & Ht). exists O. split_and!; first [done | cbn; lia | intros; lia].
  - specialize (IH (byte + 1) ltac:(lia)). destruct (search_bytes l (byte + 1)) as [[[by_ sh] p]|].
    + destruct IH as (k & -> & Hk & -> & Hs & Hf & Ht & Hall). exists (S k).
      split_and!; try first [done | cbn; lia]. intros [|i] j Hi Hj; [by apply Hc|]. apply Hall; [lia|done].
    + intros [|i] j Hi Hj; [by apply Hc|]. apply IH; [cbn in Hi; lia|done].
Qed.

(** The lowest clear bit of a block, as the allocator computes it. *)
Lemma search_lowest l : Z.of_nat (length l) = BLOCK_SIZE ->
  match search_bytes l 0 with
  | Some (byte, sh, p) =>
      let n := byte * 8 + sh in
      p = 2 ^ sh /\ 0 <= byte < BLOCK_SIZE /\ 0 <= sh < 8 /\ 0 <= n < BITS /\ bit l n = false /\
      forall m, 0 <= m < n -> bit l m = true
  | None => forall m, 0 <= m < BITS -> bit l m = true
  end.
Proof.
  intros Hlen. pose proof (search_bytes_spec l 0 ltac:(lia)) as H. destruct (search_bytes l 0) as [[[byte sh] p]|].
  - destruct H as (k & -> & Hk & -> & Hs & Hf & Ht & Hall). cbn zeta. rewrite Z.add_0_l.
    split_and!; try done; try lia; try (unfold BITS; lia).
    + rewrite bit_split by lia. by rewrite Nat2Z.id.
    + intros m Hm. unfold bit. pose proof (div_mul_le m 8 ltac:(lia)). pose proof (Z.mod_pos_bound m 8 ltac:(lia)).
      pose proof (Z.mod_eq m 8 ltac:(lia)).
      destruct (decide (Z.to_nat (m / 8) < k)%nat) as [Hlt|Hge]; [by apply Hall|].
      assert (Z.to_nat (m / 8) = k) as -> by lia. apply Ht. lia.
  - intros m Hm. unfold BITS in *. pose proof (div_mul_le m 8 ltac:(lia)). apply H; [|by apply Z.mod_pos_bound].
    assert (m / 8 < Z.of_nat (length l)) by lia. lia.
Qed.

(** ** Setting and clearing one bit *)

Lemma set_byte_len byte f (l : list Z) : length (set_byte byte f l) = length l.
Proof. apply length_alter. Qed.
Lemma set_byte_at byte f l k : (k < length l)%nat ->
  set_byte byte f l !!! k = if decide (Z.to_nat byte = k) then f (l !!! k) else l !!! k.
Proof.
  intros Hk. unfold set_byte. rewrite !list_lookup_total_alt. case_decide as E.
  - subst. rewrite list_lookup_alter_eq. destruct (lookup_lt_is_Some_2 _ _ Hk) as [x ->]. done.
  - by rewrite list_lookup_alter_ne.
Qed.
Lemma bit_idx (l : list Z) m : Z.of_nat (length l) = BLOCK_SIZE -> 0 <= m < BITS -> (Z.to_nat (m / 8) < length l)%nat.
Proof. unfold BITS. intros H Hm. pose proof (div_mul_le m 8 ltac:(lia)). lia. Qed.
Lemma bit_eq_iff byte sh m : 0 <= byte -> 0 <= sh < 8 -> 0 <= m ->
  m = byte * 8 + sh <-> Z.to_nat byte = Z.to_nat (m / 8) /\ sh = m mod 8.
Proof.
  intros Hb Hs Hm. pose proof (div_mul_le m 8 ltac:(lia)). pose proof (Z.mod_eq m 8 ltac:(lia)).
  pose proof (Z.mod_pos_bound m 8 ltac:(lia)). split; [|lia].
  intros ->. split; lia.
Qed.
Lemma set_bit_spec l byte sh m : Z.of_nat (length l) = BLOCK_SIZE -> 0 <= byte < BLOCK_SIZE -> 0 <= sh < 8 -> 0 <= m < BITS ->
  bit (set_byte byte (fun x => Z.lor x (2 ^ sh)) l) m = (m =? byte * 8 + sh) || bit l m.
Proof.
  intros Hl Hb Hs Hm. unfold bit. rewrite set_byte_at by (by apply bit_idx).
  pose proof (bit_eq_iff byte sh m ltac:(lia) Hs ltac:(lia)) as Hiff.
  destruct (Z.eqb_spec m (byte * 8 + sh)) as [E|E].
  - apply Hiff in E as [E1 E2]. rewrite decide_True by done. rewrite <- E2, Z.lor_spec, Z.pow2_bits_true by lia. by rewrite orb_true_r.
  - cbn. case_decide as E'; [|done]. rewrite Z.lor_spec, Z.pow2_bits_eqb by lia.
    destruct (Z.eqb_spec sh (m mod 8)); [by destruct E; apply Hiff|]. by rewrite orb_false_r.
Qed.

(** Clearing the bit just set gives the byte back. *)
Lemma lnot_pow2_byte sh k : 0 <= sh < 8 -> 0 <= k -> Z.testbit (u8 (Z.lnot (u8 (Z.shiftl 1 sh)))) k = (k <? 8) && negb (k =? sh).
Proof.
  intros Hs Hk. assert (u8 (Z.shiftl 1 sh) = 2 ^ sh) as ->.
  { rewrite Z.shiftl_mul_pow2, Z.mul_1_l by lia. apply u8_small. split; [apply Z.pow_nonneg; lia|].
    change 256 with (2 ^ 8). apply Z.pow_lt_mono_r; lia. }
  unfold u8. bcase (k <? 8).
  - rewrite Z.mod_pow2_bits_low, Z.lnot_spec, Z.pow2_bits_eqb by lia. cbn. by rewrite Z.eqb_sym.
  - by rewrite Z.mod_pow2_bits_high by lia.
Qed.
Lemma set_unset_byte x sh : 0 <= x < 256 -> 0 <= sh < 8 -> Z.testbit x sh = false ->
  Z.land (Z.lor x (2 ^ sh)) (u8 (Z.lnot (u8 (Z.shiftl 1 sh)))) = x.
Proof.
  intros Hx Hs Hf. apply Z.bits_inj'. intros k Hk. rewrite Z.land_spec, Z.lor_spec, Z.pow2_bits_eqb, lnot_pow2_byte by lia.
  bcase (k <? 8).
  - destruct (Z.eqb_spec sh k) as [<-|]; [by rewrite Z.eqb_refl, andb_false_r, Hf|].
    destruct (Z.eqb_spec k sh); [lia|]. by rewrite orb_false_r, andb_true_r.
  - rewrite andb_false_r. symmetry. apply Z.bits_above_log2; [lia|].
    destruct (decide (x = 0)) as [->|]; [cbn; lia|]. apply Z.log2_lt_pow2; [lia|].
    eapply Z.lt_le_trans; [apply Hx|]. change 256 with (2 ^ 8). apply Z.pow_le_mono_r; lia.
Qed.

Section bitmapspec.
Context {D : Type} {HD : BlockDev D}.

Lemma search_and_set_run sl_fuel hs bm (s : bstate D) : binv hs s -> readable_block hs bm s -> (0 < sl_fuel)%nat ->
  match search_bytes (blk_get (disk s) bm) 0 with
  | Some (byte, sh, p) => exists s', bitmap_search_and_set sl_fuel bm s = Ret (byte * 8 + sh) s' /\ binv hs s' /\ bframe hs s s' /\
      disk s' = blk_put (disk s) bm (set_byte byte (fun x => Z.lor x p) (blk_get (disk s) bm))
  | None => bitmap_search_and_set sl_fuel bm s = Panic "bitmap_search_and_set: no bit left"
  end.
Proof.
  intros B Hr Hf. destruct (bread_spec sl_fuel hs bm s B Hr Hf) as (i & s1 & Hrun & B1 & Hni & Hfr & Hd & Hbn & Hda).
  unfold bitmap_search_and_set.
  destruct (search_bytes (blk_get (disk s) bm) 0) as [[[byte sh] p]|] eqn:E.
  - destruct (bupdate_spec i hs s1 (set_byte byte (fun x => Z.lor x p)) B1) as (s2 & Hup & B2 & Hfr2 & Hd2 & Hbn2 & Hda2).
    { rewrite set_byte_len, Hda. apply blk_len. }
    destruct (brelse_spec i hs s2 B2) as (s3 & Hrel & B3 & Hfr3 & Hd3).
    { rewrite Hda2, Hbn2, Hd2. symmetry. apply blk_get_eq. rewrite set_byte_len, Hda. apply blk_len. }
    exists s3. split_and!; [|done|by do 2 (eapply bframe_trans; [done|])|by rewrite Hd3, Hd2, Hbn, Hda, Hd].
    mrun Hrun. unfold rd_data. mstep. rewrite Hda, E. rewrite <- (bind_assoc (wr_data i _)). mrun Hup. by mrun Hrel.
  - destruct (brelse_spec i hs s1 B1) as (s2 & Hrel & _); [by rewrite Hbn, Hda, Hd|].
    mrun Hrun. unfold rd_data. mstep. rewrite Hda, E. by mrun Hrel.
Qed.

Lemma unset_run sl_fuel hs bm num (s : bstate D) : binv hs s -> readable_block hs bm s -> (0 < sl_fuel)%nat ->
  0 <= num < BITS ->
  let l := blk_get (disk s) bm in
  if bit l num then exists s', bitmap_unset sl_fuel bm num s = Ret tt s' /\ binv hs s' /\ bframe hs s s' /\
      disk s' = blk_put (disk s) bm (set_byte (num / 8) (fun x => Z.land x (u8 (Z.lnot (u8 (Z.shiftl 1 (num mod 8)))))) l)
  else bitmap_unset sl_fuel bm num s = Panic "bitmap_unset: bit already free".
Proof.
  intros B Hr Hf Hnum l. destruct (bread_spec sl_fuel hs bm s B Hr Hf) as (i & s1 & Hrun & B1 & Hni & Hfr & Hd & Hbn & Hda).
  pose proof (Z.mod_pos_bound num 8 ltac:(lia)) as Hm.
  assert ((Z.land (l !!! Z.to_nat (num / 8)) (u8 (Z.shiftl 1 (num mod 8))) =? 0) = negb (bit l num)) as Htest.
  { rewrite Z.land_comm. replace (u8 (Z.shiftl 1 (num mod 8))) with (2 ^ (num mod 8)); [apply land_pow2_testbit; lia|].
    rewrite Z.shiftl_mul_pow2, Z.mul_1_l by lia. symmetry. apply u8_small. split; [apply Z.pow_nonneg; lia|].
    change 256 with (2 ^ 8). apply Z.pow_lt_mono_r; lia. }
  unfold bitmap_unset. destruct (bit l num) eqn:E.
  - set (f := set_byte (num / 8) (fun x => Z.land x (u8 (Z.lnot (u8 (Z.shiftl 1 (num mod 8))))))).
    destruct (bupdate_spec i hs s1 f B1) as (s2 & Hup & B2 & Hfr2 & Hd2 & Hbn2 & Hda2).
    { unfold f. rewrite set_byte_len, Hda. apply blk_len. }
    destruct (brelse_spec i hs s2 B2) as (s3 & Hrel & B3 & Hfr3 & Hd3).
    { rewrite Hda2, Hbn2, Hd2. symmetry. apply blk_get_eq. unfold f. rewrite set_byte_len, Hda. apply blk_len. }
    exists s3. split_and!; [|done|by do 2 (eapply bframe_trans; [done|])|by rewrite Hd3, Hd2, Hbn, Hda, Hd].
    mrun Hrun. unfold rd_data. mstep. rewrite Hda. fold l. rewrite Htest. mstep.
    rewrite <- (bind_assoc (wr_data i _)). mrun Hup. done.
  - mrun Hrun. unfold rd_data. mstep. rewrite Hda. fold l. rewrite Htest. done.
Qed.
End bitmapspec.

(** ** Properties *)

(** C13 bitmap_search_and_set returns the lowest clear bit of the bitmap block and
    sets exactly this bit, on the disk; it panics exactly when all 8192 bits are
    set.  No other block changes. *)
Theorem bitmap_alloc_lowest {D : Type} {HD : BlockDev D} sl_fuel hs bm (s : bstate D) :
  binv hs s -> readable_block hs bm s -> (0 < sl_fuel)%nat ->
  (exists n s', bitmap_search_and_set sl_fuel bm s = Ret n s' /\ 0 <= n < BITS /\
     bit (blk_get (disk s) bm) n = false /\ (forall m, 0 <= m < n -> bit (blk_get (disk s) bm) m = true) /\
     (forall m, 0 <= m < BITS -> bit (blk_get (disk s') bm) m = (m =? n) || bit (blk_get (disk s) bm) m) /\
     (forall b, b <> bm -> blk_get (disk s') b = blk_get (disk s) b) /\ binv hs s') \/
  (bitmap_search_and_set sl_fuel bm s = Panic "bitmap_search_and_set: no bit left" /\
     forall m, 0 <= m < BITS -> bit (blk_get (disk s) bm) m = true).
Proof.
  intros B Hr Hf. pose proof (search_and_set_run sl_fuel hs bm s B Hr Hf) as Hrun.
  pose proof (search_lowest (blk_get (disk s) bm) (blk_len _ _)) as Hl.
  destruct (search_bytes (blk_get (disk s) bm) 0) as [[[byte sh] p]|]; [|by right].
  left. destruct Hl as (-> & Hb & Hs & Hn & Hbit & Hlow). destruct Hrun as (s' & Hrun & B' & _ & Hd).
  exists (byte * 8 + sh), s'. split_and!; try done; try lia.
  - intros m Hm. rewrite Hd, blk_get_eq by (rewrite set_byte_len; apply blk_len).
    apply set_bit_spec; try done. apply blk_len.
  - intros b Hne. rewrite Hd. by apply blk_get_ne.
Qed.
Lemma bitmap_alloc_lowest_witness :
  exists s n s', buf_init power_on = Ret tt s /\ bitmap_search_and_set 1 130 s = Ret n s' /\ n = 0.
Proof.
  destruct (buf_init_run power_on power_on_fresh calm_quiet) as (s & H1 & B & _ & Hd & _).
  destruct (bitmap_alloc_lowest 1 [] 130 s) as [(n & s' & Hrun & Hn & _ & Hlow & _)|(_ & Hfull)].
  - exists (seq 0 N_BUF). exact B.
  - split; [unfold BLOCK_NUM_UNUSED; lia|]. split; [unfold N_BUF, N_BLOCK_BUF; cbn; lia|].
    intros i Hi. destruct (not_elem_of_nil i Hi).
  - lia.
  - exists s, n, s'. split; [exact H1|]. split; [exact Hrun|].
    destruct (Z.eq_dec n 0) as [E|E]; [exact E|exfalso].
    specialize (Hlow 0 ltac:(lia)). rewrite Hd in Hlow. vm_compute in Hlow. congruence.
  - exfalso. specialize (Hfull 0 ltac:(unfold BITS, BLOCK_SIZE; lia)). rewrite Hd in Hfull. vm_compute in Hfull. congruence.
Defined.

(** Freeing undoes allocating: after bitmap_alloc_block returns block [b],
    bitmap_free_block [b] leaves the bitmap block of the disk as it was, and a
    second bitmap_free_block [b] panics. *)
Theorem bitmap_alloc_free {D : Type} {HD : BlockDev D} sl_fuel sb (s : bstate D) b s1 :
  binv [] s -> (0 < sl_fuel)%nat -> data_bitmap_start sb <> BLOCK_NUM_UNUSED ->
  bytes_ok (blk_get (disk s) (data_bitmap_start sb)) -> 0 <= data_start sb < 2 ^ 32 - BITS ->
  bitmap_alloc_block sl_fuel sb s = Ret b s1 ->
  exists s2, bitmap_free_block sl_fuel sb b s1 = Ret tt s2 /\ binv [] s2 /\
    blk_get (disk s2) (data_bitmap_start sb) = blk_get (disk s) (data_bitmap_start sb) /\
    bitmap_free_block sl_fuel sb b s2 = Panic "bitmap_unset: bit already free".
Proof.
  intros B Hf Hbm Hby Hds Halloc. set (bm := data_bitmap_start sb) in *. set (l := blk_get (disk s) bm) in *.
  assert (forall s' : bstate D, readable_block [] bm s') as Hr.
  { intros s'. split_and!; [done|unfold N_BUF, N_BLOCK_BUF; cbn; lia|]. intros i Hi. by apply not_elem_of_nil in Hi. }
  assert (Z.of_nat (length l) = BLOCK_SIZE) as Hll by apply blk_len.
  pose proof (search_and_set_run sl_fuel [] bm s B (Hr s) Hf) as Hrun. pose proof (search_lowest l Hll) as Hl.
  unfold bitmap_alloc_block in Halloc. fold bm l in Halloc, Hrun.
  destruct (search_bytes l 0) as [[[byte sh] p]|]; [|by rewrite (bind_panic _ _ _ _ Hrun) in Halloc].
  destruct Hl as (-> & Hb & Hs & Hn & Hbit & _). destruct Hrun as (s' & Hrun & B1 & _ & Hd).
  rewrite (bind_run _ _ _ _ _ Hrun) in Halloc. injection Halloc as <- <-.
  unfold bitmap_free_block. fold bm.
  assert (u32 (u32 (data_start sb + (byte * 8 + sh)) - data_start sb) = byte * 8 + sh) as ->.
  { rewrite (u32_small (data_start sb + _)) by lia. rewrite u32_small; [lia|]. unfold BITS, BLOCK_SIZE in *. lia. }
  assert (blk_get (disk s') bm = set_byte byte (fun x => Z.lor x (2 ^ sh)) l) as Hl1
    by (rewrite Hd; apply blk_get_eq; by rewrite set_byte_len).
  assert (Z.of_nat (length (set_byte byte (fun x => Z.lor x (2 ^ sh)) l)) = BLOCK_SIZE) as Hll1 by (by rewrite set_byte_len).
  pose proof (unset_run sl_fuel [] bm (byte * 8 + sh) s' B1 (Hr s') Hf Hn) as Hun. cbn zeta in Hun. rewrite Hl1 in Hun.
  rewrite set_bit_spec, Z.eqb_refl in Hun by done. cbn in Hun. destruct Hun as (s2 & Hrun2 & B2 & _ & Hd2).
  assert ((byte * 8 + sh) / 8 = byte /\ (byte * 8 + sh) mod 8 = sh) as [Eq Er].
  { rewrite Z.div_add_l, (Z.div_small sh 8) by lia. rewrite (Z.add_comm _ sh), Z.mod_add, Z.mod_small by lia. lia. }
  rewrite Eq, Er in Hd2.
  assert (blk_get (disk s2) bm = l) as Hl2.
  { rewrite Hd2, blk_get_eq by (by rewrite !set_byte_len). unfold set_byte. rewrite alter_alter. apply alter_id_at.
    intros x Hx. apply set_unset_byte; [|done|].
    - unfold bytes_ok in Hby. rewrite Forall_lookup in Hby. by apply (Hby (Z.to_nat byte)).
    - rewrite bit_split in Hbit by lia. rewrite list_lookup_total_alt, Hx in Hbit. done. }
  exists s2. split_and!; try done.
  pose proof (unset_run sl_fuel [] bm (byte * 8 + sh) s2 B2 (Hr s2) Hf Hn) as Hun2. cbn zeta in Hun2.
  rewrite Hl2, Hbit in Hun2. done.
Qed.
Definition std_sb : super_block := mkSb 0x12345678 1024 1 2 130 131 128 8192 8323.
Lemma bitmap_alloc_free_witness :
  exists s s1 s2, buf_init power_on = Ret tt s /\ bitmap_alloc_block 1 std_sb s = Ret 131 s1 /\
    bitmap_free_block 1 std_sb 131 s1 = Ret tt s2 /\
    bitmap_free_block 1 std_sb 131 s2 = Panic "bitmap_unset: bit already free".
Proof.
  destruct (buf_init_run power_on power_on_fresh calm_quiet) as (s & H1 & B & _ & Hd & _).
  assert (binv [] s) as Bi by (exists (seq 0 N_BUF); exact B).
  assert (readable_block [] 130 s) as Hr.
  { split; [unfold BLOCK_NUM_UNUSED; lia|]. split; [unfold N_BUF, N_BLOCK_BUF; cbn; lia|].
    intros i Hi. destruct (not_elem_of_nil i Hi). }
  assert (exists s1, bitmap_alloc_block 1 std_sb s = Ret 131 s1) as [s1 Ha].
  { pose proof (search_and_set_run 1 [] 130 s Bi Hr ltac:(lia)) as Hrun. rewrite Hd in Hrun.
    change (search_bytes (blk_get (disk power_on) 130) 0) with (Some (0, 0, 1)) in Hrun.
    destruct Hrun as (s1 & Hrun & _). exists s1. unfold bitmap_alloc_block. change (data_bitmap_start std_sb) with 130.
    rewrite (bind_run _ _ _ _ _ Hrun). reflexivity. }
  destruct (bitmap_alloc_free 1 std_sb s 131 s1 Bi) as (s2 & H2 & _ & _ & H3).
  - lia.
  - unfold BLOCK_NUM_UNUSED. cbn. lia.
  - rewrite Hd. change (blk_get (disk power_on) (data_bitmap_start std_sb)) with (replicate 1024 0).
    apply Forall_replicate. lia.
  - cbn. unfold BITS, BLOCK_SIZE. lia.
  - exact Ha.
  - exists s, s1, s2. split; [exact H1|]. split; [exact Ha|]. split; [exact H2|exact H3].
Defined.
