(* ===== verification/Inode.v ===== *)
(** * fs/inode.c: inodes and their data

    The in-memory inode cache, the on-disk inodes, and files as sequences of
    blocks reached through direct, indirect and doubly indirect entries. *)

From S2P Require Import Prelude Machine Str Lock Pmem Kvm Mmap Uvm Proc Buf Bitmap.

(** ** Data *)

Definition INODE_ROOT : Z := 0.
Definition INODE_DISK_SIZE : Z := 64.
Definition INODE_PER_BLOCK : Z := BLOCK_SIZE / INODE_DISK_SIZE.
Definition N_ADDRS_1 : Z := 10.
Definition N_ADDRS_2 : Z := 2.
Definition N_ADDRS_3 : Z := 1.
Definition N_ADDRS : Z := N_ADDRS_1 + N_ADDRS_2 + N_ADDRS_3.
Definition ENTRY_PER_BLOCK : Z := BLOCK_SIZE / 4.
Definition INODE_MAXSIZE : Z :=
  (N_ADDRS_1 + N_ADDRS_2 * ENTRY_PER_BLOCK + N_ADDRS_3 * ENTRY_PER_BLOCK * ENTRY_PER_BLOCK) * BLOCK_SIZE.
Definition FT_UNUSED : Z := 0.
Definition FT_DIR : Z := 1.
Definition FT_FILE : Z := 2.
Definition FT_DEVICE : Z := 3.
Definition INODE_NUM_UNUSED : Z := 0xFFFF.
Definition N_INODE : Z := 32.

(** The part of struct inode that is stored on disk. *)
Record dinode : Type := mkDinode {
  itype : Z; imajor : Z; iminor : Z; inlink : Z; isize : Z; addrs : list Z }.
Record inode : Type := mkInode { idisk : dinode; inode_num : Z; iref : Z; valid : bool; islk : sleeplock }.

Record istate (D : Type) : Type := mkI {
  ib : bstate D;
  isb : super_block;
  icache : list inode;
  lk_icache : spinlock;
}.
Arguments mkI {D}. Arguments ib {D}. Arguments isb {D}. Arguments icache {D}. Arguments lk_icache {D}.

Definition blank_inode : inode := mkInode (mkDinode 0 0 0 0 0 (replicate 13 0)) 0 0 false blank_sleep.

(** *** The 64 bytes of a disk inode: four uint16, then uint32 size and addrs[] *)

Definition enc16 (v : Z) : list Z := [v mod 256; v / 256 mod 256].
Definition enc32 (v : Z) : list Z := [v mod 256; v / 256 mod 256; v / 65536 mod 256; v / 16777216 mod 256].
Definition dec16 (l : list Z) (o : nat) : Z := l !!! o + 256 * l !!! S o.
Definition dec32 (l : list Z) (o : nat) : Z :=
  l !!! o + 256 * l !!! (o + 1)%nat + 65536 * l !!! (o + 2)%nat + 16777216 * l !!! (o + 3)%nat.
Definition enc_dinode (d : dinode) : list Z :=
  enc16 (itype d) ++ enc16 (imajor d) ++ enc16 (iminor d) ++ enc16 (inlink d) ++ enc32 (isize d) ++
  concat (enc32 <$> addrs d).
Definition dec_dinode (l : list Z) : dinode :=
  mkDinode (dec16 l 0) (dec16 l 2) (dec16 l 4) (dec16 l 6) (dec32 l 8)
    ((fun i => dec32 l (12 + 4 * i)) <$> seq 0 (Z.to_nat N_ADDRS)).

(** memmove between byte arrays: [n] bytes of [src] at [so] to [dst] at [o]. *)
Definition blit (dst : list Z) (o : Z) (src : list Z) : list Z :=
  take (Z.to_nat o) dst ++ src ++ drop (Z.to_nat o + length src) dst.
Definition slice (l : list Z) (o n : Z) : list Z := take (Z.to_nat n) (drop (Z.to_nat o) l).

(** Field updates. *)
Definition upd_idisk (f : dinode -> dinode) (i : inode) : inode :=
  mkInode (f (idisk i)) (inode_num i) (iref i) (valid i) (islk i).
Definition set_inode_num (v : Z) (i : inode) : inode := mkInode (idisk i) v (iref i) (valid i) (islk i).
Definition set_iref (v : Z) (i : inode) : inode := mkInode (idisk i) (inode_num i) v (valid i) (islk i).
Definition set_valid (v : bool) (i : inode) : inode := mkInode (idisk i) (inode_num i) (iref i) v (islk i).
Definition set_islk (v : sleeplock) (i : inode) : inode := mkInode (idisk i) (inode_num i) (iref i) (valid i) v.
Definition set_itype v d := mkDinode v (imajor d) (iminor d) (inlink d) (isize d) (addrs d).
Definition set_imajor v d := mkDinode (itype d) v (iminor d) (inlink d) (isize d) (addrs d).
Definition set_iminor v d := mkDinode (itype d) (imajor d) v (inlink d) (isize d) (addrs d).
Definition set_inlink v d := mkDinode (itype d) (imajor d) (iminor d) v (isize d) (addrs d).
Definition set_isize v d := mkDinode (itype d) (imajor d) (iminor d) (inlink d) v (addrs d).
Definition set_addrs v d := mkDinode (itype d) (imajor d) (iminor d) (inlink d) (isize d) v.

(** Where inode_read_data puts the bytes and inode_write_data takes them from: a
    kernel array (the bytes themselves) or a user address. *)
Inductive data_dst : Type := ToKernel | ToUser (dst : Z).
Inductive data_src : Type := FromKernel (src : list Z) | FromUser (src : Z).

Section inode.
Context {D : Type} {HD : BlockDev D} (sl_fuel : nat).
(** The address of the data array of buffer i, a link-time constant. *)
Context (buf_addr : nat -> Z).

Definition i_b : lens (istate D) (bstate D) := Lens ib (fun b s => mkI b (isb s) (icache s) (lk_icache s)).
Definition i_k : lens (istate D) kstate :=
  Lens (fun s => bk (ib s)) (fun k s => lset i_b (lset b_k k (ib s)) s).
Definition i_lk : lens (istate D) (cpu * spinlock) :=
  Lens (fun s => (pcpu (kpm (bk (ib s))), lk_icache s))
       (fun p s => let s := lset i_k (lset k_cpu (fst p) (bk (ib s))) s in mkI (ib s) (isb s) (icache s) (snd p)).
Definition inode_at (s : istate D) (i : nat) : inode := default blank_inode (icache s !! i).
Definition upd_inode (i : nat) (f : inode -> inode) (s : istate D) : istate D :=
  mkI (ib s) (isb s) (alter f i (icache s)) (lk_icache s).
Definition i_slk (i : nat) : lens (istate D) sleeplock :=
  Lens (fun s => islk (inode_at s i)) (fun l s => upd_inode i (set_islk l) s).

Definition rd_inode (i : nat) : M (istate D) inode := gets (fun s => inode_at s i).
Definition wr_inode (i : nat) (f : inode -> inode) : M (istate D) unit := modify (upd_inode i f).
Definition wr_dinode (i : nat) (f : dinode -> dinode) : M (istate D) unit := wr_inode i (upd_idisk f).
Definition ilock (i : nat) : M (istate D) unit := sleeplock_acquire i_k (i_slk i) (ChInodeLock i) sl_fuel.
Definition iunlock (i : nat) : M (istate D) unit := sleeplock_release i_k (i_slk i) (ChInodeLock i).
Definition iholding (i : nat) : M (istate D) bool := sleeplock_holding i_k (i_slk i).

(** Lower layers. *)
Definition bread (num : Z) : M (istate D) nat := zoom i_b (buf_read sl_fuel num).
Definition bwrite (b : nat) : M (istate D) unit := zoom i_b (buf_write b).
Definition brelse (b : nat) : M (istate D) unit := zoom i_b (buf_release b).
Definition bdata (b : nat) : M (istate D) (list Z) := zoom i_b (rd_data b).
Definition bset (b : nat) (f : list Z -> list Z) : M (istate D) unit := zoom i_b (wr_data b f).
Definition balloc : M (istate D) Z := let* s := gets isb in zoom i_b (bitmap_alloc_block sl_fuel s).
Definition bfree (n : Z) : M (istate D) unit := let* s := gets isb in zoom i_b (bitmap_free_block sl_fuel s n).
Definition ialloc_num : M (istate D) Z := let* s := gets isb in zoom i_b (bitmap_alloc_inode sl_fuel s).
Definition ifree_num (n : Z) : M (istate D) unit := let* s := gets isb in zoom i_b (bitmap_free_inode sl_fuel s n).

(** ** Inode metadata *)

Definition inode_init : M (istate D) unit :=
  modify (fun s => mkI (ib s) (isb s) (icache s) (spinlock_init "icache"));;;
  for_ (Z.to_nat N_INODE) 0 1 (fun z => wr_inode (Z.to_nat z) (set_islk (sleeplock_init "inode"))).

Definition inode_rw (i : nat) (write : bool) : M (istate D) unit :=
  let* h := iholding i in
  assert_ h "inode_rw: not holding lock";;;
  let* s := gets isb in
  let* ip := rd_inode i in
  let num := u32 (inode_start s + inode_num ip / INODE_PER_BLOCK) in
  let* b := bread num in
  let off := (inode_num ip mod INODE_PER_BLOCK) * INODE_DISK_SIZE in
  (if write then
     bset b (fun l => blit l off (enc_dinode (idisk ip)));;;
     bwrite b
   else
     let* l := bdata b in
     wr_dinode i (fun _ => dec_dinode (slice l off INODE_DISK_SIZE)));;;
  brelse b.

(** The search loop of inode_alloc: a cached inode, or the first free slot. *)
Fixpoint icache_search (l : list inode) (i : nat) (num : Z) (empty : option nat) : nat + option nat :=
  match l with
  | [] => inr empty
  | ip :: l =>
      if (0 <? iref ip) && (inode_num ip =? num) then inl i
      else icache_search l (S i) num
             (match empty with None => if iref ip =? 0 then Some i else None | Some _ => empty end)
  end.

Definition inode_alloc (num : Z) : M (istate D) nat :=
  zoom i_lk spinlock_acquire;;;
  let* s := get in
  match icache_search (icache s) 0 num None with
  | inl i =>
      let* ip := rd_inode i in
      wr_inode i (set_iref (u32 (iref ip + 1)));;;
      zoom i_lk spinlock_release;;;
      ret i
  | inr None => panic "inode_alloc: no free inode"
  | inr (Some i) =>
      wr_inode i (set_inode_num num);;;
      wr_inode i (set_iref 1);;;
      wr_inode i (set_valid false);;;
      zoom i_lk spinlock_release;;;
      ret i
  end.

Definition inode_lock (i : nat) : M (istate D) unit :=
  let* ip := rd_inode i in
  assert_ (0 <? iref ip) "inode_lock: invalid inode";;;
  ilock i;;;
  let* ip := rd_inode i in
  when (negb (valid ip)) (inode_rw i false;;; wr_inode i (set_valid true)).

Definition inode_unlock (i : nat) : M (istate D) unit :=
  let* h := iholding i in
  assert_ h "inode_unlock: not holding lock";;;
  iunlock i.

Definition inode_create (type major minor : Z) : M (istate D) nat :=
  let* num := ialloc_num in
  let* i := inode_alloc num in
  inode_lock i;;;
  wr_dinode i (set_itype type);;;
  wr_dinode i (set_imajor major);;;
  wr_dinode i (set_iminor minor);;;
  wr_dinode i (set_inlink 1);;;
  wr_dinode i (set_isize 0);;;
  wr_dinode i (set_addrs (replicate (Z.to_nat N_ADDRS) 0));;;
  wr_inode i (set_valid true);;;
  inode_rw i true;;;
  when (type =? FT_DIR)
    (let* b := balloc in
     wr_dinode i (fun d => set_addrs (<[O := b]> (addrs d)) d);;;
     wr_dinode i (set_isize 0);;;
     inode_rw i true);;;
  inode_unlock i;;;
  ret i.

(** ** Locating data blocks *)

(** locate_block on an entry of value [e] at depth [levels] below it (size =
    256^levels): the new value of the entry and the block number.  Entries of
    index blocks are uint32s of the buffer; they are changed in the buffer only. *)
Fixpoint locate_block (levels : nat) (e bn : Z) : M (istate D) (Z * Z) :=
  let* e := (if e =? 0 then balloc else ret e) in
  match levels with
  | O => ret (e, e)
  | S levels' =>
      let next_size := ENTRY_PER_BLOCK ^ Z.of_nat levels' in
      let next_bn := bn mod next_size in
      let* b := bread e in
      let o := (4 * Z.to_nat (bn / next_size))%nat in
      let* l := bdata b in
      let* r := locate_block levels' (dec32 l o) next_bn in
      bset b (fun l => blit l (Z.of_nat o) (enc32 (fst r)));;;
      brelse b;;;
      ret (e, snd r)
  end.

(** The entry of ip->addrs to start from, the depth below it and the index there. *)
Definition locate_root (bn : Z) : option (nat * nat * Z) :=
  if bn <? N_ADDRS_1 then Some (Z.to_nat bn, O, bn)
  else
    let bn := bn - N_ADDRS_1 in
    if bn <? N_ADDRS_2 * ENTRY_PER_BLOCK then
      Some (Z.to_nat (N_ADDRS_1 + bn / ENTRY_PER_BLOCK), 1%nat, bn mod ENTRY_PER_BLOCK)
    else
      let bn := bn - N_ADDRS_2 * ENTRY_PER_BLOCK in
      if bn <? N_ADDRS_3 * ENTRY_PER_BLOCK * ENTRY_PER_BLOCK then
        Some (Z.to_nat (N_ADDRS_1 + N_ADDRS_2 + bn / (ENTRY_PER_BLOCK * ENTRY_PER_BLOCK)), 2%nat,
              bn mod (ENTRY_PER_BLOCK * ENTRY_PER_BLOCK))
      else None.

Definition inode_locate_block (i : nat) (bn : Z) : M (istate D) Z :=
  match locate_root bn with
  | None => panic "inode_locate_block: overflow"
  | Some (idx, levels, b) =>
      let* ip := rd_inode i in
      let* r := locate_block levels (addrs (idisk ip) !!! idx) b in
      wr_dinode i (fun d => set_addrs (<[idx := fst r]> (addrs d)) d);;;
      ret (snd r)
  end.

(** ** Reading and writing data *)

(** The bytes of a kernel array at its address in memory, and back. *)
Definition mem_store (a : Z) (l : list Z) : M (istate D) unit := zoom i_k (wr_mem (fun m => write_bytes m a l)).
Definition mem_load (a : Z) (n : nat) : M (istate D) (list Z) :=
  zoom i_k (gets (fun k => bytes_at (pm (kpm k)) a n)).

Fixpoint read_loop (fuel : nat) (i : nat) (offset len total : Z) (dst : data_dst) : M (istate D) (Z * list Z) :=
  match fuel with
  | O => no_fuel
  | S fuel =>
      if total <? len then
        let* num := inode_locate_block i (offset / BLOCK_SIZE) in
        let block_offset := offset mod BLOCK_SIZE in
        let read_len := BLOCK_SIZE - block_offset in
        let read_len := if len - total <? read_len then len - total else read_len in
        let* b := bread num in
        let* l := bdata b in
        let* out := (match dst with
           | ToUser a =>
               let* p := zoom i_k myproc in
               let* pp := zoom i_k (rd_proc p) in
               mem_store (buf_addr b) l;;;
               zoom i_k (zoom k_pmem (uvm_copyout (pgtbl pp) (u64 (a + total)) (buf_addr b + block_offset) read_len));;;
               ret []
           | ToKernel => ret (slice l block_offset read_len)
           end) in
        brelse b;;;
        let* r := read_loop fuel i (u32 (offset + read_len)) len (u32 (total + read_len)) dst in
        ret (fst r, out ++ snd r)
      else ret (total, [])
  end.
(** Every iteration moves at least one byte. *)
Definition inode_read_data (i : nat) (offset len : Z) (dst : data_dst) : M (istate D) (Z * list Z) :=
  let* h := iholding i in
  assert_ h "inode_read_data: not holding lock";;;
  let* ip := rd_inode i in
  let size := isize (idisk ip) in
  if size <? offset then ret (0, [])
  else
    let len := if size <? u32 (offset + len) then u32 (size - offset) else len in
    read_loop (S (Z.to_nat len)) i offset len 0 dst.

Fixpoint write_loop (fuel : nat) (i : nat) (offset len total : Z) (src : data_src) : M (istate D) (Z * Z) :=
  match fuel with
  | O => no_fuel
  | S fuel =>
      if total <? len then
        let* num := inode_locate_block i (offset / BLOCK_SIZE) in
        let block_offset := offset mod BLOCK_SIZE in
        let write_len := BLOCK_SIZE - block_offset in
        let write_len := if len - total <? write_len then len - total else write_len in
        let* b := bread num in
        (match src with
         | FromUser a =>
             let* p := zoom i_k myproc in
             let* pp := zoom i_k (rd_proc p) in
             let* l := bdata b in
             mem_store (buf_addr b) l;;;
             zoom i_k (zoom k_pmem (uvm_copyin (pgtbl pp) (buf_addr b + block_offset) (u64 (a + total)) write_len));;;
             let* l := mem_load (buf_addr b) (Z.to_nat BLOCK_SIZE) in
             bset b (fun _ => l)
         | FromKernel bytes => bset b (fun l => blit l block_offset (slice bytes total write_len))
         end);;;
        bwrite b;;;
        brelse b;;;
        write_loop fuel i (u32 (offset + write_len)) len (u32 (total + write_len)) src
      else ret (total, offset)
  end.
Definition inode_write_data (i : nat) (offset len : Z) (src : data_src) : M (istate D) Z :=
  let* h := iholding i in
  assert_ h "inode_write_data: not holding lock";;;
  let* ip := rd_inode i in
  if isize (idisk ip) <? offset then ret 0
  else if INODE_MAXSIZE <? u32 (offset + len) then ret 0
  else
    let* r := write_loop (S (Z.to_nat len)) i offset len 0 src in
    let* ip := rd_inode i in
    when (isize (idisk ip) <? snd r) (wr_dinode i (set_isize (snd r)));;;
    inode_rw i true;;;
    ret (fst r).

(** ** Freeing *)

(** data_free: the entries of an index block up to the first 0, then the block. *)
Fixpoint data_free (level : nat) (num : Z) : M (istate D) unit :=
  assert_ (negb (num =? 0)) "data_free: block_num = 0";;;
  (match level with
   | O => ret tt
   | S level' =>
       let* b := bread num in
       let* _ := for_exit (Z.to_nat ENTRY_PER_BLOCK) 0 1 (fun k =>
         let* l := bdata b in
         let a := dec32 l (4 * Z.to_nat k) in
         if a =? 0 then ret (Some tt) else data_free level' a;;; ret None) in
       brelse b
   end);;;
  bfree num.

Definition free_entry (i : nat) (level : nat) (idx : Z) : M (istate D) unit :=
  let* ip := rd_inode i in
  let a := addrs (idisk ip) !!! Z.to_nat idx in
  when (negb (a =? 0))
    (data_free level a;;;
     wr_dinode i (fun d => set_addrs (<[Z.to_nat idx := 0]> (addrs d)) d)).
Definition inode_free_data (i : nat) : M (istate D) unit :=
  let* h := iholding i in
  assert_ h "inode_free_data: not holding lock";;;
  for_ (Z.to_nat N_ADDRS_1) 0 1 (free_entry i 0);;;
  for_ (Z.to_nat N_ADDRS_2) N_ADDRS_1 1 (free_entry i 1);;;
  for_ (Z.to_nat N_ADDRS_3) (N_ADDRS_1 + N_ADDRS_2) 1 (free_entry i 2);;;
  wr_dinode i (set_isize 0);;;
  inode_rw i true.

Definition inode_destroy (i : nat) : M (istate D) unit :=
  ilock i;;;
  inode_free_data i;;;
  wr_dinode i (set_itype FT_UNUSED);;;
  inode_rw i true;;;
  let* ip := rd_inode i in
  ifree_num (inode_num ip);;;
  iunlock i;;;
  wr_inode i (set_valid false).

Definition inode_free (i : nat) : M (istate D) unit :=
  zoom i_lk spinlock_acquire;;;
  let* ip := rd_inode i in
  when ((iref ip =? 1) && valid ip && (inlink (idisk ip) =? 0)) (inode_destroy i);;;
  let* ip := rd_inode i in
  wr_inode i (set_iref (u32 (iref ip - 1)));;;
  zoom i_lk spinlock_release.

Definition inode_dup (i : nat) : M (istate D) nat :=
  zoom i_lk spinlock_acquire;;;
  let* ip := rd_inode i in
  wr_inode i (set_iref (u32 (iref ip + 1)));;;
  zoom i_lk spinlock_release;;;
  ret i.

Definition inode_unlock_free (i : nat) : M (istate D) unit := inode_unlock i;;; inode_free i.

(** inode_print only prints; its guard is the lock check. *)
Definition inode_print (i : nat) : M (istate D) inode :=
  let* h := iholding i in
  assert_ h "inode_print: lk";;;
  rd_inode i.

End inode.
