(* ===== verification/InodeSpec.v ===== *)
(** * Properties of the inode layer

    The disk format of inodes, the allocation of their blocks, and files as byte
    sequences on the direct blocks. *)

From S2P Require Import Prelude Machine Str Lock Pmem Kvm KvmSpec Mmap Uvm Proc ProcSpec SleepSpec Buf BufSpec Bitmap BitmapSpec Inode.

(** ** The disk format *)

Record dinode_ok (d : dinode) : Prop := {
  d_type : 0 <= itype d < 2 ^ 16;
  d_major : 0 <= imajor d < 2 ^ 16;
  d_minor : 0 <= iminor d < 2 ^ 16;
  d_nlink : 0 <= inlink d < 2 ^ 16;
  d_size : 0 <= isize d < 2 ^ 32;
  d_len : length (addrs d) = Z.to_nat N_ADDRS;
  d_addrs : Forall (fun a => 0 <= a < 2 ^ 32) (addrs d);
}.

Lemma enc16_dec v p q : 0 <= v < 2 ^ 16 -> dec16 (p ++ enc16 v ++ q) (length p) = v.
Proof.
  intros H. unfold dec16, enc16. rewrite !list_lookup_total_alt.
  rewrite (lookup_app_r p), Nat.sub_diag by lia. rewrite (lookup_app_r p) by lia.
  replace (S (length p) - length p)%nat with 1%nat by lia. cbn.
  rewrite (Z.mod_small (v / 256)) by (split; [apply Z.div_pos; lia|apply Z.div_lt_upper_bound; lia]).
  pose proof (Z.div_mod v 256). lia.
Qed.
Lemma enc32_dec v p q : 0 <= v < 2 ^ 32 -> dec32 (p ++ enc32 v ++ q) (length p) = v.
Proof.
  intros H. unfold dec32, enc32. rewrite !list_lookup_total_alt.
  rewrite (lookup_app_r p), Nat.sub_diag by lia. rewrite !(lookup_app_r p) by lia.
  replace (length p + 1 - length p)%nat with 1%nat by lia.
  replace (length p + 2 - length p)%nat with 2%nat by lia.
  replace (length p + 3 - length p)%nat with 3%nat by lia. cbn.
  change 65536 with (256 * 256). change 16777216 with (256 * 256 * 256).
  rewrite <- !Z.div_div by lia.
  pose proof (Z.div_mod v 256). pose proof (Z.div_mod (v / 256) 256). pose proof (Z.div_mod (v / 256 / 256) 256).
  rewrite (Z.mod_small (v / 256 / 256 / 256)); [lia|].
  split; [repeat apply Z.div_pos; lia|]. repeat (apply Z.div_lt_upper_bound; [lia|]). lia.
Qed.
Lemma enc32_len v : length (enc32 v) = 4%nat.
Proof. done. Qed.

Lemma dec_addrs l p q : Forall (fun a => 0 <= a < 2 ^ 32) l ->
  ((fun i => dec32 (p ++ concat (enc32 <$> l) ++ q) (length p + 4 * i)) <$> seq 0 (length l)) = l.
Proof.
  revert p. induction l as [|a l IH]; intros p H; [done|]. apply Forall_cons in H as [Ha Hl].
  cbn [length seq fmap list_fmap concat]. f_equal.
  - rewrite Nat.mul_0_r, Nat.add_0_r, <- app_assoc. by apply enc32_dec.
  - rewrite <- fmap_S_seq, <- list_fmap_compose. rewrite <- (IH (p ++ enc32 a) Hl) at 2.
    apply list_fmap_ext. intros i x _. cbn [compose]. rewrite length_app, enc32_len, <- !app_assoc. f_equal. lia.
Qed.

Lemma concat_enc32_len l : length (concat (enc32 <$> l)) = (4 * length l)%nat.
Proof. induction l as [|a l IH]; [done|]. cbn [fmap list_fmap concat length]. rewrite length_app, IH, enc32_len. lia. Qed.
Lemma enc_dinode_len d : dinode_ok d -> length (enc_dinode d) = Z.to_nat INODE_DISK_SIZE.
Proof.
  intros H. unfold enc_dinode. rewrite !length_app, concat_enc32_len, (d_len d H).
  unfold N_ADDRS, N_ADDRS_1, N_ADDRS_2, N_ADDRS_3, INODE_DISK_SIZE. cbn. lia.
Qed.
Lemma dec_enc_dinode d q : dinode_ok d -> dec_dinode (enc_dinode d ++ q) = d.
Proof.
  intros [H1 H2 H3 H4 H5 H6 H7]. unfold dec_dinode, enc_dinode. rewrite <- !app_assoc.
  set (r := concat (enc32 <$> addrs d)) in *.
  pose proof (enc16_dec (itype d) [] (enc16 (imajor d) ++ enc16 (iminor d) ++ enc16 (inlink d) ++ enc32 (isize d) ++ r ++ q) H1) as E1.
  pose proof (enc16_dec (imajor d) (enc16 (itype d)) (enc16 (iminor d) ++ enc16 (inlink d) ++ enc32 (isize d) ++ r ++ q) H2) as E2.
  pose proof (enc16_dec (iminor d) (enc16 (itype d) ++ enc16 (imajor d)) (enc16 (inlink d) ++ enc32 (isize d) ++ r ++ q) H3) as E3.
  pose proof (enc16_dec (inlink d) (enc16 (itype d) ++ enc16 (imajor d) ++ enc16 (iminor d)) (enc32 (isize d) ++ r ++ q) H4) as E4.
  pose proof (enc32_dec (isize d) (enc16 (itype d) ++ enc16 (imajor d) ++ enc16 (iminor d) ++ enc16 (inlink d)) (r ++ q) H5) as E5.
  pose proof (dec_addrs (addrs d) (enc16 (itype d) ++ enc16 (imajor d) ++ enc16 (iminor d) ++ enc16 (inlink d) ++ enc32 (isize d)) q H7) as E6.
  rewrite <- !app_assoc in E3, E4, E5, E6. rewrite H6 in E6.
  cbn [length app] in E1. destruct d as [t ma mi n sz a]. cbn [itype imajor iminor inlink isize addrs] in *.
  f_equal; assumption.
Qed.

(** ** Running the block layer inside the inode layer *)

Section inodespec.
Context {D : Type} {HD : BlockDev D}.

Lemma inode_at_upd (s : istate D) i j f : (j < length (icache s))%nat ->
  inode_at (upd_inode i f s) j = if decide (i = j) then f (inode_at s j) else inode_at s j.
Proof.
  intros Hj. unfold inode_at. cbn. case_decide as E.
  - subst. rewrite list_lookup_alter_eq. destruct (lookup_lt_is_Some_2 _ _ Hj) as [n ->]. done.
  - by rewrite list_lookup_alter_ne.
Qed.
Lemma upd_upd_inode (s : istate D) i f g : upd_inode i f (upd_inode i g s) = upd_inode i (fun x => f (g x)) s.
Proof. unfold upd_inode. cbn. by rewrite alter_alter. Qed.

#[export] Instance inode_lock_in i : LockIn (i_k (D:=D)) (i_slk i) (fun s => (i < length (icache s))%nat).
Proof.
  split; try done.
  - by intros [[] ? ? ?].
  - intros l s H. cbn [lget lset i_slk]. rewrite inode_at_upd by done. by rewrite decide_True.
  - intros s H. cbn [lget lset i_slk]. unfold upd_inode. rewrite alter_id_at; [by destruct s|].
    intros x Hx. unfold inode_at. rewrite Hx. by destruct x.
  - intros l l' s. cbn [lget lset i_slk]. by rewrite upd_upd_inode.
Qed.

(** The block layer replaced. *)
Definition set_ib (b : bstate D) (s : istate D) : istate D := lset i_b b s.

Lemma zoom_ib {A} (m : M (bstate D) A) s a b b0 : m b0 = Ret a b -> zoom i_b m (set_ib b0 s) = Ret a (set_ib b s).
Proof. intros H. apply (zoom_run i_b m (set_ib b0 s) a b H). Qed.
Lemma set_ib_id s : set_ib (ib s) s = s.
Proof. by destruct s. Qed.
Lemma nothing_held num b : num <> BLOCK_NUM_UNUSED -> readable_block (D:=D) [] num b.
Proof. intros H. split_and!; [done|unfold N_BUF, N_BLOCK_BUF; cbn; lia|]. intros i Hi. by apply not_elem_of_nil in Hi. Qed.

(** One block read, and one block changed and written through, in the inode layer. *)
Lemma iblock_update sl_fuel num f s : binv [] (ib s) -> num <> BLOCK_NUM_UNUSED -> (0 < sl_fuel)%nat ->
  Z.of_nat (length (f (blk_get (disk (ib s)) num))) = BLOCK_SIZE ->
  exists i b1 bm b2 b', bread sl_fuel num s = Ret i (set_ib b1 s) /\ bset i f (set_ib b1 s) = Ret tt (set_ib bm s) /\
    bwrite i (set_ib bm s) = Ret tt (set_ib b2 s) /\ brelse i (set_ib b2 s) = Ret tt (set_ib b' s) /\
    binv [] b' /\ bk b' = bk (ib s) /\ disk b' = blk_put (disk (ib s)) num (f (blk_get (disk (ib s)) num)).
Proof.
  intros B Hn Hf Hl.
  destruct (bread_spec sl_fuel [] num (ib s) B (nothing_held _ _ Hn) Hf) as (i & s1 & Hrun & B1 & _ & [Hk1 _] & Hd & Hbn & Hda).
  destruct (bupdate_spec i [] s1 f B1) as (s2 & Hup & B2 & [Hk2 _] & Hd2 & Hbn2 & Hda2); [by rewrite Hda|].
  destruct (brelse_spec i [] s2 B2) as (s3 & Hrel & B3 & [Hk3 _] & Hd3).
  { rewrite Hda2, Hbn2, Hd2, Hda, Hbn. symmetry. by apply blk_get_eq. }
  unfold wr_data in Hup. rewrite bind_modify in Hup.
  eexists i, s1, _, s2, s3. split_and!; [by apply zoom_run|by apply zoom_ib|by apply (zoom_ib _ _ _ _ _ Hup)|by apply zoom_ib|done|congruence|].
  by rewrite Hd3, Hd2, Hbn, Hda, Hd.
Qed.
Lemma iblock_get sl_fuel num s : binv [] (ib s) -> num <> BLOCK_NUM_UNUSED -> (0 < sl_fuel)%nat ->
  exists i b1 b', bread sl_fuel num s = Ret i (set_ib b1 s) /\
    bdata i (set_ib b1 s) = Ret (blk_get (disk (ib s)) num) (set_ib b1 s) /\
    (forall s0, brelse i (set_ib b1 s0) = Ret tt (set_ib b' s0)) /\
    binv [] b' /\ bk b' = bk (ib s) /\ disk b' = disk (ib s).
Proof.
  intros B Hn Hf.
  destruct (bread_spec sl_fuel [] num (ib s) B (nothing_held _ _ Hn) Hf) as (i & s1 & Hrun & B1 & _ & [Hk1 _] & Hd & Hbn & Hda).
  destruct (brelse_spec i [] s1 B1) as (s3 & Hrel & B3 & [Hk3 _] & Hd3); [by rewrite Hda, Hbn, Hd|].
  exists i, s1, s3. split_and!; [by apply zoom_run| |intros s0; by apply zoom_ib|done|congruence|congruence].
  rewrite <- Hda. by apply zoom_ib.
Qed.

(** ** Bytes of a block *)

Lemma blit_len l o src : 0 <= o -> o + Z.of_nat (length src) <= Z.of_nat (length l) -> length (blit l o src) = length l.
Proof. intros H1 H2. unfold blit. rewrite !length_app, length_take, length_drop. lia. Qed.
Lemma blit_at l o src k : 0 <= o -> o + Z.of_nat (length src) <= Z.of_nat (length l) -> 
  blit l o src !! k = if decide (Z.to_nat o <= k < Z.to_nat o + length src)%nat then src !! (k - Z.to_nat o)%nat else l !! k.
Proof.
  intros H1 H2. unfold blit. assert (length (take (Z.to_nat o) l) = Z.to_nat o) as Ht by (rewrite length_take; lia).
  case_decide as E.
  - rewrite lookup_app_r by lia. rewrite Ht. by rewrite lookup_app_l by lia.
  - destruct (decide (k < Z.to_nat o)%nat).
    + rewrite lookup_app_l by lia. by rewrite lookup_take_lt by lia.
    + rewrite lookup_app_r by lia. rewrite Ht, lookup_app_r by lia. rewrite lookup_drop. f_equal. lia.
Qed.
Lemma slice_at l o n k : 0 <= o -> 0 <= n -> slice l o n !! k = if decide (k < Z.to_nat n)%nat then l !! (Z.to_nat o + k)%nat else None.
Proof.
  intros H1 H2. unfold slice. case_decide.
  - by rewrite lookup_take_lt, lookup_drop by lia.
  - apply lookup_take_ge. lia.
Qed.
Lemma slice_blit_eq l o src : 0 <= o -> o + Z.of_nat (length src) <= Z.of_nat (length l) ->
  slice (blit l o src) o (Z.of_nat (length src)) = src.
Proof.
  intros H1 H2. apply list_eq. intros k. rewrite slice_at by lia. rewrite Nat2Z.id. case_decide as E.
  - rewrite blit_at by done. rewrite decide_True by lia. f_equal. lia.
  - by rewrite lookup_ge_None_2 by lia.
Qed.
Lemma slice_blit_ne l o src o' n : 0 <= o -> o + Z.of_nat (length src) <= Z.of_nat (length l) -> 0 <= o' -> 0 <= n ->
  o' + n <= o \/ o + Z.of_nat (length src) <= o' -> slice (blit l o src) o' n = slice l o' n.
Proof.
  intros H1 H2 H3 H4 H5. apply list_eq. intros k. rewrite !slice_at by lia. case_decide as E; [|done].
  rewrite blit_at by done. by rewrite decide_False by lia.
Qed.

(** ** Inodes on the disk *)

Definition inode_block (sb : super_block) (inum : Z) : Z := inode_start sb + inum / INODE_PER_BLOCK.
Definition inode_off (inum : Z) : Z := (inum mod INODE_PER_BLOCK) * INODE_DISK_SIZE.
Definition dinode_on (sb : super_block) (d : D) (inum : Z) : dinode :=
  dec_dinode (slice (blk_get d (inode_block sb inum)) (inode_off inum) INODE_DISK_SIZE).

(** The running process holds inode slot [i]; the inode number fits the disk layout. *)
Record ihold (i : nat) (s : istate D) : Prop := {
  ih_lt : (i < length (icache s))%nat;
  ih_slk : sl_held (me_pid (bk (ib s))) (islk (inode_at s i));
  ih_num : 0 <= inode_num (inode_at s i) < inode_blocks (isb s) * INODE_PER_BLOCK;
  ih_sb : 0 <= inode_start (isb s) < 2 ^ 31 /\ inode_blocks (isb s) <= 2 ^ 12;
}.
Lemma binv_quiet hs (b : bstate D) : binv hs b -> quiet (bk b).
Proof. intros [l B]. apply B. Qed.
Lemma iholding_run i s : ihold i s -> quiet (bk (ib s)) -> iholding i s = Ret true s.
Proof.
  intros [Hlt (Hl & Hf & Hp) _ _] Q. unfold iholding. rewrite sleeplock_holding_run; [|done|done|done].
  cbn [lget i_slk i_k]. by rewrite Hl, Hp, Z.eqb_refl.
Qed.
Lemma inode_off_bound inum : 0 <= inode_off inum /\ inode_off inum + INODE_DISK_SIZE <= BLOCK_SIZE.
Proof.
  unfold inode_off, INODE_PER_BLOCK, INODE_DISK_SIZE, BLOCK_SIZE. change (1024 / 64) with 16.
  pose proof (Z.mod_pos_bound inum 16). lia.
Qed.
Lemma inode_block_u32 i s : ihold i s -> u32 (inode_start (isb s) + inode_num (inode_at s i) / INODE_PER_BLOCK) =
  inode_block (isb s) (inode_num (inode_at s i)) /\ inode_block (isb s) (inode_num (inode_at s i)) <> BLOCK_NUM_UNUSED.
Proof.
  intros [_ _ Hn Hs]. unfold inode_block, INODE_PER_BLOCK, BLOCK_SIZE, INODE_DISK_SIZE, BLOCK_NUM_UNUSED in *.
  change (1024 / 64) with 16 in *. pose proof (div_mul_le (inode_num (inode_at s i)) 16 ltac:(lia)).
  split; [apply u32_small; lia|lia].
Qed.

Lemma inode_rw_write sl_fuel i s : binv [] (ib s) -> ihold i s -> (0 < sl_fuel)%nat -> dinode_ok (idisk (inode_at s i)) ->
  let inum := inode_num (inode_at s i) in
  exists b', inode_rw sl_fuel i true s = Ret tt (set_ib b' s) /\ binv [] b' /\ bk b' = bk (ib s) /\
    disk b' = blk_put (disk (ib s)) (inode_block (isb s) inum)
                (blit (blk_get (disk (ib s)) (inode_block (isb s) inum)) (inode_off inum) (enc_dinode (idisk (inode_at s i)))).
Proof.
  intros B H Hf Hd inum. destruct (inode_block_u32 i s H) as [Hu Hne]. pose proof (inode_off_bound inum) as [Ho1 Ho2].
  unfold inode_rw. mrun (iholding_run i s H (binv_quiet _ _ B)). unfold rd_inode. mstep. rewrite Hu. fold inum.
  destruct (iblock_update sl_fuel (inode_block (isb s) inum) (fun l => blit l (inode_off inum) (enc_dinode (idisk (inode_at s i)))) s B Hne Hf)
    as (j & b1 & bm & b2 & b' & R1 & R2 & R3 & R4 & B' & Hk & Hdk).
  { rewrite blit_len; [apply blk_len|done|]. rewrite enc_dinode_len, blk_len by done. unfold INODE_DISK_SIZE in *. lia. }
  exists b'. split_and!; try done. mrun R1. mrun R2. mrun R3. exact R4.
Qed.

Lemma inode_rw_read sl_fuel i s : binv [] (ib s) -> ihold i s -> (0 < sl_fuel)%nat ->
  exists b', inode_rw sl_fuel i false s =
      Ret tt (set_ib b' (upd_inode i (upd_idisk (fun _ => dinode_on (isb s) (disk (ib s)) (inode_num (inode_at s i)))) s)) /\
    binv [] b' /\ bk b' = bk (ib s) /\ disk b' = disk (ib s).
Proof.
  intros B H Hf. destruct (inode_block_u32 i s H) as [Hu Hne].
  unfold inode_rw. mrun (iholding_run i s H (binv_quiet _ _ B)). unfold rd_inode. mstep. rewrite Hu.
  destruct (iblock_get sl_fuel (inode_block (isb s) (inode_num (inode_at s i))) s B Hne Hf) as (j & b1 & b' & R1 & R2 & R3 & B' & Hk & Hdk).
  exists b'. split_and!; try done. mrun R1. mrun R2. unfold wr_dinode, wr_inode. mstep.
  apply (R3 (upd_inode i (upd_idisk (fun _ => dinode_on (isb s) (disk (ib s)) (inode_num (inode_at s i)))) s)).
Qed.

(** What a written inode does to the inodes on the disk. *)
Lemma dinode_on_put sb (d : D) inum dn inum' : dinode_ok dn -> 0 <= inum -> 0 <= inum' ->
  dinode_on sb (blk_put d (inode_block sb inum) (blit (blk_get d (inode_block sb inum)) (inode_off inum) (enc_dinode dn))) inum' =
  if decide (inum' = inum) then dn else dinode_on sb d inum'.
Proof.
  intros Hd H0 H0'. unfold dinode_on. pose proof (inode_off_bound inum) as [Ho1 Ho2]. pose proof (inode_off_bound inum') as [Ho1' Ho2'].
  pose proof (blk_len d (inode_block sb inum)) as Hl. pose proof (enc_dinode_len dn Hd) as He.
  assert (inode_off inum + Z.of_nat (length (enc_dinode dn)) <= Z.of_nat (length (blk_get d (inode_block sb inum)))) as Hfit
    by (rewrite He, Hl; unfold INODE_DISK_SIZE in *; lia).
  case_decide as E.
  - subst inum'. rewrite blk_get_eq by (by rewrite blit_len).
    replace INODE_DISK_SIZE with (Z.of_nat (length (enc_dinode dn))) at 1 by (rewrite He; done).
    rewrite slice_blit_eq by done. rewrite <- (app_nil_r (enc_dinode dn)). by apply dec_enc_dinode.
  - destruct (decide (inode_block sb inum' = inode_block sb inum)) as [Eb|Eb].
    + rewrite Eb, blk_get_eq by (by rewrite blit_len). f_equal. apply slice_blit_ne; try done.
      unfold inode_block, inode_off, INODE_PER_BLOCK, BLOCK_SIZE, INODE_DISK_SIZE in *. change (1024 / 64) with 16 in *.
      rewrite He. change (Z.of_nat (Z.to_nat 64)) with 64.
      pose proof (Z.div_mod inum 16). pose proof (Z.div_mod inum' 16). lia.
    + rewrite blk_get_ne by congruence. done.
Qed.

(** ** Free blocks *)

(** At least [c] bits of the data bitmap are clear. *)
Definition has_free (sb : super_block) (d : D) (c : nat) : Prop :=
  exists F, NoDup F /\ length F = c /\ forall n, n ∈ F -> 0 <= n < BITS /\ bit (blk_get d (data_bitmap_start sb)) n = false.

Lemma filter_ne_len (F : list Z) n : NoDup F -> (length F <= S (length (filter (fun x => x <> n) F)))%nat.
Proof.
  intros Hd. induction F as [|x F IH]; [cbn; lia|]. apply NoDup_cons in Hd as [Hx Hd]. rewrite filter_cons. case_decide as E.
  - cbn. specialize (IH Hd). lia.
  - assert (x = n) as -> by (destruct (decide (x = n)); [done|by destruct E]).
    assert (filter (fun x => x <> n) F = F) as ->; [|cbn; lia].
    clear -Hx. induction F as [|y F IH]; [done|]. rewrite filter_cons.
    rewrite decide_True; [|intros ->; apply Hx, list_elem_of_here]. f_equal. apply IH. intros ?. by apply Hx, list_elem_of_further.
Qed.

(** The disk layout: the data area lies behind the bitmaps and the inode blocks. *)
Record layout (sb : super_block) : Prop := {
  lay_bm : 0 <= data_bitmap_start sb < data_start sb;
  lay_data : data_start sb + BITS < 2 ^ 32 - 1;
  lay_inode : forall inum, 0 <= inum < inode_blocks sb * INODE_PER_BLOCK -> inode_block sb inum < data_start sb /\ inode_block sb inum <> data_bitmap_start sb;
}.

(** balloc with the buffers [hs] held, none of them the bitmap. *)
Lemma balloc_held sl_fuel hs sb (b : bstate D) c : binv hs b -> readable_block hs (data_bitmap_start sb) b -> (0 < sl_fuel)%nat -> layout sb ->
  has_free sb (disk b) (S c) ->
  exists n b', bitmap_alloc_block sl_fuel sb b = Ret (data_start sb + n) b' /\ 0 <= n < BITS /\ binv hs b' /\ bframe hs b b' /\
    bit (blk_get (disk b) (data_bitmap_start sb)) n = false /\
    (forall m, 0 <= m < BITS -> bit (blk_get (disk b') (data_bitmap_start sb)) m = (m =? n) || bit (blk_get (disk b) (data_bitmap_start sb)) m) /\
    (forall x, x <> data_bitmap_start sb -> blk_get (disk b') x = blk_get (disk b) x) /\ has_free sb (disk b') c.
Proof.
  intros B Hrd Hf L (F & HFd & HFl & HF). pose proof L as [Hbm Hda _]. set (bm := data_bitmap_start sb) in *.
  pose proof (search_and_set_run sl_fuel hs bm b B Hrd Hf) as Hrun.
  pose proof (search_lowest (blk_get (disk b) bm) (blk_len _ _)) as Hl.
  destruct (search_bytes (blk_get (disk b) bm) 0) as [[[byte sh] p]|].
  2:{ exfalso. destruct F as [|n F]; [done|]. destruct (HF n (list_elem_of_here _ _)) as [Hn Hb]. by rewrite Hl in Hb. }
  destruct Hl as (-> & Hb & Hs & Hn & Hbit & _). destruct Hrun as (b' & Hrun & B' & Hk & Hd).
  assert (forall m, 0 <= m < BITS -> bit (blk_get (disk b') bm) m = (m =? byte * 8 + sh) || bit (blk_get (disk b) bm) m) as Hbits.
  { intros m Hm. rewrite Hd, blk_get_eq by (rewrite set_byte_len; apply blk_len). apply set_bit_spec; try done. apply blk_len. }
  exists (byte * 8 + sh), b'. split_and!; try done; try lia.
  - unfold bitmap_alloc_block. fold bm. rewrite (bind_run _ _ _ _ _ Hrun). unfold ret. f_equal. apply u32_small. lia.
  - intros x Hx. rewrite Hd. by apply blk_get_ne.
  - pose proof (filter_ne_len F (byte * 8 + sh) HFd) as Hlen. rewrite HFl in Hlen.
    exists (take c (filter (fun x => x <> byte * 8 + sh) F)). split_and!.
    + pose proof (NoDup_filter (fun x => x <> byte * 8 + sh) F HFd) as Hnd. rewrite <- (take_drop c) in Hnd. by apply NoDup_app in Hnd as [? _].
    + rewrite length_take. lia.
    + intros n Hin. apply elem_of_take in Hin as (k & Hk' & _). apply list_elem_of_lookup_2, list_elem_of_filter in Hk' as [Hnn Hin].
      destruct (HF n Hin) as [Hn' Hb']. split; [done|]. rewrite Hbits, Hb' by done. by rewrite (proj2 (Z.eqb_neq _ _) Hnn).
Qed.

Lemma balloc_run sl_fuel sb (b : bstate D) c : binv [] b -> (0 < sl_fuel)%nat -> layout sb -> has_free sb (disk b) (S c) ->
  exists n b', bitmap_alloc_block sl_fuel sb b = Ret (data_start sb + n) b' /\ 0 <= n < BITS /\ binv [] b' /\ bk b' = bk b /\
    bit (blk_get (disk b) (data_bitmap_start sb)) n = false /\
    (forall m, 0 <= m < BITS -> bit (blk_get (disk b') (data_bitmap_start sb)) m = (m =? n) || bit (blk_get (disk b) (data_bitmap_start sb)) m) /\
    (forall x, x <> data_bitmap_start sb -> blk_get (disk b') x = blk_get (disk b) x) /\ has_free sb (disk b') c.
Proof.
  intros B Hf L Hfree. pose proof L as [Hbm Hda _].
  destruct (balloc_held sl_fuel [] sb b c B) as (n & b' & H1 & H2 & H3 & [H4 _] & H5 & H6 & H7 & H8); try done.
  { apply nothing_held. unfold BLOCK_NUM_UNUSED, BITS, BLOCK_SIZE in *. lia. }
  exists n, b'. repeat (split; [assumption|]). assumption.
Qed.

(** ** Files of direct blocks *)

Definition DIRECT : Z := N_ADDRS_1 * BLOCK_SIZE.
Definition entry (a : list Z) (j : Z) : Z := a !!! Z.to_nat j.
(** The direct entries point to distinct allocated data blocks. *)
Record fok (sb : super_block) (d : D) (a : list Z) : Prop := {
  f_len : length a = Z.to_nat N_ADDRS;
  f_range : forall j, 0 <= j < N_ADDRS_1 -> entry a j <> 0 ->
    data_start sb <= entry a j < data_start sb + BITS /\ bit (blk_get d (data_bitmap_start sb)) (entry a j - data_start sb) = true;
  f_inj : forall j j', 0 <= j < N_ADDRS_1 -> 0 <= j' < N_ADDRS_1 -> entry a j <> 0 -> entry a j = entry a j' -> j = j';
}.
(** Byte [k] of the file, and whether its block is allocated. *)
Definition alloced (a : list Z) (k : Z) : Prop := entry a (k / BLOCK_SIZE) <> 0.
Definition fbyte (d : D) (a : list Z) (k : Z) : Z := blk_get d (entry a (k / BLOCK_SIZE)) !!! Z.to_nat (k mod BLOCK_SIZE).
(** Direct entries not yet allocated. *)
Definition zeros (a : list Z) : nat := length (filter (fun x => x = 0) (take (Z.to_nat N_ADDRS_1) a)).

Lemma entry_insert a j v j' : 0 <= j -> 0 <= j' -> (Z.to_nat j < length a)%nat ->
  entry (<[Z.to_nat j := v]> a) j' = if decide (j = j') then v else entry a j'.
Proof.
  intros H1 H2 H3. unfold entry. rewrite !list_lookup_total_alt. case_decide as E.
  - subst. by rewrite list_lookup_insert_eq.
  - by rewrite list_lookup_insert_ne by lia.
Qed.
Lemma zeros_split a j : 0 <= j < N_ADDRS_1 -> length a = Z.to_nat N_ADDRS -> entry a j = 0 ->
  forall v, v <> 0 -> zeros a = S (zeros (<[Z.to_nat j := v]> a)).
Proof.
  intros Hj Hl He v Hv. unfold zeros. set (n := Z.to_nat N_ADDRS_1). set (i := Z.to_nat j).
  assert (i < length (take n a))%nat as Hi.
  { rewrite length_take, Hl. unfold n, i, N_ADDRS, N_ADDRS_1, N_ADDRS_2, N_ADDRS_3 in *. lia. }
  assert (take n a !! i = Some 0) as Hlk.
  { destruct (lookup_lt_is_Some_2 _ _ Hi) as [x Hx]. rewrite Hx. f_equal. unfold entry in He. fold i in He.
    rewrite list_lookup_total_alt in He. rewrite length_take in Hi. rewrite lookup_take_lt in Hx by lia. rewrite Hx in He. done. }
  rewrite take_insert_lt by (unfold i, n; lia).
  rewrite <- (take_drop_middle _ _ _ Hlk) at 1. rewrite (insert_take_drop _ _ _ Hi).
  rewrite !filter_app, !filter_cons, decide_True, decide_False by done. rewrite !length_app. cbn [length].
  lia.
Qed.

(** The running process holds the inode in slot [i], whose direct blocks are well
    formed, and the disk has blocks left for its missing direct blocks. *)
Definition iaddrs (i : nat) (s : istate D) : list Z := addrs (idisk (inode_at s i)).
Record file_ready (i : nat) (s : istate D) : Prop := {
  r_binv : binv [] (ib s);
  r_hold : ihold i s;
  r_lay : layout (isb s);
  r_fok : fok (isb s) (disk (ib s)) (iaddrs i s);
  r_free : has_free (isb s) (disk (ib s)) (zeros (iaddrs i s));
  r_disk : dinode_ok (idisk (inode_at s i));
}.
(** Slot [i] differs in its addresses and size only, and the kernel part not at all. *)
Definition same_file (i : nat) (s s' : istate D) : Prop :=
  isb s' = isb s /\ bk (ib s') = bk (ib s) /\ length (icache s') = length (icache s) /\
  inode_num (inode_at s' i) = inode_num (inode_at s i) /\ islk (inode_at s' i) = islk (inode_at s i).
Lemma same_file_trans i s1 s2 s3 : same_file i s1 s2 -> same_file i s2 s3 -> same_file i s1 s3.
Proof. unfold same_file. intros (?&?&?&?&?) (?&?&?&?&?). split_and!; congruence. Qed.
Lemma same_file_hold i s s' : same_file i s s' -> ihold i s -> ihold i s'.
Proof. intros (H1 & H2 & H3 & H4 & H5) [? ? ? ?]. split; rewrite ?H1, ?H2, ?H3, ?H4, ?H5; done. Qed.
Lemma upd_inode_same i f s b : (i < length (icache s))%nat -> bk b = bk (ib s) ->
  (inode_num (f (inode_at s i)) = inode_num (inode_at s i)) -> (islk (f (inode_at s i)) = islk (inode_at s i)) ->
  same_file i s (set_ib b (upd_inode i f s)).
Proof.
  intros Hi Hb H1 H2. assert (inode_at (set_ib b (upd_inode i f s)) i = f (inode_at s i)) as Hat.
  { change (inode_at (set_ib b (upd_inode i f s)) i) with (inode_at (upd_inode i f s) i). rewrite inode_at_upd by done. by rewrite decide_True. }
  unfold same_file. rewrite Hat. split_and!; try done. cbn. by rewrite length_alter.
Qed.

Lemma locate_direct j : 0 <= j < N_ADDRS_1 -> locate_root j = Some (Z.to_nat j, O, j).
Proof. intros H. unfold locate_root. bcase (j <? N_ADDRS_1); [done|lia]. Qed.

(** The inode after its entry [j] was set to [v]. *)
Definition set_entry (j v : Z) (d : dinode) : dinode := set_addrs (<[Z.to_nat j := v]> (addrs d)) d.

Lemma inode_at_set i f s b : (i < length (icache s))%nat -> inode_at (set_ib b (upd_inode i f s)) i = f (inode_at s i).
Proof.
  intros Hi. change (inode_at (set_ib b (upd_inode i f s)) i) with (inode_at (upd_inode i f s) i).
  rewrite inode_at_upd by done. by rewrite decide_True.
Qed.

(** Storing the addresses an inode has. *)
Lemma upd_addrs_same i (s : istate D) (f : list Z -> list Z) : f (iaddrs i s) = iaddrs i s ->
  upd_inode i (upd_idisk (fun d => set_addrs (f (addrs d)) d)) s = s.
Proof.
  intros Hid. unfold upd_inode. rewrite alter_id_at; [by destruct s|]. intros x Hx. unfold upd_idisk, set_addrs.
  assert (inode_at s i = x) as Hat by (unfold inode_at; by rewrite Hx). unfold iaddrs in Hid. rewrite Hat in Hid.
  rewrite Hid. by destruct x as [[] ? ? ? ?].
Qed.
(** inode_locate_block on a direct block: the entry, allocated when it was 0. *)
(** A block whose bit was clear becomes the missing entry [j]. *)
Lemma fok_insert sb (d d' : D) a j n (v := data_start sb + n) : fok sb d a -> 0 <= j < N_ADDRS_1 -> (Z.to_nat j < length a)%nat ->
  0 <= n < BITS -> 0 < v -> bit (blk_get d (data_bitmap_start sb)) n = false ->
  (forall m, 0 <= m < BITS -> bit (blk_get d' (data_bitmap_start sb)) m = (m =? n) || bit (blk_get d (data_bitmap_start sb)) m) ->
  fok sb d' (<[Z.to_nat j := v]> a).
Proof.
  intros Fk Hj Hjl Hn Hv0 Hbit Hbits. split; [by rewrite length_insert; apply Fk| |].
  - intros j' Hj'. rewrite entry_insert by lia. case_decide as E'.
    + intros _. split; [lia|]. replace (v - data_start sb) with n by lia. rewrite Hbits by done. by rewrite Z.eqb_refl.
    + intros Hne. destruct (f_range _ _ _ Fk j' Hj' Hne) as [Hr Hb']. split; [done|]. rewrite Hbits by lia. by rewrite Hb', orb_true_r.
  - assert (forall j', 0 <= j' < N_ADDRS_1 -> entry a j' <> v) as Hfresh.
    { intros j' Hj' Heq. destruct (f_range _ _ _ Fk j' Hj') as [_ Hb']; [lia|]. rewrite Heq in Hb'.
      replace (v - data_start sb) with n in Hb' by lia. congruence. }
    intros j1 j2 H1 H2. rewrite !entry_insert by lia. do 2 case_decide; subst; try done.
    + intros _ Heq. symmetry in Heq. by apply Hfresh in Heq.
    + intros _ Heq. by apply Hfresh in Heq.
    + by apply Fk.
Qed.
Lemma locate_direct_run sl_fuel i j s : file_ready i s -> (0 < sl_fuel)%nat -> 0 <= j < N_ADDRS_1 ->
  exists v s', inode_locate_block sl_fuel i j s = Ret v s' /\ file_ready i s' /\ same_file i s s' /\
    isize (idisk (inode_at s' i)) = isize (idisk (inode_at s i)) /\
    v <> 0 /\ data_start (isb s) <= v < data_start (isb s) + BITS /\
    iaddrs i s' = <[Z.to_nat j := v]> (iaddrs i s) /\ (entry (iaddrs i s) j <> 0 -> v = entry (iaddrs i s) j) /\
    (forall x, data_start (isb s) <= x -> blk_get (disk (ib s')) x = blk_get (disk (ib s)) x) /\
    (entry (iaddrs i s) j <> 0 -> disk (ib s') = disk (ib s) /\ inode_at s' i = inode_at s i).
Proof.
  intros R Hf Hj. pose proof R as [B H L Fk Hfree Hdok]. set (a := iaddrs i s) in *. pose proof (ih_lt _ _ H) as Hi.
  assert (Z.to_nat j < length a)%nat as Hjl.
  { rewrite (f_len _ _ _ Fk). unfold N_ADDRS, N_ADDRS_1, N_ADDRS_2, N_ADDRS_3 in *. lia. }
  unfold inode_locate_block. rewrite locate_direct by done. unfold rd_inode. mstep. cbn [locate_block].
  change (addrs (idisk (inode_at s i)) !!! Z.to_nat j) with (entry a j).
  assert (forall v b', bk b' = bk (ib s) ->
    (let* r := ret (v, v) in wr_dinode i (fun d => set_addrs (<[Z.to_nat j := fst r]> (addrs d)) d);;; ret (snd r)) (set_ib b' s) =
      Ret v (set_ib b' (upd_inode i (upd_idisk (set_entry j v)) s))) as Hend by done.
  destruct (Z.eqb_spec (entry a j) 0) as [E|E].
  - pose proof (zeros_split a j Hj (f_len _ _ _ Fk) E) as Hz.
    assert (has_free (isb s) (disk (ib s)) (S (zeros (<[Z.to_nat j := 1]> a)))) as Hfr1 by (rewrite <- Hz; done).
    destruct (balloc_run sl_fuel (isb s) (ib s) _ B Hf L Hfr1) as (n & b' & Hrun & Hn & B' & Hk & Hbit & Hbits & Hoth & Hfr').
    set (v := data_start (isb s) + n) in *. set (s' := set_ib b' (upd_inode i (upd_idisk (set_entry j v)) s)).
    assert (0 < v) as Hv0 by (destruct L as [? _ _]; lia).
    exists v, s'. assert (iaddrs i s' = <[Z.to_nat j := v]> a) as Ha by (unfold iaddrs, s'; rewrite inode_at_set by done; done).
    assert (same_file i s s') as Hsame by (by apply upd_inode_same).
    assert (isize (idisk (inode_at s' i)) = isize (idisk (inode_at s i))) as Hsz by (unfold s'; rewrite inode_at_set by done; done).
    split_and!; try done; try lia.
    + assert (balloc sl_fuel s = Ret v (set_ib b' s)) as Hb.
      { unfold balloc. mstep. by apply zoom_run. }
      mstep. mrun Hb. exact (Hend v b' Hk).
    + split.
      * done.
      * by eapply same_file_hold.
      * done.
      * rewrite Ha. by apply (fok_insert (isb s) (disk (ib s)) (disk b') a j n).
      * rewrite Ha. change (isb s') with (isb s). change (disk (ib s')) with (disk b'). pose proof (Hz v ltac:(lia)) as Hz1. pose proof (Hz 1 ltac:(lia)) as Hz2.
        by replace (zeros (<[Z.to_nat j := v]> a)) with (zeros (<[Z.to_nat j := 1]> a)) by lia.
      * unfold s'. rewrite inode_at_set by done. destruct Hdok. split; try done; cbn; [by rewrite length_insert|].
        apply Forall_insert; [done|]. destruct L as [? ? _]. lia.
    + intros x Hx. cbn. apply Hoth. destruct L as [? _ _]. lia.
  - assert (<[Z.to_nat j := entry a j]> a = a) as Hid by (apply list_insert_id; apply list_lookup_lookup_total_lt; done).
    pose proof (upd_addrs_same i s _ Hid : upd_inode i (upd_idisk (set_entry j (entry a j))) s = s) as Hs.
    exists (entry a j), s. destruct (f_range _ _ _ Fk j Hj E) as [Hr _].
    split_and!; try done; try lia. mstep. rewrite <- (set_ib_id s) at 1. etransitivity; [apply (Hend (entry a j) (ib s) eq_refl)|].
    by rewrite Hs, set_ib_id.
Qed.

(** ** The copy loops *)

(** The part of one iteration: the block, the offset in it and the length. *)
Definition chunk (offset rest : Z) : Z :=
  let n := BLOCK_SIZE - offset mod BLOCK_SIZE in if rest <? n then rest else n.
Lemma chunk_bound offset rest : 0 <= offset -> 0 < rest -> offset + rest <= DIRECT ->
  0 < chunk offset rest <= rest /\ offset mod BLOCK_SIZE + chunk offset rest <= BLOCK_SIZE /\
  0 <= offset / BLOCK_SIZE < N_ADDRS_1 /\ 0 <= offset mod BLOCK_SIZE.
Proof.
  unfold chunk, DIRECT, N_ADDRS_1, BLOCK_SIZE. intros H1 H2 H3. pose proof (Z.mod_pos_bound offset 1024 ltac:(lia)).
  pose proof (div_mul_le offset 1024 ltac:(lia)). bcase (rest <? 1024 - offset mod 1024); lia.
Qed.
(** Byte [k] of the same block as [offset]. *)
Lemma same_block_pos offset k : 0 <= offset -> k / BLOCK_SIZE = offset / BLOCK_SIZE ->
  k mod BLOCK_SIZE - offset mod BLOCK_SIZE = k - offset /\ 0 <= k mod BLOCK_SIZE < BLOCK_SIZE.
Proof.
  intros H E. rewrite (Z.mod_eq k), (Z.mod_eq offset), E by (unfold BLOCK_SIZE; lia).
  pose proof (Z.mod_pos_bound k BLOCK_SIZE ltac:(unfold BLOCK_SIZE; lia)) as Hb. rewrite Z.mod_eq, E in Hb by (unfold BLOCK_SIZE; lia). lia.
Qed.
Lemma in_chunk_block offset n k : 0 <= offset -> offset mod BLOCK_SIZE + n <= BLOCK_SIZE -> offset <= k < offset + n ->
  k / BLOCK_SIZE = offset / BLOCK_SIZE.
Proof.
  unfold BLOCK_SIZE. intros H1 H2 H3. pose proof (Z.mod_eq offset 1024 ltac:(lia)).
  pose proof (div_mul_le offset 1024 ltac:(lia)). pose proof (div_mul_le k 1024 ltac:(lia)). lia.
Qed.

(** One iteration's effect on the bytes of the file: [src] stored at [offset]. *)
Lemma write_block_bytes i s s2 src offset : file_ready i s -> entry (iaddrs i s) (offset / BLOCK_SIZE) <> 0 ->
  0 <= offset -> 0 <= offset / BLOCK_SIZE < N_ADDRS_1 -> offset mod BLOCK_SIZE + Z.of_nat (length src) <= BLOCK_SIZE ->
  disk (ib s2) = blk_put (disk (ib s)) (entry (iaddrs i s) (offset / BLOCK_SIZE))
    (blit (blk_get (disk (ib s)) (entry (iaddrs i s) (offset / BLOCK_SIZE))) (offset mod BLOCK_SIZE) src) ->
  forall k, 0 <= k < DIRECT -> alloced (iaddrs i s) k ->
    fbyte (disk (ib s2)) (iaddrs i s) k =
    if decide (offset <= k < offset + Z.of_nat (length src)) then src !!! Z.to_nat (k - offset) else fbyte (disk (ib s)) (iaddrs i s) k.
Proof.
  intros R He H0 Hj Hfit Hd k Hk Hal. unfold fbyte. rewrite Hd. set (a := iaddrs i s) in *. set (v := entry a (offset / BLOCK_SIZE)) in *.
  pose proof (Z.mod_pos_bound offset BLOCK_SIZE ltac:(unfold BLOCK_SIZE; lia)) as Hm.
  pose proof (blk_len (disk (ib s)) v) as Hbl.
  assert (0 <= k / BLOCK_SIZE < N_ADDRS_1) as Hkj.
  { unfold DIRECT, N_ADDRS_1, BLOCK_SIZE in *. pose proof (div_mul_le k 1024 ltac:(lia)). lia. }
  destruct (decide (k / BLOCK_SIZE = offset / BLOCK_SIZE)) as [E|E].
  - rewrite E. fold v. rewrite blk_get_eq by (rewrite blit_len; [done|lia|lia]).
    destruct (same_block_pos offset k H0 E) as [Hpos Hkm].
    rewrite !list_lookup_total_alt, blit_at by lia.
    case_decide as E1; case_decide as E2; try lia. do 2 f_equal. lia.
  - rewrite decide_False by (intros Hin; by apply E, (in_chunk_block offset (Z.of_nat (length src)))).
    rewrite blk_get_ne; [done|]. intros Heq. apply E. symmetry. by apply (f_inj _ _ _ (r_fok _ _ R)).
Qed.

Lemma set_disk_ready i s b v l : file_ready i s -> binv [] b -> bk b = bk (ib s) -> data_start (isb s) <= v ->
  disk b = blk_put (disk (ib s)) v l -> file_ready i (set_ib b s).
Proof.
  intros [B H L Fk Hfree Hdok] B' Hk Hv Hd.
  assert (blk_get (disk b) (data_bitmap_start (isb s)) = blk_get (disk (ib s)) (data_bitmap_start (isb s))) as Hbm.
  { rewrite Hd. apply blk_get_ne. destruct L as [? _ _]. lia. }
  split; try done.
  - destruct H as [? ? ? ?]. split; try done. cbn. by rewrite Hk.
  - destruct Fk as [F1 F2 F3]. split; try done. intros j Hj Hne. cbn [ib set_ib lset i_b isb]. rewrite Hbm. by apply F2.
  - destruct Hfree as (F & Hnd & Hl & HF). exists F. split_and!; try done. intros n Hn. cbn [ib set_ib lset i_b isb]. rewrite Hbm. by apply HF.
Qed.

Lemma write_loop_run sl_fuel buf_addr i bytes : (0 < sl_fuel)%nat -> forall fuel s offset len total,
  file_ready i s -> 0 <= offset -> 0 <= total <= len -> offset + (len - total) <= DIRECT -> len <= Z.of_nat (length bytes) -> len < 2 ^ 32 ->
  (Z.to_nat (len - total) < fuel)%nat ->
  exists s', write_loop sl_fuel buf_addr fuel i offset len total (FromKernel bytes) s = Ret (len, offset + (len - total)) s' /\
    file_ready i s' /\ same_file i s s' /\ isize (idisk (inode_at s' i)) = isize (idisk (inode_at s i)) /\
    (forall k, offset <= k < offset + (len - total) -> alloced (iaddrs i s') k /\
       fbyte (disk (ib s')) (iaddrs i s') k = bytes !!! Z.to_nat (total + (k - offset))) /\
    (forall k, 0 <= k < DIRECT -> ~ offset <= k < offset + (len - total) -> alloced (iaddrs i s) k ->
       alloced (iaddrs i s') k /\ fbyte (disk (ib s')) (iaddrs i s') k = fbyte (disk (ib s)) (iaddrs i s) k).
Proof.
  intros Hf. induction fuel as [|fuel IH]; intros s offset len total R Ho Ht Hfit Hlen Hl32 Hfuel; [lia|].
  cbn [write_loop]. bcase (total <? len).
  2:{ assert (len = total) as -> by lia. exists s. rewrite Z.sub_diag, Z.add_0_r. split_and!; try done. intros; lia. }
  destruct (chunk_bound offset (len - total) Ho ltac:(lia) Hfit) as (Hn & Hbo & Hj & Hm). set (n := chunk offset (len - total)) in *.
  destruct (locate_direct_run sl_fuel i (offset / BLOCK_SIZE) s R Hf Hj)
    as (v & s1 & Hloc & R1 & Hs1 & Hsz1 & Hv0 & Hv & Ha1 & Hkeep & Hdisk & _).
  mrun Hloc. fold (chunk offset (len - total)). fold n.
  set (src := slice bytes total n).
  assert (Z.of_nat (length src) = n) as Hsl.
  { unfold src, slice. rewrite length_take, length_drop. lia. }
  assert (Z.to_nat (offset / BLOCK_SIZE) < length (iaddrs i s))%nat as Hjl.
  { rewrite (f_len _ _ _ (r_fok _ _ R)). unfold N_ADDRS, N_ADDRS_1, N_ADDRS_2, N_ADDRS_3 in *. lia. }
  assert (entry (iaddrs i s1) (offset / BLOCK_SIZE) = v) as Hev by (rewrite Ha1, entry_insert by lia; by rewrite decide_True).
  assert (forall k, 0 <= k -> alloced (iaddrs i s) k -> alloced (iaddrs i s1) k /\
    entry (iaddrs i s1) (k / BLOCK_SIZE) = entry (iaddrs i s) (k / BLOCK_SIZE)) as Hal1.
  { intros k Hk Hal. unfold alloced in *. pose proof (Z.div_pos k BLOCK_SIZE Hk ltac:(unfold BLOCK_SIZE; lia)).
    rewrite Ha1, entry_insert by lia. case_decide as Ej; [|done]. rewrite <- Ej in *. by rewrite <- (Hkeep Hal). }
  destruct Hs1 as (Hsb1 & Hs1'). assert (same_file i s s1) as Hs1 by (by split). rewrite <- Hsb1 in Hv.
  destruct (iblock_update sl_fuel v (fun l => blit l (offset mod BLOCK_SIZE) src) s1 (r_binv _ _ R1))
    as (b & b1 & bm & b2 & b' & E1 & E2 & E3 & E4 & B' & Hk' & Hd'); [|done| |].
  { unfold BLOCK_NUM_UNUSED. pose proof (lay_data _ (r_lay _ _ R1)). lia. }
  { rewrite blit_len; [apply blk_len|lia|]. rewrite blk_len. lia. }
  mrun E1. mrun E2. mrun E3. mrun E4.
  assert (file_ready i (set_ib b' s1)) as R2 by (eapply set_disk_ready; [done|done|done| |done]; lia).
  assert (same_file i s1 (set_ib b' s1)) as Hs2 by (split_and!; done).
  pose proof (write_block_bytes i s1 (set_ib b' s1) src offset R1) as Hbytes. rewrite Hev in Hbytes.
  specialize (Hbytes Hv0 Ho Hj ltac:(lia) Hd'). rewrite Hsl in Hbytes.
  rewrite (u32_small (offset + n)), (u32_small (total + n)) by (unfold DIRECT, N_ADDRS_1, BLOCK_SIZE in *; lia).
  destruct (IH (set_ib b' s1) (offset + n) len (total + n) R2) as (s' & Hrun & R' & Hs' & Hsz' & Hin & Hout); try lia.
  exists s'. split_and!; try done.
  - rewrite Hrun. do 2 f_equal. lia.
  - eapply same_file_trans; [done|]. by eapply same_file_trans.
  - rewrite Hsz'. exact Hsz1.
  - intros k Hk. destruct (decide (k < offset + n)) as [Hlt|Hge].
    + assert (k / BLOCK_SIZE = offset / BLOCK_SIZE) as Ek by (apply (in_chunk_block offset n); [done|done|lia]).
      assert (alloced (iaddrs i s1) k) as Hak by (unfold alloced; by rewrite Ek, Hev).
      destruct (Hout k) as [Hal' Hby']; [lia|lia|exact Hak|]. split; [done|]. rewrite Hby'.
      change (iaddrs i (set_ib b' s1)) with (iaddrs i s1). rewrite Hbytes by (done || lia). rewrite decide_True by lia.
      unfold src. rewrite !list_lookup_total_alt, slice_at by lia. rewrite decide_True by lia. do 2 f_equal. lia.
    + destruct (Hin k) as [Hal' Hby']; [lia|]. split; [done|]. rewrite Hby'. do 2 f_equal. lia.
  - intros k Hk Hnk Hal. destruct (Hal1 k ltac:(lia) Hal) as [Hal' Hent]. destruct (Hout k Hk ltac:(lia) Hal') as [Hal2 Hby2].
    split; [done|]. rewrite Hby2. change (iaddrs i (set_ib b' s1)) with (iaddrs i s1). rewrite Hbytes by done.
    rewrite decide_False by lia. unfold fbyte. rewrite Hent, Hdisk; [done|].
    apply (f_range _ _ _ (r_fok _ _ R)); [|done]. unfold DIRECT, N_ADDRS_1, BLOCK_SIZE in *. pose proof (div_mul_le k 1024 ltac:(lia)). lia.
Qed.

Lemma read_loop_run sl_fuel buf_addr i : (0 < sl_fuel)%nat -> forall fuel s offset len total,
  file_ready i s -> 0 <= offset -> 0 <= total <= len -> offset + (len - total) <= DIRECT -> len < 2 ^ 32 ->
  (Z.to_nat (len - total) < fuel)%nat -> (forall k, offset <= k < offset + (len - total) -> alloced (iaddrs i s) k) ->
  exists s' out, read_loop sl_fuel buf_addr fuel i offset len total ToKernel s = Ret (len, out) s' /\
    file_ready i s' /\ disk (ib s') = disk (ib s) /\ inode_at s' i = inode_at s i /\
    Z.of_nat (length out) = len - total /\
    forall x, 0 <= x < len - total -> out !!! Z.to_nat x = fbyte (disk (ib s)) (iaddrs i s) (offset + x).
Proof.
  intros Hf. induction fuel as [|fuel IH]; intros s offset len total R Ho Ht Hfit Hl32 Hfuel Hal; [lia|].
  cbn [read_loop]. bcase (total <? len).
  2:{ assert (len = total) as -> by lia. exists s, []. split_and!; try done; [cbn; lia|]. intros; lia. }
  destruct (chunk_bound offset (len - total) Ho ltac:(lia) Hfit) as (Hn & Hbo & Hj & Hm). set (n := chunk offset (len - total)) in *.
  assert (entry (iaddrs i s) (offset / BLOCK_SIZE) <> 0) as Hne by (apply (Hal offset); lia).
  destruct (locate_direct_run sl_fuel i (offset / BLOCK_SIZE) s R Hf Hj)
    as (v & s1 & Hloc & R1 & (Hsb & _) & _ & Hv0 & Hv & _ & Hkeep & _ & Hsame). destruct (Hsame Hne) as [Hd1 Hat1].
  mrun Hloc. fold (chunk offset (len - total)). fold n. rewrite <- Hsb in Hv.
  destruct (iblock_get sl_fuel v s1 (r_binv _ _ R1)) as (b & b1 & b' & E1 & E2 & E3 & B' & Hk' & Hd'); [|done|].
  { unfold BLOCK_NUM_UNUSED. pose proof (lay_data _ (r_lay _ _ R1)). lia. }
  mrun E1. mrun E2. mrun (E3 s1).
  assert (file_ready i (set_ib b' s1)) as R2.
  { destruct R1 as [B1 H1 L1 F1 Fr1 Do1]. split; try done.
    - destruct H1 as [? ? ? ?]. split; try done. cbn. by rewrite Hk'.
    - cbn. by rewrite Hd'.
    - cbn. by rewrite Hd'. }
  rewrite (u32_small (offset + n)), (u32_small (total + n)) by (unfold DIRECT, N_ADDRS_1, BLOCK_SIZE in *; lia).
  assert (iaddrs i (set_ib b' s1) = iaddrs i s) as Hia by (unfold iaddrs; change (inode_at (set_ib b' s1) i) with (inode_at s1 i); by rewrite Hat1).
  destruct (IH (set_ib b' s1) (offset + n) len (total + n) R2) as (s' & out & Hrun & R' & Hd2 & Hat2 & Hlo & Hout); try lia.
  { intros k Hk. rewrite Hia. apply Hal. lia. }
  mrun Hrun. rewrite Hia in Hout. change (disk (ib (set_ib b' s1))) with (disk b') in *. rewrite Hd', Hd1 in *.
  set (src := slice (blk_get (disk (ib s)) v) (offset mod BLOCK_SIZE) n).
  assert (Z.of_nat (length src) = n) as Hsl.
  { unfold src, slice. rewrite length_take, length_drop. pose proof (blk_len (disk (ib s)) v). lia. }
  exists s', (src ++ out). split_and!; try done.
  - rewrite Hat2. exact Hat1.
  - rewrite length_app. lia.
  - intros x Hx. rewrite list_lookup_total_alt. destruct (decide (x < n)) as [Hlt|Hge].
    + rewrite lookup_app_l by lia. unfold src. rewrite slice_at by lia. rewrite decide_True by lia.
      assert ((offset + x) / BLOCK_SIZE = offset / BLOCK_SIZE) as Ek by (apply (in_chunk_block offset n); [done|done|lia]).
      destruct (same_block_pos offset (offset + x) Ho Ek) as [Hpos Hpm].
      unfold fbyte. rewrite Ek, <- (Hkeep Hne), list_lookup_total_alt. do 2 f_equal. lia.
    + rewrite lookup_app_r by lia. specialize (Hout (x - n) ltac:(lia)). rewrite list_lookup_total_alt in Hout.
      replace (Z.to_nat x - length src)%nat with (Z.to_nat (x - n)) by lia. rewrite Hout. f_equal. lia.
Qed.

(** ** inode_write_data and inode_read_data *)

Lemma set_size_ready i s b n : file_ready i s -> binv [] b -> bk b = bk (ib s) -> 0 <= n < 2 ^ 32 ->
  (forall v, v = data_bitmap_start (isb s) \/ data_start (isb s) <= v -> blk_get (disk b) v = blk_get (disk (ib s)) v) ->
  file_ready i (set_ib b (upd_inode i (upd_idisk (set_isize n)) s)).
Proof.
  intros [B H L Fk Hfree Hdok] B' Hk Hn Hd. set (s' := set_ib b _).
  assert (inode_at s' i = upd_idisk (set_isize n) (inode_at s i)) as Hat by (apply inode_at_set, H).
  assert (iaddrs i s' = iaddrs i s) as Ha by (unfold iaddrs; by rewrite Hat).
  split; try done.
  - apply (same_file_hold i s); [|done]. by apply upd_inode_same; [apply H|..].
  - rewrite Ha. destruct Fk as [F1 F2 F3]. split; try done. intros j Hj Hne. change (isb s') with (isb s). change (ib s') with b.
    rewrite Hd by (by left). by apply F2.
  - rewrite Ha. destruct Hfree as (F & Hnd & Hl & HF). exists F. split_and!; try done. intros m Hm.
    change (isb s') with (isb s). change (ib s') with b. rewrite Hd by (by left). by apply HF.
  - rewrite Hat. destruct Hdok. by split.
Qed.

(** The inode is written to its place on the disk, and the file stays as it is. *)
Lemma flush_run sl_fuel i s : (0 < sl_fuel)%nat -> file_ready i s ->
  exists b', inode_rw sl_fuel i true s = Ret tt (set_ib b' s) /\ file_ready i (set_ib b' s) /\ bk b' = bk (ib s) /\
    dinode_on (isb s) (disk b') (inode_num (inode_at s i)) = idisk (inode_at s i) /\
    (forall v, data_start (isb s) <= v -> blk_get (disk b') v = blk_get (disk (ib s)) v).
Proof.
  intros Hf R. destruct (inode_rw_write sl_fuel i s (r_binv _ _ R) (r_hold _ _ R) Hf (r_disk _ _ R)) as (b' & Hrw & B' & Hk' & Hd').
  pose proof (ih_num _ _ (r_hold _ _ R)) as Hin.
  assert (forall v, v = data_bitmap_start (isb s) \/ data_start (isb s) <= v -> blk_get (disk b') v = blk_get (disk (ib s)) v) as Hkeep.
  { intros v Hv. rewrite Hd'. apply blk_get_ne. destruct (lay_inode _ (r_lay _ _ R) _ Hin) as [? ?]. destruct Hv; [congruence|lia]. }
  exists b'. split; [exact Hrw|]. split; [|split; [exact Hk'|split; [|intros v Hv; apply Hkeep; by right]]].
  - destruct R as [B2 H2 L2 F2 Fr2 Do2]. split; try done.
    + apply (same_file_hold i s); [|done]. split_and!; done.
    + destruct F2 as [F1 F2 F3]. split; try done. intros j Hj Hne. change (ib (set_ib b' s)) with b'. change (isb (set_ib b' s)) with (isb s).
      rewrite Hkeep by (by left). by apply F2.
    + destruct Fr2 as (F & Hnd & HFl & HF). exists F. split_and!; try done. intros m Hm.
      change (isb (set_ib b' s)) with (isb s). change (ib (set_ib b' s)) with b'. rewrite Hkeep by (by left). by apply HF.
  - rewrite Hd', dinode_on_put; [by rewrite decide_True|apply R|lia|lia].
Qed.
Lemma inode_write_run sl_fuel buf_addr i s offset len bytes : (0 < sl_fuel)%nat -> file_ready i s ->
  0 <= offset <= isize (idisk (inode_at s i)) -> 0 <= len -> offset + len <= DIRECT -> len <= Z.of_nat (length bytes) ->
  exists s', inode_write_data sl_fuel buf_addr i offset len (FromKernel bytes) s = Ret len s' /\ file_ready i s' /\ same_file i s s' /\
    isize (idisk (inode_at s' i)) = Z.max (isize (idisk (inode_at s i))) (offset + len) /\
    dinode_on (isb s) (disk (ib s')) (inode_num (inode_at s i)) = idisk (inode_at s' i) /\
    (forall k, offset <= k < offset + len -> alloced (iaddrs i s') k /\
       fbyte (disk (ib s')) (iaddrs i s') k = bytes !!! Z.to_nat (k - offset)) /\
    (forall k, 0 <= k < DIRECT -> ~ offset <= k < offset + len -> alloced (iaddrs i s) k ->
       alloced (iaddrs i s') k /\ fbyte (disk (ib s')) (iaddrs i s') k = fbyte (disk (ib s)) (iaddrs i s) k).
Proof.
  intros Hf R Ho Hl Hfit Hlen. pose proof (d_size _ (r_disk _ _ R)) as Hsz.
  assert (len < 2 ^ 32) as Hl32 by (unfold DIRECT, N_ADDRS_1, BLOCK_SIZE in *; lia).
  unfold inode_write_data. mrun (iholding_run i s (r_hold _ _ R) (binv_quiet _ _ (r_binv _ _ R))). unfold rd_inode. mstep.
  bcase (isize (idisk (inode_at s i)) <? offset); [lia|].
  rewrite (u32_small (offset + len)) by (unfold DIRECT, N_ADDRS_1, BLOCK_SIZE in *; lia).
  assert (DIRECT <= INODE_MAXSIZE) as Hmax by (vm_compute; discriminate).
  bcase (INODE_MAXSIZE <? offset + len); [lia|].
  destruct (write_loop_run sl_fuel buf_addr i bytes Hf (S (Z.to_nat len)) s offset len 0 R) as (s1 & Hrun & R1 & Hs1 & Hsz1 & Hin & Hout);
    try lia.
  rewrite Z.sub_0_r in *. mrun Hrun. cbn [fst snd]. rewrite Hsz1.
  set (n := Z.max (isize (idisk (inode_at s i))) (offset + len)).
  assert (0 <= n < 2 ^ 32) as Hn32 by (unfold n, DIRECT, N_ADDRS_1, BLOCK_SIZE in *; lia).
  assert (exists s2, (when (isize (idisk (inode_at s i)) <? offset + len) (wr_dinode i (set_isize (offset + len)))) s1 = Ret tt s2 /\
    s2 = upd_inode i (upd_idisk (set_isize n)) s1) as (s2 & Hwhen & Hs2).
  { eexists. split; [|done]. bcase (isize (idisk (inode_at s i)) <? offset + len); cbn [when].
    - replace n with (offset + len) by lia. done.
    - unfold ret. f_equal. replace n with (isize (idisk (inode_at s1 i))) by lia. unfold upd_inode. rewrite alter_id_at; [by destruct s1|].
      intros x Hx. unfold inode_at. rewrite Hx. by destruct x as [[] ? ? ? ?]. }
  mrun Hwhen. clear Hwhen.
  assert (file_ready i s2) as R2.
  { rewrite Hs2. rewrite <- (set_ib_id (upd_inode i (upd_idisk (set_isize n)) s1)). apply set_size_ready; try done. apply R1. }
  assert (inode_at s2 i = upd_idisk (set_isize n) (inode_at s1 i)) as Hat2.
  { rewrite Hs2, inode_at_upd by apply R1. by rewrite decide_True. }
  destruct Hs1 as (Hsb & Hk & Hlen1 & Hnum & Hslk).
  destruct (flush_run sl_fuel i s2 Hf R2) as (b' & Hrw & R3 & Hk' & Hd' & Hkeepd).
  mrun Hrw. set (s3 := set_ib b' s2) in *. assert (inode_at s3 i = inode_at s2 i) as Hat3 by done.
  assert (disk (ib s2) = disk (ib s1) /\ isb s2 = isb s) as [Hd2 Hsb2] by (rewrite Hs2; split; [done|exact Hsb]).
  assert (iaddrs i s3 = iaddrs i s1) as Ha3 by (unfold iaddrs; rewrite Hat3, Hat2; done).
  assert (inode_num (inode_at s2 i) = inode_num (inode_at s i)) as Hnum2 by (rewrite Hat2; exact Hnum).
  assert (forall k, 0 <= k < DIRECT -> alloced (iaddrs i s1) k -> fbyte (disk (ib s3)) (iaddrs i s3) k = fbyte (disk (ib s1)) (iaddrs i s1) k) as Hby.
  { intros k Hk3 Hal. unfold fbyte. rewrite Ha3. change (disk (ib s3)) with (disk b'). rewrite Hkeepd, Hd2; [done|].
    rewrite Hsb2, <- Hsb. apply (f_range _ _ _ (r_fok _ _ R1)); [|done].
    unfold DIRECT, N_ADDRS_1, BLOCK_SIZE in *. pose proof (div_mul_le k 1024 ltac:(lia)). lia. }
  exists s3. split_and!.
  - done.
  - exact R3.
  - split_and!; [exact Hsb2|change (bk b' = bk (ib s)); rewrite Hk', Hs2; exact Hk| |by rewrite Hat3|by rewrite Hat3, Hat2].
    change (length (icache s2) = length (icache s)). rewrite Hs2. cbn. by rewrite length_alter.
  - rewrite Hat3, Hat2. done.
  - rewrite Hat3, <- Hnum2, <- Hsb2. exact Hd'.
  - intros k Hk3. destruct (Hin k Hk3) as [Hal Hbk]. rewrite Ha3 at 1. split; [done|]. rewrite Hby, Hbk by (done || lia). f_equal.
  - intros k Hk3 Hnk Hal. destruct (Hout k Hk3 Hnk Hal) as [Hal' Hbk]. rewrite Ha3 at 1. split; [done|]. by rewrite Hby, Hbk by done.
Qed.
End inodespec.

(** ** Properties *)

(** A mounted empty disk with one file inode in slots 0 and 1 of the cache, both
    locked by the running CPU. *)
Definition new_file : inode :=
  mkInode (mkDinode FT_FILE 0 0 1 0 (replicate 13 0)) 5 1 true (mkSleep true (spinlock_init "sleeplock") "inode" (-1)).
Definition one_file (b : bstate block_map) : istate block_map := mkI b std_sb [new_file; new_file] (spinlock_init "icache").
Lemma std_layout : layout std_sb.
Proof.
  split; [cbn; lia|unfold BITS, BLOCK_SIZE; cbn; lia|]. intros inum H. unfold inode_block, INODE_PER_BLOCK, BLOCK_SIZE, INODE_DISK_SIZE in *.
  change (1024 / 64) with 16 in *. cbn in *. pose proof (div_mul_le inum 16 ltac:(lia)). lia.
Qed.
Lemma new_dinode_ok : dinode_ok (idisk new_file).
Proof.
  split; cbn; unfold FT_FILE; try lia; [reflexivity|]. apply (Forall_replicate _ 13). lia.
Qed.
Lemma one_file_hold b i : bk b = calm -> (i < 2)%nat -> ihold i (one_file b).
Proof.
  intros Hb Hi. assert (inode_at (one_file b) i = new_file) as Hat by (destruct i as [|[|i]]; [done|done|lia]).
  split; rewrite ?Hat; [cbn; lia| |vm_compute; by split|cbn; lia].
  split_and!; [done|done|]. cbn. by rewrite Hb.
Qed.
Lemma one_file_ready b : binv [] b -> bk b = calm -> disk b = ∅ -> file_ready 0 (one_file b).
Proof.
  intros B Hb Hd.
  assert (forall j, 0 <= j < N_ADDRS_1 -> entry (iaddrs 0 (one_file b)) j = 0) as Hz.
  { intros j Hj. change (iaddrs 0 (one_file b)) with (replicate 13 0). unfold entry, N_ADDRS_1 in *.
    rewrite list_lookup_total_alt, lookup_replicate_2 by lia. done. }
  split.
  - done.
  - apply one_file_hold; [done|lia].
  - apply std_layout.
  - split; [done| |].
    + intros j Hj Hne. exfalso. by apply Hne, Hz.
    + intros j j' Hj Hj' Hne. exfalso. by apply Hne, Hz.
  - exists [0; 1; 2; 3; 4; 5; 6; 7; 8; 9]. split_and!; [apply (bool_decide_unpack (NoDup [0; 1; 2; 3; 4; 5; 6; 7; 8; 9])); vm_compute; exact I|done|].
    change (ib (one_file b)) with b. rewrite Hd. intros n Hn. repeat (apply elem_of_cons in Hn as [->|Hn]; [vm_compute; by repeat split|]).
    by apply not_elem_of_nil in Hn.
  - apply new_dinode_ok.
Qed.

(** the disk format of inodes round-trips: what inode_rw writes for one slot of
    the inode cache is what inode_rw reads back into any slot with the same inode
    number, and the 15 other inodes of the block, like every other inode on the
    disk, are unchanged. *)
Theorem inode_rw_persistent {D : Type} {HD : BlockDev D} sl_fuel i j (s : istate D) :
  binv [] (ib s) -> ihold i s -> ihold j s -> (0 < sl_fuel)%nat -> dinode_ok (idisk (inode_at s i)) ->
  inode_num (inode_at s j) = inode_num (inode_at s i) ->
  exists s1 s2, inode_rw sl_fuel i true s = Ret tt s1 /\ inode_rw sl_fuel j false s1 = Ret tt s2 /\
    idisk (inode_at s2 j) = idisk (inode_at s i) /\
    forall inum, 0 <= inum -> inum <> inode_num (inode_at s i) ->
      dinode_on (isb s) (disk (ib s2)) inum = dinode_on (isb s) (disk (ib s)) inum.
Proof.
  intros B Hi Hj Hf Hd Hn. destruct (inode_rw_write sl_fuel i s B Hi Hf Hd) as (b1 & Hw & B1 & Hk1 & Hd1).
  assert (ihold j (set_ib b1 s)) as Hj1 by (destruct Hj; split; try done; cbn; by rewrite Hk1).
  destruct (inode_rw_read sl_fuel j (set_ib b1 s) B1 Hj1 Hf) as (b2 & Hr & B2 & Hk2 & Hd2).
  pose proof (ih_num _ _ Hi) as Hnum.
  eexists _, _. split; [exact Hw|]. split; [exact Hr|]. split.
  - rewrite inode_at_set by apply Hj. cbn [idisk upd_idisk]. change (inode_at (set_ib b1 s) j) with (inode_at s j).
    change (isb (set_ib b1 s)) with (isb s). change (disk (ib (set_ib b1 s))) with (disk b1).
    rewrite Hd1, Hn, dinode_on_put by (done || lia). by rewrite decide_True.
  - intros inum H0 Hne. change (disk (ib (set_ib b2 _))) with (disk b2). rewrite Hd2. change (disk (ib (set_ib b1 s))) with (disk b1).
    rewrite Hd1, dinode_on_put by (done || lia). by rewrite decide_False.
Qed.
Lemma inode_rw_persistent_witness :
  exists b s1 s2, buf_init power_on = Ret tt b /\ inode_rw 1 0 true (one_file b) = Ret tt s1 /\
    inode_rw 1 1 false s1 = Ret tt s2 /\ itype (idisk (inode_at s2 1)) = FT_FILE.
Proof.
  destruct (buf_init_run power_on power_on_fresh calm_quiet) as (b & H1 & B & Hk & Hd & _).
  destruct (inode_rw_persistent 1 0 1 (one_file b)) as (s1 & s2 & Hw & Hr & Heq & _).
  - exists (seq 0 N_BUF). exact B.
  - apply one_file_hold; [exact Hk|lia].
  - apply one_file_hold; [exact Hk|lia].
  - lia.
  - exact new_dinode_ok.
  - reflexivity.
  - exists b, s1, s2. split; [exact H1|]. split; [exact Hw|]. split; [exact Hr|].
    rewrite Heq. reflexivity.
Defined.

(** C3 on the direct blocks, inode_write_data followed by inode_read_data is the
    identity on the data: writing [len] bytes at [offset] (at most the file size)
    returns [len], allocates the missing blocks, makes the size at least
    [offset + len], stores the inode on the disk, and keeps every other byte of
    the file; reading the range back returns exactly the bytes written. *)
Theorem inode_write_read {D : Type} {HD : BlockDev D} sl_fuel buf_addr i (s : istate D) offset len bytes :
  (0 < sl_fuel)%nat -> file_ready i s -> 0 <= offset <= isize (idisk (inode_at s i)) -> 0 <= len -> offset + len <= DIRECT ->
  len = Z.of_nat (length bytes) ->
  exists s1 s2, inode_write_data sl_fuel buf_addr i offset len (FromKernel bytes) s = Ret len s1 /\
    inode_read_data sl_fuel buf_addr i offset len ToKernel s1 = Ret (len, bytes) s2 /\
    isize (idisk (inode_at s1 i)) = Z.max (isize (idisk (inode_at s i))) (offset + len) /\
    dinode_on (isb s) (disk (ib s1)) (inode_num (inode_at s i)) = idisk (inode_at s1 i) /\ file_ready i s2 /\
    (forall k, 0 <= k < DIRECT -> ~ offset <= k < offset + len -> alloced (iaddrs i s) k ->
       fbyte (disk (ib s2)) (iaddrs i s2) k = fbyte (disk (ib s)) (iaddrs i s) k).
Proof.
  intros Hf R Ho Hl Hfit Hlen. pose proof (d_size _ (r_disk _ _ R)) as Hsz.
  destruct (inode_write_run sl_fuel buf_addr i s offset len bytes Hf R Ho Hl Hfit) as (s1 & Hw & R1 & Hs1 & Hsz1 & Hdk & Hin & Hout); [lia|].
  assert (len < 2 ^ 32) as Hl32 by (unfold DIRECT, N_ADDRS_1, BLOCK_SIZE in *; lia).
  destruct (read_loop_run sl_fuel buf_addr i Hf (S (Z.to_nat len)) s1 offset len 0 R1) as (s2 & out & Hr & R2 & Hd2 & Hat2 & Hlo & Hob); try lia.
  { intros k Hk. apply Hin. lia. }
  assert (out = bytes) as ->.
  { apply list_eq. intros k. destruct (decide (k < length bytes)%nat) as [Hk|Hk].
    - rewrite (list_lookup_lookup_total_lt out k), (list_lookup_lookup_total_lt bytes k) by lia. f_equal.
      specialize (Hob (Z.of_nat k) ltac:(lia)). rewrite Nat2Z.id in Hob. rewrite Hob.
      destruct (Hin (offset + Z.of_nat k) ltac:(lia)) as [_ ->]. f_equal. lia.
    - rewrite !lookup_ge_None_2 by lia. done. }
  exists s1, s2. split_and!; try done.
  - unfold inode_read_data. mrun (iholding_run i s1 (r_hold _ _ R1) (binv_quiet _ _ (r_binv _ _ R1))). unfold rd_inode. mstep.
    rewrite Hsz1, (u32_small (offset + len)) by (unfold DIRECT, N_ADDRS_1, BLOCK_SIZE in *; lia).
    bcase (Z.max (isize (idisk (inode_at s i))) (offset + len) <? offset); [lia|].
    bcase (Z.max (isize (idisk (inode_at s i))) (offset + len) <? offset + len); [lia|]. exact Hr.
  - intros k Hk Hnk Hal. unfold iaddrs at 1. rewrite Hd2, Hat2. apply Hout; done.
Qed.
Lemma inode_write_read_witness :
  exists b s1 s2, buf_init power_on = Ret tt b /\
    inode_write_data 1 (fun _ => 0) 0 0 3 (FromKernel [104; 105; 10]) (one_file b) = Ret 3 s1 /\
    inode_read_data 1 (fun _ => 0) 0 0 3 ToKernel s1 = Ret (3, [104; 105; 10]) s2.
Proof.
  destruct (buf_init_run power_on power_on_fresh calm_quiet) as (b & H1 & B & Hk & Hd & _).
  destruct (inode_write_read 1 (fun _ => 0) 0 (one_file b) 0 3 [104; 105; 10]) as (s1 & s2 & Hw & Hr & _).
  - lia.
  - apply one_file_ready; [exists (seq 0 N_BUF); exact B|exact Hk|exact Hd].
  - cbn. lia.
  - lia.
  - vm_compute. discriminate.
  - reflexivity.
  - exists b, s1, s2. split; [exact H1|]. split; [exact Hw|exact Hr].
Defined.
