(* ===== verification/LocateSpec.v ===== *)
(** * Block indices of files

    inode_locate_block() of fs/inode.c: the tree of a file (ten direct blocks, two
    index blocks, one index block of index blocks) as paths, its walk on an
    allocated path, and what happens to an entry that has to be allocated in an
    index block. *)

From S2P Require Import Prelude Machine Str Lock Pmem Kvm KvmSpec Mmap Uvm Proc ProcSpec SleepSpec Buf BufSpec Bitmap BitmapSpec Inode InodeSpec.

(** ** Paths *)

(** A path: the entry of addrs[], then the entry of each index block on the way.  The numbers are
    those of the layout: 10 direct entries, 2 with one index block, 1 with two levels, 256 entries
    to an index block. *)
Definition tree_path (p : list Z) : Prop :=
  match p with
  | [a] => 0 <= a < 10
  | [a; b] => 10 <= a < 12 /\ 0 <= b < 256
  | [a; b; c] => a = 12 /\ 0 <= b < 256 /\ 0 <= c < 256
  | _ => False
  end.
(** The blocks in the order of the paths: the direct ones first, then those behind each index block. *)
Definition path_index (p : list Z) : Z :=
  match p with
  | [a] => a
  | [a; b] => 10 + (a - 10) * 256 + b
  | [a; b; c] => 10 + 2 * 256 + (a - 12) * 65536 + b * 256 + c
  | _ => -1
  end.
(** The entries of the index blocks for block [bn] below an entry of depth [levels]. *)
Fixpoint path_digits (levels : nat) (bn : Z) : list Z :=
  match levels with O => [] | S l => bn / ENTRY_PER_BLOCK ^ Z.of_nat l :: path_digits l (bn mod ENTRY_PER_BLOCK ^ Z.of_nat l) end.

(** Every path is found from its index, and every index below the limit is that of a path. *)
Lemma locate_root_path p : tree_path p -> exists idx levels b,
  locate_root (path_index p) = Some (idx, levels, b) /\ Z.of_nat idx :: path_digits levels b = p /\
  (levels <> O -> 0 <= b < ENTRY_PER_BLOCK ^ Z.of_nat levels).
Proof.
  unfold locate_root, ENTRY_PER_BLOCK, BLOCK_SIZE, N_ADDRS_1, N_ADDRS_2, N_ADDRS_3. change (1024 / 4) with 256.
  destruct p as [|a [|b [|c [|]]]]; cbn [tree_path path_index]; try done.
  - intros H. bcase (a <? 10); [|lia]. do 3 eexists. split; [done|]. split; [|done]. cbn. f_equal. lia.
  - intros [Ha Hb]. bcase (10 + (a - 10) * 256 + b <? 10); [lia|].
    replace (10 + (a - 10) * 256 + b - 10) with (b + (a - 10) * 256) by lia.
    bcase (b + (a - 10) * 256 <? 2 * 256); [|lia]. rewrite Z.div_add, Z.mod_add, Z.div_small, Z.mod_small by lia.
    do 3 eexists. split; [done|]. split; [cbn; rewrite Z.div_1_r; f_equal; lia|]. intros _. change (256 ^ Z.of_nat 1) with 256. lia.
  - intros (-> & Hb & Hc). bcase (10 + 2 * 256 + (12 - 12) * 65536 + b * 256 + c <? 10); [lia|].
    replace (10 + 2 * 256 + (12 - 12) * 65536 + b * 256 + c - 10 - 2 * 256) with (c + b * 256) by lia.
    bcase (10 + 2 * 256 + (12 - 12) * 65536 + b * 256 + c - 10 <? 2 * 256); [lia|].
    bcase (c + b * 256 <? 1 * 256 * 256); [|lia].
    do 3 eexists. split; [done|]. rewrite Z.mod_small by lia. split; [|intros _; change (256 ^ Z.of_nat 2) with 65536; lia]. rewrite Z.div_small by lia.
    cbn [path_digits]. unfold ENTRY_PER_BLOCK, BLOCK_SIZE. change ((1024 / 4) ^ Z.of_nat 1) with 256. change ((1024 / 4) ^ Z.of_nat 0) with 1.
    rewrite Z.div_1_r, Z.div_add, Z.mod_add, Z.div_small, Z.mod_small by lia. done.
Qed.
Lemma tree_depth idx levels b : tree_path (idx :: path_digits levels b) -> (levels <= 2)%nat.
Proof. destruct levels as [|[|[|]]]; cbn; lia || done. Qed.
Lemma path_index_range p : tree_path p -> 0 <= path_index p /\ path_index p * BLOCK_SIZE < INODE_MAXSIZE.
Proof.
  unfold INODE_MAXSIZE, ENTRY_PER_BLOCK, BLOCK_SIZE, N_ADDRS_1, N_ADDRS_2, N_ADDRS_3. change (1024 / 4) with 256.
  destruct p as [|a [|b [|c [|]]]]; cbn [tree_path path_index]; try done; lia.
Qed.
Lemma path_of_index bn : 0 <= bn -> bn * BLOCK_SIZE < INODE_MAXSIZE -> exists p, tree_path p /\ path_index p = bn.
Proof.
  unfold INODE_MAXSIZE, ENTRY_PER_BLOCK, BLOCK_SIZE, N_ADDRS_1, N_ADDRS_2, N_ADDRS_3. change (1024 / 4) with 256. intros H0 H.
  destruct (decide (bn < 10)); [by exists [bn]|]. destruct (decide (bn < 522)) as [Hb|Hb].
  - exists [10 + (bn - 10) / 256; (bn - 10) mod 256]. pose proof (Z.div_mod (bn - 10) 256). pose proof (Z.mod_pos_bound (bn - 10) 256). cbn. lia.
  - exists [12; (bn - 522) / 256; (bn - 522) mod 256]. pose proof (Z.div_mod (bn - 522) 256). pose proof (Z.mod_pos_bound (bn - 522) 256). cbn. lia.
Qed.
Lemma locate_root_none bn : 0 <= bn -> INODE_MAXSIZE <= bn * BLOCK_SIZE -> locate_root bn = None.
Proof.
  unfold locate_root, INODE_MAXSIZE, ENTRY_PER_BLOCK, BLOCK_SIZE, N_ADDRS_1, N_ADDRS_2, N_ADDRS_3. change (1024 / 4) with 256. intros H0 H.
  bcase (bn <? 10); [lia|]. bcase (bn - 10 <? 2 * 256); [lia|]. by bcase (bn - 10 - 2 * 256 <? 1 * 256 * 256); [lia|].
Qed.

(** ** The walk *)

Section locate.
Context {D : Type} {HD : BlockDev D} (sl_fuel : nat).

(** The blocks on the way from entry [e], in the index blocks of the disk. *)
Definition entry_at (d : D) (e k : Z) : Z := dec32 (blk_get d e) (4 * Z.to_nat k).
Fixpoint blocks_on (d : D) (e : Z) (p : list Z) : list Z :=
  e :: match p with [] => [] | k :: p => blocks_on d (entry_at d e k) p end.
(** The block a path leads to. *)
Definition follow (d : D) (a : list Z) (p : list Z) : Z :=
  match p with [] => 0 | k :: p => foldl (entry_at d) (a !!! Z.to_nat k) p end.
(** All blocks on the way are allocated and different, and hold bytes. *)
Definition way_ok (d : D) (e : Z) (p : list Z) : Prop :=
  NoDup (blocks_on d e p) /\ forall n, n ∈ blocks_on d e p -> n <> 0 /\ n <> BLOCK_NUM_UNUSED /\ bytes_ok (blk_get d n).

Lemma enc_dec32 l o : bytes_ok l -> (o + 4 <= length l)%nat -> blit l (Z.of_nat o) (enc32 (dec32 l o)) = l.
Proof.
  intros Hb Hl. apply list_eq. intros k. rewrite blit_at by (rewrite ?enc32_len; lia). rewrite enc32_len, Nat2Z.id. case_decide as E; [|done].
  assert (forall j, (j < length l)%nat -> 0 <= l !!! j < 256) as Hr.
  { intros j Hj. unfold bytes_ok in Hb. rewrite Forall_lookup in Hb. apply (Hb j). by apply list_lookup_lookup_total_lt. }
  rewrite (list_lookup_lookup_total_lt l k) by lia. unfold dec32.
  pose proof (Hr o ltac:(lia)). pose proof (Hr (o + 1)%nat ltac:(lia)). pose proof (Hr (o + 2)%nat ltac:(lia)). pose proof (Hr (o + 3)%nat ltac:(lia)).
  assert (k = o \/ k = (o + 1)%nat \/ k = (o + 2)%nat \/ k = (o + 3)%nat) as Hk by lia.
  unfold enc32. destruct Hk as [-> |[-> |[-> | ->]]].
  1: rewrite Nat.sub_diag. 2-4: rewrite Nat.add_comm, Nat.add_sub.
  all: cbn [lookup list_lookup]; f_equal; rewrite ?(Nat.add_comm _ o); clear -H H0 H1 H2; Z.div_mod_to_equations; lia.
Qed.
Lemma entry_fits (l : list Z) k : Z.of_nat (length l) = BLOCK_SIZE -> 0 <= k < ENTRY_PER_BLOCK -> (4 * Z.to_nat k + 4 <= length l)%nat.
Proof. unfold ENTRY_PER_BLOCK, BLOCK_SIZE. change (1024 / 4) with 256. lia. Qed.
(** Reading a block while holding others. *)
Lemma iread_held hs num (s : istate D) : (0 < sl_fuel)%nat -> binv hs (ib s) -> readable_block hs num (ib s) ->
  exists i b', bread sl_fuel num s = Ret i (set_ib b' s) /\ binv (i :: hs) b' /\ i ∉ hs /\ bframe hs (ib s) b' /\ disk b' = disk (ib s) /\
    block_num (buf_at b' i) = num /\ data (buf_at b' i) = blk_get (disk (ib s)) num.
Proof.
  intros Hf B Hr. destruct (bread_spec sl_fuel hs num (ib s) B Hr Hf) as (i & b' & Hrun & H). exists i, b'. split; [by apply zoom_run|done].
Qed.
(** Writing back what a buffer holds. *)
Lemma bset_same i f (b : bstate D) (s : istate D) : f (data (buf_at b i)) = data (buf_at b i) -> bset i f (set_ib b s) = Ret tt (set_ib b s).
Proof.
  intros H. apply zoom_ib. unfold wr_data, wr_buf, wr_bnode, modify. f_equal.
  rewrite (upd_bnode_ext b i _ (fun x => x)) by (by destruct (buf_at b i) eqn:E; cbn in *; rewrite H). 
  unfold upd_bnode. destruct b. cbn. f_equal. apply alter_id_at. by intros [].
Qed.

Lemma locate_walk levels : forall bn hs e (s : istate D) (d := disk (ib s)), (0 < sl_fuel)%nat -> binv hs (ib s) -> (length hs + levels < N_BUF)%nat ->
  (levels <> O -> 0 <= bn < ENTRY_PER_BLOCK ^ Z.of_nat levels) -> way_ok d e (path_digits levels bn) ->
  (forall i, i ∈ hs -> block_num (buf_at (ib s) i) ∉ blocks_on d e (path_digits levels bn)) ->
  exists b', locate_block sl_fuel levels e bn s = Ret (e, foldl (entry_at d) e (path_digits levels bn)) (set_ib b' s) /\
    binv hs b' /\ bframe hs (ib s) b' /\ disk b' = d.
Proof.
  induction levels as [|l IH]; intros bn hs e s d Hf B Hlen Hbn [Hnd Hw] Hh; cbn [locate_block path_digits foldl blocks_on] in *.
  - destruct (Hw e (list_elem_of_here _ _)) as (H0 & _). rewrite (proj2 (Z.eqb_neq e 0) H0). exists (ib s). mstep. by rewrite set_ib_id.
  - destruct (Hw e (list_elem_of_here _ _)) as (H0 & Hu & Hby). rewrite (proj2 (Z.eqb_neq e 0) H0). mstep.
    set (E := ENTRY_PER_BLOCK ^ Z.of_nat l) in *. assert (0 < E) as HE by (apply Z.pow_pos_nonneg; [done|lia]).
    specialize (Hbn ltac:(done)). assert (0 <= bn / E < ENTRY_PER_BLOCK) as Hk.
    { split; [apply Z.div_pos; lia|]. apply Z.div_lt_upper_bound; [lia|]. rewrite Nat2Z.inj_succ, Z.pow_succ_r in Hbn by lia. fold E in Hbn. lia. }
    destruct (iread_held hs e s Hf B) as (i & b1 & Hrd & B1 & Hni & Hfr1 & Hd1 & Hn1 & Ha1).
    { split; [done|]. split; [lia|]. intros j Hj Heq. apply (Hh j Hj). rewrite Heq. apply list_elem_of_here. }
    fold d in Hd1, Ha1. mrun Hrd. assert (bdata i (set_ib b1 s) = Ret (blk_get d e) (set_ib b1 s)) as Hbd by (rewrite <- Ha1; by apply zoom_ib). mrun Hbd.
    apply NoDup_cons in Hnd as [Hne Hnd]. change (dec32 (blk_get d e) (4 * Z.to_nat (bn / E))) with (entry_at d e (bn / E)).
    destruct (IH (bn mod E) (i :: hs) (entry_at d e (bn / E)) (set_ib b1 s)) as (b2 & Hrun & B2 & Hfr2 & Hd2).
    { done. } { done. } { cbn. lia. } { intros _. apply Z.mod_pos_bound. lia. }
    { change (ib (set_ib b1 s)) with b1. rewrite Hd1. split; [done|]. intros n Hn. apply Hw. by apply list_elem_of_further. }
    { change (ib (set_ib b1 s)) with b1. rewrite Hd1. intros j [->|Hj]%elem_of_cons; [by rewrite Hn1|].
      rewrite (proj2 Hfr1 j Hj). intros Hx. apply (Hh j Hj). by apply list_elem_of_further. }
    change (ib (set_ib b1 s)) with b1 in *. rewrite Hd1 in Hrun, Hd2. change (set_ib b2 (set_ib b1 s)) with (set_ib b2 s) in Hrun.
    mrun Hrun. pose proof (proj2 Hfr2 i (list_elem_of_here _ _)) as Hi2.
    assert (bset i (fun x => blit x (Z.of_nat (4 * Z.to_nat (bn / E))) (enc32 (entry_at d e (bn / E)))) (set_ib b2 s) = Ret tt (set_ib b2 s)) as Hbs.
    { apply bset_same. rewrite Hi2, Ha1. apply enc_dec32; [done|]. apply entry_fits; [apply blk_len|done]. }
    cbn [fst snd]. mrun Hbs.
    destruct (brelse_spec i hs b2 B2) as (b3 & Hrel & B3 & Hfr3 & Hd3); [by rewrite Hi2, Ha1, Hn1, Hd2|].
    exists b3. split; [|split; [done|split; [|congruence]]].
    + assert (brelse i (set_ib b2 s) = Ret tt (set_ib b3 s)) as Hr by (by apply zoom_ib). by mrun Hr.
    + eapply bframe_trans; [exact Hfr1|]. eapply bframe_trans; [|exact Hfr3]. split; [apply Hfr2|]. intros j Hj. apply Hfr2. by apply list_elem_of_further.
Qed.

(** inode_locate_block on an allocated path. *)
Lemma inode_locate_walk i p (s : istate D) (d := disk (ib s)) (a := iaddrs i s) : (0 < sl_fuel)%nat -> binv [] (ib s) ->
  length a = Z.to_nat N_ADDRS -> tree_path p -> way_ok d (a !!! Z.to_nat (hd 0 p)) (tl p) ->
  exists b', inode_locate_block sl_fuel i (path_index p) s = Ret (follow d a p) (set_ib b' s) /\ binv [] b' /\ bk b' = bk (ib s) /\ disk b' = d.
Proof.
  intros Hf B Hla Hp Hw. destruct (locate_root_path p Hp) as (idx & levels & b & Hl & Hpath & Hb). subst p. cbn [hd tl follow] in *. rewrite Nat2Z.id in *.
  unfold inode_locate_block. rewrite Hl. unfold rd_inode. mstep. fold (iaddrs i s). fold a.
  assert (idx < length a)%nat as Hil.
  { rewrite Hla. unfold N_ADDRS, N_ADDRS_1, N_ADDRS_2, N_ADDRS_3. change (Z.to_nat (10 + 2 + 1)) with 13%nat.
    clear -Hp. destruct (path_digits levels b) as [|? [|? [|]]]; cbn [tree_path] in Hp; lia. }
  destruct (locate_walk levels b [] (a !!! idx) s Hf B) as (b' & Hrun & B' & [Hk _] & Hd).
  - unfold N_BUF, N_BLOCK_BUF. cbn. pose proof (tree_depth _ _ _ Hp). lia.
  - exact Hb.
  - exact Hw.
  - intros j Hj. by apply not_elem_of_nil in Hj.
  - exists b'. split; [|done]. mrun Hrun. unfold wr_dinode, wr_inode. mstep. cbn [fst snd].
    assert (<[idx := a !!! idx]> a = a) as Hid by (apply list_insert_id; apply list_lookup_lookup_total_lt; done).
    f_equal. exact (f_equal (set_ib b') (upd_addrs_same i s (<[idx := a !!! idx]>) Hid)).
Qed.
End locate.

(** C33 the block tree of a file, up to INODE_MAXSIZE bytes, and its walk.  Block indices and paths
    from addrs[] correspond one to one: the direct entries 0 to 9, then 256 blocks behind each of the
    entries 10 and 11, then 65536 behind entry 12.  inode_locate_block() on an allocated path
    returns the block that the entries on the disk lead to, with the disk and the inode as they were
    and no buffer held; a block index beyond the limit panics. *)
Theorem inode_locate_tree {D : Type} {HD : BlockDev D} sl_fuel i (s : istate D) (d := disk (ib s)) (a := iaddrs i s) :
  (0 < sl_fuel)%nat -> binv [] (ib s) -> length a = Z.to_nat N_ADDRS ->
  (forall bn, 0 <= bn -> bn * BLOCK_SIZE < INODE_MAXSIZE -> exists p, tree_path p /\ path_index p = bn) /\
  (forall p, tree_path p -> 0 <= path_index p /\ path_index p * BLOCK_SIZE < INODE_MAXSIZE) /\
  (forall p q, tree_path p -> tree_path q -> path_index p = path_index q -> p = q) /\
  (forall p, tree_path p -> way_ok d (a !!! Z.to_nat (hd 0 p)) (tl p) ->
     exists b', inode_locate_block sl_fuel i (path_index p) s = Ret (follow d a p) (set_ib b' s) /\
       binv [] b' /\ bk b' = bk (ib s) /\ disk b' = d) /\
  (forall bn, 0 <= bn -> INODE_MAXSIZE <= bn * BLOCK_SIZE -> inode_locate_block sl_fuel i bn s = Panic "inode_locate_block: overflow").
Proof.
  intros Hf B Hl. split; [exact path_of_index|]. split; [exact path_index_range|]. split; [|split].
  - intros p q Hp Hq E. destruct (locate_root_path p Hp) as (x & l & b & E1 & <- & _). destruct (locate_root_path q Hq) as (x' & l' & b' & E2 & <- & _).
    rewrite E, E2 in E1. by injection E1 as -> -> ->.
  - intros p Hp Hw. by apply inode_locate_walk.
  - intros bn H0 Hm. unfold inode_locate_block. by rewrite locate_root_none.
Qed.

(** ** Entries that are not written back *)

(** A changed buffer that is released without buf_write: the disk does not change, the buffer may
    be recycled and holds the data nobody else has. *)
Lemma brelse_dirty {D : Type} {HD : BlockDev D} i hs (b : bstate D) : binv hs b -> i ∈ hs ->
  exists b', buf_release i b = Ret tt b' /\ disk b' = disk b /\ bk b' = bk b /\ buf_ref (buf_at b' i) = 0 /\
    block_num (buf_at b' i) = block_num (buf_at b i) /\ data (buf_at b' i) = data (buf_at b i).
Proof.
  intros [l B] Hi. destruct (buf_release_steps b l hs i B Hi) as (c' & l1 & l2 & _ & Hrun & [_ Hsame] & _).
  eexists. split; [exact Hrun|].
  assert (buf_at (set_cache c' (upd_bnode i (upd_buf released) b)) i = released (buf_at b i)) as ->; [|done].
  etransitivity; [apply Hsame|]. change (buf_at (upd_bnode i (upd_buf released) b) i = released (buf_at b i)).
  rewrite buf_at_upd by (eapply b_lt; [done|]; by apply (b_hs _ _ _ B)). by rewrite decide_True.
Qed.

Lemma dec_blit l o v : (o + 4 <= length l)%nat -> 0 <= v < 2 ^ 32 -> dec32 (blit l (Z.of_nat o) (enc32 v)) o = v.
Proof.
  intros Hl Hv. unfold blit. rewrite Nat2Z.id. pose proof (enc32_dec v (take o l) (drop (o + length (enc32 v)) l) Hv) as H.
  rewrite length_take_le in H by lia. exact H.
Qed.
(** A missing entry of the index block [e]. *)
Lemma locate_missing {D : Type} {HD : BlockDev D} sl_fuel k (s : istate D) c e (d := disk (ib s)) (bm := data_bitmap_start (isb s)) :
  (0 < sl_fuel)%nat -> binv [] (ib s) -> layout (isb s) -> 0 <= k < 256 ->
  e <> 0 -> e <> BLOCK_NUM_UNUSED -> e <> bm -> entry_at d e k = 0 -> has_free (isb s) d (S c) ->
  exists n b' j, locate_block sl_fuel 1 e k s = Ret (e, data_start (isb s) + n) (set_ib b' s) /\ 0 <= n < BITS /\
    bit (blk_get d bm) n = false /\ bit (blk_get (disk b') bm) n = true /\ (forall x, x <> bm -> blk_get (disk b') x = blk_get d x) /\
    (j < N_BUF)%nat /\ block_num (buf_at b' j) = e /\ buf_ref (buf_at b' j) = 0 /\
    dec32 (data (buf_at b' j)) (4 * Z.to_nat k) = data_start (isb s) + n.
Proof.
  intros Hf B L Hk He Hu Hbm Hent Hfree. pose proof L as [Hbm0 Hda _].
  destruct (iread_held sl_fuel [] e s Hf B (nothing_held _ _ Hu)) as (j & b1 & Hrd & B1 & _ & _ & Hd1 & Hn1 & Ha1). fold d in Hd1, Ha1.
  destruct (balloc_held sl_fuel [j] (isb s) b1 c B1) as (n & b2 & Hal & Hn & B2 & Hfr & Hbit & Hbits & Hoth & _); [|done|done|by rewrite Hd1|].
  { split; [unfold BLOCK_NUM_UNUSED, BITS, BLOCK_SIZE in *; lia|]. split; [unfold N_BUF, N_BLOCK_BUF; cbn; lia|].
    intros i Hi%list_elem_of_singleton. by rewrite Hi, Hn1. }
  rewrite Hd1 in *. set (v := data_start (isb s) + n) in *. pose proof (list_elem_of_here j []) as Hj. pose proof (proj2 Hfr j Hj) as Hj2.
  set (f := fun l => blit l (Z.of_nat (4 * Z.to_nat k)) (enc32 v)).
  assert ((4 * Z.to_nat k + 4 <= length (blk_get d e))%nat) as Hfit by (apply entry_fits; [apply blk_len|exact Hk]).
  destruct B2 as [l2 B2]. destruct (b_hs _ _ _ B2) as [_ Hlt].
  destruct (wr_data_bok b2 l2 [j] j f B2 Hj) as [Hw B3].
  { rewrite Hj2, Ha1. unfold f. rewrite blit_len by (rewrite ?enc32_len; lia). apply blk_len. }
  set (b3 := upd_bnode j _ b2) in *.
  assert (buf_at b3 j = set_data (f (data (buf_at b2 j))) (buf_at b2 j)) as Hj3.
  { unfold b3. rewrite buf_at_upd by (eapply b_lt; [done|]; by apply Hlt). by rewrite decide_True. }
  destruct (brelse_dirty j [j] b3 (ex_intro _ _ B3) Hj) as (b4 & Hrel & Hd4 & _ & Hr4 & Hn4 & Ha4).
  exists n, b4, j. rewrite Hd4. change (disk b3) with (disk b2). split_and!; try done; try lia.
  - cbn [locate_block]. rewrite (proj2 (Z.eqb_neq e 0) He). mstep. mrun Hrd. change (ENTRY_PER_BLOCK ^ Z.of_nat 0) with 1. rewrite Z.div_1_r.
    assert (bdata j (set_ib b1 s) = Ret (blk_get d e) (set_ib b1 s)) as Hbd by (rewrite <- Ha1; by apply zoom_ib). mrun Hbd.
    change (dec32 (blk_get d e) (4 * Z.to_nat k)) with (entry_at d e k). rewrite Hent. cbn [Z.eqb].
    assert (balloc sl_fuel (set_ib b1 s) = Ret v (set_ib b2 s)) as Hba by (unfold balloc; mstep; by apply zoom_ib). mrun Hba. cbn [fst snd].
    assert (bset j f (set_ib b2 s) = Ret tt (set_ib b3 s)) as Hbs by (by apply zoom_ib). mrun Hbs.
    assert (brelse j (set_ib b3 s) = Ret tt (set_ib b4 s)) as Hbr by (by apply zoom_ib). by mrun Hbr.
  - by rewrite Hbits, Z.eqb_refl.
  - apply Hlt, Hj.
  - rewrite Hn4, Hj3. cbn. by rewrite Hj2.
  - rewrite Ha4, Hj3. cbn [data set_data]. rewrite Hj2, Ha1. apply dec_blit; [exact Hfit|]. unfold v, BITS, BLOCK_SIZE in *. lia.
Qed.

(** C36 data behind the direct blocks can be lost.  When the entry of an index block is missing,
    inode_locate_block() takes a free block, marks it in the bitmap on the disk and stores its number
    in the buffer of the index block, but never writes this buffer: the index block on the disk has
    no entry for it, and the only copy is a buffer that nobody holds and buf_read() may recycle. *)
Theorem indirect_entry_lost {D : Type} {HD : BlockDev D} sl_fuel i x k (s : istate D) c
    (d := disk (ib s)) (a := iaddrs i s) (e := a !!! Z.to_nat x) (bm := data_bitmap_start (isb s)) :
  (0 < sl_fuel)%nat -> binv [] (ib s) -> layout (isb s) -> length a = Z.to_nat N_ADDRS -> 10 <= x < 12 -> 0 <= k < 256 ->
  e <> 0 -> e <> BLOCK_NUM_UNUSED -> e <> bm -> entry_at d e k = 0 -> has_free (isb s) d (S c) ->
  exists v s', inode_locate_block sl_fuel i (path_index [x; k]) s = Ret v s' /\
    data_start (isb s) <= v < data_start (isb s) + BITS /\
    bit (blk_get d bm) (v - data_start (isb s)) = false /\ bit (blk_get (disk (ib s')) bm) (v - data_start (isb s)) = true /\
    iaddrs i s' = a /\ blk_get (disk (ib s')) e = blk_get d e /\ follow (disk (ib s')) (iaddrs i s') [x; k] = 0 /\
    exists j, (j < N_BUF)%nat /\ block_num (buf_at (ib s') j) = e /\ buf_ref (buf_at (ib s') j) = 0 /\
      dec32 (data (buf_at (ib s') j)) (4 * Z.to_nat k) = v.
Proof.
  intros Hf B L Hla Hx Hk He Hu Hbm Hent Hfree. assert (tree_path [x; k]) as Hp by (cbn; lia).
  destruct (locate_root_path _ Hp) as (idx & levels & b & Hl & Hpath & Hb). injection Hpath as Hidx Hdig.
  destruct levels as [|[|l]]; [done| |cbn in Hdig; by injection Hdig].
  cbn [path_digits] in Hdig. change (ENTRY_PER_BLOCK ^ Z.of_nat 0) with 1 in Hdig. injection Hdig as Hbk. rewrite Z.div_1_r in Hbk. subst b.
  assert (Z.to_nat x = idx) as Hix by lia.
  unfold inode_locate_block. rewrite Hl. unfold rd_inode. mstep. fold (iaddrs i s). fold a.
  destruct (locate_missing sl_fuel k s c e Hf B L Hk He Hu Hbm Hent Hfree) as (n & b' & j & Hrun & Hn & H1 & H2 & H3 & Hj & H4 & H5 & H6).
  fold d bm in H1, H2, H3. assert (a !!! idx = e) as Hae by (unfold e; by rewrite Hix). rewrite Hae.
  assert (iaddrs i (set_ib b' s) = a) as Hia by done.
  exists (data_start (isb s) + n), (set_ib b' s). split.
  { mrun Hrun. cbn [fst snd]. unfold wr_dinode, wr_inode. mstep.
    assert (<[idx := e]> a = a) as Hid by (rewrite <- Hae; apply list_insert_id, list_lookup_lookup_total_lt; rewrite Hla, <- Hix; change (Z.to_nat N_ADDRS) with 13%nat; lia).
    f_equal. exact (f_equal (set_ib b') (upd_addrs_same i s (<[idx := e]>) Hid)). }
  replace (data_start (isb s) + n - data_start (isb s)) with n by lia. split; [lia|]. split; [exact H1|]. split; [exact H2|]. split; [exact Hia|].
  change (ib (set_ib b' s)) with b'. rewrite Hia. split; [by apply H3|]. split; [|by exists j].
  cbn [follow foldl]. fold e. unfold entry_at in *. by rewrite H3.
Qed.

(** ** A file with an index block *)

(** Block 4300 is the index block of entry 10; its entry 3 leads to block 4301, the others are free. *)
Definition tree_disk : block_map := blk_put (∅ : block_map) 4300 (blit (replicate 1024 0) 12 (enc32 4301)).
Definition tree_file : inode := mkInode (mkDinode FT_FILE 0 0 1 0 (<[10%nat := 4300]> (replicate 13 0))) 5 1 true (mkSleep true (spinlock_init "sleeplock") "inode" (-1)).
Definition with_tree (b : bstate block_map) : istate block_map := mkI b std_sb [tree_file] (spinlock_init "icache").
Definition tree_power_on : bstate block_map := mkB calm (replicate 65 blank_node) (spinlock_init "") tree_disk.
Lemma tree_cache : exists b, buf_init tree_power_on = Ret tt b /\ binv [] b /\ disk b = tree_disk.
Proof.
  destruct (buf_init_run tree_power_on power_on_fresh calm_quiet) as (b & H1 & B & _ & Hd & _). exists b. split_and!; [done|by eexists|done].
Qed.
Lemma inode_locate_tree_witness : exists b b', buf_init tree_power_on = Ret tt b /\
  inode_locate_block 1 0 13 (with_tree b) = Ret 4301 (set_ib b' (with_tree b)).
Proof.
  destruct tree_cache as (b & H1 & B & Hd).
  destruct (inode_locate_tree 1 0 (with_tree b)) as (_ & _ & _ & H & _); [lia|exact B|reflexivity|].
  destruct (H [10; 3]) as (b' & Hrun & _).
  - split; lia.
  - change (ib (with_tree b)) with b. rewrite Hd. change (iaddrs 0 (with_tree b) !!! Z.to_nat (hd 0 [10; 3])) with 4300. cbn [tl].
    split; [apply (bool_decide_unpack (NoDup (blocks_on tree_disk 4300 [3]))); vm_compute; exact I|].
    assert (blocks_on tree_disk 4300 [3] = [4300; 4301]) as -> by (vm_compute; reflexivity).
    intros n Hn. repeat (apply elem_of_cons in Hn as [->|Hn]; [split; [lia|split; [unfold BLOCK_NUM_UNUSED; lia|]]|]);
      [apply (bool_decide_unpack (Forall (fun x => 0 <= x < 256) (blk_get tree_disk 4300))); vm_compute; exact I
      |apply (bool_decide_unpack (Forall (fun x => 0 <= x < 256) (blk_get tree_disk 4301))); vm_compute; exact I|].
    destruct (not_elem_of_nil _ Hn).
  - exists b, b'. split; [exact H1|]. change 13 with (path_index [10; 3]) at 1. rewrite Hrun. f_equal.
    change (ib (with_tree b)) with b. rewrite Hd. vm_compute. reflexivity.
Defined.
Lemma indirect_entry_lost_witness : exists b v s', buf_init tree_power_on = Ret tt b /\
  inode_locate_block 1 0 14 (with_tree b) = Ret v s' /\ 131 <= v /\ follow (disk (ib s')) (iaddrs 0 s') [10; 4] = 0.
Proof.
  destruct tree_cache as (b & H1 & B & Hd).
  destruct (indirect_entry_lost 1 0 10 4 (with_tree b) 0) as (v & s' & Hrun & Hv & _ & _ & _ & _ & Hf & _).
  - lia.
  - exact B.
  - exact std_layout.
  - reflexivity.
  - lia.
  - lia.
  - discriminate.
  - discriminate.
  - discriminate.
  - change (ib (with_tree b)) with b. rewrite Hd. vm_compute. reflexivity.
  - exists [0]. split; [apply NoDup_singleton|]. split; [reflexivity|]. intros n Hn%list_elem_of_singleton. subst n.
    change (ib (with_tree b)) with b. rewrite Hd. split; [unfold BITS, BLOCK_SIZE; lia|]. vm_compute. reflexivity.
  - exists b, v, s'. split; [exact H1|]. split; [exact Hrun|]. split; [|exact Hf]. cbn in Hv. lia.
Defined.
