(* ===== verification/Dir.v ===== *)
(** * fs/dir.c: directories and path names

    A directory is one block of 32 entries of 32 bytes: a uint16 inode number and
    30 bytes of name, a name that starts with NUL marking a free entry.  Paths are
    the characters before the terminating NUL; name arrays are the 30 bytes of
    char name[DIR_NAME_LEN], which a name of 30 characters fills without a NUL. *)

From S2P Require Import Prelude Machine Str Lock Pmem Kvm Mmap Uvm Proc Buf Bitmap Inode.

(** ** Data *)

Definition DIR_NAME_LEN : Z := 30.
Definition DIR_PATH_LEN : Z := 128.
Definition sizeof_dirent : Z := 32.
(** BLOCK_SIZE / sizeof(dirent_t) *)
Definition N_DIRENT : nat := 32.

(** struct dirent at an offset of the block. *)
Record dirent : Type := mkDirent { de_inum : Z; de_name : list Z }.
Definition dirent_at (l : list Z) (offset : Z) : dirent :=
  mkDirent (dec16 l (Z.to_nat offset)) (slice l (offset + 2) DIR_NAME_LEN).
Definition enc_dirent (e : dirent) : list Z := enc16 (de_inum e) ++ de_name e.

(** A byte array as the reader the string routines take; a NUL ends it. *)
Definition rd (l : list Z) : Z -> Z := fun i => default 0 (l !! Z.to_nat i).
Definition name0 (e : dirent) : Z := rd (de_name e) 0.
(** [de->name[0] != 0 && strncmp(de->name, name, DIR_NAME_LEN) == 0] *)
Definition name_matches (e : dirent) (name : list Z) : bool :=
  negb (name0 e =? 0) && (strncmp (rd (de_name e)) (rd name) DIR_NAME_LEN =? 0).

(** The loops over the entries of a block: the first offset that satisfies a test. *)
Fixpoint find_dirent (n : nat) (offset : Z) (l : list Z) (test : dirent -> bool) : option Z :=
  match n with
  | O => None
  | S n =>
      if test (dirent_at l offset) then Some offset
      else find_dirent n (offset + sizeof_dirent) l test
  end.

(** *** Paths *)

Definition SLASH : Z := 47.
(** [while( *path == '/') path++;] *)
Fixpoint skip_slashes (path : list Z) : list Z :=
  match path with
  | c :: path' => if c =? SLASH then skip_slashes path' else path
  | [] => []
  end.
(** [while ( *path != '/' && *path != 0) path++;]: the element and the rest. *)
Fixpoint split_element (path : list Z) : list Z * list Z :=
  match path with
  | c :: path' =>
      if (c =? SLASH) || (c =? 0) then ([], path)
      else let '(s, rest) := split_element path' in (c :: s, rest)
  | [] => ([], [])
  end.
(** skip_element: [None] is the null pointer; otherwise the rest of the path and
    the new contents of the name array. *)
Definition skip_element (path name : list Z) : option (list Z * list Z) :=
  let path := skip_slashes path in
  match path with
  | [] => None
  | _ :: _ =>
      let '(s, path) := split_element path in
      let len := Z.of_nat (length s) in
      let name := if DIR_NAME_LEN <=? len
                  then blit name 0 (take (Z.to_nat DIR_NAME_LEN) s)
                  else <[length s := 0]> (blit name 0 s) in
      Some (skip_slashes path, name)
  end.

Definition DOT : list Z := [46; 0].
Definition DOTDOT : list Z := [46; 46; 0].
(** (uint32)-1 *)
Definition U32_FAIL : Z := u32 (-1).

Section dir.
Context {D : Type} {HD : BlockDev D} (sl_fuel : nat) (buf_addr : nat -> Z).
(** The uninitialised bytes of a name array on the kernel stack. *)
Context (stack_name : list Z).

(** The two checks every directory routine starts with. *)
Definition dir_guard (pip : nat) (fn : string) : M (istate D) unit :=
  let* h := iholding pip in
  assert_ h (fn +:+ ": not holding lock");;;
  let* ip := rd_inode pip in
  assert_ (itype (idisk ip) =? FT_DIR) (fn +:+ ": not a directory").
Definition dir_block (pip : nat) : M (istate D) nat :=
  let* ip := rd_inode pip in bread sl_fuel (addrs (idisk ip) !!! O).

Definition dir_search_entry (pip : nat) (name : list Z) : M (istate D) Z :=
  dir_guard pip "dir_search_entry";;;
  let* buf := dir_block pip in
  let* l := bdata buf in
  match find_dirent N_DIRENT 0 l (fun e => name_matches e name) with
  | Some offset =>
      let inum := de_inum (dirent_at l offset) in
      brelse buf;;;
      ret inum
  | None =>
      brelse buf;;;
      ret INODE_NUM_UNUSED
  end.

Definition dir_add_entry (pip : nat) (inode_num : Z) (name : list Z) : M (istate D) Z :=
  dir_guard pip "dir_add_entry";;;
  let* found := dir_search_entry pip name in
  if negb (found =? INODE_NUM_UNUSED) then ret BLOCK_SIZE
  else
    let* buf := dir_block pip in
    let* l := bdata buf in
    match find_dirent N_DIRENT 0 l (fun e => (name0 e =? 0) || (de_inum e =? INODE_NUM_UNUSED)) with
    | Some offset =>
        bset buf (fun l => blit l offset (enc_dirent
          (mkDirent inode_num (strncpy_bytes (Z.to_nat DIR_NAME_LEN) name))));;;
        bwrite buf;;;
        brelse buf;;;
        let* ip := rd_inode pip in
        when (isize (idisk ip) <? offset + sizeof_dirent)
          (wr_dinode pip (set_isize (offset + sizeof_dirent));;;
           inode_rw sl_fuel pip true);;;
        ret offset
    | None =>
        brelse buf;;;
        ret BLOCK_SIZE
    end.

Definition dir_delete_entry (pip : nat) (name : list Z) : M (istate D) Z :=
  dir_guard pip "dir_delete_entry";;;
  let* buf := dir_block pip in
  let* l := bdata buf in
  match find_dirent N_DIRENT 0 l (fun e => name_matches e name) with
  | Some offset =>
      let inum := de_inum (dirent_at l offset) in
      bset buf (fun l => blit l offset (replicate (Z.to_nat sizeof_dirent) 0));;;
      bwrite buf;;;
      brelse buf;;;
      ret inum
  | None =>
      brelse buf;;;
      ret INODE_NUM_UNUSED
  end.

(** The loop of dir_get_entries: total and, for a kernel destination, the bytes. *)
Fixpoint get_entries_loop (n : nat) (buf : nat) (offset total len : Z) (dst : data_dst) : M (istate D) (Z * list Z) :=
  match n with
  | O => ret (total, [])
  | S n =>
      if total <? len then
        let* l := bdata buf in
        let e := dirent_at l offset in
        if negb (name0 e =? 0) && negb (de_inum e =? INODE_NUM_UNUSED) then
          let* out := (match dst with
             | ToUser a =>
                 let* p := zoom i_k myproc in
                 let* pp := zoom i_k (rd_proc p) in
                 mem_store (buf_addr buf) l;;;
                 zoom i_k (zoom k_pmem (uvm_copyout (pgtbl pp) (u64 (a + total)) (buf_addr buf + offset) sizeof_dirent));;;
                 ret []
             | ToKernel => ret (slice l offset sizeof_dirent)
             end) in
          let* r := get_entries_loop n buf (offset + sizeof_dirent) (u32 (total + sizeof_dirent)) len dst in
          ret (fst r, out ++ snd r)
        else get_entries_loop n buf (offset + sizeof_dirent) total len dst
      else ret (total, [])
  end.
Definition dir_get_entries (pip : nat) (len : Z) (dst : data_dst) : M (istate D) (Z * list Z) :=
  dir_guard pip "dir_get_entries";;;
  let* buf := dir_block pip in
  let* r := get_entries_loop N_DIRENT buf 0 0 len dst in
  brelse buf;;;
  ret r.

(** What dir_print prints: the entries in use. *)
Definition dir_print (pip : nat) : M (istate D) (list dirent) :=
  let* h := iholding pip in
  assert_ h "dir_print: lock";;;
  let* buf := dir_block pip in
  let* l := bdata buf in
  brelse buf;;;
  ret (filter (fun e => name0 e <> 0)
         ((fun i => dirent_at l (sizeof_dirent * Z.of_nat i)) <$> seq 0 N_DIRENT)).

(** ** Path names *)

(** The element loop of search_inode; every element takes at least one character. *)
Fixpoint search_loop (fuel : nat) (ip : nat) (path name : list Z) (find_parent : bool)
    : M (istate D) (option nat * list Z) :=
  match fuel with
  | O => no_fuel
  | S fuel =>
      match skip_element path name with
      | Some (path, name) =>
          inode_lock sl_fuel ip;;;
          let* i := rd_inode ip in
          if negb (itype (idisk i) =? FT_DIR) then
            inode_unlock_free sl_fuel ip;;;
            ret (None, name)
          else if find_parent && bool_decide (path = []) then
            inode_unlock ip;;;
            ret (Some ip, name)
          else
            let* inum := dir_search_entry ip name in
            if inum =? INODE_NUM_UNUSED then
              inode_unlock_free sl_fuel ip;;;
              ret (None, name)
            else
              let* next := inode_alloc inum in
              inode_unlock_free sl_fuel ip;;;
              search_loop fuel next path name find_parent
      | None =>
          if find_parent then
            inode_free sl_fuel ip;;;
            ret (None, name)
          else ret (Some ip, name)
      end
  end.
Definition search_inode (path name : list Z) (find_parent : bool) : M (istate D) (option nat * list Z) :=
  let* ip := (if rd path 0 =? SLASH then inode_alloc INODE_ROOT
              else
                let* p := zoom i_k myproc in
                let* pp := zoom i_k (rd_proc p) in
                match cwd pp with
                | Some c => inode_dup c
                | None => inode_alloc INODE_ROOT
                end) in
  search_loop (S (length path)) ip path name find_parent.

Definition path_to_inode (path : list Z) : M (istate D) (option nat) :=
  let* r := search_inode path stack_name false in ret (fst r).
Definition path_to_pinode (path : list Z) : M (istate D) (option nat * list Z) :=
  search_inode path stack_name true.

Definition dir_change (path : list Z) : M (istate D) Z :=
  let* r := path_to_inode path in
  match r with
  | None => ret U32_FAIL
  | Some ip =>
      inode_lock sl_fuel ip;;;
      let* i := rd_inode ip in
      if negb (itype (idisk i) =? FT_DIR) then
        inode_unlock_free sl_fuel ip;;;
        ret U32_FAIL
      else
        inode_unlock ip;;;
        let* p := zoom i_k myproc in
        let* pp := zoom i_k (rd_proc p) in
        (match cwd pp with Some c => inode_free sl_fuel c | None => ret tt end);;;
        zoom i_k (wr_proc p (set_cwd (Some ip)));;;
        ret 0
  end.

(** inode_create returns an inode or panics, so its NULL check is dead code. *)
Definition path_create_inode (path : list Z) (type major minor : Z) : M (istate D) (option nat) :=
  let* r := path_to_pinode path in
  match r with
  | (None, _) => ret None
  | (Some pip, name) =>
      inode_lock sl_fuel pip;;;
      let* inum := dir_search_entry pip name in
      if negb (inum =? INODE_NUM_UNUSED) then
        inode_unlock_free sl_fuel pip;;;
        let* ip := inode_alloc inum in
        inode_lock sl_fuel ip;;;
        let* i := rd_inode ip in
        if negb (type =? FT_DIR) && (itype (idisk i) =? FT_DIR) then
          inode_unlock_free sl_fuel ip;;;
          ret None
        else
          inode_unlock ip;;;
          ret (Some ip)
      else
        let* ip := inode_create sl_fuel type major minor in
        let* i := rd_inode ip in
        let* off := dir_add_entry pip (inode_num i) name in
        if off =? BLOCK_SIZE then
          inode_lock sl_fuel ip;;;
          wr_dinode ip (set_inlink 0);;;
          inode_unlock_free sl_fuel ip;;;
          inode_unlock_free sl_fuel pip;;;
          ret None
        else
          when (type =? FT_DIR)
            (inode_lock sl_fuel ip;;;
             let* i := rd_inode ip in
             let* _ := dir_add_entry ip (inode_num i) DOT in
             let* pi := rd_inode pip in
             let* _ := dir_add_entry ip (inode_num pi) DOTDOT in
             inode_unlock ip;;;
             let* pi := rd_inode pip in
             wr_dinode pip (set_inlink (u16 (inlink (idisk pi) + 1)));;;
             inode_rw sl_fuel pip true);;;
          inode_unlock_free sl_fuel pip;;;
          ret (Some ip)
  end.

Definition path_link (old_path new_path : list Z) : M (istate D) Z :=
  let* r := path_to_inode old_path in
  match r with
  | None => ret U32_FAIL
  | Some ip =>
      inode_lock sl_fuel ip;;;
      let* i := rd_inode ip in
      if itype (idisk i) =? FT_DIR then
        inode_unlock_free sl_fuel ip;;;
        ret U32_FAIL
      else
        let* r := path_to_pinode new_path in
        match r with
        | (None, _) => inode_unlock_free sl_fuel ip;;; ret U32_FAIL
        | (Some pip, name) =>
            inode_lock sl_fuel pip;;;
            let* i := rd_inode ip in
            let* off := dir_add_entry pip (inode_num i) name in
            if off =? BLOCK_SIZE then
              inode_unlock_free sl_fuel pip;;;
              inode_unlock_free sl_fuel ip;;;
              ret U32_FAIL
            else
              let* i := rd_inode ip in
              wr_dinode ip (set_inlink (u16 (inlink (idisk i) + 1)));;;
              inode_rw sl_fuel ip true;;;
              inode_unlock_free sl_fuel pip;;;
              inode_unlock_free sl_fuel ip;;;
              ret 0
        end
  end.

Definition check_unlink (ip : nat) : M (istate D) bool :=
  let* h := iholding ip in
  assert_ h "check_unlink: slk";;;
  let* r := dir_get_entries ip (sizeof_dirent * 3) ToKernel in
  if fst r =? sizeof_dirent * 3 then ret false
  else if fst r =? sizeof_dirent * 2 then ret true
  else panic "check_unlink: read_len".

Definition path_unlink (path : list Z) : M (istate D) Z :=
  let* r := path_to_pinode path in
  match r with
  | (None, _) => ret U32_FAIL
  | (Some pip, name) =>
      inode_lock sl_fuel pip;;;
      if (strncmp (rd name) (rd DOT) DIR_NAME_LEN =? 0) || (strncmp (rd name) (rd DOTDOT) DIR_NAME_LEN =? 0) then
        inode_unlock_free sl_fuel pip;;;
        ret U32_FAIL
      else
        let* inum := dir_search_entry pip name in
        if inum =? INODE_NUM_UNUSED then
          inode_unlock_free sl_fuel pip;;;
          ret U32_FAIL
        else
          let* ip := inode_alloc inum in
          inode_lock sl_fuel ip;;;
          let* i := rd_inode ip in
          let* ok := (if itype (idisk i) =? FT_DIR then check_unlink ip else ret true) in
          if negb ok then
            inode_unlock_free sl_fuel ip;;;
            inode_unlock_free sl_fuel pip;;;
            ret U32_FAIL
          else
            let* _ := dir_delete_entry pip name in
            let* i := rd_inode ip in
            when (itype (idisk i) =? FT_DIR)
              (let* pi := rd_inode pip in
               wr_dinode pip (set_inlink (u16 (inlink (idisk pi) - 1)));;;
               inode_rw sl_fuel pip true);;;
            inode_unlock_free sl_fuel pip;;;
            let* i := rd_inode ip in
            wr_dinode ip (set_inlink (u16 (inlink (idisk i) - 1)));;;
            inode_rw sl_fuel ip true;;;
            inode_unlock_free sl_fuel ip;;;
            ret 0
  end.

End dir.
