(* ===== verification/DirSpec.v ===== *)
(** * Properties of directories and path names *)

From S2P Require Import Prelude Machine Str Lock Pmem Kvm KvmSpec Mmap Uvm Proc ProcSpec SleepSpec Buf BufSpec Bitmap BitmapSpec.
From S2P Require Import Inode InodeSpec Dir.

(** ** Names

    Two name arrays denote the same name when strncpy makes the same 30 bytes of
    them: their characters up to the first NUL, padded with NULs. *)

Definition dkey (name : list Z) : list Z := strncpy_bytes (Z.to_nat DIR_NAME_LEN) name.
Definition is_bytes (l : list Z) : Prop := Forall (fun x => 0 <= x < 256) l.

Lemma rd_drop l i : match drop i l with x :: _ => rd l (Z.of_nat i) = x | [] => rd l (Z.of_nat i) = 0 end.
Proof.
  unfold rd. rewrite Nat2Z.id. destruct (drop i l) as [|x r] eqn:E.
  - rewrite lookup_ge_None_2; [done|]. apply (f_equal length) in E. rewrite length_drop in E. cbn in E. lia.
  - assert (l !! i = Some x) as ->; [|done]. rewrite <- (Nat.add_0_r i), <- lookup_drop, E. done.
Qed.
Lemma drop_cons_S {A} (l : list A) i x r : drop i l = x :: r -> drop (S i) l = r.
Proof. intros E. replace (S i) with (i + 1)%nat by lia. by rewrite <- drop_drop, E. Qed.

Lemma rd_byte l j : is_bytes l -> 0 <= rd l j < 256.
Proof.
  intros H. unfold rd. destruct (l !! Z.to_nat j) as [x|] eqn:E; [|cbn; lia].
  unfold is_bytes in H. rewrite Forall_lookup in H. by apply (H _ _ E).
Qed.

Lemma strncmp_key_loop n a b i : is_bytes a -> is_bytes b ->
  strncmp_loop n (rd a) (rd b) (Z.of_nat i) = 0 <-> strncpy_bytes n (drop i a) = strncpy_bytes n (drop i b).
Proof.
  intros Ha Hb. revert i. induction n as [|n IH]; intros i; [done|]. cbn [strncmp_loop].
  pose proof (rd_drop a i) as Ea. pose proof (rd_drop b i) as Eb.
  pose proof (rd_byte a (Z.of_nat i) Ha) as Ra. pose proof (rd_byte b (Z.of_nat i) Hb) as Rb.
  replace (Z.of_nat i + 1) with (Z.of_nat (S i)) by lia. specialize (IH (S i)).
  rewrite !u8_small by done.
  assert (forall l, match drop i l with x :: _ => rd l (Z.of_nat i) = x | [] => rd l (Z.of_nat i) = 0 end ->
    strncpy_bytes (S n) (drop i l) = if rd l (Z.of_nat i) =? 0 then replicate (S n) 0
      else rd l (Z.of_nat i) :: strncpy_bytes n (drop (S i) l)) as Hstep.
  { intros l. destruct (drop i l) as [|x r] eqn:E; intros ->; [done|]. cbn [strncpy_bytes]. by rewrite (drop_cons_S _ _ _ _ E). }
  rewrite (Hstep a Ea), (Hstep b Eb). clear Hstep Ea Eb.
  set (x := rd a (Z.of_nat i)) in *. set (y := rd b (Z.of_nat i)) in *.
  bcase (x =? 0); cbn [negb andb].
  - bcase (y =? 0); [split; [done|lia]|]. split; [lia|]. cbn. intros [= H _]. lia.
  - bcase (x =? y).
    + bcase (y =? 0); [lia|]. rewrite IH. split; [intros ->; congruence|by intros [= _ ?]].
    + split; [lia|]. bcase (y =? 0); cbn; intros [= H]; lia.
Qed.
(** strncmp compares names. *)
Lemma strncmp_key a b : is_bytes a -> is_bytes b -> strncmp (rd a) (rd b) DIR_NAME_LEN = 0 <-> dkey a = dkey b.
Proof. intros Ha Hb. exact (strncmp_key_loop (Z.to_nat DIR_NAME_LEN) a b 0 Ha Hb). Qed.

Lemma strncpy_bytes_len n l : length (strncpy_bytes n l) = n.
Proof.
  revert l. induction n as [|n IH]; intros [|c l]; cbn [strncpy_bytes]; try done; [by rewrite length_replicate|].
  destruct (c =? 0); [by rewrite length_replicate|]. cbn. by rewrite IH.
Qed.
Lemma strncpy_bytes_idem n l : strncpy_bytes n (strncpy_bytes n l) = strncpy_bytes n l.
Proof.
  revert l. induction n as [|n IH]; intros [|c l]; cbn [strncpy_bytes]; try done.
  destruct (c =? 0) eqn:E; [done|]. cbn [strncpy_bytes]. by rewrite E, IH.
Qed.
Lemma dkey_idem name : dkey (dkey name) = dkey name.
Proof. apply strncpy_bytes_idem. Qed.
Lemma dkey_first name : rd (dkey name) 0 = rd name 0.
Proof.
  unfold dkey, DIR_NAME_LEN. change (Z.to_nat 30) with (S 29). destruct name as [|c l]; [done|]. cbn [strncpy_bytes].
  change (rd (c :: l) 0) with c. destruct (Z.eqb_spec c 0) as [->|]; done.
Qed.
Lemma strncpy_bytes_bytes n l : is_bytes l -> is_bytes (strncpy_bytes n l).
Proof.
  revert l. induction n as [|n IH]; intros [|c l] H; cbn [strncpy_bytes]; try apply Forall_nil_2.
  - apply (Forall_replicate _ (S n)). lia.
  - apply Forall_cons in H as [Hc Hl]. destruct (c =? 0); [apply (Forall_replicate _ (S n)); lia|].
    apply Forall_cons. split; [done|]. by apply IH.
Qed.

(** A matching entry: in use, with the same name. *)
Lemma name_matches_spec e name : is_bytes (de_name e) -> is_bytes name ->
  name_matches e name = bool_decide (name0 e <> 0 /\ dkey (de_name e) = dkey name).
Proof.
  intros He Hn. unfold name_matches. pose proof (strncmp_key (de_name e) name He Hn) as Hk.
  destruct (Z.eqb_spec (name0 e) 0) as [E|E]; cbn.
  - rewrite bool_decide_eq_false_2; [done|]. tauto.
  - destruct (Z.eqb_spec (strncmp (rd (de_name e)) (rd name) DIR_NAME_LEN) 0).
    + rewrite bool_decide_eq_true_2; [done|]. tauto.
    + rewrite bool_decide_eq_false_2; [done|]. tauto.
Qed.

(** ** The entries of a block *)

(** The offsets of the entries. *)
Definition offs : list Z := (fun i => sizeof_dirent * Z.of_nat i) <$> seq 0 N_DIRENT.
Lemma offs_bound o : o ∈ offs -> 0 <= o /\ o + sizeof_dirent <= BLOCK_SIZE.
Proof.
  unfold offs. intros H. apply list_elem_of_fmap in H as (i & -> & Hi). apply elem_of_seq in Hi.
  unfold sizeof_dirent, BLOCK_SIZE, N_DIRENT in *. lia.
Qed.
Lemma offs_apart o o' : o ∈ offs -> o' ∈ offs -> o <> o' -> o + sizeof_dirent <= o' \/ o' + sizeof_dirent <= o.
Proof.
  unfold offs. intros H H'. apply list_elem_of_fmap in H as (i & -> & _). apply list_elem_of_fmap in H' as (j & -> & _).
  unfold sizeof_dirent. lia.
Qed.
Lemma find_dirent_find n k l test :
  find_dirent n (sizeof_dirent * Z.of_nat k) l test =
  find (fun o => test (dirent_at l o)) ((fun i => sizeof_dirent * Z.of_nat i) <$> seq k n).
Proof.
  revert k. induction n as [|n IH]; intros k; [done|]. cbn [find_dirent seq fmap list_fmap find].
  destruct (test _); [done|]. rewrite <- IH. f_equal. lia.
Qed.
Lemma find_dirent_offs l test : find_dirent N_DIRENT 0 l test = find (fun o => test (dirent_at l o)) offs.
Proof. exact (find_dirent_find N_DIRENT 0 l test). Qed.

(** A search after the test changed at one offset only. *)
Lemma find_same {A} (p q : A -> bool) (l : list A) : (forall x, x ∈ l -> p x = q x) -> find p l = find q l.
Proof.
  induction l as [|y l IH]; intros H; [done|]. cbn. rewrite (H y) by apply list_elem_of_here. destruct (q y); [done|].
  apply IH. intros x Hx. by apply H, list_elem_of_further.
Qed.
Lemma find_new (p q : Z -> bool) x (l : list Z) : x ∈ l -> find p l = None -> q x = true ->
  (forall y, y ∈ l -> y <> x -> q y = p y) -> find q l = Some x.
Proof.
  induction l as [|y l IH]; intros Hx Hp Hq Hs; [by apply not_elem_of_nil in Hx|]. cbn in *.
  destruct (p y) eqn:Epy; [done|]. destruct (decide (y = x)) as [->|Hne]; [by rewrite Hq|].
  rewrite (Hs y), Epy by (apply list_elem_of_here || done). apply IH; [|done|done|].
  - apply elem_of_cons in Hx as [?|?]; [congruence|done].
  - intros z Hz. by apply Hs, list_elem_of_further.
Qed.

Lemma dirent_at_slice l o : 0 <= o -> o + sizeof_dirent <= Z.of_nat (length l) ->
  dirent_at l o = mkDirent (dec16 (slice l o sizeof_dirent) 0) (slice (slice l o sizeof_dirent) 2 DIR_NAME_LEN).
Proof.
  intros H1 H2. unfold dirent_at, sizeof_dirent, DIR_NAME_LEN in *. f_equal.
  - unfold dec16. rewrite !list_lookup_total_alt, !slice_at by lia. rewrite !decide_True by lia.
    do 3 f_equal; [|do 2 f_equal]; lia.
  - apply list_eq. intros k. rewrite !slice_at by lia. case_decide; [|done]. rewrite decide_True by lia. f_equal. lia.
Qed.
Lemma dirent_at_blit l o bs o' : Z.of_nat (length l) = BLOCK_SIZE -> Z.of_nat (length bs) = sizeof_dirent -> o ∈ offs -> o' ∈ offs ->
  dirent_at (blit l o bs) o' = if decide (o' = o) then mkDirent (dec16 bs 0) (slice bs 2 DIR_NAME_LEN) else dirent_at l o'.
Proof.
  intros Hl Hb Ho Ho'. destruct (offs_bound o Ho) as [B1 B2]. destruct (offs_bound o' Ho') as [B1' B2'].
  assert (length (blit l o bs) = length l) as Hbl by (apply blit_len; lia).
  rewrite !dirent_at_slice by lia. case_decide as E.
  - subst o'. rewrite <- Hb, slice_blit_eq by lia. done.
  - rewrite slice_blit_ne; [done|lia|lia|lia|lia|]. destruct (offs_apart o o' Ho Ho'); [congruence|lia|lia].
Qed.
Lemma dec_enc_dirent inum name : 0 <= inum < 2 ^ 16 -> Z.of_nat (length name) = DIR_NAME_LEN ->
  Z.of_nat (length (enc_dirent (mkDirent inum name))) = sizeof_dirent /\
  dec16 (enc_dirent (mkDirent inum name)) 0 = inum /\ slice (enc_dirent (mkDirent inum name)) 2 DIR_NAME_LEN = name.
Proof.
  intros Hi Hn. unfold enc_dirent. cbn [de_inum de_name]. split_and!.
  - rewrite length_app. cbn. unfold DIR_NAME_LEN, sizeof_dirent in *. lia.
  - exact (enc16_dec inum [] name Hi).
  - apply list_eq. intros k. rewrite slice_at by (unfold DIR_NAME_LEN; lia). case_decide as E.
    + rewrite lookup_app_r by (cbn; lia). f_equal. cbn. lia.
    + rewrite lookup_ge_None_2; [done|lia].
Qed.

(** ** The directory operations *)

Section dirspec.
Context {D : Type} {HD : BlockDev D}.

(** The block of the directory in slot [pip]. *)
Definition dblock (pip : nat) (s : istate D) : Z := addrs (idisk (inode_at s pip)) !!! O.
Definition dir_data (pip : nat) (s : istate D) : list Z := blk_get (disk (ib s)) (dblock pip s).
(** Entries marked with the reserved inode number are not in use; bytes are bytes. *)
Definition dir_wf (l : list Z) : Prop :=
  is_bytes l /\ forall o, o ∈ offs -> de_inum (dirent_at l o) = INODE_NUM_UNUSED -> name0 (dirent_at l o) = 0.

(** The running process holds directory [pip]. *)
Record dir_ready (pip : nat) (s : istate D) : Prop := {
  dr_binv : binv [] (ib s);
  dr_hold : ihold pip s;
  dr_type : itype (idisk (inode_at s pip)) = FT_DIR;
  dr_block : dblock pip s <> BLOCK_NUM_UNUSED;
  dr_apart : dblock pip s <> inode_block (isb s) (inode_num (inode_at s pip));
  dr_disk : dinode_ok (idisk (inode_at s pip));
  dr_wf : dir_wf (dir_data pip s);
}.

(** The inode number a directory block gives for a name. *)
Definition lookup_name (l : list Z) (name : list Z) : option Z :=
  (fun o => de_inum (dirent_at l o)) <$> find (fun o => name_matches (dirent_at l o) name) offs.

Lemma dir_guard_run pip fn s : dir_ready pip s -> dir_guard pip fn s = Ret tt s.
Proof.
  intros R. unfold dir_guard. mrun (iholding_run pip s (dr_hold _ _ R) (binv_quiet _ _ (dr_binv _ _ R))).
  unfold rd_inode. mstep. by rewrite (dr_type _ _ R).
Qed.
(** The same slots over another block layer with the same disk and kernel part. *)
Lemma dir_ready_ib pip s b : dir_ready pip s -> binv [] b -> bk b = bk (ib s) -> dir_wf (blk_get (disk b) (dblock pip s)) ->
  dir_ready pip (set_ib b s).
Proof. intros [B H T Hb Ha Hd Hw] B' Hk Hw'. split; try done. destruct H. split; try done. cbn. by rewrite Hk. Qed.

Lemma dir_search_run sl_fuel pip name s : (0 < sl_fuel)%nat -> dir_ready pip s ->
  exists b', dir_search_entry sl_fuel pip name s = Ret (default INODE_NUM_UNUSED (lookup_name (dir_data pip s) name)) (set_ib b' s) /\
    dir_ready pip (set_ib b' s) /\ disk b' = disk (ib s) /\ bk b' = bk (ib s).
Proof.
  intros Hf R. destruct (iblock_get sl_fuel (dblock pip s) s (dr_binv _ _ R) (dr_block _ _ R) Hf) as (i & b1 & b' & E1 & E2 & E3 & B' & Hk & Hd).
  exists b'. assert (dir_ready pip (set_ib b' s)) as R'.
  { apply dir_ready_ib; try done. rewrite Hd. apply R. }
  split_and!; try done. unfold dir_search_entry. mrun (dir_guard_run pip "dir_search_entry" s R). unfold dir_block, rd_inode. mstep.
  fold (dblock pip s). mrun E1. mrun E2. rewrite find_dirent_offs. unfold lookup_name. fold (dir_data pip s).
  destruct (find _ offs) as [o|]; cbn [fmap option_fmap option_map default from_option id]; by mrun (E3 s).
Qed.

(** The first free entry of a block. *)
Definition free_entry_at (l : list Z) : option Z :=
  find (fun o => (name0 (dirent_at l o) =? 0) || (de_inum (dirent_at l o) =? INODE_NUM_UNUSED)) offs.
(** The block with entry [o] set. *)
Definition put_entry (l : list Z) (o inum : Z) (name : list Z) : list Z := blit l o (enc_dirent (mkDirent inum (dkey name))).

Lemma find_in {A} (p : A -> bool) l x : find p l = Some x -> x ∈ l /\ p x = true.
Proof. intros H. apply find_some in H as [H1 H2]. by apply list_elem_of_In in H1. Qed.

Lemma put_entry_at l o inum name o' : Z.of_nat (length l) = BLOCK_SIZE -> 0 <= inum < 2 ^ 16 -> o ∈ offs -> o' ∈ offs ->
  dirent_at (put_entry l o inum name) o' = if decide (o' = o) then mkDirent inum (dkey name) else dirent_at l o'.
Proof.
  intros Hl Hi Ho Ho'. destruct (dec_enc_dirent inum (dkey name) Hi) as (H1 & H2 & H3).
  { unfold dkey. by rewrite strncpy_bytes_len. }
  unfold put_entry. rewrite dirent_at_blit by done. by rewrite H2, H3.
Qed.
Lemma blit_bytes l o bs : is_bytes l -> is_bytes bs -> is_bytes (blit l o bs).
Proof. intros H1 H2. unfold blit. apply Forall_app. split; [by apply Forall_take|]. apply Forall_app. split; [done|by apply Forall_drop]. Qed.
Lemma put_entry_wf l o inum name : Z.of_nat (length l) = BLOCK_SIZE -> 0 <= inum < INODE_NUM_UNUSED -> o ∈ offs -> is_bytes name ->
  dir_wf l -> dir_wf (put_entry l o inum name).
Proof.
  intros Hl Hi Ho Hn [Hb Hw]. assert (0 <= inum < 2 ^ 16) as Hi' by (unfold INODE_NUM_UNUSED in *; lia). split.
  - apply blit_bytes; [done|]. unfold enc_dirent. apply Forall_app. split; [|by apply strncpy_bytes_bytes].
    unfold enc16. cbn [de_inum]. repeat apply Forall_cons_2; [apply Z.mod_pos_bound; lia..|apply Forall_nil_2].
  - intros o' Ho'. rewrite put_entry_at by done. case_decide; [cbn; lia|]. by apply Hw.
Qed.

(** A larger size is stored in the inode, on the disk too. *)
Lemma dir_grow_run sl_fuel pip n s : (0 < sl_fuel)%nat -> dir_ready pip s -> 0 <= n <= BLOCK_SIZE ->
  exists s', (wr_dinode pip (set_isize n);;; inode_rw sl_fuel pip true) s = Ret tt s' /\ dir_ready pip s' /\
    dblock pip s' = dblock pip s /\ dir_data pip s' = dir_data pip s /\ isize (idisk (inode_at s' pip)) = n.
Proof.
  intros Hf R Hn. set (s2 := upd_inode pip (upd_idisk (set_isize n)) s).
  assert (inode_at s2 pip = upd_idisk (set_isize n) (inode_at s pip)) as Hat2.
  { unfold s2. rewrite inode_at_upd by apply R. by rewrite decide_True. }
  assert (ihold pip s2 /\ dinode_ok (idisk (inode_at s2 pip))) as [Hh2 Hdk2].
  { split.
    - apply (same_file_hold pip s); [|apply R]. rewrite <- (set_ib_id s2). unfold s2. apply upd_inode_same; [apply R|done..].
    - rewrite Hat2. destruct (dr_disk _ _ R). split; try done. cbn. unfold BLOCK_SIZE in *. lia. }
  destruct (inode_rw_write sl_fuel pip s2 (dr_binv _ _ R) Hh2 Hf Hdk2) as (b3 & Hrw & B3 & Hk3 & Hd3).
  exists (set_ib b3 s2). assert (dblock pip (set_ib b3 s2) = dblock pip s) as Hdb.
  { change (dblock pip (set_ib b3 s2)) with (dblock pip s2). unfold dblock. by rewrite Hat2. }
  assert (dir_data pip (set_ib b3 s2) = dir_data pip s) as Hdd.
  { unfold dir_data. rewrite Hdb. change (ib (set_ib b3 s2)) with b3. rewrite Hd3, blk_get_ne; [done|].
    rewrite Hat2. intros Heq. symmetry in Heq. by apply (dr_apart _ _ R) in Heq. }
  split; [exact Hrw|]. split; [|split; [done|split; [done|]]].
  - split; try done; rewrite ?Hdb, ?Hdd; try apply R.
    + destruct Hh2. split; try done. cbn. by rewrite Hk3.
    + change (inode_at (set_ib b3 s2) pip) with (inode_at s2 pip). rewrite Hat2. apply R.
    + change (inode_at (set_ib b3 s2) pip) with (inode_at s2 pip). rewrite Hat2. apply R.
  - change (inode_at (set_ib b3 s2) pip) with (inode_at s2 pip). by rewrite Hat2.
Qed.
Lemma dir_add_run sl_fuel pip inum name s : (0 < sl_fuel)%nat -> dir_ready pip s -> 0 <= inum < INODE_NUM_UNUSED -> is_bytes name ->
  let l := dir_data pip s in
  default INODE_NUM_UNUSED (lookup_name l name) = INODE_NUM_UNUSED ->
  match free_entry_at l with
  | None => exists b', dir_add_entry sl_fuel pip inum name s = Ret BLOCK_SIZE (set_ib b' s) /\ dir_ready pip (set_ib b' s) /\ disk b' = disk (ib s)
  | Some o => exists s', dir_add_entry sl_fuel pip inum name s = Ret o s' /\ dir_ready pip s' /\
      dblock pip s' = dblock pip s /\ dir_data pip s' = put_entry l o inum name /\
      isize (idisk (inode_at s' pip)) = Z.max (isize (idisk (inode_at s pip))) (o + sizeof_dirent)
  end.
Proof.
  intros Hf R Hi Hn l Hno. destruct (dir_search_run sl_fuel pip name s Hf R) as (b0 & Hs & R0 & Hd0 & Hk0). fold l in Hs.
  eassert (dir_add_entry sl_fuel pip inum name s = _) as Hpre.
  { unfold dir_add_entry. mrun (dir_guard_run pip "dir_add_entry" s R). mrun Hs. rewrite Hno.
    change (negb (INODE_NUM_UNUSED =? INODE_NUM_UNUSED)) with false. cbn iota. reflexivity. }
  set (s0 := set_ib b0 s) in *. assert (dir_data pip s0 = l) as Hl0 by (unfold dir_data, l; cbn; by rewrite Hd0).
  assert (Z.of_nat (length l) = BLOCK_SIZE) as Hll by apply blk_len.
  destruct (free_entry_at l) as [o|] eqn:Efree.
  - destruct (find_in _ _ _ Efree) as [Ho _]. destruct (offs_bound o Ho) as [Ho1 Ho2].
    destruct (dec_enc_dirent inum (dkey name)) as (He & _); [unfold INODE_NUM_UNUSED in *; lia|unfold dkey; by rewrite strncpy_bytes_len|].
    destruct (iblock_update sl_fuel (dblock pip s0) (fun l => put_entry l o inum name) s0 (dr_binv _ _ R0) (dr_block _ _ R0) Hf)
      as (i & b1 & bm & b2 & b' & E1 & E2 & E3 & E4 & B' & Hk & Hd).
    { fold (dir_data pip s0). rewrite Hl0. unfold put_entry. rewrite blit_len; [done|lia|lia]. }
    fold (dir_data pip s0) in Hd. rewrite Hl0 in Hd.
    assert (blk_get (disk b') (dblock pip s0) = put_entry l o inum name) as Hget.
    { rewrite Hd. apply blk_get_eq. unfold put_entry. rewrite blit_len; [done|lia|lia]. }
    assert (dir_wf (put_entry l o inum name)) as Hw by (apply put_entry_wf; try done; apply R).
    assert (bdata i (set_ib b1 s0) = Ret l (set_ib b1 s0)) as Eb.
    { destruct (iblock_get sl_fuel (dblock pip s0) s0 (dr_binv _ _ R0) (dr_block _ _ R0) Hf) as (i' & b1' & ? & E1' & E2' & _).
      rewrite E1 in E1'. injection E1' as <- Hb. rewrite <- Hl0. unfold dir_data. rewrite Hb. exact E2'. }
    eassert (dir_add_entry sl_fuel pip inum name s = _) as Hpre2.
    { rewrite Hpre. unfold dir_block, rd_inode. mstep. fold (dblock pip s0). mrun E1. mrun Eb.
      rewrite find_dirent_offs. fold (free_entry_at l). rewrite Efree. mstep. mrun E2. mrun E3. mrun E4.
      change (inode_at (set_ib b' s0) pip) with (inode_at s pip). reflexivity. }
    rewrite Hpre2. clear Hpre Hpre2.
    assert (dir_ready pip (set_ib b' s0)) as R1 by (apply dir_ready_ib; try done; by rewrite Hget).
    bcase (isize (idisk (inode_at s pip)) <? o + sizeof_dirent); cbn [when].
    + destruct (dir_grow_run sl_fuel pip (o + sizeof_dirent) (set_ib b' s0) Hf R1) as (s' & Eg & R' & D1 & D2 & D3); [lia|].
      exists s'. split_and!; [|done|by rewrite D1|by rewrite D2|rewrite D3; lia].
      by mrun Eg.
    + exists (set_ib b' s0). split_and!; try done.
      change (inode_at (set_ib b' s0) pip) with (inode_at s pip). lia.
  - destruct (iblock_get sl_fuel (dblock pip s0) s0 (dr_binv _ _ R0) (dr_block _ _ R0) Hf) as (i & b1 & b' & E1 & E2 & E3 & B' & Hk & Hd).
    exists b'. split_and!.
    + rewrite Hpre. unfold dir_block, rd_inode. mstep. fold (dblock pip s0). mrun E1. mrun E2. fold (dir_data pip s0). rewrite Hl0.
      rewrite find_dirent_offs. fold (free_entry_at l). rewrite Efree. by mrun (E3 s0).
    + apply (dir_ready_ib pip s0 b'); try done. rewrite Hd. apply R0.
    + by rewrite Hd.
Qed.

(** The block with entry [o] cleared. *)
Definition clear_entry (l : list Z) (o : Z) : list Z := blit l o (replicate (Z.to_nat sizeof_dirent) 0).
Lemma clear_entry_at l o o' : Z.of_nat (length l) = BLOCK_SIZE -> o ∈ offs -> o' ∈ offs ->
  dirent_at (clear_entry l o) o' = if decide (o' = o) then mkDirent 0 (replicate (Z.to_nat DIR_NAME_LEN) 0) else dirent_at l o'.
Proof. intros Hl Ho Ho'. unfold clear_entry. by rewrite dirent_at_blit. Qed.

Lemma dir_delete_run sl_fuel pip name s : (0 < sl_fuel)%nat -> dir_ready pip s ->
  let l := dir_data pip s in
  match find (fun o => name_matches (dirent_at l o) name) offs with
  | None => exists b', dir_delete_entry sl_fuel pip name s = Ret INODE_NUM_UNUSED (set_ib b' s) /\ dir_ready pip (set_ib b' s) /\ disk b' = disk (ib s)
  | Some o => exists b', dir_delete_entry sl_fuel pip name s = Ret (de_inum (dirent_at l o)) (set_ib b' s) /\
      dir_ready pip (set_ib b' s) /\ dir_data pip (set_ib b' s) = clear_entry l o
  end.
Proof.
  intros Hf R l. assert (Z.of_nat (length l) = BLOCK_SIZE) as Hll by apply blk_len.
  destruct (iblock_get sl_fuel (dblock pip s) s (dr_binv _ _ R) (dr_block _ _ R) Hf) as (i & b1 & b' & E1 & E2 & E3 & B' & Hk & Hd).
  fold (dir_data pip s) l in E2.
  eassert (dir_delete_entry sl_fuel pip name s = _) as Hpre.
  { unfold dir_delete_entry. mrun (dir_guard_run pip "dir_delete_entry" s R). unfold dir_block, rd_inode. mstep.
    fold (dblock pip s). mrun E1. mrun E2. rewrite find_dirent_offs. reflexivity. }
  destruct (find _ offs) as [o|] eqn:Ef.
  - destruct (find_in _ _ _ Ef) as [Ho _]. destruct (offs_bound o Ho) as [Ho1 Ho2].
    assert (length (clear_entry l o) = length l) as Hcl by (apply blit_len; rewrite ?length_replicate; unfold sizeof_dirent in *; lia).
    destruct (iblock_update sl_fuel (dblock pip s) (fun l => clear_entry l o) s (dr_binv _ _ R) (dr_block _ _ R) Hf)
      as (i' & b1' & bm & b2 & b3 & F1 & F2 & F3 & F4 & B3 & Hk3 & Hd3).
    { fold (dir_data pip s) l. by rewrite Hcl. }
    rewrite E1 in F1. injection F1 as <- Hb. rewrite <- Hb in F2.
    assert (blk_get (disk b3) (dblock pip s) = clear_entry l o) as Hget.
    { rewrite Hd3. fold (dir_data pip s) l. apply blk_get_eq. by rewrite Hcl. }
    exists b3. split_and!.
    + rewrite Hpre. mstep. mrun F2. mrun F3. by mrun F4.
    + apply dir_ready_ib; try done. rewrite Hget. destruct (dr_wf _ _ R) as [Hw1 Hw2]. split.
      * apply blit_bytes; [done|]. apply Forall_replicate. lia.
      * intros o' Ho'. rewrite clear_entry_at by done. case_decide; [done|]. by apply Hw2.
    + unfold dir_data. exact Hget.
  - exists b'. split_and!; [rewrite Hpre; by mrun (E3 s)| |done]. apply dir_ready_ib; try done. rewrite Hd. apply R.
Qed.

(** *** What the changes of the block do to lookups *)

Lemma dirent_name_bytes l o : is_bytes l -> is_bytes (de_name (dirent_at l o)).
Proof. intros H. unfold dirent_at, slice. by apply Forall_take, Forall_drop. Qed.

Lemma lookup_put_eq l o inum name : Z.of_nat (length l) = BLOCK_SIZE -> dir_wf l -> 0 <= inum < 2 ^ 16 -> o ∈ offs ->
  is_bytes name -> rd name 0 <> 0 -> lookup_name l name = None -> lookup_name (put_entry l o inum name) name = Some inum.
Proof.
  intros Hl [Hw _] Hi Ho Hn H0 Hnone. unfold lookup_name in *.
  rewrite (find_new (fun o => name_matches (dirent_at l o) name) _ o).
  - cbn [fmap option_fmap option_map]. rewrite put_entry_at by done. by rewrite decide_True.
  - done.
  - by destruct (find _ offs).
  - rewrite put_entry_at by done. rewrite decide_True by done.
    rewrite name_matches_spec by (done || by apply strncpy_bytes_bytes). apply bool_decide_eq_true_2. cbn [de_name].
    split; [|apply dkey_idem]. unfold name0. cbn [de_name]. by rewrite dkey_first.
  - intros y Hy Hne. rewrite put_entry_at by done. by rewrite decide_False.
Qed.
Lemma lookup_put_ne l o inum name name' : Z.of_nat (length l) = BLOCK_SIZE -> dir_wf l -> 0 <= inum < 2 ^ 16 -> o ∈ offs ->
  is_bytes name -> is_bytes name' -> dkey name <> dkey name' -> name0 (dirent_at l o) = 0 ->
  lookup_name (put_entry l o inum name) name' = lookup_name l name'.
Proof.
  intros Hl [Hw _] Hi Ho Hn Hn' Hk H0. unfold lookup_name.
  assert (find (fun o' => name_matches (dirent_at (put_entry l o inum name) o') name') offs =
    find (fun o' => name_matches (dirent_at l o') name') offs) as ->.
  { apply find_same. intros y Hy. rewrite put_entry_at by done. case_decide as E; [|done]. subst y.
    rewrite !name_matches_spec by (done || by apply strncpy_bytes_bytes || by apply dirent_name_bytes). cbn [de_name].
    rewrite !bool_decide_eq_false_2; [done|tauto|]. rewrite dkey_idem. tauto. }
  destruct (find _ offs) as [y|] eqn:E; [|done]. cbn [fmap option_fmap option_map]. f_equal. destruct (find_in _ _ _ E) as [Hy Hm].
  rewrite put_entry_at by done. case_decide as E'; [|done]. subst y.
  rewrite name_matches_spec in Hm by (done || by apply dirent_name_bytes). apply bool_decide_eq_true in Hm. tauto.
Qed.
(** Clearing the entry that was just put gives the lookups of the original block. *)
Lemma lookup_clear_put l o inum name name' : Z.of_nat (length l) = BLOCK_SIZE -> dir_wf l -> 0 <= inum < 2 ^ 16 -> o ∈ offs ->
  is_bytes name -> is_bytes name' -> name0 (dirent_at l o) = 0 ->
  lookup_name (clear_entry (put_entry l o inum name) o) name' = lookup_name l name'.
Proof.
  intros Hl [Hw _] Hi Ho Hn Hn' H0. unfold lookup_name. destruct (offs_bound o Ho) as [Ho1 Ho2].
  assert (Z.of_nat (length (put_entry l o inum name)) = BLOCK_SIZE) as Hpl.
  { destruct (dec_enc_dirent inum (dkey name) Hi) as (He & _); [unfold dkey; by rewrite strncpy_bytes_len|].
    unfold put_entry. rewrite blit_len; [done|lia|lia]. }
  assert (forall y, y ∈ offs -> dirent_at (clear_entry (put_entry l o inum name) o) y =
    if decide (y = o) then mkDirent 0 (replicate (Z.to_nat DIR_NAME_LEN) 0) else dirent_at l y) as Hat.
  { intros y Hy. rewrite clear_entry_at by done. case_decide; [done|]. rewrite put_entry_at by done. by rewrite decide_False. }
  assert (find (fun o' => name_matches (dirent_at (clear_entry (put_entry l o inum name) o) o') name') offs =
    find (fun o' => name_matches (dirent_at l o') name') offs) as ->.
  { apply find_same. intros y Hy. rewrite Hat by done. case_decide as E; [|done]. subst y.
    unfold name_matches at 2. by rewrite H0. }
  destruct (find _ offs) as [y|] eqn:E; [|done]. cbn [fmap option_fmap option_map]. f_equal. destruct (find_in _ _ _ E) as [Hy Hm].
  rewrite Hat by done. case_decide as E'; [|done]. subst y. unfold name_matches in Hm. by rewrite H0 in Hm.
Qed.
End dirspec.

(** ** Path elements *)

Lemma skip_slashes_spec p : exists n, p = replicate n SLASH ++ skip_slashes p /\ head (skip_slashes p) <> Some SLASH.
Proof.
  induction p as [|c p IH]; [by exists O|]. cbn. destruct (Z.eqb_spec c SLASH) as [->|Hne].
  - destruct IH as (n & Hp & Hh). exists (S n). cbn. by rewrite <- Hp.
  - exists O. split; [done|]. cbn. congruence.
Qed.
Lemma split_element_spec p : (forall c, c ∈ p -> c <> 0) ->
  p = fst (split_element p) ++ snd (split_element p) /\ (forall c, c ∈ fst (split_element p) -> c <> SLASH) /\
  (snd (split_element p) = [] \/ head (snd (split_element p)) = Some SLASH).
Proof.
  induction p as [|c p IH]; intros Hz.
  { split_and!; [done|intros c Hc; by apply not_elem_of_nil in Hc|by left]. }
  cbn. destruct (Z.eqb_spec c SLASH) as [->|Hne]; cbn.
  { split_and!; [done|intros c Hc; by apply not_elem_of_nil in Hc|by right]. }
  destruct (Z.eqb_spec c 0) as [->|Hc0]; cbn; [exfalso; by apply (Hz 0 (list_elem_of_here _ _))|].
  destruct (split_element p) as [e r] eqn:E. cbn in *.
  destruct IH as (Hp & He & Hr); [intros x Hx; by apply Hz, list_elem_of_further|].
  split_and!; [by rewrite Hp| |done]. intros x Hx. apply elem_of_cons in Hx as [->|?]; [done|by apply He].
Qed.

(** ** Properties *)

(** skip_element splits a path the way its comment says: the null pointer for a
    path of slashes only; otherwise the path is slashes, the first element [e]
    (non-empty, without slash), slashes, and the rest that is returned, which does
    not start with a slash; the name array holds [e] with its terminator when [e]
    has fewer than 30 characters, and its first 30 characters without one when
    it has more. *)
Theorem skip_element_spec path name : (forall c, c ∈ path -> c <> 0) -> length name = Z.to_nat DIR_NAME_LEN ->
  match skip_element path name with
  | None => exists n, path = replicate n SLASH
  | Some (rest, name') =>
      exists n e m, path = replicate n SLASH ++ e ++ replicate m SLASH ++ rest /\ e <> [] /\ (forall c, c ∈ e -> c <> SLASH) /\
        head rest <> Some SLASH /\ (m = O -> rest = []) /\ length name' = Z.to_nat DIR_NAME_LEN /\
        (Z.of_nat (length e) < DIR_NAME_LEN -> take (S (length e)) name' = e ++ [0]) /\
        (DIR_NAME_LEN <= Z.of_nat (length e) -> name' = take (Z.to_nat DIR_NAME_LEN) e)
  end.
Proof.
  intros Hz Hlen. unfold skip_element. destruct (skip_slashes_spec path) as (n & Hp & Hh).
  destruct (skip_slashes path) as [|c p] eqn:Es; [exists n; by rewrite Hp, app_nil_r|].
  destruct (split_element_spec (c :: p)) as (Hcp & He & Hr).
  { intros x Hx. apply Hz. rewrite Hp. apply elem_of_app. by right. }
  destruct (split_element (c :: p)) as [e r] eqn:Esp. cbn [fst snd] in *.
  destruct (skip_slashes_spec r) as (m & Hrm & Hhr).
  assert (e <> []) as Hne by (intros ->; cbn in Hcp; rewrite <- Hcp in Hr; destruct Hr; [done|by cbn in *]).
  exists n, e, m. split_and!; try done.
  - by rewrite <- Hrm, <- Hcp.
  - intros ->. cbn in Hrm. rewrite <- Hrm in *. destruct Hr as [->|Hr]; [done|by destruct Hhr].
  - unfold DIR_NAME_LEN in *. bcase (30 <=? Z.of_nat (length e)).
    + rewrite blit_len; [done|lia|]. rewrite length_take. lia.
    + rewrite length_insert, blit_len; [done|lia|lia].
  - intros Hlt. bcase (DIR_NAME_LEN <=? Z.of_nat (length e)); [lia|]. unfold blit. change (Z.to_nat 0) with O. rewrite take_0, app_nil_l, Nat.add_0_l.
    unfold DIR_NAME_LEN in *. rewrite insert_app_r_alt by lia. rewrite Nat.sub_diag.
    rewrite take_app, (take_ge e) by lia. f_equal. replace (S (length e) - length e)%nat with 1%nat by lia.
    destruct (drop (length e) name) as [|x r'] eqn:Ed; [|done].
    apply (f_equal length) in Ed. rewrite length_drop in Ed. cbn in Ed. lia.
  - intros Hge. bcase (DIR_NAME_LEN <=? Z.of_nat (length e)); [|lia]. unfold blit.
    change (Z.to_nat 0) with O. rewrite take_0, app_nil_l, Nat.add_0_l, length_take, drop_ge by lia. by rewrite app_nil_r.
Qed.
Lemma skip_element_spec_witness :
  skip_element [47; 47; 97; 98; 47; 47; 99] (replicate 30 0) = Some ([99], [97; 98] ++ replicate 28 0) /\
  exists n e m, [47; 47; 97; 98; 47; 47; 99] = replicate n SLASH ++ e ++ replicate m SLASH ++ [99] /\ e <> [].
Proof.
  pose proof (skip_element_spec [47; 47; 97; 98; 47; 47; 99] (replicate 30 0)) as H.
  change (skip_element [47; 47; 97; 98; 47; 47; 99] (replicate 30 0)) with (Some ([99], [97; 98] ++ replicate 28 0)) in H.
  split; [reflexivity|]. destruct H as (n & e & m & H1 & H2 & _).
  - intros c Hc. rewrite !elem_of_cons, elem_of_nil in Hc. lia.
  - reflexivity.
  - exists n, e, m. split; [exact H1|exact H2].
Defined.

(** C4 a directory behaves as a map from names to inode numbers.  Adding a name
    that is not there to a directory with a free entry makes dir_search_entry find
    it with its inode number and changes no other lookup; dir_delete_entry returns
    the number and gives every lookup of the original directory back, so the name
    is not found any more. *)
Theorem dir_add_search_delete {D : Type} {HD : BlockDev D} sl_fuel pip inum name (s : istate D) o :
  (0 < sl_fuel)%nat -> dir_ready pip s -> 0 <= inum < INODE_NUM_UNUSED -> is_bytes name -> rd name 0 <> 0 ->
  lookup_name (dir_data pip s) name = None -> free_entry_at (dir_data pip s) = Some o ->
  exists s1 s2 s3 s4, dir_add_entry sl_fuel pip inum name s = Ret o s1 /\ dir_search_entry sl_fuel pip name s1 = Ret inum s2 /\
    dir_delete_entry sl_fuel pip name s2 = Ret inum s3 /\ dir_search_entry sl_fuel pip name s3 = Ret INODE_NUM_UNUSED s4 /\
    (forall name', is_bytes name' -> dkey name <> dkey name' ->
       lookup_name (dir_data pip s1) name' = lookup_name (dir_data pip s) name') /\
    (forall name', is_bytes name' -> lookup_name (dir_data pip s4) name' = lookup_name (dir_data pip s) name').
Proof.
  intros Hf R Hi Hn H0 Hnone Hfree. set (l := dir_data pip s) in *.
  assert (Z.of_nat (length l) = BLOCK_SIZE) as Hll by apply blk_len. destruct (find_in _ _ _ Hfree) as [Ho Hfr].
  assert (0 <= inum < 2 ^ 16) as Hi' by (unfold INODE_NUM_UNUSED in *; lia).
  assert (name0 (dirent_at l o) = 0) as Hz.
  { apply orb_true_iff in Hfr as [Hfr|Hfr]; apply Z.eqb_eq in Hfr; [done|]. by apply (dr_wf _ _ R). }
  pose proof (dir_add_run sl_fuel pip inum name s Hf R Hi Hn) as Hadd. cbn zeta in Hadd. fold l in Hadd. rewrite Hnone, Hfree in Hadd.
  destruct (Hadd eq_refl) as (s1 & Ha & R1 & Hb1 & Hd1 & _).
  destruct (dir_search_run sl_fuel pip name s1 Hf R1) as (b2 & Hs & R2 & Hdk2 & _).
  assert (dir_data pip (set_ib b2 s1) = dir_data pip s1) as Hd2 by (unfold dir_data; cbn; by rewrite Hdk2).
  pose proof (lookup_put_eq l o inum name Hll (dr_wf _ _ R) Hi' Ho Hn H0 Hnone) as Hput.
  pose proof (dir_delete_run sl_fuel pip name (set_ib b2 s1) Hf R2) as Hdel. cbn zeta in Hdel. rewrite Hd2, Hd1 in Hdel.
  unfold lookup_name in Hput. destruct (find (fun o0 => name_matches (dirent_at (put_entry l o inum name) o0) name) offs) as [o'|] eqn:Ef; [|done].
  cbn in Hput. injection Hput as Hput. assert (o' = o) as ->.
  { assert (find (fun o0 => name_matches (dirent_at (put_entry l o inum name) o0) name) offs = Some o) as E; [|congruence].
    apply (find_new (fun o => name_matches (dirent_at l o) name)); try done.
    - unfold lookup_name in Hnone. by destruct (find _ offs).
    - rewrite put_entry_at by done. rewrite decide_True by done.
      rewrite name_matches_spec by (done || by apply strncpy_bytes_bytes). apply bool_decide_eq_true_2. cbn [de_name].
      split; [|apply dkey_idem]. unfold name0. cbn [de_name]. by rewrite dkey_first.
    - intros y Hy Hne. rewrite put_entry_at by done. by rewrite decide_False. }
  destruct Hdel as (b3 & Hdrun & R3 & Hd3). set (s3 := set_ib b3 (set_ib b2 s1)) in *.
  destruct (dir_search_run sl_fuel pip name s3 Hf R3) as (b4 & Hs4 & R4 & Hdk4 & _).
  assert (dir_data pip (set_ib b4 s3) = dir_data pip s3) as Hd4 by (unfold dir_data; cbn; by rewrite Hdk4).
  assert (forall name', is_bytes name' -> lookup_name (dir_data pip s3) name' = lookup_name l name') as Hback.
  { intros name' Hn'. rewrite Hd3. by apply lookup_clear_put; [|apply R|..]. }
  exists s1, (set_ib b2 s1), s3, (set_ib b4 s3). split_and!; try done.
  - rewrite Hs, Hd1. f_equal. unfold lookup_name. rewrite Ef. cbn. exact Hput.
  - rewrite Hdrun. f_equal. exact Hput.
  - rewrite Hs4, Hback, Hnone by done. done.
  - intros name' Hn' Hk. rewrite Hd1. by apply lookup_put_ne; [|apply R|..].
  - intros name' Hn'. rewrite Hd4. by apply Hback.
Qed.
(** A mounted disk whose directory block 131 is empty, its inode in slot 0. *)
Definition new_dir : inode :=
  mkInode (mkDinode FT_DIR 0 0 1 0 (131 :: replicate 12 0)) 0 1 true (mkSleep true (spinlock_init "sleeplock") "inode" (-1)).
Definition one_dir (b : bstate block_map) : istate block_map := mkI b std_sb [new_dir] (spinlock_init "icache").
Lemma one_dir_ready b : binv [] b -> bk b = calm -> disk b = ∅ -> dir_ready 0 (one_dir b).
Proof.
  intros B Hb Hd. split.
  - done.
  - split; [cbn; lia| |vm_compute; by split|cbn; lia]. split_and!; [done|done|]. cbn. by rewrite Hb.
  - done.
  - vm_compute. discriminate.
  - vm_compute. discriminate.
  - split; cbn; unfold FT_DIR; try lia; [reflexivity|]. apply Forall_cons. split; [lia|]. apply (Forall_replicate _ 12). lia.
  - unfold dir_data. change (ib (one_dir b)) with b. rewrite Hd. change (blk_get ∅ (dblock 0 (one_dir b))) with (replicate 1024 0). split.
    + apply Forall_replicate. lia.
    + intros o Ho. destruct (offs_bound o Ho) as [H1 H2]. unfold dirent_at. cbn [de_inum]. unfold dec16, sizeof_dirent, BLOCK_SIZE in *.
      rewrite !list_lookup_total_alt, !lookup_replicate_2 by lia. done.
Qed.
Lemma dir_add_search_delete_witness :
  exists b s1 s2 s3 s4, buf_init power_on = Ret tt b /\ dir_add_entry 1 0 7 [97] (one_dir b) = Ret 0 s1 /\
    dir_search_entry 1 0 [97] s1 = Ret 7 s2 /\ dir_delete_entry 1 0 [97] s2 = Ret 7 s3 /\
    dir_search_entry 1 0 [97] s3 = Ret INODE_NUM_UNUSED s4.
Proof.
  destruct (buf_init_run power_on power_on_fresh calm_quiet) as (b & H1 & B & Hk & Hd & _).
  assert (dir_data 0 (one_dir b) = replicate 1024 0) as Hdata.
  { unfold dir_data. change (ib (one_dir b)) with b. rewrite Hd. reflexivity. }
  destruct (dir_add_search_delete 1 0 7 [97] (one_dir b) 0) as (s1 & s2 & s3 & s4 & R1 & R2 & R3 & R4 & _).
  - lia.
  - apply one_dir_ready; [exists (seq 0 N_BUF); exact B|exact Hk|exact Hd].
  - unfold INODE_NUM_UNUSED. lia.
  - apply Forall_cons. split; [lia|]. apply Forall_nil_2.
  - vm_compute. discriminate.
  - rewrite Hdata. vm_compute. reflexivity.
  - rewrite Hdata. vm_compute. reflexivity.
  - exists b, s1, s2, s3, s4. split; [exact H1|]. split; [exact R1|]. split; [exact R2|]. split; [exact R3|exact R4].
Defined.

(** C34 dir_add_entry refuses by returning BLOCK_SIZE, the directory unchanged,
    exactly when the name is already there or no entry is free; otherwise it
    returns the offset of the first free entry and the directory's size covers
    this entry. *)
Theorem dir_add_cases {D : Type} {HD : BlockDev D} sl_fuel pip inum name (s : istate D) :
  (0 < sl_fuel)%nat -> dir_ready pip s -> 0 <= inum < INODE_NUM_UNUSED -> is_bytes name ->
  let l := dir_data pip s in
  let found := default INODE_NUM_UNUSED (lookup_name l name) in
  exists r s', dir_add_entry sl_fuel pip inum name s = Ret r s' /\ dir_ready pip s' /\
    match (if found =? INODE_NUM_UNUSED then free_entry_at l else None) with
    | None => r = BLOCK_SIZE /\ dir_data pip s' = l
    | Some o => r = o /\ 0 <= o < BLOCK_SIZE /\ dir_data pip s' = put_entry l o inum name /\
        o + sizeof_dirent <= isize (idisk (inode_at s' pip))
    end.
Proof.
  intros Hf R Hi Hn l found. destruct (Z.eqb_spec found INODE_NUM_UNUSED) as [E|E].
  - pose proof (dir_add_run sl_fuel pip inum name s Hf R Hi Hn E) as Hadd. cbn zeta in Hadd. fold l in Hadd.
    destruct (free_entry_at l) as [o|] eqn:Ef.
    + destruct Hadd as (s1 & Ha & R1 & _ & Hd & Hsz). exists o, s1. destruct (find_in _ _ _ Ef) as [Ho _]. destruct (offs_bound o Ho).
      unfold sizeof_dirent in *. split_and!; try done; lia.
    + destruct Hadd as (b1 & Ha & R1 & Hd). eexists _, _. split; [done|]. split_and!; [done|done|]. unfold dir_data. cbn. by rewrite Hd.
  - destruct (dir_search_run sl_fuel pip name s Hf R) as (b0 & Hs & R0 & Hd0 & _). fold l found in Hs.
    exists BLOCK_SIZE, (set_ib b0 s). split_and!; [|done|done|unfold dir_data; cbn; by rewrite Hd0].
    unfold dir_add_entry. mrun (dir_guard_run pip "dir_add_entry" s R). mrun Hs. by rewrite (proj2 (Z.eqb_neq _ _) E).
Qed.
Lemma dir_add_cases_witness :
  exists b r s', buf_init power_on = Ret tt b /\ dir_add_entry 1 0 7 [97] (one_dir b) = Ret r s' /\ r = 0.
Proof.
  destruct (buf_init_run power_on power_on_fresh calm_quiet) as (b & H1 & B & Hk & Hd & _).
  assert (dir_data 0 (one_dir b) = replicate 1024 0) as Hdata.
  { unfold dir_data. change (ib (one_dir b)) with b. rewrite Hd. reflexivity. }
  destruct (dir_add_cases 1 0 7 [97] (one_dir b)) as (r & s' & Hrun & _ & Hc).
  - lia.
  - apply one_dir_ready; [exists (seq 0 N_BUF); exact B|exact Hk|exact Hd].
  - unfold INODE_NUM_UNUSED. lia.
  - apply Forall_cons. split; [lia|]. apply Forall_nil_2.
  - exists b, r, s'. split; [exact H1|]. split; [exact Hrun|]. rewrite Hdata in Hc.
    replace (if _ =? INODE_NUM_UNUSED then _ else None) with (Some 0) in Hc by (vm_compute; reflexivity). exact (proj1 Hc).
Defined.
