(* ===== verification/PathSpec.v ===== *)
(** * Path names resolved through the directories of the disk

    search_inode() and its callers path_to_inode() and path_to_pinode(): the inode
    they return is the one reached by looking up the elements of the path one after
    the other in the directories on the disk, and apart from the reference to it
    the inode cache counts what it counted before. *)

From S2P Require Import Prelude Machine Str Lock Pmem Kvm KvmSpec Mmap Uvm Proc ProcSpec SleepSpec Buf BufSpec Bitmap BitmapSpec Inode InodeSpec Dir DirSpec.

(** ** References held in the inode cache *)

(** The number and the reference count of each slot. *)
Definition counts (l : list inode) : list (Z * Z) := (fun x => (inode_num x, iref x)) <$> l.
(** References to inode [n]; slots in use. *)
Fixpoint refs (l : list (Z * Z)) (n : Z) : Z :=
  match l with [] => 0 | x :: l => (if x.1 =? n then x.2 else 0) + refs l n end.
Fixpoint in_use (l : list (Z * Z)) : Z :=
  match l with [] => 0 | x :: l => (if x.2 =? 0 then 0 else 1) + in_use l end.

Lemma refs_insert l i x y n : l !! i = Some x ->
  refs (<[i := y]> l) n = refs l n - (if x.1 =? n then x.2 else 0) + (if y.1 =? n then y.2 else 0).
Proof.
  revert i. induction l as [|z l IH]; intros [|i] H; try done; cbn in *.
  - injection H as ->. lia.
  - rewrite IH by done. lia.
Qed.
Lemma in_use_insert l i x y : l !! i = Some x ->
  in_use (<[i := y]> l) = in_use l - (if x.2 =? 0 then 0 else 1) + (if y.2 =? 0 then 0 else 1).
Proof.
  revert i. induction l as [|z l IH]; intros [|i] H; try done; cbn in *.
  - injection H as ->. lia.
  - rewrite IH by done. lia.
Qed.
(** Counts that are not negative, each number counted in one slot. *)
Definition counts_ok (l : list (Z * Z)) : Prop :=
  (forall i x, l !! i = Some x -> 0 <= x.2) /\
  (forall i j x y, l !! i = Some x -> l !! j = Some y -> 0 < x.2 -> 0 < y.2 -> x.1 = y.1 -> i = j).
Lemma refs_zero l n : (forall i x, l !! i = Some x -> 0 < x.2 -> x.1 <> n) -> (forall i x, l !! i = Some x -> 0 <= x.2) -> refs l n = 0.
Proof.
  induction l as [|x l IH]; intros H H0; [done|]. cbn. rewrite IH; [|intros i y Hy; by apply (H (S i))|intros i y Hy; by apply (H0 (S i))].
  bcase (x.1 =? n); [|done]. pose proof (H0 O x eq_refl). destruct (decide (0 < x.2)) as [Hp|]; [|lia]. by destruct (H O x eq_refl Hp).
Qed.
Lemma refs_slot l i x : counts_ok l -> l !! i = Some x -> 0 < x.2 -> refs l x.1 = x.2.
Proof.
  intros [Hn Hu] Hi Hp. assert (refs (<[i := (x.1, 0)]> l) x.1 = 0) as H.
  { apply refs_zero; intros j y Hj.
    - destruct (decide (j = i)) as [->|Hne].
      + rewrite list_lookup_insert_eq in Hj by (by eapply lookup_lt_Some). injection Hj as <-. cbn. lia.
      + rewrite list_lookup_insert_ne in Hj by done. intros Hy E. apply Hne. by eapply Hu.
    - destruct (decide (j = i)) as [->|Hne].
      + rewrite list_lookup_insert_eq in Hj by (by eapply lookup_lt_Some). injection Hj as <-. done.
      + rewrite list_lookup_insert_ne in Hj by done. by apply (Hn j). }
  rewrite (refs_insert _ _ _ _ _ Hi) in H. cbn in H. rewrite Z.eqb_refl in H. lia.
Qed.
Lemma refs_pos l n : counts_ok l -> 0 < refs l n -> exists i x, l !! i = Some x /\ 0 < x.2 /\ x.1 = n.
Proof.
  intros [Hn _] Hp. destruct (decide (Exists (fun x => 0 < x.2 /\ x.1 = n) l)) as [He|He].
  - apply Exists_exists in He as (x & Hx & H1 & H2). apply list_elem_of_lookup in Hx as [i Hi]. by exists i, x.
  - rewrite refs_zero in Hp; [lia| |exact Hn]. intros i x Hi H1 H2. apply He, Exists_exists. exists x. split; [by eapply list_elem_of_lookup_2|done].
Qed.
Lemma counts_insert l i x y : counts_ok l -> l !! i = Some x -> 0 <= y.2 ->
  (0 < y.2 -> y.1 = x.1 /\ 0 < x.2 \/ refs l y.1 = 0) -> counts_ok (<[i := y]> l).
Proof.
  intros C Hi Hy Hn. pose proof C as [C1 C2]. assert (i < length l)%nat as Hlt by (by eapply lookup_lt_Some).
  assert (forall j z, <[i := y]> l !! j = Some z -> z = y /\ j = i \/ l !! j = Some z /\ j <> i) as Hl.
  { intros j z. destruct (decide (j = i)) as [->|Hne]; [rewrite list_lookup_insert_eq by done; intros [= <-]; by left|].
    rewrite list_lookup_insert_ne by done. by right. }
  assert (forall j z, l !! j = Some z -> j <> i -> 0 < z.2 -> 0 < y.2 -> z.1 = y.1 -> False) as Hno.
  { intros j z Hj Hne Hz Hyp E. destruct (Hn Hyp) as [[E1 Hx]|E0]; [apply Hne; apply (C2 j i z x); try done; congruence|].
    pose proof (refs_slot l j z C Hj Hz) as Hr. rewrite E in Hr. lia. }
  split.
  - intros j z Hj. destruct (Hl j z Hj) as [[-> _]|[Hj' _]]; [done|by apply (C1 j)].
  - intros j j' z z' Hj Hj' Hz Hz' E. destruct (Hl j z Hj) as [[-> ->]|[H1 H2]], (Hl j' z' Hj') as [[-> ->]|[H1' H2']]; [done| | |].
    + exfalso. by apply (Hno j' z').
    + exfalso. by apply (Hno j z).
    + by apply (C2 j j' z z').
Qed.
Lemma free_slot l : (forall i x, l !! i = Some x -> 0 <= x.2) -> in_use l < Z.of_nat (length l) -> exists i x, l !! i = Some x /\ x.2 = 0.
Proof.
  induction l as [|x l IH]; intros H Hu; cbn in *; [lia|]. bcase (x.2 =? 0); [by exists O, x|].
  destruct IH as (i & y & Hi & Hy); [intros i y Hy; by apply (H (S i))|lia|]. by exists (S i), y.
Qed.

(** ** The elements of a path *)

(** A path cut at its slashes; the elements are the pieces that are not empty. *)
Fixpoint pieces (path : list Z) : list (list Z) :=
  match path with
  | [] => [[]]
  | c :: path =>
      if c =? SLASH then [] :: pieces path
      else match pieces path with w :: ws => (c :: w) :: ws | [] => [[c]] end
  end.
Definition elements (path : list Z) : list (list Z) := filter (fun w => w <> []) (pieces path).

Lemma elements_slash n path : elements (replicate n SLASH ++ path) = elements path.
Proof. induction n as [|n IH]; [done|]. unfold elements in *. cbn [replicate app pieces]. rewrite Z.eqb_refl. by rewrite filter_cons_False by auto. Qed.
Lemma elements_app e path : e <> [] -> (forall c, c ∈ e -> c <> SLASH) -> (path = [] \/ head path = Some SLASH) ->
  elements (e ++ path) = e :: elements path.
Proof.
  intros He Hs Hp. assert (exists ws, pieces path = [] :: ws) as [ws Hw].
  { destruct Hp as [->|Hp]; [by exists []|]. destruct path as [|c path]; [done|]. injection Hp as ->. by exists (pieces path). }
  assert (pieces (e ++ path) = e :: ws) as H.
  { clear He. induction e as [|c e IH]; [done|]. cbn [app pieces]. bcase (c =? SLASH); [exfalso; apply (Hs c); [left|done]|].
    rewrite IH; [done|]. intros x Hx. apply Hs. by right. }
  unfold elements. rewrite H, Hw, filter_cons_True by done. by rewrite filter_cons_False by auto.
Qed.
Lemma key_ends n e r : (forall c, c ∈ e -> c <> 0) -> strncpy_bytes n (e ++ 0 :: r) = strncpy_bytes n e.
Proof.
  revert n. induction e as [|c e IH]; intros [|n] H; try done. cbn [app strncpy_bytes].
  bcase (c =? 0); [done|]. f_equal. apply IH. intros x Hx. apply H. by right.
Qed.
Lemma key_take n e : strncpy_bytes n (take n e) = strncpy_bytes n e.
Proof. revert e. induction n as [|n IH]; intros [|c e]; try done. cbn [take strncpy_bytes]. by rewrite IH. Qed.
(** What skip_element() takes off a path is its first element. *)
Lemma skip_elements path name : (forall c, c ∈ path -> c <> 0) -> length name = Z.to_nat DIR_NAME_LEN ->
  match skip_element path name with
  | None => elements path = []
  | Some (rest, name') => exists e, elements path = e :: elements rest /\ dkey name' = dkey e /\ (forall c, c ∈ e -> c ∈ path) /\
      (rest = [] <-> elements rest = []) /\ length name' = Z.to_nat DIR_NAME_LEN /\ (forall c, c ∈ rest -> c ∈ path) /\ (length rest < length path)%nat
  end.
Proof.
  intros Hz Hl. pose proof (skip_element_spec path name Hz Hl) as H. destruct (skip_element path name) as [[rest name']|].
  2:{ destruct H as [n ->]. rewrite <- (app_nil_r (replicate n SLASH)), elements_slash. done. }
  destruct H as (n & e & m & -> & He & Hs & Hh & Hm & Hl' & Hshort & Hlong). exists e.
  assert (forall c, c ∈ e -> c <> 0) as He0 by (intros c Hc; apply Hz; rewrite !elem_of_app; tauto).
  assert (elements (replicate m SLASH ++ rest) = elements rest) as Er by apply elements_slash. split_and!.
  - rewrite elements_slash, elements_app, Er; [done|done|done|]. destruct m; [left; by rewrite Hm|by right].
  - unfold dkey. destruct (decide (Z.of_nat (length e) < DIR_NAME_LEN)) as [Hlt|Hge].
    + specialize (Hshort Hlt). rewrite <- (take_drop (S (length e)) name'), Hshort, <- app_assoc. by apply key_ends.
    + rewrite Hlong by lia. apply key_take.
  - intros c Hc. rewrite !elem_of_app. tauto.
  - split; [by intros ->|]. destruct rest as [|c rest]; [done|]. unfold elements. cbn [pieces].
    assert (c <> SLASH) as Hc by (intros ->; done). bcase (c =? SLASH); [done|]. destruct (pieces rest); rewrite filter_cons_True by done; done.
  - done.
  - intros c Hc. rewrite !elem_of_app. tauto.
  - rewrite !length_app. destruct e; [done|]. cbn. lia.
Qed.
Lemma skip_bytes path name rest name' : is_bytes path -> is_bytes name -> skip_element path name = Some (rest, name') -> is_bytes name'.
Proof.
  intros Hp Hn. unfold skip_element. assert (forall p, is_bytes p -> is_bytes (skip_slashes p)) as Hs.
  { induction p as [|c p IH]; [done|]. intros H. cbn. destruct (c =? SLASH); [|done]. apply IH. by apply Forall_cons in H as [_ ?]. }
  assert (forall p, is_bytes p -> is_bytes (fst (split_element p))) as He.
  { induction p as [|c p IH]; [done|]. intros [Hc H]%Forall_cons. cbn. destruct (_ || _); [by apply Forall_nil|].
    specialize (IH H). destruct (split_element p). cbn in *. by apply Forall_cons. }
  specialize (Hs path Hp). destruct (skip_slashes path) as [|c p]; [done|]. specialize (He (c :: p) Hs). destruct (split_element (c :: p)) as [e r]. cbn in He.
  intros [= _ <-]. bcase (DIR_NAME_LEN <=? Z.of_nat (length e)); [apply blit_bytes; [done|by apply Forall_take]|].
  apply Forall_insert; [by apply blit_bytes|lia].
Qed.

Section path.
Context {D : Type} {HD : BlockDev D}.
Notation ic s := (counts (icache s)).
Definition n_inodes (sb : super_block) : Z := inode_blocks sb * INODE_PER_BLOCK.

(** The inode cache between two operations: only slot [h] is locked, by the running
    process, and a valid slot in use holds what the disk holds. *)
Record cache_ok (h : option nat) (s : istate D) : Prop := {
  co_binv : binv [] (ib s);
  co_lk : lk_free (lk_icache s);
  co_sb : 0 <= inode_start (isb s) < 2 ^ 31 /\ inode_blocks (isb s) <= 2 ^ 12;
  co_lock : forall i, (i < length (icache s))%nat ->
    if decide (h = Some i) then sl_held (me_pid (bk (ib s))) (islk (inode_at s i)) else sl_free (islk (inode_at s i));
  co_counts : counts_ok (ic s);
  co_slot : forall i, (i < length (icache s))%nat -> 0 < iref (inode_at s i) -> 0 <= inode_num (inode_at s i) < n_inodes (isb s) /\
    (valid (inode_at s i) = true -> idisk (inode_at s i) = dinode_on (isb s) (disk (ib s)) (inode_num (inode_at s i)));
}.
(** What no operation on the cache changes. *)
Record kept (s s' : istate D) : Prop := {
  kp_k : bk (ib s') = bk (ib s);
  kp_disk : disk (ib s') = disk (ib s);
  kp_sb : isb s' = isb s;
  kp_len : length (icache s') = length (icache s);
}.
Lemma icache_kept_trans s1 s2 s3 : kept s1 s2 -> kept s2 s3 -> kept s1 s3.
Proof. intros [] []. split; congruence. Qed.

Lemma counts_at (s : istate D) i : (i < length (icache s))%nat -> ic s !! i = Some (inode_num (inode_at s i), iref (inode_at s i)).
Proof. intros Hi. unfold counts, inode_at. rewrite list_lookup_fmap. by destruct (lookup_lt_is_Some_2 _ _ Hi) as [x ->]. Qed.
Lemma at_lookup (s : istate D) i : (i < length (icache s))%nat -> icache s !! i = Some (inode_at s i).
Proof. intros Hi. unfold inode_at. by destruct (lookup_lt_is_Some_2 _ _ Hi) as [x ->]. Qed.
Lemma counts_lt (s : istate D) i x : ic s !! i = Some x -> (i < length (icache s))%nat /\ x = (inode_num (inode_at s i), iref (inode_at s i)).
Proof.
  intros H. assert (i < length (icache s))%nat as Hi by (apply lookup_lt_Some in H; unfold counts in H; by rewrite length_fmap in H).
  rewrite counts_at in H by done. by injection H as <-.
Qed.
Lemma counts_upd (s : istate D) i f : (i < length (icache s))%nat ->
  ic (upd_inode i f s) = <[i := (inode_num (f (inode_at s i)), iref (f (inode_at s i)))]> (ic s).
Proof.
  intros Hi. apply list_eq. intros j. unfold counts at 1. cbn [icache upd_inode]. rewrite list_lookup_fmap.
  destruct (decide (i = j)) as [<-|Hne].
  - rewrite list_lookup_alter_eq, list_lookup_insert_eq by (unfold counts; by rewrite length_fmap).
    unfold inode_at. by destruct (lookup_lt_is_Some_2 _ _ Hi) as [x ->].
  - rewrite list_lookup_alter_ne, list_lookup_insert_ne by done. unfold counts. by rewrite list_lookup_fmap.
Qed.
Lemma counts_same (s : istate D) i f : (forall x, inode_num (f x) = inode_num x /\ iref (f x) = iref x) -> ic (upd_inode i f s) = ic s.
Proof.
  intros H. apply list_eq. intros j. unfold counts. cbn [icache upd_inode]. rewrite !list_lookup_fmap. destruct (decide (i = j)) as [<-|Hne].
  - rewrite list_lookup_alter_eq. destruct (icache s !! i) as [x|]; [|done]. cbn. by destruct (H x) as [-> ->].
  - by rewrite list_lookup_alter_ne.
Qed.

(** The lock of the cache around a change of one slot. *)
Definition i_locked (s : istate D) : istate D :=
  mkI (lset b_k (set_kcpu (pushed (kcpu (bk (ib s)))) (bk (ib s))) (ib s)) (isb s) (icache s) (lk_held (kcpu (bk (ib s))) (lk_icache s)).
Lemma i_acquire (s : istate D) : lk_free (lk_icache s) -> zoom i_lk spinlock_acquire s = Ret tt (i_locked s).
Proof. intros H. erewrite zoom_run; [|by apply spinlock_acquire_run]. done. Qed.
Lemma i_release (s : istate D) : lk_free (lk_icache s) -> quiet (bk (ib s)) -> zoom i_lk spinlock_release (i_locked s) = Ret tt s.
Proof.
  intros H Q. erewrite zoom_run; [|apply spinlock_release_run; [apply Q|done]].
  rewrite (q_sync _ Q). f_equal. destruct s as [[k c lb d] sb l lk]. cbn. do 2 f_equal. apply (set_kcpu_id k).
Qed.
Lemma inode_at_locked s i : inode_at (i_locked s) i = inode_at s i.
Proof. done. Qed.

(** One slot changed in its counts: the invariant is kept when the new counts are in
    order and a slot in use stands for an inode of the disk. *)
Lemma upd_ok h s i f : cache_ok h s -> (i < length (icache s))%nat -> (forall x, islk (f x) = islk x) ->
  counts_ok (ic (upd_inode i f s)) ->
  (0 < iref (f (inode_at s i)) -> 0 <= inode_num (f (inode_at s i)) < n_inodes (isb s) /\
     (valid (f (inode_at s i)) = true -> idisk (f (inode_at s i)) = dinode_on (isb s) (disk (ib s)) (inode_num (f (inode_at s i))))) ->
  cache_ok h (upd_inode i f s) /\ kept s (upd_inode i f s).
Proof.
  intros [C1 C2 C3 C4 C5 C6] Hi Hl Hc Hs. split; [|split; try done; cbn; by rewrite length_alter]. split; try done.
  - intros j Hj. cbn in Hj. rewrite length_alter in Hj. specialize (C4 j Hj). rewrite inode_at_upd by done.
    change (bk (ib (upd_inode i f s))) with (bk (ib s)). destruct (decide (i = j)) as [->|]; [by rewrite Hl|done].
  - intros j Hj. cbn in Hj. rewrite length_alter in Hj. rewrite inode_at_upd by done.
    change (isb (upd_inode i f s)) with (isb s). change (ib (upd_inode i f s)) with (ib s). destruct (decide (i = j)) as [<-|]; [exact Hs|by apply C6].
Qed.

(** ** The operations on references *)

Lemma icache_search_spec (l : list inode) : forall i num e,
  match icache_search l i num e with
  | inl j => exists k x, j = (i + k)%nat /\ l !! k = Some x /\ 0 < iref x /\ inode_num x = num
  | inr r => (forall k x, l !! k = Some x -> 0 < iref x -> inode_num x <> num) /\
      match r with
      | Some j => e = Some j \/ e = None /\ exists k x, j = (i + k)%nat /\ l !! k = Some x /\ iref x = 0
      | None => e = None /\ forall k x, l !! k = Some x -> iref x <> 0
      end
  end.
Proof.
  induction l as [|y l IH]; intros i num e; cbn [icache_search].
  { assert (forall k (x : inode), ([] : list inode) !! k = Some x -> False) as Hn by (intros k x; by rewrite lookup_nil).
    split; [intros k x Hx; by destruct (Hn k x)|]. destruct e; [by left|]. split; [done|]. intros k x Hx. by destruct (Hn k x). }
  destruct ((0 <? iref y) && (inode_num y =? num)) eqn:E.
  { bprop. exists O, y. split_and!; [lia|done|lia|lia]. }
  specialize (IH (S i) num (match e with None => if iref y =? 0 then Some i else None | Some _ => e end)).
  destruct (icache_search l (S i) num _) as [j|r].
  { destruct IH as (k & x & -> & H). exists (S k), x. split; [lia|done]. }
  destruct IH as [H1 H2]. split.
  { intros [|k] x Hx Hp Hn; [|by apply (H1 k x)]. injection Hx as <-. apply andb_false_iff in E as [E|E]; bprop; lia. }
  destruct r as [j|].
  - destruct e as [e|]; [destruct H2 as [H2|[H2 _]]; [by left|done]|]. right. split; [done|]. destruct (Z.eqb_spec (iref y) 0) as [E0|E0].
    + destruct H2 as [[= <-]|[H2 _]]; [exists O, y; split_and!; [lia|done|done]|done].
    + destruct H2 as [H2|(_ & k & x & -> & Hx)]; [done|]. exists (S k), x. split; [lia|done].
  - destruct H2 as [H2 H3]. destruct e as [e|]; [done|]. split; [done|]. intros [|k] x Hx; [|by apply (H3 k)].
    injection Hx as <-. by destruct (Z.eqb_spec (iref y) 0).
Qed.

(** A slot in use stays in use for the same inode. *)
Definition slots_stay (s s' : istate D) : Prop := forall j, (j < length (icache s))%nat -> 0 < iref (inode_at s j) ->
  inode_num (inode_at s' j) = inode_num (inode_at s j) /\ 0 < iref (inode_at s' j).
(** The result of an operation that adds [d] references to inode [n], which takes up
    [u] more slots. *)
Record moved (h : option nat) (n d u : Z) (s s' : istate D) : Prop := {
  mv_ok : cache_ok h s';
  mv_kept : kept s s';
  mv_refs : forall m, refs (ic s') m = refs (ic s) m + if m =? n then d else 0;
  mv_use : in_use (ic s') = in_use (ic s) + u;
}.

(** The new counts of one slot, in terms of references. *)
Lemma moved_upd h s i f n d x y : cache_ok h s -> (i < length (icache s))%nat -> (forall x, islk (f x) = islk x) ->
  inode_at s i = x -> f x = y ->
  inode_num y = n -> inode_num x = n \/ iref x = 0 -> iref y = iref x + d -> 0 <= iref y ->
  (0 < iref x \/ refs (ic s) n = 0) ->
  (0 < iref y -> 0 <= n < n_inodes (isb s) /\ (valid y = true -> idisk y = dinode_on (isb s) (disk (ib s)) n)) ->
  moved h n d ((if iref y =? 0 then 0 else 1) - (if iref x =? 0 then 0 else 1)) s (upd_inode i f s).
Proof.
  intros C Hi Hl Ex Ey Hy Hx Hd H0 Hr Hs. pose proof (counts_at s i Hi) as Hc. rewrite Ex in Hc.
  assert (0 <= iref x) as Hx0 by (apply (proj1 (co_counts _ _ C) i _ Hc)).
  assert (ic (upd_inode i f s) = <[i := (n, iref y)]> (ic s)) as Hu by (rewrite counts_upd by done; by rewrite Ex, Ey, Hy).
  assert (counts_ok (ic (upd_inode i f s))) as Hok.
  { rewrite Hu. eapply counts_insert; [apply C|exact Hc|exact H0|]. cbn. intros _.
    destruct Hr as [Hr|Hr]; [left; split; [destruct Hx; [done|lia]|done]|by right]. }
  destruct (upd_ok h s i f C Hi Hl Hok) as [C' K]; [rewrite Ex, Ey, Hy; exact Hs|]. split; [done|done| |].
  - intros m. rewrite Hu, (refs_insert _ _ _ _ _ Hc). cbn.
    destruct (Z.eqb_spec n m), (Z.eqb_spec m n), (Z.eqb_spec (inode_num x) m), Hx; lia.
  - rewrite Hu, (in_use_insert _ _ _ _ Hc). cbn. lia.
Qed.
Lemma stay_upd s i f : (i < length (icache s))%nat ->
  (0 < iref (inode_at s i) -> inode_num (f (inode_at s i)) = inode_num (inode_at s i) /\ 0 < iref (f (inode_at s i))) -> slots_stay s (upd_inode i f s).
Proof. intros Hi H j Hj Hp. rewrite inode_at_upd by done. destruct (decide (i = j)) as [<-|]; [by apply H|done]. Qed.

Lemma inode_alloc_run h s num : cache_ok h s -> 0 <= num < n_inodes (isb s) -> refs (ic s) num < 2 ^ 31 ->
  in_use (ic s) < Z.of_nat (length (icache s)) \/ 0 < refs (ic s) num ->
  exists i s', inode_alloc num s = Ret i s' /\ moved h num 1 (if refs (ic s) num =? 0 then 1 else 0) s s' /\ slots_stay s s' /\
    (i < length (icache s))%nat /\ inode_num (inode_at s' i) = num /\ 0 < iref (inode_at s' i).
Proof.
  intros C Hnum Hb Hroom. pose proof (binv_quiet _ _ (co_binv _ _ C)) as Q. pose proof (co_lk _ _ C) as Hlk.
  unfold inode_alloc. mrun (i_acquire s Hlk). mstep. cbn [icache i_locked].
  pose proof (icache_search_spec (icache s) 0 num None) as Hsp. destruct (icache_search (icache s) 0 num None) as [j|[j|]].
  - destruct Hsp as (k & x & -> & Hk & Hp & Hn). rewrite Nat.add_0_l. assert (k < length (icache s))%nat as Hlt by (by eapply lookup_lt_Some).
    assert (inode_at s k = x) as Hx by (unfold inode_at; by rewrite Hk).
    assert (refs (ic s) num = iref x) as Href.
    { rewrite <- Hn. apply (refs_slot _ k (inode_num x, iref x)); [apply C|rewrite counts_at, Hx by done; done|done]. }
    unfold rd_inode, wr_inode. mstep. rewrite inode_at_locked, Hx, u32_small by lia.
    set (f := set_iref (iref x + 1)). assert (f (inode_at s k) = mkInode (idisk x) num (iref x + 1) (valid x) (islk x)) as Hf by (by rewrite Hx, <- Hn).
    exists k, (upd_inode k f s). split; [exact (bind_run _ _ _ _ _ (i_release (upd_inode k f s) Hlk Q))|].
    split; [|split; [apply stay_upd; [done|rewrite Hf, Hx; cbn; intros _; split; [done|lia]]|split; [done|rewrite inode_at_upd, decide_True, Hf by done; cbn; split; [done|lia]]]].
    assert ((if refs (ic s) num =? 0 then 1 else 0) = (if iref x + 1 =? 0 then 0 else 1) - (if iref x =? 0 then 0 else 1)) as ->
      by (rewrite Href; bcase (iref x =? 0); [lia|]; bcase (iref x + 1 =? 0); lia).
    rewrite Hx in Hf. apply (moved_upd h s k f num 1 x _ C Hlt (fun _ => eq_refl) Hx Hf); cbn; [done|by left|done|lia|by left|].
    intros _. split; [done|]. intros Hv. pose proof (proj2 (co_slot _ _ C k Hlt ltac:(by rewrite Hx))) as H. rewrite Hx in H. rewrite <- Hn. by apply H.
  - destruct Hsp as [Hno [Hj|(_ & k & x & -> & Hk & Hp)]]; [done|]. rewrite Nat.add_0_l. assert (k < length (icache s))%nat as Hlt by (by eapply lookup_lt_Some).
    assert (inode_at s k = x) as Hx by (unfold inode_at; by rewrite Hk).
    assert (refs (ic s) num = 0) as Href.
    { apply refs_zero; [|apply C]. intros i y [Hi ->]%counts_lt Hy. cbn in *. by apply (Hno i _ (at_lookup s i Hi)). }
    unfold wr_inode. mstep. rewrite !upd_upd_inode. set (f := fun y => set_valid false (set_iref 1 (set_inode_num num y))).
    assert (f x = mkInode (idisk x) num 1 false (islk x)) as Hf by done.
    exists k, (upd_inode k f s). split; [exact (bind_run _ _ _ _ _ (i_release (upd_inode k f s) Hlk Q))|].
    split; [|split; [apply stay_upd; [done|rewrite Hx; lia]|split; [done|rewrite inode_at_upd, decide_True, Hx by done; done]]].
    assert ((if refs (ic s) num =? 0 then 1 else 0) = (if 1 =? 0 then 0 else 1) - (if iref x =? 0 then 0 else 1)) as -> by (by rewrite Href, Hp).
    apply (moved_upd h s k f num 1 x _ C Hlt (fun _ => eq_refl) Hx Hf); cbn; [done|by right|lia|lia|by right|done].
  - destruct Hsp as [Hno [_ Hfull]]. exfalso.
    assert (forall i x, ic s !! i = Some x -> 0 <= x.2) as H0 by apply C. destruct Hroom as [Hr|Hr].
    + destruct (free_slot (ic s) H0) as (i & x & [Hi ->]%counts_lt & Hx); [unfold counts; by rewrite length_fmap|].
      by apply (Hfull i _ (at_lookup s i Hi)).
    + apply (refs_pos _ _ (co_counts _ _ C)) in Hr as (i & x & [Hi ->]%counts_lt & Hp & Hn). by apply (Hno i _ (at_lookup s i Hi)).
Qed.

(** The slot of an inode in use. *)
Lemma slot_refs h s i : cache_ok h s -> (i < length (icache s))%nat -> 0 < iref (inode_at s i) ->
  refs (ic s) (inode_num (inode_at s i)) = iref (inode_at s i).
Proof. intros C Hi Hp. exact (refs_slot _ i _ (co_counts _ _ C) (counts_at s i Hi) Hp). Qed.
Lemma inode_dup_run h s i : cache_ok h s -> (i < length (icache s))%nat -> 0 < iref (inode_at s i) < 2 ^ 31 ->
  exists s', inode_dup i s = Ret i s' /\ moved h (inode_num (inode_at s i)) 1 0 s s' /\ slots_stay s s'.
Proof.
  intros C Hi Hp. pose proof (binv_quiet _ _ (co_binv _ _ C)) as Q. pose proof (co_lk _ _ C) as Hlk. set (x := inode_at s i) in *.
  unfold inode_dup, rd_inode, wr_inode. mrun (i_acquire s Hlk). mstep. rewrite inode_at_locked. fold x. rewrite u32_small by lia.
  set (f := set_iref (iref x + 1)). exists (upd_inode i f s). split; [exact (bind_run _ _ _ _ _ (i_release (upd_inode i f s) Hlk Q))|].
  split; [|apply stay_upd; [done|intros _; cbn; split; [done|lia]]].
  assert (0 = (if iref (f x) =? 0 then 0 else 1) - (if iref x =? 0 then 0 else 1)) as -> by (cbn; bcase (iref x =? 0); [lia|]; bcase (iref x + 1 =? 0); lia).
  apply (moved_upd h s i f _ 1 x (f x) C Hi (fun _ => eq_refl) eq_refl eq_refl); cbn; [done|by left|done|lia|left; lia|].
  intros _. exact (co_slot _ _ C i Hi (proj1 Hp)).
Qed.
(** A reference given back to an inode that is linked: nothing is destroyed. *)
Lemma inode_free_run sl_fuel h s i (n := inode_num (inode_at s i)) : cache_ok h s -> (i < length (icache s))%nat -> 0 < iref (inode_at s i) < 2 ^ 32 ->
  inlink (dinode_on (isb s) (disk (ib s)) n) <> 0 ->
  exists s', inode_free sl_fuel i s = Ret tt s' /\ moved h n (-1) (if refs (ic s) n =? 1 then -1 else 0) s s' /\
    (forall j, j <> i -> inode_at s' j = inode_at s j) /\ inode_num (inode_at s' i) = n /\ iref (inode_at s' i) = iref (inode_at s i) - 1.
Proof.
  intros C Hi Hp Hnl. pose proof (binv_quiet _ _ (co_binv _ _ C)) as Q. pose proof (co_lk _ _ C) as Hlk. set (x := inode_at s i) in *.
  pose proof (slot_refs h s i C Hi (proj1 Hp)) as Href. fold x n in Href. destruct (co_slot _ _ C i Hi (proj1 Hp)) as [Hnum Hval]. fold x n in Hnum, Hval.
  unfold inode_free, rd_inode, wr_inode. mrun (i_acquire s Hlk). mstep. rewrite inode_at_locked. fold x.
  assert ((iref x =? 1) && valid x && (inlink (idisk x) =? 0) = false) as ->.
  { destruct (valid x); [|by rewrite andb_false_r]. rewrite Hval by done. bcase (inlink (dinode_on (isb s) (disk (ib s)) n) =? 0); [done|]. apply andb_false_r. }
  cbn [when]. mstep. rewrite inode_at_locked. fold x. rewrite u32_small by lia.
  set (f := set_iref (iref x - 1)). exists (upd_inode i f s). split; [exact (i_release (upd_inode i f s) Hlk Q)|]. split.
  - assert ((if refs (ic s) n =? 1 then -1 else 0) = (if iref (f x) =? 0 then 0 else 1) - (if iref x =? 0 then 0 else 1)) as ->
      by (rewrite Href; cbn; bcase (iref x =? 1); bcase (iref x - 1 =? 0); bcase (iref x =? 0); lia).
    apply (moved_upd h s i f n (-1) x (f x) C Hi (fun _ => eq_refl) eq_refl eq_refl); cbn; [done|by left|lia|lia|left; lia|done].
  - split; [intros j Hj; unfold inode_at; cbn; by rewrite list_lookup_alter_ne|]. by rewrite inode_at_upd, decide_True by done.
Qed.

(** ** Locking a slot *)

(** A slot changed in its lock and contents, over a block layer with the same disk. *)
Lemma relock_ok h h' s i g b : cache_ok h s -> (i < length (icache s))%nat -> (forall x, inode_num (g x) = inode_num x /\ iref (g x) = iref x) ->
  binv [] b -> bk b = bk (ib s) -> disk b = disk (ib s) -> (forall j, j <> i -> h' = Some j <-> h = Some j) ->
  (if decide (h' = Some i) then sl_held (me_pid (bk (ib s))) (islk (g (inode_at s i))) else sl_free (islk (g (inode_at s i)))) ->
  (0 < iref (inode_at s i) -> valid (g (inode_at s i)) = true ->
     idisk (g (inode_at s i)) = dinode_on (isb s) (disk (ib s)) (inode_num (inode_at s i))) ->
  let s' := set_ib b (upd_inode i g s) in cache_ok h' s' /\ kept s s' /\ ic s' = ic s.
Proof.
  intros [C1 C2 C3 C4 C5 C6] Hi Hg Hb Hk Hd Hh Hl Hv s'. assert (ic s' = ic s) as Hc by (by apply counts_same).
  assert (forall j, (j < length (icache s))%nat -> inode_at s' j = if decide (i = j) then g (inode_at s j) else inode_at s j) as Hat
    by (intros j Hj; exact (inode_at_upd s i j g Hj)).
  assert (length (icache s') = length (icache s)) as Hlen by (cbn; by rewrite length_alter).
  split; [|split; [by split|done]]. split; try done.
  - intros j Hj. rewrite Hlen in Hj. rewrite Hat by done. change (bk (ib s')) with (bk b). rewrite Hk. destruct (decide (i = j)) as [<-|Hne]; [done|].
    specialize (C4 j Hj). destruct (decide (h' = Some j)) as [E|E]; [apply Hh in E; [|done]; by rewrite decide_True in C4|].
    rewrite decide_False in C4; [done|]. intros E'. apply E. by apply Hh.
  - by rewrite Hc.
  - intros j Hj. rewrite Hlen in Hj. rewrite Hat by done. change (disk (ib s')) with (disk b). change (isb s') with (isb s). rewrite Hd.
    destruct (decide (i = j)) as [<-|Hne]; [|by apply C6]. destruct (Hg (inode_at s i)) as [-> ->]. intros Hp. split; [by apply C6|]. by apply Hv.
Qed.
Lemma inode_lock_run sl_fuel s i : (0 < sl_fuel)%nat -> cache_ok None s -> (i < length (icache s))%nat -> 0 < iref (inode_at s i) ->
  exists s', inode_lock sl_fuel i s = Ret tt s' /\ cache_ok (Some i) s' /\ kept s s' /\ ic s' = ic s /\ valid (inode_at s' i) = true.
Proof.
  intros Hf C Hi Hp. pose proof (co_binv _ _ C) as B. pose proof (binv_quiet _ _ B) as Q. pose proof (co_lock _ _ C i Hi) as Hsl.
  destruct (co_slot _ _ C i Hi Hp) as [Hnum Hval]. rewrite decide_False in Hsl by done. set (x := inode_at s i) in *. set (lk := sl_taken (me_pid (bk (ib s))) (islk x)).
  assert (sl_held (me_pid (bk (ib s))) lk) as Hheld by (by apply sl_taken_held).
  assert (forall j, j <> i -> Some i = Some j <-> None = Some j) as Hh by (intros j Hj; split; [intros [= ->]; done|done]).
  unfold inode_lock, rd_inode. mstep. fold x. bcase (0 <? iref x); [|lia]. cbn [assert_]. mstep.
  unfold ilock. erewrite bind_run; [|apply (sleeplock_acquire_run (L := inode_lock_in i) (ChInodeLock i) sl_fuel s Hi Q Hsl Hf)].
  change (lset (i_slk i) (sl_taken (me_pid (lget i_k s)) (lget (i_slk i) s)) s) with (upd_inode i (set_islk lk) s). mstep.
  rewrite inode_at_upd, decide_True by done. fold x. change (valid (set_islk lk x)) with (valid x). destruct (valid x) eqn:Ev; cbn [negb when].
  - exists (upd_inode i (set_islk lk) s). split; [done|].
    destruct (relock_ok None (Some i) s i (set_islk lk) (ib s) C Hi (fun _ => conj eq_refl eq_refl) B eq_refl eq_refl Hh) as (C' & K & Ec).
    + by rewrite decide_True.
    + intros _ _. by apply Hval.
    + change (set_ib (ib s) (upd_inode i (set_islk lk) s)) with (upd_inode i (set_islk lk) s) in *. split_and!; [done|done|done|].
      by rewrite inode_at_upd, decide_True by done.
  - set (s1 := upd_inode i (set_islk lk) s). assert (inode_at s1 i = set_islk lk x) as Hat1 by (unfold s1; by rewrite inode_at_upd, decide_True by done).
    assert (ihold i s1) as H1. { split; [unfold s1; cbn; by rewrite length_alter|by rewrite Hat1|rewrite Hat1; exact Hnum|exact (co_sb _ _ C)]. }
    destruct (inode_rw_read sl_fuel i s1 B H1 Hf) as (b & Er & Bb & Hk & Hd). rewrite (bind_run _ _ _ _ _ Er). unfold wr_inode, modify.
    set (dn := dinode_on (isb s1) (disk (ib s1)) (inode_num (inode_at s1 i))).
    set (g := fun y => set_valid true (upd_idisk (fun _ => dn) (set_islk lk y))).
    assert (upd_inode i (set_valid true) (set_ib b (upd_inode i (upd_idisk (fun _ => dn)) s1)) = set_ib b (upd_inode i g s)) as ->.
    { unfold s1, g, set_ib, upd_inode. cbn. by rewrite !alter_alter. }
    eexists. split; [reflexivity|].
    destruct (relock_ok None (Some i) s i g b C Hi (fun _ => conj eq_refl eq_refl) Bb Hk Hd Hh) as (C' & K & Ec).
    + by rewrite decide_True.
    + intros _ _. unfold g. cbn. unfold dn. by rewrite Hat1.
    + split_and!; [done|done|done|]. change (inode_at (set_ib b (upd_inode i g s)) i) with (inode_at (upd_inode i g s) i).
      by rewrite inode_at_upd, decide_True by done.
Qed.
Lemma inode_unlock_run s i : cache_ok (Some i) s -> (i < length (icache s))%nat ->
  0 <= inode_num (inode_at s i) < n_inodes (isb s) ->
  exists s', inode_unlock i s = Ret tt s' /\ cache_ok None s' /\ kept s s' /\ ic s' = ic s.
Proof.
  intros C Hi Hnum. pose proof (co_binv _ _ C) as B. pose proof (binv_quiet _ _ B) as Q. pose proof (co_lock _ _ C i Hi) as Hsl.
  rewrite decide_True in Hsl by done. assert (ihold i s) as H by (split; [done|exact Hsl|exact Hnum|exact (co_sb _ _ C)]).
  unfold inode_unlock. mrun (iholding_run i s H Q). cbn [assert_]. mstep.
  set (g := set_islk (sl_given (islk (inode_at s i)))). exists (upd_inode i g s). split.
  { unfold iunlock. exact (sleeplock_release_run (L := inode_lock_in i) (ChInodeLock i) s _ Hi Q Hsl I). }
  destruct (relock_ok (Some i) None s i g (ib s) C Hi (fun _ => conj eq_refl eq_refl) B eq_refl eq_refl) as (C' & K & E).
  - intros j Hj. split; [done|intros [= ->]; done].
  - rewrite decide_False by done. by apply (sl_given_free (me_pid (bk (ib s)))).
  - intros Hp. apply (co_slot _ _ C i Hi Hp).
  - done.
Qed.

Lemma counts_eq (s s' : istate D) i : ic s' = ic s -> (i < length (icache s))%nat -> (i < length (icache s'))%nat ->
  inode_num (inode_at s' i) = inode_num (inode_at s i) /\ iref (inode_at s' i) = iref (inode_at s i).
Proof. intros H Hi Hi'. pose proof (counts_at s i Hi) as H1. pose proof (counts_at s' i Hi') as H2. rewrite H, H1 in H2. by injection H2 as -> ->. Qed.
Lemma moved_eq h h' n d u s s1 s2 : moved h n d u s1 s2 -> cache_ok h' s2 -> kept s s1 -> ic s1 = ic s -> moved h' n d u s s2.
Proof. intros [_ M2 M3 M4] C K E. split; [done|by eapply icache_kept_trans|by rewrite <- E|by rewrite <- E]. Qed.
Lemma unlock_free_run sl_fuel s i (n := inode_num (inode_at s i)) : cache_ok (Some i) s -> (i < length (icache s))%nat -> 0 < iref (inode_at s i) < 2 ^ 32 ->
  inlink (dinode_on (isb s) (disk (ib s)) n) <> 0 ->
  exists s', inode_unlock_free sl_fuel i s = Ret tt s' /\ moved None n (-1) (if refs (ic s) n =? 1 then -1 else 0) s s' /\
    (forall j, (j < length (icache s))%nat -> inode_num (inode_at s' j) = inode_num (inode_at s j) /\
       iref (inode_at s' j) = iref (inode_at s j) - if decide (j = i) then 1 else 0).
Proof.
  intros C Hi Hp Hnl. destruct (co_slot _ _ C i Hi (proj1 Hp)) as [Hnum _]. fold n in Hnum.
  destruct (inode_unlock_run s i C Hi Hnum) as (s1 & E1 & C1 & K1 & Ic1). pose proof (kp_len _ _ K1) as Hlen.
  destruct (counts_eq s s1 i Ic1 Hi ltac:(lia)) as [N1 R1]. fold n in N1.
  destruct (inode_free_run sl_fuel None s1 i C1) as (s2 & E2 & M2 & J2 & N2 & R2); [lia|by rewrite R1|by rewrite N1, (kp_disk _ _ K1), (kp_sb _ _ K1)|].
  rewrite N1, Ic1 in *. exists s2. split; [unfold inode_unlock_free; by mrun E1|]. split; [by eapply moved_eq; [|apply M2| |]|].
  intros j Hj. destruct (counts_eq s s1 j Ic1 Hj ltac:(lia)) as [N3 R3]. destruct (decide (j = i)) as [->|Hne]; [by rewrite N2, R2, R1|].
  rewrite J2, N3, R3 by done. split; [done|lia].
Qed.

(** ** The walk on the disk *)

Definition dir_block_on (sb : super_block) (d : D) (n : Z) : list Z := blk_get d (addrs (dinode_on sb d n) !!! O).
(** The inode at the end of a path from inode [n]: each element is looked up in the
    directory before it.  With [parent] the last element is not looked up. *)
Fixpoint resolve (sb : super_block) (d : D) (parent : bool) (es : list (list Z)) (n : Z) : option Z :=
  match es with
  | [] => if parent then None else Some n
  | e :: es =>
      if itype (dinode_on sb d n) =? FT_DIR then
        if parent && bool_decide (es = []) then Some n
        else match lookup_name (dir_block_on sb d n) e with
             | Some m => resolve sb d parent es m
             | None => None
             end
      else None
  end.

(** A disk whose directories are in order: one block each, and every name leads to an
    inode that is linked. *)
Record dir_on (sb : super_block) (d : D) (n : Z) : Prop := {
  do_inode : dinode_ok (dinode_on sb d n);
  do_block : addrs (dinode_on sb d n) !!! O <> BLOCK_NUM_UNUSED;
  do_apart : addrs (dinode_on sb d n) !!! O <> inode_block sb n;
  do_wf : dir_wf (dir_block_on sb d n);
  do_names : forall o, o ∈ offs -> name0 (dirent_at (dir_block_on sb d n) o) <> 0 ->
    let m := de_inum (dirent_at (dir_block_on sb d n) o) in
    0 <= m < n_inodes sb /\ m <> INODE_NUM_UNUSED /\ inlink (dinode_on sb d m) <> 0;
}.
Definition tree_ok (sb : super_block) (d : D) : Prop :=
  forall n, 0 <= n < n_inodes sb -> itype (dinode_on sb d n) = FT_DIR -> dir_on sb d n.

Lemma lookup_key l a b : is_bytes l -> is_bytes a -> is_bytes b -> dkey a = dkey b -> lookup_name l a = lookup_name l b.
Proof.
  intros Hl Ha Hb E. unfold lookup_name. rewrite (find_same _ (fun o => name_matches (dirent_at l o) b) offs); [reflexivity|].
  intros o _. pose proof (dirent_name_bytes l o Hl) as Hn. rewrite !name_matches_spec by done. by rewrite E.
Qed.
Lemma lookup_on sb d n name m : dir_on sb d n -> lookup_name (dir_block_on sb d n) name = Some m ->
  0 <= m < n_inodes sb /\ m <> INODE_NUM_UNUSED /\ inlink (dinode_on sb d m) <> 0.
Proof.
  intros H. unfold lookup_name. destruct (find _ offs) as [o|] eqn:E; [|done]. intros [= <-]. destruct (find_in _ _ _ E) as [Ho Hm].
  apply (do_names _ _ _ H o Ho). intros H0. unfold name_matches in Hm. rewrite H0 in Hm. done.
Qed.
Lemma cache_ok_ib h s b : cache_ok h s -> binv [] b -> bk b = bk (ib s) -> disk b = disk (ib s) -> cache_ok h (set_ib b s) /\ kept s (set_ib b s).
Proof.
  intros [C1 C2 C3 C4 C5 C6] B Hk Hd. split; [|done]. split; try done.
  - intros i Hi. specialize (C4 i Hi). cbn. by rewrite Hk.
  - intros i Hi. cbn. rewrite Hd. by apply C6.
Qed.
(** A locked directory is ready for dir_search_entry(). *)
Lemma locked_dir s i (n := inode_num (inode_at s i)) : cache_ok (Some i) s -> (i < length (icache s))%nat -> 0 < iref (inode_at s i) ->
  valid (inode_at s i) = true -> tree_ok (isb s) (disk (ib s)) ->
  idisk (inode_at s i) = dinode_on (isb s) (disk (ib s)) n /\ 0 <= n < n_inodes (isb s) /\
  (itype (dinode_on (isb s) (disk (ib s)) n) = FT_DIR -> dir_ready i s /\ dir_data i s = dir_block_on (isb s) (disk (ib s)) n).
Proof.
  intros C Hi Hp Hv T. destruct (co_slot _ _ C i Hi Hp) as [Hnum Hd]. specialize (Hd Hv). fold n in Hnum, Hd.
  split; [exact Hd|]. split; [exact Hnum|]. intros Ht. pose proof (T n Hnum Ht) as [D1 D2 D3 D4 _].
  pose proof (co_lock _ _ C i Hi) as Hl. rewrite decide_True in Hl by done.
  assert (dir_data i s = dir_block_on (isb s) (disk (ib s)) n) as Hdd by (unfold dir_data, dblock; by rewrite Hd). split; [|exact Hdd].
  split; [apply C|split; [done|exact Hl|exact Hnum|exact (co_sb _ _ C)]|by rewrite Hd|unfold dblock; by rewrite Hd|unfold dblock; by rewrite Hd|by rewrite Hd|by rewrite Hdd].
Qed.

(** ** search_inode() *)

Section walk.
Context (sl_fuel : nat) (Hf : (0 < sl_fuel)%nat) (sb : super_block) (d : D) (T : tree_ok sb d) (k : kstate) (len : nat).
(** References and slots in use before the call, with room for two more slots. *)
Context (r0 : Z -> Z) (u0 : Z) (Hr0 : forall m, 0 <= r0 m < 2 ^ 30) (Hu0 : u0 + 2 <= Z.of_nat len).

(** The same disk and kernel state throughout. *)
Definition here (s : istate D) : Prop := isb s = sb /\ disk (ib s) = d /\ bk (ib s) = k /\ length (icache s) = len.
Lemma here_kept s s' : here s -> kept s s' -> here s'.
Proof. intros (H1 & H2 & H3 & H4) []. split_and!; congruence. Qed.
(** Slot [i] refers to inode [n], with one reference more than before the call;
    [h] says whether it is locked. *)
Record at_inode (h : bool) (s : istate D) (i : nat) (n : Z) : Prop := {
  ai_here : here s;
  ai_ok : cache_ok (if h then Some i else None) s;
  ai_lt : (i < len)%nat;
  ai_num : inode_num (inode_at s i) = n;
  ai_ref : 0 < iref (inode_at s i);
  ai_refs : forall m, refs (ic s) m = r0 m + if m =? n then 1 else 0;
  ai_use : in_use (ic s) = u0 + if r0 n =? 0 then 1 else 0;
  ai_link : inlink (dinode_on sb d n) <> 0;
  ai_valid : h = true -> valid (inode_at s i) = true;
}.
(** The call is over without a result. *)
Record back (s : istate D) : Prop := {
  bk_here : here s;
  bk_ok : cache_ok None s;
  bk_refs : forall m, refs (ic s) m = r0 m;
}.
Lemma at_bound h s i n : at_inode h s i n -> 0 < iref (inode_at s i) < 2 ^ 31.
Proof.
  intros [(_ & _ & _ & Hl) C Hi Hn Hp Hr _ _ _]. pose proof (slot_refs _ s i C ltac:(lia) Hp) as H. rewrite Hr in H.
  specialize (Hr0 (inode_num (inode_at s i))). bcase (inode_num (inode_at s i) =? n); lia.
Qed.
Lemma enter_run s i n : at_inode false s i n -> exists s', inode_lock sl_fuel i s = Ret tt s' /\ at_inode true s' i n.
Proof.
  intros [H C Hi Hn Hp Hr Hu Hl _]. assert (length (icache s) = len) as Hlen by apply H.
  destruct (inode_lock_run sl_fuel s i Hf C ltac:(lia) Hp) as (s' & E & C' & K & Ec & Hv). pose proof (here_kept _ _ H K) as H'.
  destruct (counts_eq s s' i Ec) as [E1 E2]; [lia|destruct H' as (_ & _ & _ & ->); lia|].
  exists s'. split; [exact E|]. split; [done|done|done|congruence|congruence|by rewrite Ec|by rewrite Ec|done|done].
Qed.
Lemma unlock_run s i n : at_inode true s i n -> exists s', inode_unlock i s = Ret tt s' /\ at_inode false s' i n.
Proof.
  intros [H C Hi Hn Hp Hr Hu Hl _]. assert (length (icache s) = len) as Hlen by apply H.
  destruct (inode_unlock_run s i C ltac:(lia) (proj1 (co_slot _ _ C i ltac:(lia) Hp))) as (s' & E & C' & K & Ec). pose proof (here_kept _ _ H K) as H'.
  destruct (counts_eq s s' i Ec) as [E1 E2]; [lia|destruct H' as (_ & _ & _ & ->); lia|].
  exists s'. split; [exact E|]. split; [done|done|done|congruence|congruence|by rewrite Ec|by rewrite Ec|done|done].
Qed.
Lemma leave_run s i n : at_inode true s i n -> exists s', inode_unlock_free sl_fuel i s = Ret tt s' /\ back s'.
Proof.
  intros A. pose proof (at_bound _ _ _ _ A) as Hb. destruct A as [H C Hi Hn Hp Hr Hu Hl _]. pose proof H as (Hsb & Hd & _ & Hlen).
  destruct (unlock_free_run sl_fuel s i C ltac:(lia) ltac:(lia)) as (s' & E & [M1 M2 M3 M4] & _); [by rewrite Hn, Hsb, Hd|].
  exists s'. split; [exact E|]. split; [by eapply here_kept|done|]. intros m. rewrite M3, Hr, Hn. bcase (m =? n); lia.
Qed.
(** One step down: the reference moves from [n] to [m]. *)
Lemma descend_run s i n m : at_inode true s i n -> 0 <= m < n_inodes sb -> inlink (dinode_on sb d m) <> 0 ->
  exists j s1 s', inode_alloc m s = Ret j s1 /\ inode_unlock_free sl_fuel i s1 = Ret tt s' /\ at_inode false s' j m.
Proof.
  intros A Hm Hlm. pose proof (at_bound _ _ _ _ A) as Hb. destruct A as [H C Hi Hn Hp Hr Hu Hl _]. pose proof H as (Hsb & Hd & _ & Hlen).
  pose proof (Hr0 m) as Bm. pose proof (Hr0 n) as Bn.
  destruct (inode_alloc_run (Some i) s m C) as (j & s1 & E1 & [M1 M2 M3 M4] & St & Hj & Nj & Rj);
    [by rewrite Hsb|rewrite Hr; bcase (m =? n); lia|left; rewrite Hu, Hlen; bcase (r0 n =? 0); lia|].
  destruct (St i ltac:(lia) Hp) as [N1 R1]. pose proof (here_kept _ _ H M2) as H1. pose proof H1 as (Hsb1 & Hd1 & _ & Hlen1).
  assert (refs (ic s1) n = r0 n + 1 + if n =? m then 1 else 0) as Rn by (rewrite M3, Hr, Z.eqb_refl; done).
  assert (iref (inode_at s1 i) = refs (ic s1) n) as Ri by (rewrite <- Hn, <- N1; symmetry; apply (slot_refs (Some i) s1 i M1); [lia|done]).
  destruct (unlock_free_run sl_fuel s1 i M1 ltac:(lia)) as (s' & E2 & [F1 F2 F3 F4] & Sl).
  { rewrite Ri, Rn. bcase (n =? m); lia. }
  { by rewrite N1, Hn, Hsb1, Hd1. }
  rewrite N1, Hn in *. exists j, s1, s'. split; [exact E1|]. split; [exact E2|]. destruct (Sl j ltac:(lia)) as [Sn Sr].
  split; [by eapply here_kept|done|lia|congruence| | | |done|done].
  - rewrite Sr. destruct (decide (j = i)) as [->|]; [|lia]. rewrite Ri, Rn. assert (m = n) as -> by congruence. rewrite Z.eqb_refl. lia.
  - intros x. rewrite F3, M3, Hr. bcase (x =? n); bcase (x =? m); lia.
  - rewrite F4, M4, Hu, Rn, Hr. destruct (Z.eqb_spec n m) as [->|Hne].
    + rewrite Z.eqb_refl. bcase (r0 m =? 0); bcase (r0 m + 1 =? 0); bcase (r0 m + 1 + 1 =? 1); lia.
    + bcase (m =? n); [congruence|]. bcase (r0 n =? 0); bcase (r0 m + 0 =? 0); bcase (r0 m =? 0); bcase (r0 n + 1 + 0 =? 1); lia.
Qed.

(** The lookup of one element in a locked directory. *)
Lemma search_run s i n name : at_inode true s i n -> is_bytes name -> itype (dinode_on sb d n) = FT_DIR ->
  exists s', dir_search_entry sl_fuel i name s = Ret (default INODE_NUM_UNUSED (lookup_name (dir_block_on sb d n) name)) s' /\ at_inode true s' i n.
Proof.
  intros A Hn Ht. pose proof A as [H C Hi Hnum Hp Hr Hu Hl Hv]. pose proof H as (Hsb & Hd & Hk & Hlen).
  destruct (locked_dir s i C ltac:(lia) Hp (Hv eq_refl)) as (_ & _ & Hdir); [by rewrite Hsb, Hd|]. rewrite Hnum, Hsb, Hd in Hdir.
  destruct (Hdir Ht) as [R Hdd]. destruct (dir_search_run sl_fuel i name s Hf R) as (b & E & R' & Hd' & Hk'). rewrite Hdd in E.
  exists (set_ib b s). split; [exact E|]. destruct (cache_ok_ib _ s b C (dr_binv _ _ R') Hk' Hd') as [C' K]. split; try done. by eapply here_kept.
Qed.
(** What the routine found, against the walk on the disk. *)
Definition found (parent : bool) (es : list (list Z)) (n : Z) (r : option nat) (name : list Z) (s : istate D) : Prop :=
  match resolve sb d parent es n with
  | Some m => exists i, r = Some i /\ at_inode false s i m /\ (parent = true -> exists e, last es = Some e /\ dkey name = dkey e)
  | None => r = None /\ back s
  end.
Lemma search_loop_run parent : forall fuel path name s i n, (length path < fuel)%nat -> (forall c, c ∈ path -> 0 < c < 256) ->
  length name = Z.to_nat DIR_NAME_LEN -> is_bytes name -> at_inode false s i n ->
  exists r name' s', search_loop sl_fuel fuel i path name parent s = Ret (r, name') s' /\ found parent (elements path) n r name' s'.
Proof.
  induction fuel as [|fuel IH]; intros path name s i n Hlen Hp Hl Hb A; [lia|]. cbn [search_loop].
  pose proof (skip_elements path name ltac:(intros c Hc; specialize (Hp c Hc); lia) Hl) as Hsk.
  assert (is_bytes path) as Hpb by (apply Forall_forall; intros c Hc; specialize (Hp c Hc); lia). pose proof (skip_bytes path name) as Hsb.
  destruct (skip_element path name) as [[rest name']|].
  2:{ rewrite Hsk. unfold found. cbn [resolve]. destruct parent.
      - pose proof (at_bound _ _ _ _ A) as Hbd. destruct A as [H C Hi Hn Hpos Hr Hu Hlk _]. pose proof H as (Hsb' & Hd & _ & Hln).
        destruct (inode_free_run sl_fuel None s i C ltac:(lia) ltac:(lia)) as (s' & E & [M1 M2 M3 _] & _); [by rewrite Hn, Hsb', Hd|].
        exists None, name, s'. split; [by mrun E|]. split; [done|]. split; [by eapply here_kept|done|]. intros m. rewrite M3, Hr, Hn. bcase (m =? n); lia.
      - exists (Some i), name, s. split; [done|]. exists i. done. }
  destruct Hsk as (e & Ee & Hk & Hsub & Hrest & Hl' & Hin & Hlt). specialize (Hsb rest name' Hpb Hb eq_refl).
  assert (is_bytes e) as Heb by (apply Forall_forall; intros c Hc; specialize (Hp c (Hsub c Hc)); lia).
  destruct (enter_run s i n A) as (s1 & E1 & A1). mrun E1. unfold rd_inode. mstep. pose proof A1 as [H C Hi Hn Hpos Hr Hu Hlk Hv]. pose proof H as (Hsb1 & Hd1 & _ & Hln).
  destruct (locked_dir s1 i C ltac:(lia) Hpos (Hv eq_refl)) as (Hdi & Hrange & _); [by rewrite Hsb1, Hd1|]. rewrite Hn, Hsb1 in Hdi, Hrange. rewrite Hd1 in Hdi. rewrite Hdi, Ee.
  unfold found. cbn [resolve]. destruct (Z.eqb_spec (itype (dinode_on sb d n)) FT_DIR) as [Ht|Ht]; cbn [negb].
  2:{ destruct (leave_run s1 i n A1) as (s' & E & Bk). exists None, name', s'. split; [by mrun E|done]. }
  assert (bool_decide (rest = []) = bool_decide (elements rest = [])) as Hbd by (by apply bool_decide_ext). rewrite Hbd.
  destruct (parent && bool_decide (elements rest = [])) eqn:Epar.
  { destruct (unlock_run s1 i n A1) as (s' & E & A'). exists (Some i), name', s'. split; [by mrun E|]. exists i. split; [done|]. split; [done|]. intros _.
    apply andb_true_iff in Epar as [_ Er%bool_decide_eq_true]. rewrite Er. by exists e. }
  destruct (search_run s1 i n name' A1 Hsb Ht) as (s2 & E2 & A2). mrun E2. pose proof (T n Hrange Ht) as Hdir.
  rewrite (lookup_key _ name' e (proj1 (do_wf _ _ _ Hdir)) Hsb Heb Hk). destruct (lookup_name (dir_block_on sb d n) e) as [m|] eqn:El; cbn [default from_option id].
  - destruct (lookup_on sb d n e m Hdir El) as (Hm & Hmu & Hml). rewrite (proj2 (Z.eqb_neq m INODE_NUM_UNUSED) Hmu).
    destruct (descend_run s2 i n m A2 Hm Hml) as (j & s3 & s4 & E3 & E4 & A4). mrun E3. mrun E4.
    destruct (IH rest name' s4 j m) as (r & name2 & s' & E & F); [lia|intros c Hc; apply Hp; by apply Hin|done|done|done|].
    exists r, name2, s'. split; [exact E|]. unfold found in F. destruct (resolve sb d parent (elements rest) m) as [x|]; [|exact F].
    destruct F as (i' & -> & A' & Hl2). exists i'. split; [done|]. split; [done|]. intros Hpar. destruct (Hl2 Hpar) as (e' & He' & Hke'). exists e'. split; [|done].
    destruct (elements rest) as [|y ys]; [done|exact He'].
  - change (INODE_NUM_UNUSED =? INODE_NUM_UNUSED) with true. cbn iota. destruct (leave_run s2 i n A2) as (s' & E & Bk). exists None, name', s'. split; [by mrun E|done].
Qed.
End walk.

(** Where a path starts: at the root, or at the current directory of process [p]. *)
Definition start_of (s : istate D) (p : nat) (path : list Z) : Z :=
  if rd path 0 =? SLASH then INODE_ROOT
  else match cwd (proc_at (bk (ib s)) p) with Some c => inode_num (inode_at s c) | None => INODE_ROOT end.
(** The inode cache can take two more inodes, root and current directory are linked. *)
Record path_ready (s : istate D) (p : nat) : Prop := {
  pr_cache : cache_ok None s;
  pr_tree : tree_ok (isb s) (disk (ib s));
  pr_refs : forall m, refs (ic s) m < 2 ^ 30;
  pr_room : in_use (ic s) + 2 <= Z.of_nat (length (icache s));
  pr_root : 0 <= INODE_ROOT < n_inodes (isb s) /\ inlink (dinode_on (isb s) (disk (ib s)) INODE_ROOT) <> 0;
  pr_proc : cproc (kcpu (bk (ib s))) = Some p;
  pr_cwd : forall c, cwd (proc_at (bk (ib s)) p) = Some c -> (c < length (icache s))%nat /\ 0 < iref (inode_at s c) /\
    inlink (dinode_on (isb s) (disk (ib s)) (inode_num (inode_at s c))) <> 0;
}.
Lemma refs_nonneg l : (forall i x, l !! i = Some x -> 0 <= x.2) -> forall m, 0 <= refs l m.
Proof.
  induction l as [|x l IH]; intros H m; cbn; [lia|]. assert (0 <= refs l m) by (apply IH; intros i y Hy; by apply (H (S i))).
  pose proof (H O x eq_refl). bcase (x.1 =? m); lia.
Qed.
Lemma path_start_run sl_fuel s p path name parent : path_ready s p -> (0 < sl_fuel)%nat -> (forall c, c ∈ path -> 0 < c < 256) ->
  length name = Z.to_nat DIR_NAME_LEN -> is_bytes name ->
  let sb := isb s in let d := disk (ib s) in let r0 := refs (ic s) in let u0 := in_use (ic s) in
  exists r name' s', search_inode sl_fuel path name parent s = Ret (r, name') s' /\
    found sb d (bk (ib s)) (length (icache s)) r0 u0 parent (elements path) (start_of s p path) r name' s'.
Proof.
  intros [C T Hb Hroom [Hroot Hl] Hp Hcwd] Hf Hpath Hlen Hn sb d r0 u0.
  assert (forall m, 0 <= r0 m < 2 ^ 30) as Hr0 by (intros m; split; [apply refs_nonneg; apply C|apply Hb]).
  assert (exists i s1, inode_alloc INODE_ROOT s = Ret i s1 /\ at_inode sb d (bk (ib s)) (length (icache s)) r0 u0 false s1 i INODE_ROOT) as (ir & sr & Er & Ar).
  { destruct (inode_alloc_run None s INODE_ROOT C Hroot) as (i & s1 & E & [M1 M2 M3 M4] & _ & Hi & N & R); [specialize (Hr0 INODE_ROOT); unfold r0 in Hr0; lia|left; lia|].
    exists i, s1. split; [exact E|]. split; try done. destruct M2. split_and!; try done. }
  assert (exists i s1, (if rd path 0 =? SLASH then inode_alloc INODE_ROOT else
      let* p := zoom i_k myproc in let* pp := zoom i_k (rd_proc p) in
      match cwd pp with Some c => inode_dup c | None => inode_alloc INODE_ROOT end) s = Ret i s1 /\
    at_inode sb d (bk (ib s)) (length (icache s)) r0 u0 false s1 i (start_of s p path)) as (i & s1 & E & A).
  { unfold start_of. destruct (rd path 0 =? SLASH); [by exists ir, sr|].
    assert (zoom i_k myproc s = Ret p s) as Em.
    { rewrite (zoom_run i_k myproc s p (bk (ib s))); [by destruct s as [[] ? ? ?]|]. change (lget i_k s) with (bk (ib s)). unfold myproc, myproc_opt. rewrite bind_gets. unfold kcpu in Hp. cbn beta. by rewrite Hp. }
    assert (zoom i_k (rd_proc p) s = Ret (proc_at (bk (ib s)) p) s) as Ep by (rewrite (zoom_run i_k (rd_proc p) s _ (bk (ib s)) eq_refl); by destruct s as [[] ? ? ?]).
    mrun Em. mrun Ep. destruct (cwd (proc_at (bk (ib s)) p)) as [c|]; [|by exists ir, sr]. destruct (Hcwd c eq_refl) as (Hc & Hrc & Hlc).
    pose proof (slot_refs None s c C Hc Hrc) as Hsr.
    destruct (inode_dup_run None s c C Hc) as (s1 & E & [M1 M2 M3 M4] & St); [specialize (Hb (inode_num (inode_at s c))); lia|].
    exists c, s1. split; [exact E|]. destruct (St c Hc Hrc) as [N R]. split; try done; [destruct M2; by split_and!|].
    rewrite M4. bcase (r0 (inode_num (inode_at s c)) =? 0); [unfold r0 in *; lia|done]. }
  unfold search_inode. rewrite (bind_run _ _ _ _ _ E).
  exact (search_loop_run sl_fuel Hf sb d T (bk (ib s)) (length (icache s)) r0 u0 Hr0 Hroom parent (S (length path)) path name s1 i _ ltac:(lia) Hpath Hlen Hn A).
Qed.

(** What a caller sees: the reference returned, or none. *)
Definition resolved (s s' : istate D) (o : option Z) (r : option nat) : Prop :=
  cache_ok None s' /\ kept s s' /\
  match o with
  | Some m => exists i, r = Some i /\ (i < length (icache s'))%nat /\ inode_num (inode_at s' i) = m /\ 0 < iref (inode_at s' i) /\
      forall x, refs (ic s') x = refs (ic s) x + if x =? m then 1 else 0
  | None => r = None /\ forall x, refs (ic s') x = refs (ic s) x
  end.
Lemma found_resolved s parent es n r name s' :
  found (isb s) (disk (ib s)) (bk (ib s)) (length (icache s)) (refs (ic s)) (in_use (ic s)) parent es n r name s' ->
  resolved s s' (resolve (isb s) (disk (ib s)) parent es n) r.
Proof.
  unfold found, resolved. destruct (resolve _ _ parent es n) as [m|].
  - intros (i & -> & [(H1 & H2 & H3 & H4) C Hi Hn Hp Hr _ _ _] & _). split; [exact C|]. split; [by split|]. exists i. split_and!; try done. lia.
  - intros (-> & [(H1 & H2 & H3 & H4) C Hr]). split; [exact C|]. split; [by split|done].
Qed.

(** C5 path names.  On a disk whose directories are in order, path_to_inode() returns
    the inode reached by looking the elements of the path up one after the other,
    from the root for a path that starts with a slash and from the current directory
    otherwise, and NULL when an element is missing or is sought in something that is
    not a directory; path_to_pinode() returns the directory before the last element,
    and the last element as its name.  The only change to what the inode cache
    counts is the reference to the inode returned; the disk is not changed, no lock
    is left held, and the walk ends for every path. *)
Theorem path_lookup_resolves sl_fuel stack_name path (s : istate D) p :
  path_ready s p -> (0 < sl_fuel)%nat -> (forall c, c ∈ path -> 0 < c < 256) ->
  length stack_name = Z.to_nat DIR_NAME_LEN -> is_bytes stack_name ->
  let walk parent := resolve (isb s) (disk (ib s)) parent (elements path) (start_of s p path) in
  (exists r s', path_to_inode sl_fuel stack_name path s = Ret r s' /\ resolved s s' (walk false) r) /\
  (exists r name s', path_to_pinode sl_fuel stack_name path s = Ret (r, name) s' /\ resolved s s' (walk true) r /\
     (r <> None -> exists e, last (elements path) = Some e /\ dkey name = dkey e)).
Proof.
  intros R Hf Hp Hl Hb walk. split.
  - destruct (path_start_run sl_fuel s p path stack_name false R Hf Hp Hl Hb) as (r & name & s' & E & F). exists r, s'.
    split; [unfold path_to_inode; by mrun E|]. by apply found_resolved in F.
  - destruct (path_start_run sl_fuel s p path stack_name true R Hf Hp Hl Hb) as (r & name & s' & E & F). exists r, name, s'.
    split; [exact E|]. split; [by apply found_resolved in F|]. unfold found in F. intros Hr.
    destruct (resolve _ _ true (elements path) _) as [m|]; [|by destruct F as [-> _]]. destruct F as (i & _ & _ & He). by apply He.
Qed.
End path.

(** ** A disk with the file /a/b *)

Definition small_sb : super_block := mkSb 0x12345678 1024 1 2 130 131 1 8192 8323.
Definition small_root : dinode := mkDinode FT_DIR 0 0 1 32 (131 :: replicate 12 0).
Definition small_a : dinode := mkDinode FT_DIR 0 0 1 32 (132 :: replicate 12 0).
Definition small_b : dinode := mkDinode FT_FILE 0 0 1 0 (replicate 13 0).
Definition pad_block (l : list Z) : list Z := l ++ replicate (1024 - length l) 0.
Definition small_disk : block_map :=
  blk_put (blk_put (blk_put ∅ 2 (pad_block (enc_dinode small_root ++ enc_dinode small_a ++ enc_dinode small_b)))
    131 (pad_block (enc_dirent (mkDirent 1 (dkey [97]))))) 132 (pad_block (enc_dirent (mkDirent 2 (dkey [98])))).
Definition busy : kstate := mkK (set_pcpu (cpu_on 0 0) blank_pmem) demo_repo (replicate 64 dummy_proc) None 1 (spinlock_init "pid").
Definition small_start : bstate block_map := mkB busy (replicate 65 blank_node) (spinlock_init "") small_disk.
Definition empty_slot : inode := mkInode (mkDinode 0 0 0 0 0 (replicate 13 0)) 0 0 false (sleeplock_init "inode").
Definition small_state (b : bstate block_map) : istate block_map := mkI b small_sb (replicate 32 empty_slot) (spinlock_init "icache").
Lemma small_inodes : dinode_on small_sb small_disk 0 = small_root /\ dinode_on small_sb small_disk 1 = small_a /\
  dinode_on small_sb small_disk 2 = small_b.
Proof. vm_compute. split_and!; reflexivity. Qed.
(** The same as a test that computes. *)
Definition dir_test (sb : super_block) (d : block_map) (n : Z) : bool :=
  let dn := dinode_on sb d n in let l := dir_block_on sb d n in
  forallb (fun x => (0 <=? x) && (x <? 256)) l &&
  forallb (fun o => let e := dirent_at l o in
    if name0 e =? 0 then true
    else negb (de_inum e =? INODE_NUM_UNUSED) && (0 <=? de_inum e) && (de_inum e <? n_inodes sb) && negb (inlink (dinode_on sb d (de_inum e)) =? 0)) offs.
Lemma dir_test_on sb d n : dinode_ok (dinode_on sb d n) -> addrs (dinode_on sb d n) !!! O <> BLOCK_NUM_UNUSED ->
  addrs (dinode_on sb d n) !!! O <> inode_block sb n -> dir_test sb d n = true -> dir_on sb d n.
Proof.
  intros H1 H2 H3 H. apply andb_true_iff in H as [Hb Ho]. rewrite forallb_forall in Hb, Ho.
  assert (forall o, o ∈ offs -> name0 (dirent_at (dir_block_on sb d n) o) <> 0 -> let m := de_inum (dirent_at (dir_block_on sb d n) o) in
    0 <= m < n_inodes sb /\ m <> INODE_NUM_UNUSED /\ inlink (dinode_on sb d m) <> 0) as Hn.
  { intros o Hin H0. specialize (Ho o). apply list_elem_of_In in Hin. specialize (Ho Hin). cbn zeta in Ho. rewrite (proj2 (Z.eqb_neq _ _) H0) in Ho.
    rewrite !andb_true_iff, !negb_true_iff, !Z.eqb_neq, Z.leb_le, Z.ltb_lt in Ho. cbn zeta. tauto. }
  split; [done|done|done| |done]. split.
  - apply Forall_forall. intros x Hx. apply list_elem_of_In, Hb in Hx. rewrite andb_true_iff, Z.leb_le, Z.ltb_lt in Hx. done.
  - intros o Hin Hu. destruct (Z.eq_dec (name0 (dirent_at (dir_block_on sb d n) o)) 0) as [|H0]; [done|]. destruct (Hn o Hin H0) as (_ & Hm & _). done.
Qed.
Lemma small_tree : tree_ok small_sb small_disk.
Proof.
  intros n Hn Ht. destruct small_inodes as (I0 & I1 & I2). change (n_inodes small_sb) with 16 in Hn.
  assert (n = 0 \/ n = 1) as Hc.
  { assert (forallb (fun n => negb (itype (dinode_on small_sb small_disk n) =? FT_DIR)) ((fun i => Z.of_nat i) <$> seq 2 14) = true) as H by (vm_compute; reflexivity).
    destruct (decide (n < 2)); [lia|]. exfalso. rewrite forallb_forall in H. specialize (H n). rewrite Ht in H. cbn in H.
    assert (In n ((fun i => Z.of_nat i) <$> seq 2 14)) as Hin by (apply list_elem_of_In, list_elem_of_fmap; exists (Z.to_nat n); split; [lia|apply elem_of_seq; lia]).
    by specialize (H Hin). }
  assert (forall v, 0 <= v < 2 ^ 32 -> dinode_ok (mkDinode FT_DIR 0 0 1 32 (v :: replicate 12 0))) as Hok.
  { intros v Hv. split; cbn; unfold FT_DIR; try lia; [reflexivity|]. apply Forall_cons. split; [lia|]. apply (Forall_replicate _ 12). lia. }
  destruct Hc as [-> | ->]; apply dir_test_on; rewrite ?I0, ?I1; try (apply Hok; lia); vm_compute; congruence.
Qed.
Lemma busy_quiet : quiet busy.
Proof.
  assert (forall i, proc_at busy i = dummy_proc) as H by apply calm_proc.
  split; [unfold cpu_wf; cbn; lia|reflexivity|reflexivity|intros i; rewrite H; by split|]. intros i ch. rewrite H. cbn. congruence.
Qed.
Lemma small_at b i : (i < 32)%nat -> inode_at (small_state b) i = empty_slot.
Proof. intros Hi. unfold inode_at. cbn [icache small_state]. by rewrite lookup_replicate_2. Qed.
Lemma small_ready b : binv [] b -> bk b = busy -> disk b = small_disk -> path_ready (small_state b) 0.
Proof.
  intros B Hk Hd.
  assert (forall i x, counts (icache (small_state b)) !! i = Some x -> x.2 = 0) as Hz.
  { intros i x [Hi ->]%counts_lt. rewrite small_at by (cbn in Hi; lia). done. }
  destruct small_inodes as (I0 & _). split; cbn [ib small_state isb]; rewrite ?Hk, ?Hd.
  - split; cbn [ib small_state isb].
    + done.
    + split; reflexivity.
    + cbn. lia.
    + intros i Hi. rewrite small_at by (cbn in Hi; lia). rewrite decide_False by done. by split_and!.
    + split; [intros i x Hx; rewrite (Hz i x Hx); lia|intros i j x y Hx _ Hp; rewrite (Hz i x Hx) in Hp; lia].
    + intros i Hi. rewrite small_at by (cbn in Hi; lia). cbn. lia.
  - exact small_tree.
  - intros m. rewrite refs_zero; [lia|intros i x Hx; rewrite (Hz i x Hx); lia|intros i x Hx; rewrite (Hz i x Hx); lia].
  - vm_compute. congruence.
  - split; [vm_compute; split; congruence|]. change INODE_ROOT with 0. rewrite I0. cbn. lia.
  - reflexivity.
  - intros c. change (cwd (proc_at busy 0)) with (@None nat). done.
Qed.
(** /a/b is inode 2; /b does not exist. *)
Lemma path_lookup_resolves_witness : exists b i s1 s2, buf_init small_start = Ret tt b /\
  path_to_inode 1 (replicate 30 0) [47; 97; 47; 47; 98] (small_state b) = Ret (Some i) s1 /\ inode_num (inode_at s1 i) = 2 /\
  path_to_inode 1 (replicate 30 0) [47; 98] (small_state b) = Ret None s2.
Proof.
  assert (fresh_cache small_start) as Hfr.
  { split; [reflexivity|]. intros x. exact (proj2 power_on_fresh x). }
  destruct (buf_init_run small_start Hfr busy_quiet) as (b & Hb & B & Hk & Hd & _).
  pose proof (small_ready b (ex_intro _ _ B) Hk Hd) as R.
  assert (forall c, c ∈ [47; 97; 47; 47; 98] -> 0 < c < 256) as Hc1 by (intros c Hc; rewrite !elem_of_cons, elem_of_nil in Hc; lia).
  assert (forall c, c ∈ [47; 98] -> 0 < c < 256) as Hc2 by (intros c Hc; rewrite !elem_of_cons, elem_of_nil in Hc; lia).
  assert (is_bytes (replicate 30 0)) as Hn by (apply Forall_replicate; lia).
  destruct (path_lookup_resolves 1 (replicate 30 0) [47; 97; 47; 47; 98] (small_state b) 0 R ltac:(lia) Hc1 eq_refl Hn) as [(r & s1 & E1 & F1) _].
  destruct (path_lookup_resolves 1 (replicate 30 0) [47; 98] (small_state b) 0 R ltac:(lia) Hc2 eq_refl Hn) as [(r' & s2 & E2 & F2) _].
  change (resolved (small_state b) s1 (resolve small_sb (disk b) false (elements [47; 97; 47; 47; 98]) 0) r) in F1.
  change (resolved (small_state b) s2 (resolve small_sb (disk b) false (elements [47; 98]) 0) r') in F2. rewrite Hd in F1, F2. change (disk small_start) with small_disk in F1, F2.
  assert (resolve small_sb small_disk false (elements [47; 97; 47; 47; 98]) 0 = Some 2 /\ resolve small_sb small_disk false (elements [47; 98]) 0 = None) as [X1 X2]
    by (vm_compute; split; reflexivity).
  rewrite X1 in F1. rewrite X2 in F2. destruct F1 as (_ & _ & i & -> & _ & N1 & _). destruct F2 as (_ & _ & -> & _). exists b, i, s1, s2. split; [exact Hb|]. split; [exact E1|]. split; [exact N1|exact E2].
Defined.
