(* ===== verification/File.v ===== *)
(** * fs/file.c: open files

    The table of open files and the operations on them.  A file pointer is an
    index into ftable[]. *)

From S2P Require Import Prelude Machine Str Lock Pmem Kvm Mmap Uvm Proc Buf Bitmap Inode Dir.

(** ** Data *)

Definition FD_UNUSED : Z := 0.
Definition FD_DIR : Z := 1.
Definition FD_FILE : Z := 2.
Definition FD_DEVICE : Z := 3.
Definition MODE_CREATE : Z := 1.
Definition MODE_READ : Z := 2.
Definition MODE_WRITE : Z := 4.
Definition N_DEV : Z := 10.
Definition N_FILE : Z := 32.
Definition LSEEK_SET : Z := 0.
Definition LSEEK_ADD : Z := 1.
Definition LSEEK_SUB : Z := 2.

Record file : Type := mkFile {
  ftype : Z; readable : bool; writable : bool; fref : Z; fmajor : Z; foffset : Z; fip : option nat }.
Definition blank_file : file := mkFile 0 false false 0 0 0 None.

Definition set_ftype v f := mkFile v (readable f) (writable f) (fref f) (fmajor f) (foffset f) (fip f).
Definition set_readable v f := mkFile (ftype f) v (writable f) (fref f) (fmajor f) (foffset f) (fip f).
Definition set_writable v f := mkFile (ftype f) (readable f) v (fref f) (fmajor f) (foffset f) (fip f).
Definition set_fref v f := mkFile (ftype f) (readable f) (writable f) v (fmajor f) (foffset f) (fip f).
Definition set_fmajor v f := mkFile (ftype f) (readable f) (writable f) (fref f) v (foffset f) (fip f).
Definition set_foffset v f := mkFile (ftype f) (readable f) (writable f) (fref f) (fmajor f) v (fip f).
Definition set_fip v f := mkFile (ftype f) (readable f) (writable f) (fref f) (fmajor f) (foffset f) v.

(** struct dev: the read and write functions a driver registers, if any. *)
Record dev (D : Type) : Type := mkDev {
  dread : option (Z -> Z -> bool -> M (istate D) Z);
  dwrite : option (Z -> Z -> bool -> M (istate D) Z) }.
Arguments mkDev {D}. Arguments dread {D}. Arguments dwrite {D}.

Record fstate (D : Type) : Type := mkF {
  fi : istate D;
  ftable : list file;
  lk_ftable : spinlock;
  devlist : list (dev D);
}.
Arguments mkF {D}. Arguments fi {D}. Arguments ftable {D}. Arguments lk_ftable {D}. Arguments devlist {D}.

Section file.
Context {D : Type} {HD : BlockDev D} (sl_fuel : nat) (buf_addr : nat -> Z) (stack_name : list Z).
(** The address of the file_state_t of file_stat on the kernel stack. *)
Context (stat_addr : Z).

Definition f_i : lens (fstate D) (istate D) :=
  Lens fi (fun i s => mkF i (ftable s) (lk_ftable s) (devlist s)).
Definition f_k : lens (fstate D) kstate :=
  Lens (fun s => lget i_k (fi s)) (fun k s => lset f_i (lset i_k k (fi s)) s).
Definition f_lk : lens (fstate D) (cpu * spinlock) :=
  Lens (fun s => (pcpu (kpm (lget f_k s)), lk_ftable s))
       (fun p s => let s := lset f_k (lset k_cpu (fst p) (lget f_k s)) s in
                   mkF (fi s) (ftable s) (snd p) (devlist s)).
Definition file_at (s : fstate D) (f : nat) : file := default blank_file (ftable s !! f).
Definition upd_file (f : nat) (g : file -> file) (s : fstate D) : fstate D :=
  mkF (fi s) (alter g f (ftable s)) (lk_ftable s) (devlist s).
Definition rd_file (f : nat) : M (fstate D) file := gets (fun s => file_at s f).
Definition wr_file (f : nat) (g : file -> file) : M (fstate D) unit := modify (upd_file f g).
(** A dereference of file->ip. *)
Definition file_ip (f : nat) : M (fstate D) nat :=
  let* fl := rd_file f in match fip fl with Some ip => ret ip | None => fault end.

(** ** Operations *)

Definition file_init : M (fstate D) unit :=
  modify (fun s => mkF (fi s) (ftable s) (spinlock_init "ftable") (devlist s));;;
  for_ (Z.to_nat N_FILE) 0 1 (fun z =>
    wr_file (Z.to_nat z) (set_fref 0);;;
    wr_file (Z.to_nat z) (set_ftype FD_UNUSED));;;
  for_ (Z.to_nat N_DEV) 0 1 (fun z =>
    modify (fun s => mkF (fi s) (ftable s) (lk_ftable s)
      (alter (fun d => mkDev None None) (Z.to_nat z) (devlist s)))).

Definition file_alloc : M (fstate D) nat :=
  zoom f_lk spinlock_acquire;;;
  let* r := for_exit (Z.to_nat N_FILE) 0 1 (fun z =>
    let f := Z.to_nat z in
    let* fl := rd_file f in
    if fref fl =? 0 then
      wr_file f (set_fref 1);;;
      wr_file f (set_ftype FD_UNUSED);;;
      wr_file f (set_readable false);;;
      wr_file f (set_writable false);;;
      wr_file f (set_foffset 0);;;
      wr_file f (set_fip None);;;
      zoom f_lk spinlock_release;;;
      ret (Some f)
    else ret None) in
  match r with
  | Some f => ret f
  | None =>
      zoom f_lk spinlock_release;;;
      panic "file_alloc: no free file"
  end.

Definition file_create_dev (path : list Z) (major minor : Z) : M (fstate D) (option nat) :=
  let* r := zoom f_i (path_create_inode sl_fuel stack_name path FT_DEVICE major minor) in
  match r with
  | None => ret None
  | Some ip =>
      let* f := file_alloc in
      wr_file f (set_ftype FD_DEVICE);;;
      wr_file f (set_readable true);;;
      wr_file f (set_writable true);;;
      wr_file f (set_fmajor major);;;
      wr_file f (set_fip (Some ip));;;
      ret (Some f)
  end.

Definition file_open (path : list Z) (open_mode : Z) : M (fstate D) (option nat) :=
  let* r := zoom f_i (if negb (Z.land open_mode MODE_CREATE =? 0)
                      then path_create_inode sl_fuel stack_name path FT_FILE 0 0
                      else path_to_inode sl_fuel stack_name path) in
  match r with
  | None => ret None
  | Some ip =>
      zoom f_i (inode_lock sl_fuel ip);;;
      let* f := file_alloc in
      let* i := zoom f_i (rd_inode ip) in
      (if itype (idisk i) =? FT_DIR then wr_file f (set_ftype FD_DIR)
       else if itype (idisk i) =? FT_DEVICE then
         wr_file f (set_ftype FD_DEVICE);;;
         wr_file f (set_fmajor (imajor (idisk i)))
       else wr_file f (set_ftype FD_FILE));;;
      wr_file f (set_readable (negb (Z.land open_mode MODE_READ =? 0)));;;
      wr_file f (set_writable (negb (Z.land open_mode MODE_WRITE =? 0)));;;
      wr_file f (set_foffset 0);;;
      wr_file f (set_fip (Some ip));;;
      zoom f_i (inode_unlock ip);;;
      ret (Some f)
  end.

Definition file_close (f : nat) : M (fstate D) unit :=
  zoom f_lk spinlock_acquire;;;
  let* fl := rd_file f in
  when (fref fl <? 1) (panic "file_close: ref < 1");;;
  wr_file f (set_fref (u32 (fref fl - 1)));;;
  let* fl := rd_file f in
  if fref fl =? 0 then
    let ip := fip fl in
    wr_file f (set_ftype FD_UNUSED);;;
    wr_file f (set_fip None);;;
    zoom f_lk spinlock_release;;;
    match ip with
    | Some ip => zoom f_i (inode_free sl_fuel ip)
    | None => ret tt
    end
  else zoom f_lk spinlock_release.

(** inode_read_data and inode_write_data at a user or a kernel address. *)
Definition read_at (ip : nat) (offset len dst : Z) (user : bool) : M (istate D) Z :=
  if user then
    let* r := inode_read_data sl_fuel buf_addr ip offset len (ToUser dst) in ret (fst r)
  else
    let* r := inode_read_data sl_fuel buf_addr ip offset len ToKernel in
    mem_store dst (snd r);;;
    ret (fst r).
Definition write_at (ip : nat) (offset len src : Z) (user : bool) : M (istate D) Z :=
  if user then inode_write_data sl_fuel buf_addr ip offset len (FromUser src)
  else
    let* l := mem_load src (Z.to_nat len) in
    inode_write_data sl_fuel buf_addr ip offset len (FromKernel l).

Definition file_read (f : nat) (len dst : Z) (user : bool) : M (fstate D) Z :=
  let* fl := rd_file f in
  if negb (readable fl) then ret 0
  else if ftype fl =? FD_DEVICE then
    let* devs := gets devlist in
    match (if fmajor fl <? N_DEV then devs !! Z.to_nat (fmajor fl) else None) with
    | Some d => match dread d with Some rdev => zoom f_i (rdev len dst user) | None => ret 0 end
    | None => ret 0
    end
  else if (ftype fl =? FD_FILE) || (ftype fl =? FD_DIR) then
    let* ip := file_ip f in
    zoom f_i (inode_lock sl_fuel ip);;;
    let* fl := rd_file f in
    let* r := zoom f_i (read_at ip (foffset fl) len dst user) in
    let* fl := rd_file f in
    wr_file f (set_foffset (u32 (foffset fl + r)));;;
    zoom f_i (inode_unlock ip);;;
    ret r
  else ret 0.

Definition file_write (f : nat) (len src : Z) (user : bool) : M (fstate D) Z :=
  let* fl := rd_file f in
  if negb (writable fl) then ret 0
  else if ftype fl =? FD_DEVICE then
    let* devs := gets devlist in
    match (if fmajor fl <? N_DEV then devs !! Z.to_nat (fmajor fl) else None) with
    | Some d => match dwrite d with Some wdev => zoom f_i (wdev len src user) | None => ret 0 end
    | None => ret 0
    end
  else if ftype fl =? FD_FILE then
    let* ip := file_ip f in
    zoom f_i (inode_lock sl_fuel ip);;;
    let* fl := rd_file f in
    let* r := zoom f_i (write_at ip (foffset fl) len src user) in
    let* fl := rd_file f in
    wr_file f (set_foffset (u32 (foffset fl + r)));;;
    zoom f_i (inode_unlock ip);;;
    ret r
  else ret 0.

Definition file_lseek (f : nat) (offset flags : Z) : M (fstate D) Z :=
  let* fl := rd_file f in
  if negb (ftype fl =? FD_FILE) then ret U32_FAIL
  else if flags =? LSEEK_SET then
    wr_file f (set_foffset offset);;;
    let* fl := rd_file f in ret (foffset fl)
  else if flags =? LSEEK_ADD then
    wr_file f (set_foffset (u32 (foffset fl + offset)));;;
    let* fl := rd_file f in ret (foffset fl)
  else if flags =? LSEEK_SUB then
    (if offset <=? foffset fl then wr_file f (set_foffset (foffset fl - offset))
     else wr_file f (set_foffset 0));;;
    let* fl := rd_file f in ret (foffset fl)
  else ret U32_FAIL.

Definition file_dup (f : nat) : M (fstate D) nat :=
  zoom f_lk spinlock_acquire;;;
  let* fl := rd_file f in
  assert_ (0 <? fref fl) "file_dup: ref";;;
  wr_file f (set_fref (u32 (fref fl + 1)));;;
  zoom f_lk spinlock_release;;;
  ret f.

(** file_state_t: uint16 type, inode_num, nlink, two bytes of padding, uint32 size. *)
Definition sizeof_file_state : Z := 12.
Definition file_stat (f : nat) (addr : Z) : M (fstate D) Z :=
  let* fl := rd_file f in
  when ((ftype fl =? FD_FILE) || (ftype fl =? FD_DIR))
    (let* ip := file_ip f in
     zoom f_i (inode_lock sl_fuel ip);;;
     let* i := zoom f_i (rd_inode ip) in
     zoom f_i (mem_store stat_addr (enc16 (itype (idisk i)) ++ enc16 (inode_num i) ++ enc16 (inlink (idisk i))));;;
     zoom f_i (mem_store (stat_addr + 8) (enc32 (isize (idisk i))));;;
     zoom f_i (inode_unlock ip);;;
     let* p := zoom f_k myproc in
     let* pp := zoom f_k (rd_proc p) in
     zoom f_k (zoom k_pmem (uvm_copyout (pgtbl pp) addr stat_addr sizeof_file_state)));;;
  ret (-1).

End file.
