(* ===== verification/Fs.v ===== *)
(** * fs/fs.c: mounting the file system

    fs_init reads the super block, checks it, and runs a read/write test of the
    inode layer; it ends in an endless loop. *)

From S2P Require Import Prelude Machine Str Lock Pmem Kvm Mmap Uvm Proc Buf Bitmap Inode.

Definition FS_MAGIC : Z := 0x12345678.
Definition SB_BLOCK_NUM : Z := 0.

(** memmove(&sb, buf->data, sizeof(sb)): nine 32-bit fields. *)
Definition dec_sb (l : list Z) : super_block :=
  mkSb (dec32 l 0) (dec32 l 4) (dec32 l 8) (dec32 l 12) (dec32 l 16) (dec32 l 20)
       (dec32 l 24) (dec32 l 28) (dec32 l 32).
Definition enc_sb (s : super_block) : list Z :=
  enc32 (sb_magic s) ++ enc32 (sb_block_size s) ++ enc32 (inode_bitmap_start s) ++ enc32 (inode_start s) ++
  enc32 (data_bitmap_start s) ++ enc32 (data_start s) ++ enc32 (inode_blocks s) ++ enc32 (data_blocks s) ++
  enc32 (total_blocks s).

(** blockcmp on the 2 * BLOCK_SIZE bytes of the test arrays. *)
Fixpoint blockcmp_loop (n : nat) (i : Z) (a b : list Z) : bool :=
  match n with
  | O => true
  | S n => if a !!! Z.to_nat i =? b !!! Z.to_nat i then blockcmp_loop n (i + 1) a b else false
  end.
Definition blockcmp (a b : list Z) : bool := blockcmp_loop (Z.to_nat (BLOCK_SIZE * 2)) 0 a b.
(** [for(i = 0; i < BLOCK_SIZE * 2; i++) str[i] = (uint8)i;] *)
Definition test_str : list Z := (fun i => u8 (Z.of_nat i)) <$> seq 0 (Z.to_nat (BLOCK_SIZE * 2)).

Section fs.
Context {D : Type} {HD : BlockDev D} (sl_fuel : nat) (buf_addr : nat -> Z).

(** buf_init to sb_print. *)
Definition fs_mount : M (istate D) unit :=
  zoom i_b buf_init;;;
  let* buf := bread sl_fuel SB_BLOCK_NUM in
  let* l := bdata buf in
  modify (fun s => mkI (ib s) (dec_sb l) (icache s) (lk_icache s));;;
  let* s := gets isb in
  assert_ (sb_magic s =? FS_MAGIC) "fs_init: magic";;;
  assert_ (sb_block_size s =? BLOCK_SIZE) "fs_init: block size";;;
  brelse buf.

(** inode_init to the comparison; tmp starts as zeros. *)
Definition fs_test : M (istate D) bool :=
  inode_init;;;
  let* nip := inode_create sl_fuel FT_FILE 0 0 in
  inode_lock sl_fuel nip;;;
  let* _ := inode_print nip in
  let* r := inode_write_data sl_fuel buf_addr nip 0 (BLOCK_SIZE / 2) (FromKernel test_str) in
  assert_ (r =? BLOCK_SIZE / 2) "inode_write_data: fail";;;
  let* r := inode_write_data sl_fuel buf_addr nip (BLOCK_SIZE / 2) (BLOCK_SIZE + BLOCK_SIZE / 2)
              (FromKernel (drop (Z.to_nat (BLOCK_SIZE / 2)) test_str)) in
  assert_ (r =? BLOCK_SIZE + BLOCK_SIZE / 2) "inode_write_data: fail";;;
  let* r := inode_read_data sl_fuel buf_addr nip 0 (BLOCK_SIZE * 2) ToKernel in
  assert_ (fst r =? BLOCK_SIZE * 2) "inode_read_data: fail";;;
  let* _ := inode_print nip in
  inode_unlock_free sl_fuel nip;;;
  ret (blockcmp (blit (replicate (Z.to_nat (BLOCK_SIZE * 2)) 0) 0 (snd r)) test_str).

Definition fs_init : M (istate D) unit :=
  fs_mount;;;
  let* _ := fs_test in
  spin.
End fs.
