(* ===== verification/Mkfs.v ===== *)
(** * mkfs/mkfs.c: the disk image

    The tool that lays out the image: super block, inode bitmap, inode blocks,
    data bitmap, data blocks, with a root directory and the files given to it. *)

From S2P Require Import Prelude Machine Str Lock Pmem Kvm Mmap Uvm Proc Buf Bitmap Inode Dir Fs.

Module Image.

Definition N_DATA_BLOCK : Z := 8192.
Definition N_INODE_BLOCK : Z := 128.
Definition N_BLOCK : Z := N_DATA_BLOCK + N_INODE_BLOCK + 3.

(** The super block main fills in. *)
Definition sb : super_block :=
  mkSb FS_MAGIC BLOCK_SIZE 1 (1 + 1) (1 + 1 + N_INODE_BLOCK) (1 + 1 + N_INODE_BLOCK + 1)
       N_INODE_BLOCK N_DATA_BLOCK N_BLOCK.

Section mkfs.
Context {D : Type} {HD : BlockDev D}.
(** The uninitialised bytes of the dirent_t in dirent_create. *)
Context (junk : list Z).

Definition block_read (block_num : Z) : M D (list Z) := gets (fun d => blk_get d block_num).
Definition block_write (block_num : Z) (buf : list Z) : M D unit := modify (fun d => blk_put d block_num buf).

(** The search of block_alloc and inode_alloc in a bitmap block; without a clear
    bit they print a message and loop for ever. *)
Definition bit_alloc (bitmap : Z) : M D Z :=
  let* buf := block_read bitmap in
  match search_bytes buf 0 with
  | Some (byte, shift, bit_cmp) =>
      block_write bitmap (set_byte byte (fun x => Z.lor x bit_cmp) buf);;;
      ret (byte * 8 + shift)
  | None => spin
  end.
Definition block_alloc : M D Z :=
  let* n := bit_alloc (data_bitmap_start sb) in
  ret (u32 (n + data_start sb)).
Definition inode_alloc : M D Z :=
  let* n := bit_alloc (inode_bitmap_start sb) in
  ret (u16 n).

Definition inode_write (inode_num : Z) (ip : dinode) : M D unit :=
  let num := inode_num / INODE_PER_BLOCK + inode_start sb in
  let* buf := block_read num in
  block_write num (blit buf ((inode_num mod INODE_PER_BLOCK) * INODE_DISK_SIZE) (enc_dinode ip)).
Definition inode_create (inode_num type : Z) : M D dinode :=
  let ip := mkDinode type 0 0 1 0 (replicate (Z.to_nat N_ADDRS) 0) in
  inode_write inode_num ip;;;
  ret ip.

Definition dirent_create (dir_block offset : Z) (name : list Z) (inode_num : Z) : M D Z :=
  assert_ (Z.of_nat (length name) <? 30) "strlen(name) < 30";;;
  let de := enc16 inode_num ++ blit (take 30 junk) 0 (name ++ [0]) in
  let* dir_buf := block_read dir_block in
  block_write dir_block (blit dir_buf offset de);;;
  ret (offset + sizeof_dirent).

(** locate_block: the new entry and the block.  The index block it read is not
    written back. *)
Fixpoint locate_block (levels : nat) (e bn : Z) : M D (Z * Z) :=
  let* e := (if e =? 0 then block_alloc else ret e) in
  match levels with
  | O => ret (e, e)
  | S levels' =>
      let next_size := ENTRY_PER_BLOCK ^ Z.of_nat levels' in
      let* buf := block_read e in
      let* r := locate_block levels' (dec32 buf (4 * Z.to_nat (bn / next_size))%nat) (bn mod next_size) in
      ret (e, snd r)
  end.
Definition inode_locate_block (ip : dinode) (bn : Z) : M D (dinode * Z) :=
  match locate_root bn with
  | None => panic "inode_locate_block: overflow"
  | Some (idx, levels, b) =>
      let* r := locate_block levels (addrs ip !!! idx) b in
      ret (set_addrs (<[idx := fst r]> (addrs ip)) ip, snd r)
  end.

(** The copy loop of main: read(fd, buf, BLOCK_SIZE) overwrites the first bytes
    of buf; bn runs on from file to file. *)
Fixpoint copy_file (fuel : nat) (content buf : list Z) (ip : dinode) (bn : Z) : M D (list Z * dinode * Z) :=
  match fuel with
  | O => no_fuel
  | S fuel =>
      let chunk := take (Z.to_nat BLOCK_SIZE) content in
      let buf := blit buf 0 chunk in
      let* r := inode_locate_block ip bn in
      block_write (snd r) buf;;;
      let ip := set_isize (u32 (isize (fst r) + Z.of_nat (length chunk))) (fst r) in
      if Z.of_nat (length chunk) <? BLOCK_SIZE then ret (buf, ip, u32 (bn + 1))
      else copy_file fuel (drop (Z.to_nat BLOCK_SIZE) content) buf ip (u32 (bn + 1))
  end.
Fixpoint add_files (files : list (list Z * list Z)) (rooti_block offset : Z) (buf : list Z) (bn : Z) : M D unit :=
  match files with
  | [] => ret tt
  | (shortname, content) :: files =>
      let* inum := inode_alloc in
      let* ip := inode_create inum FT_FILE in
      let* offset := dirent_create rooti_block offset shortname inum in
      let* r := copy_file (S (length content)) content buf ip bn in
      let '(buf, ip, bn) := r in
      inode_write inum ip;;;
      add_files files rooti_block offset buf bn
  end.

(** main, the files given by name and content (argc = 2 + their number). *)
Definition main (files : list (list Z * list Z)) : M D unit :=
  let buf := replicate (Z.to_nat BLOCK_SIZE) 0 in
  for_ (Z.to_nat N_BLOCK) 0 1 (fun i => block_write i buf);;;
  let buf := blit buf 0 (enc_sb sb) in
  block_write 0 buf;;;
  let* root_inum := inode_alloc in
  let* rooti_block := block_alloc in
  when (negb (root_inum =? 0)) (panic "rooti");;;
  let* rooti := inode_create root_inum FT_DIR in
  let* offset := dirent_create rooti_block 0 [46] root_inum in
  let* offset := dirent_create rooti_block offset [46; 46] root_inum in
  add_files files rooti_block offset buf 0;;;
  inode_write root_inum
    (set_isize (sizeof_dirent * (2 + Z.of_nat (length files))) (set_addrs (<[O := rooti_block]> (addrs rooti)) rooti)).

End mkfs.
End Image.
