(* ===== verification/FsSpec.v ===== *)
(** * The file system end to end

    The kernel's start-up test on an image made by mkfs, and the loss of index
    block entries. *)

From S2P Require Import Prelude Machine Str Lock Pmem Kvm KvmSpec Mmap Uvm Proc ProcSpec SleepSpec Buf BufSpec Bitmap BitmapSpec.
From S2P Require Import Inode InodeSpec Dir DirSpec File Fs Mkfs.

(** ** An image and a machine *)

(** The image mkfs makes without files, and the machine that boots from it. *)
Definition image : block_map := match Image.main (replicate 30 0) [] (∅ : block_map) with Ret _ d => d | _ => ∅ end.
Definition machine : istate block_map :=
  mkI (mkB calm (replicate 65 blank_node) (spinlock_init "") image) (mkSb 0 0 0 0 0 0 0 0 0)
      (replicate 32 blank_inode) (spinlock_init "").

(** Outcomes without their states. *)
Definition is_spin {S A} (o : outcome S A) : bool := match o with Spin _ => true | _ => false end.
Definition result {S A} (o : outcome S A) : option A := match o with Ret a _ => Some a | _ => None end.
Lemma is_spin_true {S A} (o : outcome S A) : is_spin o = true -> exists s, o = Spin s.
Proof. destruct o; cbn; try discriminate. by eexists. Qed.
Lemma result_some {S A} (o : outcome S A) a : result o = Some a -> exists s, o = Ret a s.
Proof. destruct o; cbn; try discriminate. intros [= ->]. by eexists. Qed.

(** The image mkfs makes is accepted by fs_init: the super block passes both
    checks, the inode self-test of fs_init reads back what it wrote, and fs_init
    then stays in its endless loop and never returns. *)
Theorem fs_init_selftest :
  (exists s, (fs_mount 1;;; fs_test 1 (fun _ => 0)) machine = Ret true s) /\
  (exists s, fs_init 1 (fun _ => 0) machine = Spin s).
Proof.
  split; [apply result_some|apply is_spin_true]; vm_compute; reflexivity.
Qed.

(** Write ten direct blocks and one block behind them, read it, read 64 other
    blocks, and read it again. *)
Definition lose_entry : M (istate block_map) (list Z * list Z) :=
  fs_mount 1;;;
  inode_init;;;
  let* i := inode_create 1 FT_FILE 0 0 in
  inode_lock 1 i;;;
  let* _ := inode_write_data 1 (fun _ => 0) i 0 DIRECT (FromKernel (replicate (Z.to_nat DIRECT) 7)) in
  let* _ := inode_write_data 1 (fun _ => 0) i DIRECT 4 (FromKernel [1; 2; 3; 4]) in
  let* r1 := inode_read_data 1 (fun _ => 0) i DIRECT 4 ToKernel in
  for_ 64 1000 1 (fun n => let* b := bread 1 n in brelse b);;;
  let* r2 := inode_read_data 1 (fun _ => 0) i DIRECT 4 ToKernel in
  ret (snd r1, snd r2).

(** LocateSpec.indirect_entry_lost on a whole file: once 64 other blocks have passed through the
    cache the index block is read from the disk without the entry, and four bytes written at offset
    10240 read back at first and are zeros afterwards. *)
Theorem entry_lost_run : exists s, lose_entry machine = Ret ([1; 2; 3; 4], [0; 0; 0; 0]) s.
Proof. apply result_some. vm_compute. reflexivity. Qed.
