(* ===== verification/Syscall.v ===== *)
(** * syscall/: the system calls, with the system clock of dev/timer.c

    syscall() dispatches on a7; arguments are read from the trapframe of the
    current process, strings through its page table.  Return values are the
    uint64 put into a0. *)

From S2P Require Import Prelude Machine Str Lock Pmem Kvm Mmap Uvm Proc Buf Bitmap Inode Dir File.

(** ** dev/timer.c: the system clock *)

Record timer : Type := mkTimer { ticks : Z; timer_lk : spinlock }.

Record sysstate (D : Type) : Type := mkSys { sf : fstate D; sys_timer : timer }.
Arguments mkSys {D}. Arguments sf {D}. Arguments sys_timer {D}.

(** (uint64)-1 *)
Definition U64_FAIL : Z := u64 (-1).

(** The system call numbers of sysnum.h. *)
Definition SYS_exec : Z := 0.
Definition SYS_brk : Z := 1.
Definition SYS_mmap : Z := 2.
Definition SYS_munmap : Z := 3.
Definition SYS_fork : Z := 4.
Definition SYS_wait : Z := 5.
Definition SYS_exit : Z := 6.
Definition SYS_sleep : Z := 7.
Definition SYS_open : Z := 8.
Definition SYS_close : Z := 9.
Definition SYS_read : Z := 10.
Definition SYS_write : Z := 11.
Definition SYS_lseek : Z := 12.
Definition SYS_dup : Z := 13.
Definition SYS_fstat : Z := 14.
Definition SYS_getdir : Z := 15.
Definition SYS_mkdir : Z := 16.
Definition SYS_chdir : Z := 17.
Definition SYS_link : Z := 18.
Definition SYS_unlink : Z := 19.
Definition SYS_MAX : Z := 19.

(** The characters at an address up to the NUL, within [fuel] bytes. *)
Fixpoint cstring (fuel : nat) (m : memory) (a : Z) : option (list Z) :=
  match fuel with
  | O => None
  | S fuel => if ld8 m a =? 0 then Some [] else (cons (ld8 m a)) <$> cstring fuel m (a + 1)
  end.

Section syscall.
Context {D : Type} {HD : BlockDev D} (sl_fuel : nat) (buf_addr : nat -> Z) (stack_name : list Z) (stat_addr : Z).
Context (trampoline trap_user_handler fork_return_addr r_satp : Z) (exit_state_addr : nat -> Z).
(** The addresses of the path arrays on the kernel stack, and the bound on the
    wakeups of one wait or sleep (the source's loops have none). *)
Context (path_addr old_path_addr new_path_addr : Z) (wait_fuel : nat).

Definition s_f : lens (sysstate D) (fstate D) := Lens sf (fun f s => mkSys f (sys_timer s)).
Definition s_k : lens (sysstate D) kstate :=
  Lens (fun s => lget f_k (sf s)) (fun k s => lset s_f (lset f_k k (sf s)) s).
Definition s_i : lens (sysstate D) (istate D) :=
  Lens (fun s => fi (sf s)) (fun i s => lset s_f (lset f_i i (sf s)) s).
Definition s_tlk : lens (sysstate D) spinlock :=
  Lens (fun s => timer_lk (sys_timer s)) (fun l s => mkSys (sf s) (mkTimer (ticks (sys_timer s)) l)).
Definition s_timer : lens (sysstate D) (cpu * spinlock) := cond_lens s_k s_tlk.

Definition timer_create : M (sysstate D) unit :=
  modify (fun s => mkSys (sf s) (mkTimer 0 (timer_lk (sys_timer s))));;;
  modify (fun s => mkSys (sf s) (mkTimer (ticks (sys_timer s)) (spinlock_init "timer"))).
Definition timer_update : M (sysstate D) unit :=
  zoom s_timer spinlock_acquire;;;
  modify (fun s => mkSys (sf s) (mkTimer (u64 (ticks (sys_timer s) + 1)) (timer_lk (sys_timer s))));;;
  zoom s_timer spinlock_release.
Definition timer_get_ticks : M (sysstate D) Z := gets (fun s => ticks (sys_timer s)).

(** ** Arguments *)

Definition arg_raw (n : Z) : M (sysstate D) Z :=
  let* p := zoom s_k myproc in
  if (0 <=? n) && (n <=? 5) then zoom s_k (tf_read p (tf_a n))
  else panic "arg_raw: illegal arg num".
Definition arg_uint32 (n : Z) : M (sysstate D) Z := let* v := arg_raw n in ret (u32 v).
Definition arg_uint64 (n : Z) : M (sysstate D) Z := arg_raw n.
(** An int argument, read through a uint32 pointer. *)
Definition arg_int (n : Z) : M (sysstate D) Z := let* v := arg_uint32 n in ret (i32 v).
Definition arg_str (n buf maxlen : Z) : M (sysstate D) unit :=
  let* p := zoom s_k myproc in
  let* pp := zoom s_k (rd_proc p) in
  let* addr := arg_uint64 n in
  zoom s_k (zoom k_pmem (uvm_copyin_str (pgtbl pp) buf addr maxlen)).
(** The string a path array holds once the arguments are read: uvm_copyin_str
    writes no NUL when maxlen characters were copied, and the string then goes on
    in the bytes behind the array, here at most to the end of a page. *)
Definition path_of (buf : Z) : M (sysstate D) (list Z) :=
  let* k := gets (lget s_k) in
  match cstring (Z.to_nat PGSIZE) (pm (kpm k)) buf with
  | Some l => ret l
  | None => no_fuel
  end.

(** ** sysfunc.c *)

Definition sys_brk : M (sysstate D) Z :=
  let* p := zoom s_k myproc in
  let* new_heap_top := arg_uint64 0 in
  let* pp := zoom s_k (rd_proc p) in
  if new_heap_top =? 0 then ret (heap_top pp)
  else if new_heap_top <? 2 * PGSIZE then ret U64_FAIL
  else
    let stack_bottom := u64 (TRAPFRAME - ustack_pages pp * PGSIZE - PGSIZE) in
    if stack_bottom <? new_heap_top then ret U64_FAIL
    else
      let old_heap_top := heap_top pp in
      (if old_heap_top <? new_heap_top then
         let len := u32 (new_heap_top - old_heap_top) in
         let* h := zoom s_k (zoom k_pmem (uvm_heap_grow (pgtbl pp) old_heap_top len)) in
         zoom s_k (wr_proc p (set_heap_top h))
       else if new_heap_top <? old_heap_top then
         let len := u32 (old_heap_top - new_heap_top) in
         let* h := zoom s_k (zoom k_pmem (uvm_heap_ungrow (pgtbl pp) old_heap_top len)) in
         zoom s_k (wr_proc p (set_heap_top h))
       else ret tt);;;
      let* pp := zoom s_k (rd_proc p) in
      ret (heap_top pp).

(** The scan of the free list of sys_mmap: the begin of the first region that is
    large enough, 0 when there is none. *)
Fixpoint mmap_find (fuel : nat) (curr : option nat) (npages : Z) : M vproc Z :=
  match fuel, curr with
  | O, _ => no_fuel
  | _, None => ret 0
  | S fuel, Some _ =>
      let* r := rd_region curr in
      if npages <=? mnpages r then ret (mbegin r) else mmap_find fuel (mnext r) npages
  end.

Definition sys_mmap : M (sysstate D) Z :=
  let* p := zoom s_k myproc in
  let* start := arg_uint64 0 in
  let* len := arg_uint32 1 in
  if (len =? 0) || negb (len mod PGSIZE =? 0) then ret U64_FAIL
  else
    let npages := len / PGSIZE in
    let* pp := zoom s_k (rd_proc p) in
    let* start := (if start =? 0 then
                     let* b := zoom s_k (zoom (k_vproc p) (mmap_find list_fuel (p_mmap pp) npages)) in
                     ret (if b =? 0 then None else Some b)
                   else ret (if negb (start mod PGSIZE =? 0) then None else Some start)) in
    match start with
    | None => ret U64_FAIL
    | Some start =>
        zoom s_k (zoom (k_vproc p) (uvm_mmap (pgtbl pp) start npages (Z.lor PTE_R PTE_W)));;;
        ret start
    end.

Definition sys_munmap : M (sysstate D) Z :=
  let* start := arg_uint64 0 in
  let* len := arg_uint32 1 in
  if negb (start mod PGSIZE =? 0) || (len =? 0) || negb (len mod PGSIZE =? 0) then ret U64_FAIL
  else
    let npages := len / PGSIZE in
    let* p := zoom s_k myproc in
    let* pp := zoom s_k (rd_proc p) in
    zoom s_k (zoom (k_vproc p) (uvm_munmap (pgtbl pp) start npages));;;
    ret 0.

(** The characters sys_print prints are returned with its result. *)
Definition sys_print : M (sysstate D) (Z * list Z) :=
  arg_str 0 path_addr 128;;;
  let* l := path_of path_addr in
  ret (0, l).

Definition sys_fork : M (sysstate D) Z :=
  let* r := zoom s_k (proc_fork trampoline trap_user_handler fork_return_addr r_satp) in ret (u64 r).
Definition sys_wait : M (sysstate D) Z :=
  let* addr := arg_uint64 0 in
  let* r := zoom s_k (proc_wait exit_state_addr wait_fuel addr) in ret (u64 r).
Definition sys_exit : M (sysstate D) Z :=
  let* e := arg_int 0 in
  zoom s_k (proc_exit e);;;
  ret 0.

Definition sys_sleep : M (sysstate D) Z :=
  let* n := arg_uint32 0 in
  zoom s_timer spinlock_acquire;;;
  let* ticks0 := timer_get_ticks in
  while_ wait_fuel
    (let* t := timer_get_ticks in ret (u64 (t - ticks0) <? n))
    (proc_sleep s_k ChTicks (Some s_timer));;;
  zoom s_timer spinlock_release;;;
  ret 0.

Definition sys_exec : M (sysstate D) Z := ret U64_FAIL.

(** ** sysfile.c *)

(** arg_fd: the descriptor and its file, or failure. *)
Definition arg_fd (n : Z) : M (sysstate D) (option (Z * nat)) :=
  let* fd := arg_int n in
  if (fd <? 0) || (FILE_PER_PROC <=? fd) then ret None
  else
    let* p := zoom s_k myproc in
    let* pp := zoom s_k (rd_proc p) in
    match filelist pp !! Z.to_nat fd with
    | Some (Some f) => ret (Some (fd, f))
    | _ => ret None
    end.

Definition fd_alloc (f : nat) : M (sysstate D) Z :=
  let* p := zoom s_k myproc in
  let* r := for_exit (Z.to_nat FILE_PER_PROC) 0 1 (fun fd =>
    let* pp := zoom s_k (rd_proc p) in
    match filelist pp !! Z.to_nat fd with
    | Some None =>
        zoom s_k (wr_proc p (set_filelist (<[Z.to_nat fd := Some f]> (filelist pp))));;;
        ret (Some fd)
    | _ => ret None
    end) in
  ret (default (-1) r).

Definition sys_open : M (sysstate D) Z :=
  arg_str 0 path_addr DIR_PATH_LEN;;;
  let* open_mode := arg_uint32 1 in
  let* path := path_of path_addr in
  let* r := zoom s_f (file_open sl_fuel stack_name path open_mode) in
  match r with
  | None => ret U64_FAIL
  | Some f =>
      let* fd := fd_alloc f in
      when (fd =? -1) (zoom s_f (file_close sl_fuel f));;;
      ret (u64 fd)
  end.

Definition sys_close : M (sysstate D) Z :=
  let* r := arg_fd 0 in
  match r with
  | None => ret U64_FAIL
  | Some (fd, f) =>
      let* p := zoom s_k myproc in
      let* pp := zoom s_k (rd_proc p) in
      zoom s_k (wr_proc p (set_filelist (<[Z.to_nat fd := None]> (filelist pp))));;;
      zoom s_f (file_close sl_fuel f);;;
      ret 0
  end.

Definition sys_read : M (sysstate D) Z :=
  let* r := arg_fd 0 in
  match r with
  | None => ret U64_FAIL
  | Some (_, f) =>
      let* len := arg_uint32 1 in
      let* addr := arg_uint64 2 in
      zoom s_f (file_read sl_fuel buf_addr f len addr true)
  end.

Definition sys_write : M (sysstate D) Z :=
  let* r := arg_fd 0 in
  match r with
  | None => ret U64_FAIL
  | Some (_, f) =>
      let* len := arg_uint32 1 in
      let* addr := arg_uint64 2 in
      zoom s_f (file_write sl_fuel buf_addr f len addr true)
  end.

Definition sys_lseek : M (sysstate D) Z :=
  let* r := arg_fd 0 in
  match r with
  | None => ret U64_FAIL
  | Some (_, f) =>
      let* offset := arg_uint32 1 in
      let* flags := arg_int 2 in
      zoom s_f (file_lseek f offset flags)
  end.

Definition sys_dup : M (sysstate D) Z :=
  let* r := arg_fd 0 in
  match r with
  | None => ret U64_FAIL
  | Some (_, f) =>
      let* new_fd := fd_alloc f in
      let* _ := zoom s_f (file_dup f) in
      ret (u64 new_fd)
  end.

Definition sys_fstat : M (sysstate D) Z :=
  let* r := arg_fd 0 in
  match r with
  | None => ret U64_FAIL
  | Some (_, f) =>
      let* addr := arg_uint64 1 in
      let* r := zoom s_f (file_stat sl_fuel stat_addr f addr) in
      ret (u64 r)
  end.

Definition sys_getdir : M (sysstate D) Z :=
  let* r := arg_fd 0 in
  match r with
  | None => ret U64_FAIL
  | Some (_, f) =>
      let* addr := arg_uint64 1 in
      let* len := arg_uint32 2 in
      let* fl := zoom s_f (rd_file f) in
      match (if ftype fl =? FD_DIR then fip fl else None) with
      | None => ret U64_FAIL
      | Some ip =>
          zoom s_i (inode_lock sl_fuel ip);;;
          let* r := zoom s_i (dir_get_entries sl_fuel buf_addr ip len (ToUser addr)) in
          zoom s_i (inode_unlock ip);;;
          ret (fst r)
      end
  end.

Definition sys_mkdir : M (sysstate D) Z :=
  arg_str 0 path_addr DIR_PATH_LEN;;;
  let* path := path_of path_addr in
  let* r := zoom s_i (path_create_inode sl_fuel stack_name path FT_DIR 0 0) in
  ret (match r with None => U64_FAIL | Some _ => 0 end).

Definition sys_chdir : M (sysstate D) Z :=
  arg_str 0 path_addr DIR_PATH_LEN;;;
  let* path := path_of path_addr in
  zoom s_i (dir_change sl_fuel stack_name path).

Definition sys_link : M (sysstate D) Z :=
  arg_str 0 old_path_addr DIR_PATH_LEN;;;
  arg_str 1 new_path_addr DIR_PATH_LEN;;;
  let* old_path := path_of old_path_addr in
  let* new_path := path_of new_path_addr in
  zoom s_i (path_link sl_fuel stack_name old_path new_path).

Definition sys_unlink : M (sysstate D) Z :=
  arg_str 0 path_addr DIR_PATH_LEN;;;
  let* path := path_of path_addr in
  zoom s_i (path_unlink sl_fuel buf_addr stack_name path).

(** ** syscall() *)

(** The table syscalls[]. *)
Definition syscalls (num : Z) : option (M (sysstate D) Z) :=
  if num =? SYS_exec then Some sys_exec
  else if num =? SYS_brk then Some sys_brk
  else if num =? SYS_mmap then Some sys_mmap
  else if num =? SYS_munmap then Some sys_munmap
  else if num =? SYS_fork then Some sys_fork
  else if num =? SYS_wait then Some sys_wait
  else if num =? SYS_exit then Some sys_exit
  else if num =? SYS_sleep then Some sys_sleep
  else if num =? SYS_open then Some sys_open
  else if num =? SYS_close then Some sys_close
  else if num =? SYS_read then Some sys_read
  else if num =? SYS_write then Some sys_write
  else if num =? SYS_lseek then Some sys_lseek
  else if num =? SYS_dup then Some sys_dup
  else if num =? SYS_fstat then Some sys_fstat
  else if num =? SYS_getdir then Some sys_getdir
  else if num =? SYS_mkdir then Some sys_mkdir
  else if num =? SYS_chdir then Some sys_chdir
  else if num =? SYS_link then Some sys_link
  else if num =? SYS_unlink then Some sys_unlink
  else None.

Definition syscall : M (sysstate D) unit :=
  let* p := zoom s_k myproc in
  let* a7 := zoom s_k (tf_read p (tf_a 7)) in
  let num := i32 a7 in
  match (if (0 <=? num) && (num <=? SYS_MAX) then syscalls num else None) with
  | Some f => let* r := f in zoom s_k (tf_write p (tf_a 0) r)
  | None => zoom s_k (tf_write p (tf_a 0) U64_FAIL)
  end.

End syscall.
