(* ===== verification/FileSpec.v ===== *)
(** * Properties of the table of open files and of descriptors *)

From S2P Require Import Prelude Machine Str Lock Pmem Kvm KvmSpec Mmap Uvm UvmSpec Proc ProcSpec Buf BufSpec Bitmap Inode Dir File Syscall.

Section file.
Context {D : Type} {HD : BlockDev D} (sl_fuel : nat).
Notation F := (fstate D).

Definition fcpu (s : F) : cpu := pcpu (kpm (lget f_k s)).
Definition with_table (l : list file) (c : cpu) (s : F) : F :=
  let s := lset f_k (lset k_cpu c (lget f_k s)) s in mkF (fi s) l (lk_ftable s) (devlist s).
(** The table lock is free and the hart in order. *)
Definition table_free (s : F) : Prop := lk_free (lk_ftable s) /\ cpu_wf (fcpu s).

(** The state inside the critical section. *)
Definition tlocked (s : F) : F := lset f_lk (pushed (fcpu s), lk_held (fcpu s) (lk_ftable s)) s.
Definition with_files (l : list file) (s : F) : F := mkF (fi s) l (lk_ftable s) (devlist s).
Lemma f_acquire s : table_free s -> zoom f_lk spinlock_acquire s = Ret tt (tlocked s).
Proof. intros [Hl Hc]. erewrite zoom_run by (by apply spinlock_acquire_run). done. Qed.
Lemma f_release l s : table_free s ->
  zoom f_lk spinlock_release (with_files l (tlocked s)) = Ret tt (with_table l (synced (fcpu s)) s).
Proof.
  intros [Hl Hc]. erewrite zoom_run by (by apply spinlock_release_run).
  by destruct s as [[[[[? ? ? ?] ? ? ? ? ?] ? ? ?] ? ? ?] ? ? ?].
Qed.
Lemma locked_files s : tlocked s = with_files (ftable s) (tlocked s).
Proof. done. Qed.
Lemma upd_with f g l s : upd_file f g (with_files l s) = with_files (alter g f l) s.
Proof. done. Qed.

(** The free slots, lowest first. *)
Definition free_slots (l : list file) (i n : nat) : list nat :=
  filter (fun f => fref (default blank_file (l !! f)) = 0) (seq i n).
Definition fresh_file (f : file) : file := mkFile FD_UNUSED false false 1 (fmajor f) 0 None.

Lemma ftable_scan s l i n : table_free s ->
  for_exit n (Z.of_nat i) 1 (fun z =>
    let f := Z.to_nat z in
    let* fl := rd_file f in
    if fref fl =? 0 then
      wr_file f (set_fref 1);;; wr_file f (set_ftype FD_UNUSED);;; wr_file f (set_readable false);;;
      wr_file f (set_writable false);;; wr_file f (set_foffset 0);;; wr_file f (set_fip None);;;
      zoom f_lk spinlock_release;;; ret (Some f)
    else ret None) (with_files l (tlocked s)) =
  match free_slots l i n with
  | [] => Ret None (with_files l (tlocked s))
  | f :: _ => Ret (Some f) (with_table (alter fresh_file f l) (synced (fcpu s)) s)
  end.
Proof.
  intros Ht. unfold free_slots. revert i. induction n as [|n IH]; intros i; cbn [for_exit seq]; [done|]. unfold rd_file, wr_file. mstep.
  rewrite Nat2Z.id. change (file_at (with_files l (tlocked s)) i) with (default blank_file (l !! i)).
  rewrite filter_cons. bcase (fref (default blank_file (l !! i)) =? 0).
  - rewrite decide_True by done. mstep. rewrite !upd_with. rewrite (bind_run _ _ _ _ _ (f_release _ s Ht)). mstep.
    do 2 f_equal. apply list_eq. intros j. destruct (decide (j = i)) as [->|Hne].
    + rewrite !list_lookup_alter_eq. by destruct (l !! i).
    + by rewrite !list_lookup_alter_ne.
  - rewrite decide_False by done. mstep. replace (Z.of_nat i + 1) with (Z.of_nat (S i)) by lia. apply IH.
Qed.
Lemma file_alloc_run s : table_free s ->
  file_alloc s = match free_slots (ftable s) 0 (Z.to_nat N_FILE) with
                 | [] => Panic "file_alloc: no free file"
                 | f :: _ => Ret f (with_table (alter fresh_file f (ftable s)) (synced (fcpu s)) s)
                 end.
Proof.
  intros Ht. unfold file_alloc. rewrite (bind_run _ _ _ _ _ (f_acquire s Ht)), locked_files.
  pose proof (ftable_scan s (ftable s) 0 (Z.to_nat N_FILE) Ht) as E. change (Z.of_nat 0) with 0 in E.
  destruct (free_slots _ _ _) as [|f r]; rewrite (bind_run _ _ _ _ _ E); [|done].
  by rewrite (bind_run _ _ _ _ _ (f_release _ s Ht)).
Qed.
Lemma file_dup_run f s : table_free s -> 0 < fref (file_at s f) ->
  file_dup f s = Ret f (with_table (alter (fun x => set_fref (u32 (fref x + 1)) x) f (ftable s)) (synced (fcpu s)) s).
Proof.
  intros Ht Hr. unfold file_dup, rd_file, wr_file. rewrite (bind_run _ _ _ _ _ (f_acquire s Ht)), locked_files. mstep.
  change (file_at (with_files (ftable s) (tlocked s)) f) with (file_at s f). bcase (0 <? fref (file_at s f)); [|lia]. mstep.
  rewrite upd_with, (bind_run _ _ _ _ _ (f_release _ s Ht)). mstep. do 2 f_equal. apply list_eq. intros j.
  destruct (decide (j = f)) as [->|Hne]; [|by rewrite !list_lookup_alter_ne].
  rewrite !list_lookup_alter_eq. unfold file_at. by destruct (ftable s !! f).
Qed.
Lemma file_close_run f s : table_free s -> 0 <= fref (file_at s f) < 2 ^ 32 ->
  file_close sl_fuel f s =
  if fref (file_at s f) =? 0 then Panic "file_close: ref < 1"
  else if fref (file_at s f) =? 1 then
    (match fip (file_at s f) with Some ip => zoom f_i (inode_free sl_fuel ip) | None => ret tt end)
      (with_table (alter (fun x => set_fip None (set_ftype FD_UNUSED (set_fref 0 x))) f (ftable s)) (synced (fcpu s)) s)
  else Ret tt (with_table (alter (fun x => set_fref (fref x - 1) x) f (ftable s)) (synced (fcpu s)) s).
Proof.
  intros Ht Hr. unfold file_close, rd_file, wr_file. rewrite (bind_run _ _ _ _ _ (f_acquire s Ht)), locked_files. mstep.
  change (file_at (with_files (ftable s) (tlocked s)) f) with (file_at s f).
  bcase (fref (file_at s f) =? 0); [by rewrite E|]. bcase (fref (file_at s f) <? 1); [lia|]. mstep. rewrite upd_with, u32_small by lia.
  assert (exists x, ftable s !! f = Some x) as [x Hx].
  { unfold file_at in *. destruct (ftable s !! f) as [x|]; [by exists x|done]. }
  assert (file_at s f = x) as Hfx by (unfold file_at; by rewrite Hx).
  assert (file_at (with_files (alter (set_fref (fref (file_at s f) - 1)) f (ftable s)) (tlocked s)) f = set_fref (fref x - 1) x) as ->.
  { unfold file_at at 1. cbn [ftable with_files]. by rewrite list_lookup_alter_eq, Hx, Hfx. }
  rewrite Hfx in *. cbn [fref set_fref fip]. assert (forall g h : file -> file, g x = h x -> alter g f (ftable s) = alter h f (ftable s)) as Heq.
  { intros g h H. apply list_eq. intros j. destruct (decide (j = f)) as [->|]; [|by rewrite !list_lookup_alter_ne].
    by rewrite !list_lookup_alter_eq, Hx; cbn; rewrite H. }
  bcase (fref x =? 1); bcase (fref x - 1 =? 0); try lia.
  - mstep. rewrite !upd_with, !alter_alter. rewrite (bind_run _ _ _ _ _ (f_release _ s Ht)).
    rewrite (Heq _ (fun x => set_fip None (set_ftype FD_UNUSED (set_fref 0 x)))); [done|]. cbn. by rewrite E1.
  - rewrite (f_release _ s Ht). by rewrite (Heq _ (fun x => set_fref (fref x - 1) x)).
Qed.

Lemma table_free_with l s : table_free s -> table_free (with_table l (synced (fcpu s)) s).
Proof. intros [Hl Hc]. split; [done|]. by apply synced_wf. Qed.

(** The table of open files is a pool of reference-counted entries.  Allocation
    takes the lowest entry with no reference, gives it one, without inode, access
    or offset, and panics when there is none; file_dup() adds a reference and
    file_close() takes one, the last one releasing the inode and freeing the entry;
    both panic on an entry without references.  No other entry changes, the lock is
    free again, and a duplicate that is closed leaves the table as it was. *)
Theorem file_table_pool s : table_free s ->
  match free_slots (ftable s) 0 (Z.to_nat N_FILE) with
  | [] => file_alloc s = Panic "file_alloc: no free file"
  | f :: _ => exists s', file_alloc s = Ret f s' /\ table_free s' /\ ftable s' = alter fresh_file f (ftable s)
  end /\
  forall f, 0 <= fref (file_at s f) < 2 ^ 32 - 1 ->
    (fref (file_at s f) = 0 -> file_dup f s = Panic "file_dup: ref" /\ file_close sl_fuel f s = Panic "file_close: ref < 1") /\
    (0 < fref (file_at s f) -> exists s1 s2, file_dup f s = Ret f s1 /\ table_free s1 /\
       ftable s1 = alter (fun x => set_fref (fref x + 1) x) f (ftable s) /\
       file_close sl_fuel f s1 = Ret tt s2 /\ table_free s2 /\ ftable s2 = ftable s) /\
    (fref (file_at s f) = 1 -> fip (file_at s f) = None -> exists s', file_close sl_fuel f s = Ret tt s' /\ table_free s' /\
       ftable s' = alter (fun x => set_fip None (set_ftype FD_UNUSED (set_fref 0 x))) f (ftable s)).
Proof.
  intros Ht. split.
  - rewrite file_alloc_run by done. destruct (free_slots _ _ _) as [|f r]; [done|]. eexists. split_and!; [done|by apply table_free_with|done].
  - intros f Hr. assert (ftable s !! f = Some (file_at s f) \/ file_at s f = blank_file) as Hx
      by (unfold file_at; destruct (ftable s !! f); auto). split_and!.
    + intros H0. split; [|rewrite file_close_run by (done || lia); by rewrite H0].
      unfold file_dup, rd_file. rewrite (bind_run _ _ _ _ _ (f_acquire s Ht)), locked_files. mstep.
      change (file_at (with_files (ftable s) (tlocked s)) f) with (file_at s f). by rewrite H0.
    + intros Hp. destruct Hx as [Hx|Hb]; [|by rewrite Hb in Hp].
      rewrite file_dup_run by done. set (x := file_at s f) in *.
      assert (alter (fun x => set_fref (u32 (fref x + 1)) x) f (ftable s) = alter (fun x => set_fref (fref x + 1) x) f (ftable s)) as ->.
      { apply list_eq. intros j. destruct (decide (j = f)) as [->|]; [|by rewrite !list_lookup_alter_ne].
        rewrite !list_lookup_alter_eq, Hx. cbn. by rewrite u32_small by lia. }
      set (s1 := with_table _ _ s). assert (table_free s1) as Ht1 by (by apply table_free_with).
      assert (file_at s1 f = set_fref (fref x + 1) x) as Hx1 by (unfold file_at; cbn [s1 with_table ftable]; by rewrite list_lookup_alter_eq, Hx).
      eexists s1, _. split_and!; [done|done|done| | |].
      * rewrite (file_close_run f s1 Ht1) by (rewrite Hx1; cbn; lia). rewrite Hx1. cbn [fref set_fref].
        bcase (fref x + 1 =? 0); [lia|]. bcase (fref x + 1 =? 1); [lia|]. reflexivity.
      * by apply table_free_with.
      * cbn [ftable with_table s1]. rewrite alter_alter. apply list_eq. intros j.
        destruct (decide (j = f)) as [->|]; [|by rewrite list_lookup_alter_ne]. rewrite list_lookup_alter_eq, Hx. cbn. f_equal.
        destruct x as [? ? ? r ? ? ?]. unfold set_fref. cbn. f_equal. lia.
    + intros H1 Hi. rewrite file_close_run by (done || lia). rewrite H1, Hi. cbn [Z.eqb Pos.eqb]. eexists.
      split_and!; [done|by apply table_free_with|done].
Qed.

(** file_lseek() on every input: a file that is not a regular one and an unknown
    flag are refused with nothing changed; otherwise the new offset is returned and
    stored: the given one, the sum modulo 2^32, or the difference, not below 0. *)
Theorem file_lseek_cases f offset flags (s : F) : is_Some (ftable s !! f) ->
  0 <= offset < 2 ^ 32 -> 0 <= foffset (file_at s f) < 2 ^ 32 ->
  let old := foffset (file_at s f) in
  file_lseek f offset flags s =
  match (if negb (ftype (file_at s f) =? FD_FILE) then None
         else if flags =? LSEEK_SET then Some offset
         else if flags =? LSEEK_ADD then Some ((old + offset) mod 2 ^ 32)
         else if flags =? LSEEK_SUB then Some (Z.max 0 (old - offset)) else None : option Z) with
  | None => Ret U32_FAIL s
  | Some new => Ret new (upd_file f (set_foffset new) s)
  end.
Proof.
  intros [x Hx] Ho Hf old. assert (forall new, file_at (upd_file f (set_foffset new) s) f = set_foffset new x) as Hat.
  { intros new. unfold file_at, upd_file. cbn [ftable]. by rewrite list_lookup_alter_eq, Hx. }
  unfold file_lseek, rd_file, wr_file. mstep. destruct (negb (ftype (file_at s f) =? FD_FILE)); [done|].
  destruct (flags =? LSEEK_SET); [mstep; by rewrite Hat|].
  destruct (flags =? LSEEK_ADD); [mstep; by rewrite Hat|].
  destruct (flags =? LSEEK_SUB); [|done]. fold old. bcase (offset <=? old); mstep; rewrite Hat; cbn [foffset set_foffset].
  - by rewrite Z.max_r by lia.
  - by rewrite Z.max_l by lia.
Qed.
End file.

(** ** Descriptors *)

Section fd.
Context {D : Type} {HD : BlockDev D}.
Notation Y := (sysstate D).

Lemma s_k_id (y : Y) : lset s_k (lget s_k y) y = y.
Proof. by destruct y as [[[[? ? ? ?] ? ? ?] ? ? ?] ?]. Qed.
Lemma s_k_gets {A} (f : kstate -> A) (y : Y) : zoom s_k (gets f) y = Ret (f (lget s_k y)) y.
Proof. unfold zoom, gets. cbn [ozoom]. by rewrite s_k_id. Qed.
Lemma s_myproc p (y : Y) : cproc (kcpu (lget s_k y)) = Some p -> zoom s_k myproc y = Ret p y.
Proof.
  intros H. unfold zoom, myproc, myproc_opt, bind, gets. cbn [obind]. unfold kcpu in H. rewrite H. cbn. f_equal. apply s_k_id.
Qed.

(** The open-file pointers of process [p]. *)
Definition fds (p : nat) (y : Y) : list (option nat) := filelist (proc_at (lget s_k y) p).
Definition set_fd (p : nat) (fd : nat) (f : nat) (y : Y) : Y :=
  lset s_k (upd_procs p (set_filelist (<[fd := Some f]> (fds p y))) (lget s_k y)) y.
Definition free_fds (l : list (option nat)) (i n : nat) : list nat := filter (fun fd => l !! fd = Some None) (seq i n).

Lemma fd_scan p f (y : Y) i n : cproc (kcpu (lget s_k y)) = Some p ->
  for_exit n (Z.of_nat i) 1 (fun fd =>
    let* pp := zoom s_k (rd_proc p) in
    match filelist pp !! Z.to_nat fd with
    | Some None => zoom s_k (wr_proc p (set_filelist (<[Z.to_nat fd := Some f]> (filelist pp))));;; ret (Some fd)
    | _ => ret None
    end) y =
  match free_fds (fds p y) i n with
  | [] => Ret None y
  | fd :: _ => Ret (Some (Z.of_nat fd)) (set_fd p fd f y)
  end.
Proof.
  intros Hp. unfold free_fds. revert i. induction n as [|n IH]; intros i; cbn [for_exit seq]; [done|]. unfold rd_proc. mstep.
  rewrite (bind_run _ _ _ _ _ (s_k_gets _ y)). rewrite Nat2Z.id. fold (fds p y). rewrite filter_cons.
  replace (Z.of_nat i + 1) with (Z.of_nat (S i)) by lia. destruct (fds p y !! i) as [[g|]|] eqn:E.
  - rewrite decide_False by done. mstep. apply IH.
  - rewrite decide_True by done. done.
  - rewrite decide_False by done. mstep. apply IH.
Qed.
Lemma fd_alloc_run p f (y : Y) : cproc (kcpu (lget s_k y)) = Some p ->
  fd_alloc f y = match free_fds (fds p y) 0 (Z.to_nat FILE_PER_PROC) with
                 | [] => Ret (-1) y
                 | fd :: _ => Ret (Z.of_nat fd) (set_fd p fd f y)
                 end.
Proof.
  intros Hp. unfold fd_alloc. rewrite (bind_run _ _ _ _ _ (s_myproc p y Hp)).
  pose proof (fd_scan p f y 0 (Z.to_nat FILE_PER_PROC) Hp) as E. change (Z.of_nat 0) with 0 in E.
  destruct (free_fds _ _ _); by rewrite (bind_run _ _ _ _ _ E).
Qed.
Lemma s_tf_read p off (y : Y) (t := tf (proc_at (lget s_k y) p)) : t <> NULL ->
  zoom s_k (tf_read p off) y = Ret (ld64 (pm (kpm (lget s_k y))) (t + off)) y.
Proof. intros Ht. unfold zoom, tf_read, rd_proc. rewrite bind_gets. fold t. bcase (t =? NULL); [done|]. cbn. f_equal. apply s_k_id. Qed.

(** The file behind the descriptor in argument [n] of process [p], if it is open. *)
Definition fd_of (p : nat) (n : Z) (y : Y) : option (Z * nat) :=
  let fd := i32 (u32 (ld64 (pm (kpm (lget s_k y))) (tf (proc_at (lget s_k y) p) + tf_a n))) in
  if (fd <? 0) || (FILE_PER_PROC <=? fd) then None
  else match fds p y !! Z.to_nat fd with Some (Some f) => Some (fd, f) | _ => None end.
Lemma arg_fd_run p n (y : Y) : cproc (kcpu (lget s_k y)) = Some p -> tf (proc_at (lget s_k y) p) <> NULL -> 0 <= n <= 5 ->
  arg_fd n y = Ret (fd_of p n y) y.
Proof.
  intros Hp Ht Hn. unfold arg_fd, arg_int, arg_uint32, arg_raw, fd_of. rewrite !bind_assoc.
  rewrite (bind_run _ _ _ _ _ (s_myproc p y Hp)). bcase (0 <=? n); [|lia]. bcase (n <=? 5); [|lia]. cbn [andb].
  rewrite (bind_run _ _ _ _ _ (s_tf_read p (tf_a n) y Ht)). mstep. set (fd := i32 _).
  destruct ((fd <? 0) || (FILE_PER_PROC <=? fd)); [done|]. rewrite (bind_run _ _ _ _ _ (s_myproc p y Hp)). unfold rd_proc.
  rewrite (bind_run _ _ _ _ _ (s_k_gets _ y)). fold (fds p y). by repeat case_match.
Qed.
Lemma set_fd_files p fd f (y : Y) : ftable (sf (set_fd p fd f y)) = ftable (sf y) /\ lk_ftable (sf (set_fd p fd f y)) = lk_ftable (sf y) /\
  fcpu (sf (set_fd p fd f y)) = fcpu (sf y).
Proof. by destruct y as [[[[? ? ? ?] ? ? ?] ? ? ?] ?]. Qed.
Lemma fds_files p l c (y : Y) : fds p (lset s_f (with_table l c (sf y)) y) = fds p y.
Proof. by destruct y as [[[[? ? ? ?] ? ? ?] ? ? ?] ?]. Qed.
Lemma fds_set p fd f (y : Y) : is_Some (procs (lget s_k y) !! p) -> fds p (set_fd p fd f y) = <[fd := Some f]> (fds p y).
Proof.
  intros [q Hq]. unfold fds at 1. unfold proc_at, set_fd. destruct y as [[[[k ? ? ?] ? ? ?] ? ? ?] ?]. cbn in *.
  by rewrite list_lookup_alter_eq, Hq.
Qed.

(** C39 sys_dup() on every argument.  A number that is not an open descriptor of the
    process is refused and nothing changes.  Otherwise the lowest free descriptor of
    the process becomes a second name of the file, whose reference count goes up by
    one.  When all 16 descriptors are open the call answers -1, and the count has
    gone up all the same, though no descriptor names the file more than before. *)
Theorem sys_dup_cases p (y : Y) : cproc (kcpu (lget s_k y)) = Some p -> tf (proc_at (lget s_k y) p) <> NULL ->
  is_Some (procs (lget s_k y) !! p) -> table_free (sf y) ->
  match fd_of p 0 y with
  | None => sys_dup y = Ret U64_FAIL y
  | Some (_, f) => 0 < fref (file_at (sf y) f) ->
      exists y', ftable (sf y') = alter (fun x => set_fref (u32 (fref x + 1)) x) f (ftable (sf y)) /\ table_free (sf y') /\
        match free_fds (fds p y) 0 (Z.to_nat FILE_PER_PROC) with
        | fd :: _ => sys_dup y = Ret (Z.of_nat fd) y' /\ fds p y' = <[fd := Some f]> (fds p y)
        | [] => sys_dup y = Ret U64_FAIL y' /\ fds p y' = fds p y
        end
  end.
Proof.
  intros Hp Ht Hq Hf. unfold sys_dup. pose proof (arg_fd_run p 0 y Hp Ht ltac:(lia)) as Ha.
  destruct (fd_of p 0 y) as [[fd0 f]|]; [|by rewrite (bind_run _ _ _ _ _ Ha)]. intros Hr. rewrite (bind_run _ _ _ _ _ Ha).
  pose proof (fd_alloc_run p f y Hp) as Hal. destruct (free_fds _ _ _) as [|fd r] eqn:Efree.
  - set (l := alter _ _ _). exists (lset s_f (with_table l (synced (fcpu (sf y))) (sf y)) y).
    rewrite (bind_run _ _ _ _ _ Hal), (bind_run _ _ _ _ _ (zoom_run _ _ _ _ _ (file_dup_run f (sf y) Hf Hr))).
    split; [reflexivity|]. split; [by apply table_free_with|]. split; [reflexivity|]. apply fds_files.
  - destruct (set_fd_files p fd f y) as (E1 & E2 & E3). set (y1 := set_fd p fd f y) in *.
    assert (table_free (sf y1)) as Hf1 by (unfold table_free; rewrite E2, E3; exact Hf).
    assert (0 < fref (file_at (sf y1) f)) as Hr1 by (unfold file_at; rewrite E1; exact Hr).
    rewrite <-E1. set (l := alter _ _ _). exists (lset s_f (with_table l (synced (fcpu (sf y1))) (sf y1)) y1).
    rewrite (bind_run _ _ _ _ _ Hal), (bind_run _ _ _ _ _ (zoom_run _ _ _ _ _ (file_dup_run f (sf y1) Hf1 Hr1))).
    split; [reflexivity|]. split; [by apply table_free_with|]. split.
    + unfold ret. f_equal. apply u64_small. assert (fd ∈ fd :: r) as Hin by left. rewrite <-Efree in Hin.
      apply list_elem_of_filter in Hin as [_ Hin]. apply elem_of_seq in Hin. unfold FILE_PER_PROC in Hin. lia.
    + etrans; [apply fds_files|]. by apply fds_set.
Qed.
End fd.

(** ** Witnesses *)

(** Process 1 of [family] with its 16 descriptors open on the one used entry. *)
Definition full_k : kstate :=
  upd_procs 1 (fun p => set_tf 0x80100000 (set_filelist (replicate 16 (Some O)) p)) family.
Definition one_file : file := mkFile FD_FILE true false 16 0 100 None.
Definition full_sys : sysstate block_map :=
  mkSys (mkF (mkI (mkB full_k [] (spinlock_init "") ∅) (mkSb 0 0 0 0 0 0 0 0 0) [] (spinlock_init ""))
           (one_file :: replicate 31 blank_file) (spinlock_init "ftable") []) (mkTimer 0 (spinlock_init "timer")).
Lemma full_free : table_free (sf full_sys).
Proof. split; [split; reflexivity|unfold cpu_wf; cbn; lia]. Qed.

Lemma file_table_pool_witness : exists s', file_alloc (sf full_sys) = Ret 1%nat s' /\ fref (file_at s' 1) = 1.
Proof.
  destruct (file_table_pool 8 (sf full_sys) full_free) as [(s' & E & _ & Ht) _]. exists s'. split; [exact E|].
  unfold file_at. rewrite Ht. reflexivity.
Defined.
Lemma file_lseek_cases_witness : exists s', file_lseek 0 150 LSEEK_SUB (sf full_sys) = Ret 0 s' /\ foffset (file_at s' 0) = 0.
Proof.
  eexists. split; [rewrite file_lseek_cases; [reflexivity|eexists; reflexivity|lia|cbn; lia]|reflexivity].
Defined.
Lemma sys_dup_cases_witness : exists y', sys_dup full_sys = Ret U64_FAIL y' /\ fref (file_at (sf y') 0) = 17.
Proof.
  assert (0 < fref (file_at (sf full_sys) 0)) as Hr by (cbn; lia).
  destruct (sys_dup_cases 1 full_sys eq_refl ltac:(vm_compute; congruence) ltac:(eexists; reflexivity) full_free Hr)
    as (y' & Ht & _ & E & _).
  exists y'. split; [exact E|]. unfold file_at. rewrite Ht. reflexivity.
Defined.
