(* ===== verification/Print.v ===== *)
(** * dev/uart.c and lib/print.c: the console

    The 16550 UART is a device with registers, seen through the interface
    [Uart16550]; the driver polls it.  printf() formats through printint() and
    printptr() under the print lock, and panic() of lib/print.c is the routine
    behind the [Panic] outcome of the other files. *)

From S2P Require Import Prelude Machine Lock.

(** ** The registers of dev/uart.c *)

Definition RHR : Z := 0.
Definition THR : Z := 0.
Definition IER : Z := 1.
Definition IER_TX_ENABLE : Z := Z.shiftl 1 0.
Definition IER_RX_ENABLE : Z := Z.shiftl 1 1.
Definition FCR : Z := 2.
Definition FCR_FIFO_ENABLE : Z := Z.shiftl 1 0.
Definition FCR_FIFO_CLEAR : Z := Z.shiftl 3 1.
Definition LCR : Z := 3.
Definition LCR_EIGHT_BITS : Z := Z.shiftl 3 0.
Definition LCR_BAUD_LATCH : Z := Z.shiftl 1 7.
Definition LSR : Z := 5.
Definition LSR_RX_READY : Z := Z.shiftl 1 0.
Definition LSR_TX_IDLE : Z := Z.shiftl 1 5.

(** ** The device interface

    What the 16550 manual promises the driver.  [sent] are the bytes put on the
    line, [waiting] the bytes received and not yet read, [tx_delay] the number of
    polls of LSR that still find the transmitter busy.  A byte written to THR
    while the transmitter is idle goes on the line; RHR delivers the oldest byte
    received.  These are the laws of the device with its divisor latch closed (bit
    7 of LCR clear), as uart_init() leaves it. *)
Class Uart16550 (U : Type) : Type := {
  uart_rd : Z -> U -> Z;
  uart_rd' : Z -> U -> U;
  uart_wr : Z -> Z -> U -> U;
  sent : U -> list Z;
  waiting : U -> list Z;
  tx_delay : U -> nat;
  lsr_tx : forall u, Z.land (uart_rd LSR u) LSR_TX_IDLE = 0 <-> tx_delay u <> O;
  lsr_rx : forall u, Z.land (uart_rd LSR u) LSR_RX_READY = 0 <-> waiting u = [];
  lsr_delay : forall u, tx_delay (uart_rd' LSR u) = pred (tx_delay u);
  lsr_sent : forall u, sent (uart_rd' LSR u) = sent u;
  lsr_waiting : forall u, waiting (uart_rd' LSR u) = waiting u;
  thr_sent : forall u c, tx_delay u = O -> sent (uart_wr THR c u) = sent u ++ [u8 c];
  thr_waiting : forall u c, waiting (uart_wr THR c u) = waiting u;
  rhr_head : forall u c l, waiting u = c :: l -> uart_rd RHR u = c;
  rhr_tail : forall u c l, waiting u = c :: l -> waiting (uart_rd' RHR u) = l;
  rhr_sent : forall u, sent (uart_rd' RHR u) = sent u;
  waiting_bytes : forall u, Forall (fun c => 0 <= c < 256) (waiting u);
}.

Record pstate (U : Type) : Type := mkPr {
  pr_cpu : cpu;
  print_lk : spinlock;
  panicked : bool;
  uart : U;
}.
Arguments mkPr {U}. Arguments pr_cpu {U}. Arguments print_lk {U}. Arguments panicked {U}. Arguments uart {U}.

(** The arguments of printf() as va_arg finds them. *)
Inductive va : Type :=
| VInt (x : Z)
| VPtr (x : Z)
| VStr (s : option (list Z)).

(** The bytes of a string literal. *)
Definition lit (s : string) : list Z :=
  map (fun c => Z.of_N (Ascii.N_of_ascii c)) (String.list_ascii_of_string s).
Definition ch (s : string) : Z := default 0 (head (lit s)).

(** ** digits[] *)
Definition digits : list Z := lit "0123456789abcdef".
Definition digit (d : Z) : Z := default 0 (digits !! Z.to_nat d).

Section print.
Context {U : Type} {HU : Uart16550 U}.

Definition p_cpu : lens (pstate U) cpu :=
  Lens pr_cpu (fun c s => mkPr c (print_lk s) (panicked s) (uart s)).
Definition p_lk : lens (pstate U) (cpu * spinlock) :=
  Lens (fun s => (pr_cpu s, print_lk s)) (fun p s => mkPr (fst p) (snd p) (panicked s) (uart s)).
Definition set_uart (f : U -> U) (s : pstate U) : pstate U := mkPr (pr_cpu s) (print_lk s) (panicked s) (f (uart s)).

(** ReadReg and WriteReg *)
Definition ReadReg (r : Z) : M (pstate U) Z :=
  let* v := gets (fun s => uart_rd r (uart s)) in
  modify (set_uart (uart_rd' r));;;
  ret v.
Definition WriteReg (r v : Z) : M (pstate U) unit := modify (set_uart (uart_wr r v)).

(** ** dev/uart.c *)

Definition uart_init : M (pstate U) unit :=
  WriteReg IER 0x00;;;
  WriteReg LCR LCR_BAUD_LATCH;;;
  WriteReg 0 0x03;;;
  WriteReg 1 0x00;;;
  WriteReg LCR LCR_EIGHT_BITS;;;
  WriteReg FCR (Z.lor FCR_FIFO_ENABLE FCR_FIFO_CLEAR);;;
  WriteReg IER (Z.lor IER_TX_ENABLE IER_RX_ENABLE).

(** while((ReadReg(LSR) & LSR_TX_IDLE) == 0); as many polls as the device needs,
    which is finite. *)
Fixpoint tx_wait (fuel : nat) : M (pstate U) unit :=
  match fuel with
  | O => no_fuel
  | S fuel =>
      let* v := ReadReg LSR in
      if Z.land v LSR_TX_IDLE =? 0 then tx_wait fuel else ret tt
  end.

Definition uart_putc_sync (c : Z) : M (pstate U) unit :=
  zoom p_cpu push_off;;;
  let* p := gets panicked in
  when p spin;;;
  let* n := gets (fun s => tx_delay (uart s)) in
  tx_wait (S n);;;
  WriteReg THR c;;;
  zoom p_cpu pop_off.

Definition uart_getc_sync : M (pstate U) Z :=
  let* v := ReadReg LSR in
  if negb (Z.land v 0x01 =? 0) then ReadReg RHR else ret (-1).

(** uart_intr: one iteration per byte waiting and one that finds none. *)
Fixpoint intr_loop (fuel : nat) : M (pstate U) unit :=
  match fuel with
  | O => no_fuel
  | S fuel =>
      let* c := uart_getc_sync in
      if c =? -1 then ret tt
      else uart_putc_sync c;;; intr_loop fuel
  end.
Definition uart_intr : M (pstate U) unit :=
  let* n := gets (fun s => length (waiting (uart s))) in
  intr_loop (S n).

(** ** lib/print.c *)

Definition print_init : M (pstate U) unit :=
  modify (fun s => mkPr (pr_cpu s) (spinlock_init "print") (panicked s) (uart s)).

(** buf[i++] = c on an array of 20; a store behind it is not defined. *)
Definition push_buf (buf : list Z) (c : Z) : M (pstate U) (list Z) :=
  if (length buf <? 20)%nat then ret (buf ++ [c]) else panic "printint: store outside buf".
(** do { buf[i++] = digits[x % base]; } while ((x /= base) != 0); at most 64
    rounds on 64 bits. *)
Fixpoint digit_loop (fuel : nat) (x base : Z) (buf : list Z) : M (pstate U) (list Z) :=
  match fuel with
  | O => no_fuel
  | S fuel =>
      let* buf := push_buf buf (digit (x mod base)) in
      let x := x / base in
      if x =? 0 then ret buf else digit_loop fuel x base buf
  end.
(** while (--i >= 0) uart_putc_sync(buf[i]); *)
Fixpoint put_rev (n : nat) (buf : list Z) : M (pstate U) unit :=
  match n with
  | O => ret tt
  | S i => uart_putc_sync (default 0 (buf !! i));;; put_rev i buf
  end.
Definition printint (xx base : Z) (sign : bool) : M (pstate U) unit :=
  let neg := sign && (xx <? 0) in
  let x := if neg then u64 (- xx) else u64 xx in
  let* buf := digit_loop 64 x base [] in
  let* buf := (if neg then push_buf buf (ch "-") else ret buf) in
  put_rev (length buf) buf.

Fixpoint ptr_loop (n : nat) (x : Z) : M (pstate U) unit :=
  match n with
  | O => ret tt
  | S n => uart_putc_sync (digit (Z.shiftr x 60));;; ptr_loop n (u64 (Z.shiftl x 4))
  end.
Definition printptr (x : Z) : M (pstate U) unit :=
  uart_putc_sync (ch "0");;;
  uart_putc_sync (ch "x");;;
  ptr_loop 16 x.

Fixpoint put_str (s : list Z) : M (pstate U) unit :=
  match s with
  | [] => ret tt
  | c :: s => if c =? 0 then ret tt else uart_putc_sync c;;; put_str s
  end.

(** The loop over fmt.  The list is the characters before the NUL; an argument
    va_arg does not find is not defined. *)
Fixpoint printf_loop (fmt : list Z) (ap : list va) : M (pstate U) unit :=
  match fmt with
  | [] => ret tt
  | c :: fmt =>
      if negb (c =? ch "%") then uart_putc_sync c;;; printf_loop fmt ap
      else
        match fmt with
        | [] => ret tt
        | c :: fmt =>
            if c =? ch "d" then
              match ap with
              | VInt x :: ap => printint (i32 x) 10 true;;; printf_loop fmt ap
              | _ => panic "va_arg"
              end
            else if c =? ch "x" then
              match ap with
              | VInt x :: ap => printint (i32 x) 16 false;;; printf_loop fmt ap
              | _ => panic "va_arg"
              end
            else if c =? ch "p" then
              match ap with
              | VPtr x :: ap => printptr x;;; printf_loop fmt ap
              | _ => panic "va_arg"
              end
            else if c =? ch "s" then
              match ap with
              | VStr s :: ap => put_str (default (lit "(null)") s);;; printf_loop fmt ap
              | _ => panic "va_arg"
              end
            else if c =? ch "%" then uart_putc_sync (ch "%");;; printf_loop fmt ap
            else uart_putc_sync (ch "%");;; uart_putc_sync c;;; printf_loop fmt ap
        end
  end.
Definition printf (fmt : list Z) (ap : list va) : M (pstate U) unit :=
  zoom p_lk spinlock_acquire;;;
  printf_loop fmt ap;;;
  zoom p_lk spinlock_release.

(** panic() itself; the closing while(1) is [spin]. *)
Definition print_panic (s : list Z) : M (pstate U) unit :=
  modify (fun p => mkPr (pr_cpu p) (print_lk p) true (uart p));;;
  printf (lit "panic: %s" ++ [10]) [VStr (Some s)];;;
  spin.
End print.
