(* ===== verification/PrintSpec.v ===== *)
(** * Properties of the console

    What printf() puts on the line, as a function of the format and its
    arguments; the numerals of printint() and printptr(); the echo of uart_intr();
    and the silence of panic(). *)

From S2P Require Import Prelude Machine Lock Print.

(** ** Reference: numerals and rendering *)

(** The digits of [x], least significant first. *)
Fixpoint digits_le (fuel : nat) (base x : Z) : list Z :=
  match fuel with
  | O => []
  | S fuel => x mod base :: (if x / base =? 0 then [] else digits_le fuel base (x / base))
  end.
(** The value of a digit sequence, most significant first. *)
Definition value (base : Z) (ds : list Z) : Z := foldl (fun v d => v * base + d) 0 ds.
Definition numeral (base x : Z) : list Z := rev (digits_le 64 base x).
Definition show_int (xx base : Z) (sign : bool) : list Z :=
  if sign && (xx <? 0) then ch "-" :: map digit (numeral base (- xx)) else map digit (numeral base (u64 xx)).
Definition hex16 (x : Z) : list Z := map (fun i => (x / 16 ^ (15 - Z.of_nat i)) mod 16) (seq 0 16).
Definition show_ptr (x : Z) : list Z := lit "0x" ++ map digit (hex16 x).

Fixpoint upto_nul (s : list Z) : list Z :=
  match s with [] => [] | c :: s => if c =? 0 then [] else c :: upto_nul s end.
(** One conversion: its text and the arguments left. *)
Definition conversion (c : Z) (ap : list va) : option (list Z * list va) :=
  if c =? ch "d" then match ap with VInt x :: ap => Some (show_int (i32 x) 10 true, ap) | _ => None end
  else if c =? ch "x" then match ap with VInt x :: ap => Some (show_int (i32 x) 16 false, ap) | _ => None end
  else if c =? ch "p" then match ap with VPtr x :: ap => Some (show_ptr x, ap) | _ => None end
  else if c =? ch "s" then match ap with VStr s :: ap => Some (upto_nul (default (lit "(null)") s), ap) | _ => None end
  else if c =? ch "%" then Some ([ch "%"], ap)
  else Some ([ch "%"; c], ap).
(** The text of a format, when every conversion finds an argument of its type. *)
Fixpoint render (fmt : list Z) (ap : list va) : option (list Z) :=
  match fmt with
  | [] => Some []
  | c :: fmt =>
      if negb (c =? ch "%") then (cons c) <$> render fmt ap
      else match fmt with
           | [] => Some []
           | c :: fmt =>
               match conversion c ap with
               | Some (t, ap) => (app t) <$> render fmt ap
               | None => None
               end
           end
  end.

Definition bytes (l : list Z) : Prop := Forall (fun c => 0 <= c < 256) l.
Definition va_ok (v : va) : Prop :=
  match v with
  | VInt _ => True
  | VPtr x => 0 <= x < 2 ^ 64
  | VStr s => bytes (default [] s)
  end.

Lemma lit_bytes x : bytes (lit x).
Proof.
  unfold lit. apply Forall_forall. intros c Hc. apply list_elem_of_fmap in Hc as (a & -> & _).
  pose proof (Ascii.N_ascii_bounded a). lia.
Qed.

(** ** Numerals *)

Lemma value_snoc base ds d : value base (ds ++ [d]) = value base ds * base + d.
Proof. unfold value. by rewrite foldl_app. Qed.
Lemma value_digits fuel base x : 2 <= base -> 0 <= x < base ^ Z.of_nat fuel ->
  value base (rev (digits_le fuel base x)) = x.
Proof.
  intros Hb. revert x. induction fuel as [|fuel IH]; intros x Hx; [cbn in *; lia|]. cbn [digits_le rev].
  rewrite value_snoc. pose proof (Z.div_mod x base). bcase (x / base =? 0).
  - cbn. lia.
  - rewrite IH; [lia|]. rewrite Nat2Z.inj_succ, Z.pow_succ_r in Hx by lia.
    split; [apply Z.div_pos; lia|]. apply Z.div_lt_upper_bound; lia.
Qed.
Lemma digits_le_range fuel base x : 2 <= base -> Forall (fun d => 0 <= d < base) (digits_le fuel base x).
Proof.
  intros Hb. revert x. induction fuel as [|fuel IH]; intros x; cbn [digits_le]; constructor.
  - apply Z.mod_pos_bound. lia.
  - by destruct (x / base =? 0).
Qed.
(** The most significant digit is 0 only in the numeral of 0. *)
Lemma digits_le_lead fuel base x : 2 <= base -> 0 <= x < base ^ Z.of_nat (S fuel) ->
  exists d, last (digits_le (S fuel) base x) = Some d /\ (d = 0 -> x = 0).
Proof.
  intros Hb. revert x. induction fuel as [|fuel IH]; intros x Hx; pose proof (Z.div_mod x base).
  - exists (x mod base). split; [by cbn; destruct (x / base =? 0)|]. intros E.
    rewrite Z.div_small in H by (cbn in Hx; lia). lia.
  - cbn [digits_le]. bcase (x / base =? 0).
    + exists (x mod base). split; [done|lia].
    + destruct (IH (x / base)) as (d & Hd & Hz).
      { rewrite Nat2Z.inj_succ, Z.pow_succ_r in Hx by lia.
        split; [apply Z.div_pos; lia|]. apply Z.div_lt_upper_bound; lia. }
      exists d. rewrite last_cons. cbn [digits_le] in Hd. rewrite Hd. split; [done|]. intros ->. by destruct (E (Hz eq_refl)).
Qed.
Lemma digits_le_len fuel base x k : 2 <= base -> (1 <= k)%nat -> 0 <= x < base ^ Z.of_nat k ->
  (length (digits_le fuel base x) <= k)%nat.
Proof.
  intros Hb. revert x k. induction fuel as [|fuel IH]; intros x k Hk Hx; cbn [digits_le length]; [lia|].
  bcase (x / base =? 0); cbn [length]; [lia|]. destruct k as [|[|k]]; [lia| |].
  - rewrite Z.div_small in E by (cbn in Hx; lia). lia.
  - enough (length (digits_le fuel base (x / base)) <= S k)%nat by lia. apply IH; [lia|].
    rewrite Nat2Z.inj_succ, Z.pow_succ_r in Hx by lia.
    split; [apply Z.div_pos; lia|]. apply Z.div_lt_upper_bound; lia.
Qed.
Lemma digit_byte d : 0 <= d < 16 -> 0 <= digit d < 256.
Proof.
  intros Hd. assert (exists n, (n < 16)%nat /\ d = Z.of_nat n) as (n & Hn & ->) by (exists (Z.to_nat d); lia).
  unfold digit. rewrite Nat2Z.id. do 16 (destruct n as [|n]; [vm_compute; split; congruence|]). lia.
Qed.
Lemma digits_bytes base l : base <= 16 -> Forall (fun d => 0 <= d < base) l -> bytes (map digit l).
Proof.
  intros Hb H. apply Forall_map. eapply Forall_impl; [exact H|]. intros d Hd. apply digit_byte. cbn in Hd. lia.
Qed.

Lemma head_rev {A} (l : list A) : head (rev l) = last l.
Proof. induction l as [|x l _] using rev_ind; [done|]. by rewrite rev_app_distr, last_snoc. Qed.

(** ** Output *)

(** The leading hex digit of a 64-bit value shifted left by [k] digits, and the
    next shift. *)
Lemma top_digit y k : (k <= 15)%nat -> Z.shiftr ((y * 16 ^ Z.of_nat k) mod 2 ^ 64) 60 = (y / 16 ^ (15 - Z.of_nat k)) mod 16.
Proof.
  intros Hk. rewrite Z.shiftr_div_pow2 by lia. change (2 ^ 64) with (2 ^ 60 * 16).
  rewrite (Z.rem_mul_r (y * 16 ^ Z.of_nat k) (2 ^ 60) 16) by lia.
  rewrite Z.add_comm, Z.mul_comm, Z.div_add_l by lia. rewrite (Z.div_small (_ mod 2 ^ 60)) by (apply Z.mod_pos_bound; lia).
  rewrite Z.add_0_r. f_equal. change (2 ^ 60) with (16 ^ 15). replace 15 with (15 - Z.of_nat k + Z.of_nat k) at 1 by lia.
  rewrite Z.pow_add_r, Z.div_mul_cancel_r by lia. done.
Qed.
Lemma next_digits y k : u64 (Z.shiftl ((y * 16 ^ Z.of_nat k) mod 2 ^ 64) 4) = (y * 16 ^ Z.of_nat (S k)) mod 2 ^ 64.
Proof.
  unfold u64. rewrite Z.shiftl_mul_pow2, Z.mul_mod_idemp_l by lia.
  rewrite Nat2Z.inj_succ, Z.pow_succ_r by lia. f_equal. lia.
Qed.

Section spec.
Context {U : Type} {HU : Uart16550 U}.

Definition ready (s : pstate U) : Prop := cpu_wf (pr_cpu s) /\ panicked s = false.
(** [s'] is [s] with [l] put on the line; push_off/pop_off at depth 0 may have
    refreshed the remembered interrupt state. *)
Record shown (s : pstate U) (l : list Z) (s' : pstate U) : Prop := {
  sh_cpu : pr_cpu s' = pr_cpu s \/ pr_cpu s' = synced (pr_cpu s);
  sh_lk : print_lk s' = print_lk s;
  sh_panicked : panicked s' = panicked s;
  sh_sent : sent (uart s') = sent (uart s) ++ l;
  sh_waiting : waiting (uart s') = waiting (uart s);
}.
Definition emits (m : M (pstate U) unit) (l : list Z) : Prop :=
  forall s, ready s -> exists s', m s = Ret tt s' /\ shown s l s'.

Lemma shown_refl s : shown s [] s.
Proof. split; auto. by rewrite app_nil_r. Qed.
Lemma shown_ready s l s' : ready s -> shown s l s' -> ready s'.
Proof.
  intros [Hc Hp] [[Hs|Hs] _ Hp' _ _]; split; rewrite ?Hs, ?Hp'; try done. by apply synced_wf.
Qed.
Lemma shown_trans s1 s2 s3 l1 l2 : shown s1 l1 s2 -> shown s2 l2 s3 -> shown s1 (l1 ++ l2) s3.
Proof.
  intros [Ha Hb Hc Hd He] [Ha' Hb' Hc' Hd' He']. split; try congruence.
  - destruct Ha' as [->| ->]; destruct Ha as [->| ->]; auto. rewrite synced_idem. auto.
  - by rewrite Hd', Hd, app_assoc.
Qed.
Lemma emits_ret : emits (ret tt) [].
Proof. intros s _. exists s. split; [done|apply shown_refl]. Qed.
Lemma emits_bind m1 m2 l1 l2 : emits m1 l1 -> emits m2 l2 -> emits (m1;;; m2) (l1 ++ l2).
Proof.
  intros H1 H2 s Hs. destruct (H1 s Hs) as (s1 & E1 & S1). destruct (H2 s1) as (s2 & E2 & S2); [by eapply shown_ready|].
  exists s2. split; [by rewrite (bind_run _ _ _ _ _ E1)|by eapply shown_trans].
Qed.

Lemma tx_wait_ok n s : tx_delay (uart s) = n ->
  exists u, tx_wait (S n) s = Ret tt (set_uart (fun _ => u) s) /\ tx_delay u = O /\
    sent u = sent (uart s) /\ waiting u = waiting (uart s).
Proof.
  revert s. induction n as [|n IH]; intros s Hn; cbn [tx_wait]; unfold ReadReg; mstep.
  - bcase (Z.land (uart_rd LSR (uart s)) LSR_TX_IDLE =? 0); [by apply lsr_tx in E|].
    exists (uart_rd' LSR (uart s)). rewrite lsr_delay, Hn, lsr_sent, lsr_waiting. done.
  - bcase (Z.land (uart_rd LSR (uart s)) LSR_TX_IDLE =? 0).
    + destruct (IH (set_uart (uart_rd' LSR) s)) as (u & E1 & Hd & Hs & Hw); [cbn; by rewrite lsr_delay, Hn|].
      exists u. cbn [tx_wait] in E1. unfold ReadReg in E1. rewrite E1. split; [done|].
      rewrite Hs, Hw. cbn. by rewrite lsr_sent, lsr_waiting.
    + exfalso. apply E. apply lsr_tx. by rewrite Hn.
Qed.

Lemma putc_emits c : 0 <= c < 256 -> emits (uart_putc_sync c) [c].
Proof.
  intros Hc [cp lk pk u] [Hwf Hp]. cbn in Hwf, Hp. subst pk. unfold uart_putc_sync.
  erewrite bind_run by (apply zoom_run, push_off_run). cbn [lset lget p_cpu pr_cpu print_lk panicked uart]. mstep.
  cbn [panicked uart]. mstep.
  destruct (tx_wait_ok (tx_delay u) (mkPr (pushed cp) lk false u)) as (u' & E1 & Hd & Hs & Hw); [done|].
  rewrite (bind_run _ _ _ _ _ E1). unfold WriteReg. mstep. cbn.
  erewrite zoom_run by (apply pop_off_run; cbn; destruct Hwf; (done || lia)). cbn.
  rewrite popped_pushed by done. eexists. split; [done|]. split; cbn; auto.
  - rewrite thr_sent by done. rewrite Hs. by rewrite u8_small.
  - by rewrite thr_waiting.
Qed.

(** ** printint() and printptr() *)

Lemma push_buf_ok buf c (s : pstate U) : (length buf < 20)%nat -> push_buf buf c s = Ret (buf ++ [c]) s.
Proof. intros H. unfold push_buf. destruct (Nat.ltb_spec (length buf) 20); [done|lia]. Qed.
Lemma digit_loop_ok fuel k x base buf (s : pstate U) :
  2 <= base -> (1 <= k <= fuel)%nat -> 0 <= x < base ^ Z.of_nat k -> (length buf + k <= 20)%nat ->
  digit_loop fuel x base buf s = Ret (buf ++ map digit (digits_le fuel base x)) s.
Proof.
  intros Hb. revert k x buf. induction fuel as [|fuel IH]; intros k x buf Hk Hx Hl; [lia|].
  cbn [digit_loop digits_le map]. rewrite (bind_run _ _ _ _ _ (push_buf_ok buf _ s ltac:(lia))). cbn zeta.
  bcase (x / base =? 0); [done|]. destruct k as [|[|k]]; [lia| |].
  - rewrite Z.div_small in E by (cbn in Hx; lia). lia.
  - rewrite (IH (S k)), <- app_assoc; [done|lia| |rewrite length_app; cbn; lia].
    rewrite Nat2Z.inj_succ, Z.pow_succ_r in Hx by lia.
    split; [apply Z.div_pos; lia|]. apply Z.div_lt_upper_bound; lia.
Qed.
Lemma put_rev_emits n buf : (n <= length buf)%nat -> bytes buf -> emits (put_rev n buf) (rev (take n buf)).
Proof.
  intros Hn Hb. induction n as [|n IH]; cbn [put_rev]; [apply emits_ret|].
  destruct (lookup_lt_is_Some_2 buf n ltac:(lia)) as [c Hc]. rewrite (take_S_r _ _ _ Hc), rev_app_distr. cbn [rev app].
  apply (emits_bind _ _ [c]); [|apply IH; lia]. rewrite Hc. apply putc_emits. by apply (Forall_lookup_1 _ _ _ _ Hb Hc).
Qed.

(** The conversions printf() asks for: base 10 and 16 of an int. *)
Lemma printint_emits xx base sign : base = 10 /\ sign = true \/ base = 16 ->
  - 2 ^ 31 <= xx < 2 ^ 31 -> emits (printint xx base sign) (show_int xx base sign).
Proof.
  intros Hbase Hxx s Hs. unfold printint, show_int, numeral.
  assert (2 <= base <= 16) as Hb by (destruct Hbase as [[-> _]| ->]; lia).
  set (neg := sign && (xx <? 0)).
  set (x := if neg then u64 (- xx) else u64 xx).
  assert (exists k, (1 <= k <= 19)%nat /\ 0 <= x < base ^ Z.of_nat k) as (k & Hk & Hx).
  { destruct Hbase as [[-> ->]| ->]; [exists 10%nat|exists 16%nat]; (split; [lia|]); unfold x, neg.
    - cbn [andb]. bcase (xx <? 0); rewrite u64_small by lia; lia.
    - change (16 ^ Z.of_nat 16) with (2 ^ 64). unfold u64.
      destruct (sign && (xx <? 0)); apply Z.mod_pos_bound; lia. }
  cbn zeta. rewrite (bind_run _ _ _ _ _ (digit_loop_ok 64 k x base [] s ltac:(lia) ltac:(lia) Hx ltac:(cbn; lia))).
  cbn [app]. pose proof (digits_le_len 64 base x k ltac:(lia) ltac:(lia) Hx) as Hlen.
  pose proof (digits_bytes base _ ltac:(lia) (digits_le_range 64 base x ltac:(lia))) as Hby.
  set (ds := digits_le 64 base x) in *.
  assert (forall buf, bytes buf -> emits (put_rev (length buf) buf) (rev buf)) as Hput.
  { intros buf H. pose proof (put_rev_emits (length buf) buf ltac:(lia) H) as He. by rewrite take_ge in He. }
  destruct neg eqn:En; cbn zeta.
  - rewrite (bind_run _ _ _ _ _ (push_buf_ok (map digit ds) (ch "-") s ltac:(rewrite length_map; lia))).
    destruct (Hput (map digit ds ++ [ch "-"])) with (s := s) as (s' & -> & Sh); [|done|].
    { apply Forall_app. split; [done|]. repeat constructor; vm_compute; congruence. }
    exists s'. split; [done|]. rewrite rev_app_distr in Sh. cbn [rev app] in Sh. rewrite <- map_rev in Sh.
    unfold ds, x in Sh. unfold neg in En. bprop. by rewrite u64_small in Sh by lia.
  - mstep. destruct (Hput (map digit ds) Hby s Hs) as (s' & -> & Sh). exists s'. split; [done|].
    by rewrite <- map_rev in Sh.
Qed.

Lemma ptr_loop_emits n k x y : 0 <= y < 2 ^ 64 -> (n + k = 16)%nat -> x = (y * 16 ^ Z.of_nat k) mod 2 ^ 64 ->
  emits (ptr_loop n x) (map digit (map (fun i => (y / 16 ^ (15 - Z.of_nat i)) mod 16) (seq k n))).
Proof.
  intros Hy. revert k x. induction n as [|n IH]; intros k x Hk ->; cbn [ptr_loop seq map]; [apply emits_ret|].
  rewrite top_digit by lia. apply (emits_bind _ _ [_]); [apply putc_emits, digit_byte, Z.mod_pos_bound; lia|].
  apply IH; [lia|apply next_digits].
Qed.
Lemma printptr_emits x : 0 <= x < 2 ^ 64 -> emits (printptr x) (show_ptr x).
Proof.
  intros Hx. unfold printptr, show_ptr. apply (emits_bind _ _ [_] (_ :: _)); [by apply putc_emits|].
  apply (emits_bind _ _ [_] _); [by apply putc_emits|]. apply (ptr_loop_emits 16 0); [done|done|].
  rewrite Z.mul_1_r. by rewrite Z.mod_small.
Qed.

(** ** printf() *)

Lemma put_str_emits l : bytes l -> emits (put_str l) (upto_nul l).
Proof.
  induction l as [|c l IH]; intros Hb; cbn [put_str upto_nul]; [apply emits_ret|].
  apply Forall_cons in Hb as [Hc Hb]. destruct (c =? 0); [apply emits_ret|].
  apply (emits_bind _ _ [c]); [by apply putc_emits|by apply IH].
Qed.
Lemma i32_range x : - 2 ^ 31 <= i32 x < 2 ^ 31.
Proof.
  unfold i32, u32. pose proof (Z.mod_pos_bound x (2 ^ 32) ltac:(lia)). cbn zeta. bcase (x mod 2 ^ 32 <? 2 ^ 31); lia.
Qed.
Lemma conversion_args c ap t ap' : conversion c ap = Some (t, ap') -> Forall va_ok ap -> Forall va_ok ap'.
Proof.
  unfold conversion. intros H Hap. repeat case_match; simplify_eq; try done; by apply Forall_cons in Hap as [_ ?].
Qed.

Lemma printf_loop_emits n fmt ap text : (length fmt <= n)%nat -> bytes fmt -> Forall va_ok ap ->
  render fmt ap = Some text -> emits (printf_loop fmt ap) text.
Proof.
  revert fmt ap text. induction n as [|n IH]; intros [|c fmt] ap text Hn Hb Hap Hr; cbn [length] in Hn; try lia;
    cbn [printf_loop render] in *; [simplify_eq; apply emits_ret..|].
  apply Forall_cons in Hb as [Hc Hb]. destruct (negb (c =? ch "%")).
  { destruct (render fmt ap) as [t|] eqn:Ht; [|done]. cbn in Hr. simplify_eq.
    apply (emits_bind _ _ [c]); [by apply putc_emits|]. apply IH; (done || lia). }
  destruct fmt as [|d fmt]; [simplify_eq; apply emits_ret|]. apply Forall_cons in Hb as [Hd Hb]. cbn [length] in Hn.
  destruct (conversion d ap) as [[t ap']|] eqn:Hcv; [|done].
  destruct (render fmt ap') as [t'|] eqn:Ht; [|done]. cbn in Hr. simplify_eq.
  assert (emits (printf_loop fmt ap') t') as Hrest by (apply IH; try done; [lia|by eapply conversion_args]).
  assert (bytes [ch "%"]) as Hp by (repeat constructor; vm_compute; congruence).
  unfold conversion in Hcv.
  destruct (d =? ch "d"); [|destruct (d =? ch "x"); [|destruct (d =? ch "p"); [|destruct (d =? ch "s")]]].
  - destruct ap as [|[x| |] ap]; simplify_eq. apply emits_bind; [|done]. apply printint_emits; [auto|apply i32_range].
  - destruct ap as [|[x| |] ap]; simplify_eq. apply emits_bind; [|done]. apply printint_emits; [auto|apply i32_range].
  - destruct ap as [|[|x|] ap]; simplify_eq. apply Forall_cons in Hap as [Hx _].
    apply emits_bind; [|done]. by apply printptr_emits.
  - destruct ap as [|[| |s] ap]; simplify_eq. apply Forall_cons in Hap as [Hx _].
    apply emits_bind; [|done]. apply put_str_emits. destruct s as [s|]; [done|].
    repeat constructor; vm_compute; congruence.
  - destruct (d =? ch "%"); simplify_eq.
    + apply emits_bind; [|done]. by apply putc_emits.
    + apply (emits_bind _ _ [_] (_ :: _)); [by apply putc_emits|]. apply (emits_bind _ _ [_]); [by apply putc_emits|done].
Qed.

Lemma printf_run fmt ap text (s : pstate U) :
  cpu_wf (pr_cpu s) -> lk_free (print_lk s) -> panicked s = false -> bytes fmt -> Forall va_ok ap ->
  render fmt ap = Some text ->
  exists u, printf fmt ap s = Ret tt (mkPr (synced (pr_cpu s)) (print_lk s) false u) /\
    sent u = sent (uart s) ++ text /\ waiting u = waiting (uart s).
Proof.
  destruct s as [c lk pk u]. cbn. intros Hc Hl -> Hb Hap Hr. unfold printf.
  erewrite bind_run by (apply zoom_run, spinlock_acquire_run; done). cbn [lset p_lk fst snd pr_cpu print_lk panicked uart].
  destruct (printf_loop_emits (length fmt) fmt ap text ltac:(done) Hb Hap Hr
    (mkPr (pushed c) (lk_held c lk) false u)) as ([c' lk' pk' u'] & E & [Hs1 Hs2 Hs3 Hs4 Hs5]).
  { split; [by apply pushed_wf|done]. }
  rewrite (bind_run _ _ _ _ _ E). cbn in *. rewrite synced_pushed in Hs1 by done.
  assert (c' = pushed c) as -> by tauto. subst lk' pk'.
  erewrite zoom_run by (cbn; apply spinlock_release_run; done). cbn. by exists u'.
Qed.

(** C40 printf() with a format whose conversions find their arguments returns,
    puts exactly the rendered text on the line, and leaves the print lock and the
    interrupt state of the hart as it found them. *)
Theorem printf_renders fmt ap text (s : pstate U) :
  cpu_wf (pr_cpu s) -> lk_free (print_lk s) -> panicked s = false -> bytes fmt -> Forall va_ok ap ->
  render fmt ap = Some text ->
  exists u, printf fmt ap s = Ret tt (mkPr (synced (pr_cpu s)) (print_lk s) false u) /\
    sent u = sent (uart s) ++ text /\ waiting u = waiting (uart s).
Proof. apply printf_run. Qed.

(** The numeral printint() prints for an int determines it: the digits are
    those of the base, the value of the sequence is the number (its magnitude
    after a minus sign, its 64-bit two's complement when unsigned), there is no
    leading zero, and sign and digits fit the 20-byte buffer. *)
Theorem printint_numeral xx base sign (s : pstate U) :
  ready s -> base = 10 /\ sign = true \/ base = 16 -> - 2 ^ 31 <= xx < 2 ^ 31 ->
  exists s' ds, printint xx base sign s = Ret tt s' /\
    shown s ((if sign && (xx <? 0) then [ch "-"] else []) ++ map digit ds) s' /\
    Forall (fun d => 0 <= d < base) ds /\
    value base ds = (if sign then Z.abs xx else u64 xx) /\
    (exists d, head ds = Some d /\ (d = 0 -> xx = 0)) /\
    (length ds + (if sign then 1 else 0) <= 20)%nat.
Proof.
  intros Hs Hbase Hxx. destruct (printint_emits xx base sign Hbase Hxx s Hs) as (s' & E & Sh).
  assert (2 <= base <= 16) as Hb by (destruct Hbase as [[-> _]| ->]; lia).
  set (x := if sign && (xx <? 0) then - xx else u64 xx).
  exists s', (numeral base x). split; [done|].
  assert (0 <= x < 10 ^ 10 /\ sign = true \/ 0 <= x < 2 ^ 64 /\ base = 16) as Hx.
  { destruct Hbase as [[-> ->]| ->]; [left|right]; (split; [|done]); unfold x.
    - cbn [andb]. bcase (xx <? 0); [lia|]. rewrite u64_small; lia.
    - destruct (sign && (xx <? 0)) eqn:En; [bprop; lia|]. apply Z.mod_pos_bound. lia. }
  assert (0 <= x < base ^ Z.of_nat 64) as Hx64.
  { enough (2 ^ 64 <= base ^ Z.of_nat 64) by lia. apply Z.pow_le_mono_l. lia. }
  assert (x = 0 -> xx = 0) as Hx0.
  { unfold x. destruct (sign && (xx <? 0)); [lia|]. intros Hz. apply Z.mod_divide in Hz; [|lia]. destruct Hz as [z Hz]. lia. }
  split_and!.
  - unfold show_int in Sh. unfold x. by destruct (sign && (xx <? 0)).
  - unfold numeral. apply Forall_rev, digits_le_range. lia.
  - unfold numeral. rewrite value_digits by (done || lia). unfold x.
    destruct sign; cbn [andb]; [|done]. bcase (xx <? 0); [lia|]. rewrite u64_small; lia.
  - destruct (digits_le_lead 63 base x ltac:(lia) Hx64) as (d & Hd & Hz). exists d. split; [|auto].
    unfold numeral. by rewrite head_rev.
  - unfold numeral. rewrite length_rev. destruct Hx as [[Hx ->]|[Hx ->]].
    + assert (0 <= x < base ^ Z.of_nat 19) as Hx19.
      { destruct Hbase as [[-> _]| ->]; [|change (16 ^ Z.of_nat 19) with (2 ^ 76)]; lia. }
      pose proof (digits_le_len 64 base x 19 ltac:(lia) ltac:(lia) Hx19). lia.
    + pose proof (digits_le_len 64 16 x 16 ltac:(lia) ltac:(lia) Hx). destruct sign; lia.
Qed.

(** ** uart_intr() and panic() *)

Lemma getc_some (s : pstate U) c l : waiting (uart s) = c :: l ->
  exists u, uart_getc_sync s = Ret c (set_uart (fun _ => u) s) /\ sent u = sent (uart s) /\ waiting u = l.
Proof.
  intros Hw. unfold uart_getc_sync, ReadReg. mstep.
  destruct (negb (Z.land (uart_rd LSR (uart s)) 1 =? 0)) eqn:E; bprop; [|apply lsr_rx in E; congruence].
  assert (waiting (uart_rd' LSR (uart s)) = c :: l) as Hw1 by (by rewrite lsr_waiting).
  mstep. cbn. rewrite (rhr_head _ _ _ Hw1). eexists. split; [done|].
  cbn. rewrite rhr_sent, lsr_sent. split; [done|]. by apply (rhr_tail _ c).
Qed.
Lemma getc_none (s : pstate U) : waiting (uart s) = [] ->
  exists u, uart_getc_sync s = Ret (-1) (set_uart (fun _ => u) s) /\ sent u = sent (uart s) /\ waiting u = [].
Proof.
  intros Hw. unfold uart_getc_sync, ReadReg. mstep.
  destruct (negb (Z.land (uart_rd LSR (uart s)) 1 =? 0)) eqn:E; bprop; [by apply lsr_rx in Hw|].
  mstep. eexists. split; [done|]. by rewrite lsr_sent, lsr_waiting.
Qed.
Lemma intr_loop_ok n (s : pstate U) : ready s -> length (waiting (uart s)) = n ->
  exists s', intr_loop (S n) s = Ret tt s' /\
    (pr_cpu s' = pr_cpu s \/ pr_cpu s' = synced (pr_cpu s)) /\
    sent (uart s') = sent (uart s) ++ waiting (uart s) /\ waiting (uart s') = [].
Proof.
  revert s. induction n as [|n IH]; intros s Hs Hn.
  - destruct (waiting (uart s)) eqn:Hw; [|done]. destruct (getc_none s Hw) as (u & E & Hse & Hwa).
    cbn [intr_loop]. rewrite (bind_run _ _ _ _ _ E). eexists. split; [done|]. cbn. rewrite Hse, app_nil_r. auto.
  - destruct (waiting (uart s)) as [|c l] eqn:Hw; [done|]. destruct (getc_some s c l Hw) as (u & E & Hse & Hwa).
    pose proof (waiting_bytes (uart s)) as Hb. rewrite Hw in Hb. apply Forall_cons in Hb as [Hc _].
    remember (S n) as n1. cbn [intr_loop]. subst n1. rewrite (bind_run _ _ _ _ _ E). bcase (c =? -1); [lia|].
    destruct (putc_emits c Hc (set_uart (fun _ => u) s) Hs) as (s1 & E1 & Sh). rewrite (bind_run _ _ _ _ _ E1).
    pose proof (shown_ready _ _ _ (Hs : ready (set_uart (fun _ => u) s)) Sh) as Hs1. destruct Sh as [Hc1 _ _ Hs2 Hw2].
    cbn in Hc1, Hs2, Hw2. destruct (IH s1 Hs1) as (s' & -> & Hc2 & Hs3 & Hw3); [rewrite Hw2, Hwa; cbn in Hn; lia|].
    exists s'. split; [done|]. split_and!; [| |done].
    + destruct Hc2 as [->| ->], Hc1 as [->| ->]; auto. rewrite synced_idem. auto.
    + by rewrite Hs3, Hs2, Hw2, Hse, Hwa, <- app_assoc.
Qed.

Lemma uart_intr_run (s : pstate U) : ready s ->
  exists s', uart_intr s = Ret tt s' /\ (pr_cpu s' = pr_cpu s \/ pr_cpu s' = synced (pr_cpu s)) /\
    sent (uart s') = sent (uart s) ++ waiting (uart s) /\ waiting (uart s') = [].
Proof. intros Hs. unfold uart_intr. mstep. by apply intr_loop_ok. Qed.

(** uart_intr() echoes every byte that waits in the receiver, in order, and
    returns with the receiver empty. *)
Theorem uart_intr_echo (s : pstate U) : ready s ->
  exists s', uart_intr s = Ret tt s' /\
    sent (uart s') = sent (uart s) ++ waiting (uart s) /\ waiting (uart s') = [].
Proof.
  intros Hs. destruct (uart_intr_run s Hs) as (s' & E & _ & H). eauto.
Qed.

Lemma putc_stuck c (s : pstate U) : panicked s = true ->
  uart_putc_sync c s = Spin (mkPr (pushed (pr_cpu s)) (print_lk s) true (uart s)).
Proof.
  intros Hp. unfold uart_putc_sync. erewrite bind_run by (apply zoom_run, push_off_run).
  unfold when. rewrite bind_gets. cbn [lset p_cpu panicked]. by rewrite Hp.
Qed.
Lemma printf_stuck c fmt ap (s : pstate U) : lk_free (print_lk s) -> panicked s = true -> c <> ch "%" ->
  exists s', printf (c :: fmt) ap s = Spin s' /\ sent (uart s') = sent (uart s) /\ panicked s' = true.
Proof.
  intros Hl Hp Hc. unfold printf. erewrite bind_run by (apply zoom_run, spinlock_acquire_run; done).
  cbn [printf_loop]. bcase (c =? ch "%"); [done|]. cbn [negb].
  erewrite bind_spin; [|erewrite bind_spin by (by apply putc_stuck); reflexivity]. eexists. split; [done|]. done.
Qed.

(** panic() prints nothing: it sets the flag that makes uart_putc_sync() spin
    before it calls printf(), so it stops at the first character of its message. *)
Theorem panic_silent msg (s : pstate U) : lk_free (print_lk s) ->
  exists s', print_panic msg s = Spin s' /\ sent (uart s') = sent (uart s) /\ panicked s' = true.
Proof.
  intros Hl. unfold print_panic. rewrite bind_modify.
  destruct (printf_stuck (ch "p") (tail (lit "panic: %s" ++ [10])) [VStr (Some msg)]
    (mkPr (pr_cpu s) (print_lk s) true (uart s)) Hl eq_refl) as (s' & E & H); [by vm_compute|].
  exists s'. split; [|exact H]. eapply bind_spin. exact E.
Qed.
End spec.

(** ** A UART that needs two polls per byte *)

Record line : Type := mkLine { l_out : list Z; l_in : list Z; l_busy : nat }.
Definition line_rd (r : Z) (u : line) : Z :=
  if r =? LSR then
    (match l_busy u with O => 32 | _ => 0 end) + (match l_in u with [] => 0 | _ => 1 end)
  else u8 (default 0 (head (l_in u))).
Definition line_rd' (r : Z) (u : line) : line :=
  if r =? LSR then mkLine (l_out u) (l_in u) (pred (l_busy u)) else mkLine (l_out u) (tail (l_in u)) (l_busy u).
Definition line_wr (r v : Z) (u : line) : line :=
  if r =? THR then mkLine (l_out u ++ [u8 v]) (l_in u) 2 else u.
#[export] Instance line_uart : Uart16550 line.
Proof.
  refine {| uart_rd := line_rd; uart_rd' := line_rd'; uart_wr := line_wr; sent := l_out;
            waiting := fun u => map u8 (l_in u); tx_delay := l_busy |};
    intros [o i b]; try done; cbn.
  - destruct b, i; cbn; split; intros; (done || lia).
  - destruct b, i; cbn; split; intros; (done || lia).
  - intros c l. destruct i; [done|]. cbn. by intros [= -> _].
  - intros c l. destruct i; [done|]. cbn. by intros [= _ ->].
  - apply Forall_map, Forall_true. intros x. apply u8_bound.
Defined.

Definition demo_console : pstate line :=
  mkPr (mkCpu 0 0 false true None) (spinlock_init "print") false (mkLine [] [104; 105] 1).
Lemma demo_console_wf : cpu_wf (pr_cpu demo_console).
Proof. split; cbn; [lia|lia]. Qed.
Lemma printf_renders_witness : exists u,
  printf (lit "pid %d at %p") [VInt (-7); VPtr 0x87654321] demo_console = Ret tt (mkPr (synced (pr_cpu demo_console)) (spinlock_init "print") false u) /\
  l_out u = lit "pid -7 at 0x0000000087654321".
Proof.
  destruct (printf_renders (lit "pid %d at %p") [VInt (-7); VPtr 0x87654321] (lit "pid -7 at 0x0000000087654321") demo_console)
    as (u & E & Hs & _); [apply demo_console_wf|done|done| | |by vm_compute|].
  - repeat constructor; vm_compute; congruence.
  - repeat constructor; vm_compute; congruence.
  - exists u. split; [exact E|exact Hs].
Defined.
Lemma printint_numeral_witness : exists s' ds, printint (-2147483648) 10 true demo_console = Ret tt s' /\ value 10 ds = 2147483648.
Proof.
  destruct (printint_numeral (-2147483648) 10 true demo_console) as (s' & ds & E & _ & _ & Hv & _);
    [split; [apply demo_console_wf|done]|auto|lia|]. exists s', ds. split; [exact E|exact Hv].
Defined.
Lemma uart_intr_echo_witness : exists s', uart_intr demo_console = Ret tt s' /\ l_out (uart s') = [104; 105].
Proof.
  destruct (uart_intr_echo demo_console) as (s' & E & Hs & _); [split; [apply demo_console_wf|done]|].
  exists s'. split; [exact E|exact Hs].
Defined.
Lemma panic_silent_witness : exists s', print_panic (lit "oops") demo_console = Spin s' /\ l_out (uart s') = [].
Proof.
  destruct (panic_silent (lit "oops") demo_console) as (s' & E & Hs & _); [done|]. exists s'. split; [exact E|exact Hs].
Defined.
