(* ===== verification/Asm.v ===== *)
(** * The assembly of the kernel: entry.S, switch.S, trampoline.S and trap.S

    The instructions these files use, their effect on the registers of a hart and
    on memory (through the page table satp selects, or physical in machine mode),
    and the routines as instruction lists. *)

From S2P Require Import Prelude Machine Kvm KvmSpec Uvm UvmSpec.

(** ** Registers *)

Inductive reg : Type :=
| ra | sp | gp | tp | t0 | t1 | t2 | s0 | s1 | a0 | a1 | a2 | a3 | a4 | a5 | a6 | a7
| s2 | s3 | s4 | s5 | s6 | s7 | s8 | s9 | s10 | s11 | t3 | t4 | t5 | t6.
#[export] Instance reg_eq_dec : EqDecision reg.
Proof. solve_decision. Defined.
Inductive csr : Type := SSCRATCH | SATP | MSCRATCH | SIP | MHARTID.
#[export] Instance csr_eq_dec : EqDecision csr.
Proof. solve_decision. Defined.

Record hart : Type := mkHart { rg : reg -> Z; cs : csr -> Z; hm : memory }.
Definition set_reg (r : reg) (v : Z) (h : hart) : hart :=
  mkHart (fun r' => if decide (r' = r) then v else rg h r') (cs h) (hm h).
Definition set_csr (c : csr) (v : Z) (h : hart) : hart :=
  mkHart (rg h) (fun c' => if decide (c' = c) then v else cs h c') (hm h).
Definition set_hm (m : memory) (h : hart) : hart := mkHart (rg h) (cs h) m.

(** ** Instructions *)

Inductive instr : Type :=
| Sd (r : reg) (off : Z) (base : reg)
| Ld (r : reg) (off : Z) (base : reg)
| Addi (rd rs : reg) (imm : Z)
| Add (rd rs1 rs2 : reg)
| Mul (rd rs1 rs2 : reg)
| Li (rd : reg) (imm : Z)
| Csrrw (rd : reg) (c : csr) (rs : reg)
| Csrr (rd : reg) (c : csr)
| Csrw (c : csr) (rs : reg)
| SfenceVma.

(** Translation: machine mode does not translate; supervisor mode walks the table
    of satp and needs a valid entry.  The permission bits of the entry are not
    consulted, and instruction fetches are not translated. *)
Inductive vmode : Type := Bare | Sv39.
Definition satp_root (satp : Z) : Z := Z.shiftl (Z.land satp (2 ^ 44 - 1)) 12.
Definition xlate (md : vmode) (h : hart) (va : Z) : option Z :=
  match md with
  | Bare => Some va
  | Sv39 => let root := satp_root (cs h SATP) in
            if uvalid (hm h) root va then Some (upa (hm h) root va) else None
  end.

(** mhartid is read-only. *)
Definition wr_csr (c : csr) (v : Z) (h : hart) : option hart :=
  match c with MHARTID => None | _ => Some (set_csr c v h) end.
(** One instruction; [None] is an exception. *)
Definition exec1 (md : vmode) (i : instr) (h : hart) : option hart :=
  match i with
  | Sd r off base =>
      pa ← xlate md h (u64 (rg h base + off));
      Some (set_hm (st64 (hm h) pa (rg h r)) h)
  | Ld r off base =>
      pa ← xlate md h (u64 (rg h base + off));
      Some (set_reg r (ld64 (hm h) pa) h)
  | Addi rd rs imm => Some (set_reg rd (u64 (rg h rs + imm)) h)
  | Add rd rs1 rs2 => Some (set_reg rd (u64 (rg h rs1 + rg h rs2)) h)
  | Mul rd rs1 rs2 => Some (set_reg rd (u64 (rg h rs1 * rg h rs2)) h)
  | Li rd imm => Some (set_reg rd imm h)
  | Csrrw rd c rs => h' ← wr_csr c (rg h rs) h; Some (set_reg rd (cs h c) h')
  | Csrr rd c => Some (set_reg rd (cs h c) h)
  | Csrw c rs => wr_csr c (rg h rs) h
  | SfenceVma => Some h
  end.
Fixpoint exec (md : vmode) (l : list instr) (h : hart) : option hart :=
  match l with
  | [] => Some h
  | i :: l => h ← exec1 md i h; exec md l h
  end.

(** ** entry.S: up to the call of start *)

(** [la] loads the address the linker gives CPU_stack. *)
Definition _entry (CPU_stack : Z) : list instr :=
  [Li sp CPU_stack; Li a0 4096; Csrr a1 MHARTID; Addi a1 a1 1; Mul a0 a0 a1; Add sp sp a0].

(** ** switch.S: swtch(old, new), closed by ret (a jump to ra) *)

Definition swtch_save : list instr :=
  [Sd ra 0 a0; Sd sp 8 a0; Sd s0 16 a0; Sd s1 24 a0; Sd s2 32 a0; Sd s3 40 a0; Sd s4 48 a0; Sd s5 56 a0;
   Sd s6 64 a0; Sd s7 72 a0; Sd s8 80 a0; Sd s9 88 a0; Sd s10 96 a0; Sd s11 104 a0].
Definition swtch_load : list instr :=
  [Ld ra 0 a1; Ld sp 8 a1; Ld s0 16 a1; Ld s1 24 a1; Ld s2 32 a1; Ld s3 40 a1; Ld s4 48 a1; Ld s5 56 a1;
   Ld s6 64 a1; Ld s7 72 a1; Ld s8 80 a1; Ld s9 88 a1; Ld s10 96 a1; Ld s11 104 a1].
Definition swtch_code : list instr := swtch_save ++ swtch_load.

(** ** trampoline.S *)

Definition user_vector_save : list instr :=
  [Sd ra 40 a0; Sd sp 48 a0; Sd gp 56 a0; Sd tp 64 a0; Sd t0 72 a0; Sd t1 80 a0; Sd t2 88 a0; Sd s0 96 a0;
   Sd s1 104 a0; Sd a1 120 a0; Sd a2 128 a0; Sd a3 136 a0; Sd a4 144 a0; Sd a5 152 a0; Sd a6 160 a0; Sd a7 168 a0;
   Sd s2 176 a0; Sd s3 184 a0; Sd s4 192 a0; Sd s5 200 a0; Sd s6 208 a0; Sd s7 216 a0; Sd s8 224 a0; Sd s9 232 a0;
   Sd s10 240 a0; Sd s11 248 a0; Sd t3 256 a0; Sd t4 264 a0; Sd t5 272 a0; Sd t6 280 a0].
(** Up to the closing jr t0. *)
Definition user_vector : list instr :=
  [Csrrw a0 SSCRATCH a0] ++ user_vector_save ++
  [Csrr t0 SSCRATCH; Sd t0 112 a0;
   Ld sp 8 a0; Ld tp 32 a0; Ld t0 16 a0; Ld t1 0 a0; Csrw SATP t1; SfenceVma].

Definition user_return_load : list instr :=
  [Ld ra 40 a0; Ld sp 48 a0; Ld gp 56 a0; Ld tp 64 a0; Ld t0 72 a0; Ld t1 80 a0; Ld t2 88 a0; Ld s0 96 a0;
   Ld s1 104 a0; Ld a1 120 a0; Ld a2 128 a0; Ld a3 136 a0; Ld a4 144 a0; Ld a5 152 a0; Ld a6 160 a0; Ld a7 168 a0;
   Ld s2 176 a0; Ld s3 184 a0; Ld s4 192 a0; Ld s5 200 a0; Ld s6 208 a0; Ld s7 216 a0; Ld s8 224 a0; Ld s9 232 a0;
   Ld s10 240 a0; Ld s11 248 a0; Ld t3 256 a0; Ld t4 264 a0; Ld t5 272 a0; Ld t6 280 a0].
(** user_return(trapframe, pagetable), up to the closing sret. *)
Definition user_return : list instr :=
  [Csrw SATP a1; SfenceVma; Ld t0 112 a0; Csrw SSCRATCH t0] ++ user_return_load ++ [Csrrw a0 SSCRATCH a0].

(** ** trap.S *)

(** kernel_vector up to the call of trap_kernel_handler, and from there to sret. *)
Definition kernel_vector_save : list instr :=
  [Sd ra 0 sp; Sd sp 8 sp; Sd gp 16 sp; Sd tp 24 sp; Sd t0 32 sp; Sd t1 40 sp; Sd t2 48 sp; Sd s0 56 sp;
   Sd s1 64 sp; Sd a0 72 sp; Sd a1 80 sp; Sd a2 88 sp; Sd a3 96 sp; Sd a4 104 sp; Sd a5 112 sp; Sd a6 120 sp;
   Sd a7 128 sp; Sd s2 136 sp; Sd s3 144 sp; Sd s4 152 sp; Sd s5 160 sp; Sd s6 168 sp; Sd s7 176 sp; Sd s8 184 sp;
   Sd s9 192 sp; Sd s10 200 sp; Sd s11 208 sp; Sd t3 216 sp; Sd t4 224 sp; Sd t5 232 sp; Sd t6 240 sp].
Definition kernel_vector_entry : list instr := Addi sp sp (-256) :: kernel_vector_save.
Definition kernel_vector_load : list instr :=
  [Ld ra 0 sp; Ld sp 8 sp; Ld gp 16 sp; Ld t0 32 sp; Ld t1 40 sp; Ld t2 48 sp; Ld s0 56 sp;
   Ld s1 64 sp; Ld a0 72 sp; Ld a1 80 sp; Ld a2 88 sp; Ld a3 96 sp; Ld a4 104 sp; Ld a5 112 sp; Ld a6 120 sp;
   Ld a7 128 sp; Ld s2 136 sp; Ld s3 144 sp; Ld s4 152 sp; Ld s5 160 sp; Ld s6 168 sp; Ld s7 176 sp; Ld s8 184 sp;
   Ld s9 192 sp; Ld s10 200 sp; Ld s11 208 sp; Ld t3 216 sp; Ld t4 224 sp; Ld t5 232 sp; Ld t6 240 sp].
Definition kernel_vector_exit : list instr := kernel_vector_load ++ [Addi sp sp 256].

(** timer_vector, in machine mode, up to the closing mret. *)
Definition timer_vector : list instr :=
  [Csrrw a0 MSCRATCH a0; Sd a1 0 a0; Sd a2 8 a0; Sd a3 16 a0;
   Ld a1 24 a0; Ld a2 32 a0; Ld a3 0 a1; Add a3 a3 a2; Sd a3 0 a1;
   Li a1 2; Csrw SIP a1;
   Ld a3 16 a0; Ld a2 8 a0; Ld a1 0 a0; Csrrw a0 MSCRATCH a0].
