(* ===== verification/AsmSpec.v ===== *)
(** * Properties of the assembly

    Every routine saves registers to a memory window and loads them back.  The
    two block lemmas [exec_saves] and [exec_loads] run a block on a window that is
    mapped and stays mapped under stores into it; the routines follow. *)

From S2P Require Import Prelude Machine Kvm KvmSpec Uvm UvmSpec Asm.

(** ** Save and load blocks *)

Abbreviation layout := (list (reg * Z)).
Definition saves (base : reg) (l : layout) : list instr := map (fun p => Sd (fst p) (snd p) base) l.
Definition loads (base : reg) (l : layout) : list instr := map (fun p => Ld (fst p) (snd p) base) l.

(** Each register once, each 8-byte slot of the window once. *)
Definition slot_ok (len : Z) (p : reg * Z) : bool := (0 <=? snd p) && (snd p + 8 <=? len) && (snd p mod 8 =? 0).
Definition layout_ok (len : Z) (l : layout) : bool :=
  forallb (slot_ok len) l && bool_decide (NoDup l.*1) && bool_decide (NoDup l.*2).

Lemma slot_bounds len l r o : layout_ok len l = true -> (r, o) ∈ l -> 0 <= o /\ o + 8 <= len /\ o mod 8 = 0.
Proof.
  intros H Hin. unfold layout_ok in H. apply andb_true_iff in H as [H _]. apply andb_true_iff in H as [H _].
  rewrite forallb_forall in H. specialize (H (r, o)). rewrite <- list_elem_of_In in H. specialize (H Hin).
  unfold slot_ok in H. cbn in H. bprop. lia.
Qed.
Lemma layout_cons len p l : layout_ok len (p :: l) = true ->
  layout_ok len l = true /\ fst p ∉ l.*1 /\ snd p ∉ l.*2.
Proof.
  unfold layout_ok. cbn [forallb fmap list_fmap]. intros H. apply andb_true_iff in H as [H Hb]. apply andb_true_iff in H as [H Ha].
  apply andb_true_iff in H as [_ H]. apply bool_decide_eq_true in Ha, Hb. apply NoDup_cons in Ha as [Ha1 Ha2], Hb as [Hb1 Hb2].
  rewrite H, !bool_decide_eq_true_2 by done. done.
Qed.

Lemma layout_free r (l : layout) o : bool_decide (r ∈ l.*1) = false -> (r, o) ∈ l -> False.
Proof. intros H Hin. apply bool_decide_eq_false in H. apply H, list_elem_of_fmap. by exists (r, o). Qed.

(** The window [b, b+len) of virtual addresses is the physical [pa, pa+len), as
    long as memory satisfies [P], which stores into the window keep. *)
Definition window (md : vmode) (satp b pa len : Z) (P : memory -> Prop) : Prop :=
  (forall h o, P (hm h) -> cs h SATP = satp -> 0 <= o -> o + 8 <= len -> xlate md h (u64 (b + o)) = Some (pa + o)) /\
  (forall m o v, P m -> 0 <= o -> o + 8 <= len -> P (st64 m (pa + o) v)).

Definition store_all (m : memory) (pa : Z) (f : reg -> Z) (l : layout) : memory :=
  foldl (fun m p => st64 m (pa + snd p) (f (fst p))) m l.
Definition load_all (m : memory) (pa : Z) (l : layout) (f : reg -> Z) : reg -> Z :=
  foldl (fun f p => fun r => if decide (r = fst p) then ld64 m (pa + snd p) else f r) f l.

Lemma exec_app md l1 l2 h : exec md (l1 ++ l2) h = exec md l1 h ≫= exec md l2.
Proof.
  revert h. induction l1 as [|i l1 IH]; intros h; [done|]. cbn [exec app]. destruct (exec1 md i h); [|done].
  cbn. apply IH.
Qed.

Lemma exec_saves md satp pa len P base l h :
  window md satp (rg h base) pa len P -> layout_ok len l = true -> P (hm h) -> cs h SATP = satp ->
  exec md (saves base l) h = Some (set_hm (store_all (hm h) pa (rg h) l) h) /\ P (store_all (hm h) pa (rg h) l).
Proof.
  intros [Hw Hp]. revert h Hw. induction l as [|[r o] l IH]; intros [f c m] Hw Hl HP Hs; [done|].
  destruct (slot_bounds len _ r o Hl) as (Ho & Ho' & _); [by left|].
  apply layout_cons in Hl as (Hl & _ & _). cbn [saves map exec exec1 wr_csr fst snd rg].
  rewrite Hw by done. cbn [mbind option_bind].
  destruct (IH (set_hm (st64 m (pa + o) (f r)) (mkHart f c m))) as [E HP']; try done.
  { cbn. by apply Hp. }
Qed.
Lemma exec_loads md satp pa len P base l h :
  window md satp (rg h base) pa len P -> layout_ok len l = true -> P (hm h) -> cs h SATP = satp ->
  (forall o, (base, o) ∈ l -> ld64 (hm h) (pa + o) = rg h base) ->
  exec md (loads base l) h = Some (mkHart (load_all (hm h) pa l (rg h)) (cs h) (hm h)).
Proof.
  intros [Hw _]. revert h Hw. induction l as [|[r o] l IH]; intros [f c m] Hw Hl HP Hs Hb; [done|].
  destruct (slot_bounds len _ r o Hl) as (Ho & Ho' & _); [by left|].
  apply layout_cons in Hl as (Hl & _ & _). cbn [loads map exec exec1 wr_csr fst snd rg].
  rewrite Hw by done. cbn [mbind option_bind rg hm cs] in *. unfold set_reg. cbn [rg hm cs].
  assert ((if decide (base = r) then ld64 m (pa + o) else f base) = f base) as Hbase.
  { destruct (decide (base = r)) as [<-|]; [|done]. apply Hb. by left. }
  rewrite (IH (mkHart _ c m)); try done.
  - cbn [rg]. by rewrite Hbase.
  - cbn [rg hm]. rewrite Hbase. intros o' Ho2. apply Hb. by right.
Qed.

(** ** Reading the windows *)

Lemma ld_1 m a : ld 1 m a = ld8 m a.
Proof. unfold ld. lia. Qed.
Lemma store_all_ne m pa f l a n : (forall r o, (r, o) ∈ l -> a + Z.of_nat n <= pa + o \/ pa + o + 8 <= a) ->
  ld n (store_all m pa f l) a = ld n m a.
Proof.
  revert m. induction l as [|[r o] l IH]; intros m H; [done|]. cbn. unfold store_all in IH. rewrite IH.
  - apply ld_st_ne. specialize (H r o ltac:(by left)). cbn. lia.
  - intros r' o' Hin. apply (H r' o'). by right.
Qed.
Lemma slots_apart o o' : o mod 8 = 0 -> o' mod 8 = 0 -> o <> o' -> o + 8 <= o' \/ o' + 8 <= o.
Proof. intros H1 H2 H3. pose proof (Z.div_mod o 8). pose proof (Z.div_mod o' 8). lia. Qed.
Lemma store_all_slot_ne m pa f len l o : layout_ok len l = true -> o mod 8 = 0 -> o ∉ l.*2 ->
  ld64 (store_all m pa f l) (pa + o) = ld64 m (pa + o).
Proof.
  intros Hl Ho Hin. apply store_all_ne. intros r o' Hin'. destruct (slot_bounds _ _ _ _ Hl Hin') as (_ & _ & Hm).
  assert (o <> o') as Hne. { intros ->. apply Hin. apply list_elem_of_fmap. by exists (r, o'). }
  pose proof (slots_apart o o' Ho Hm Hne). lia.
Qed.
Lemma store_all_get m pa f len l r o : layout_ok len l = true -> (r, o) ∈ l -> 0 <= f r < 2 ^ 64 ->
  ld64 (store_all m pa f l) (pa + o) = f r.
Proof.
  revert m. induction l as [|[r' o'] l IH]; intros m Hl Hin Hf; [by apply not_elem_of_nil in Hin|].
  destruct (slot_bounds _ _ _ _ Hl Hin) as (_ & _ & Hm). apply layout_cons in Hl as (Hl & Hn1 & Hn2). cbn in Hn1, Hn2.
  change (store_all m pa f ((r', o') :: l)) with (store_all (st64 m (pa + o') (f r')) pa f l).
  apply elem_of_cons in Hin as [[= <- <-]|Hin]; [|by apply IH].
  rewrite (store_all_slot_ne _ _ _ len) by done. by apply ld64_st64_eq.
Qed.
Lemma load_all_get m pa len l f r o : layout_ok len l = true -> (r, o) ∈ l -> load_all m pa l f r = ld64 m (pa + o).
Proof.
  revert f. induction l as [|[r' o'] l IH]; intros f Hl Hin; [by apply not_elem_of_nil in Hin|].
  apply layout_cons in Hl as (Hl & Hn1 & _). cbn in Hn1. cbn [load_all foldl fst snd].
  apply elem_of_cons in Hin as [[= <- <-]|Hin]; [|by apply IH].
  fold (load_all m pa l (fun x => if decide (x = r) then ld64 m (pa + o) else f x)).
  enough (forall f, load_all m pa l f r = f r) as -> by (by rewrite decide_True by done).
  clear -Hn1. induction l as [|[r' o'] l IH]; intros f; [done|]. cbn in Hn1. apply not_elem_of_cons in Hn1 as [Hn1 Hn2].
  cbn. unfold load_all in IH. rewrite IH by done. by rewrite decide_False.
Qed.
Lemma load_all_other m pa l f r : r ∉ l.*1 -> load_all m pa l f r = f r.
Proof.
  revert f. induction l as [|[r' o'] l IH]; intros f Hn; [done|]. cbn in Hn. apply not_elem_of_cons in Hn as [Hn1 Hn2].
  cbn. unfold load_all in IH. rewrite IH by done. by rewrite decide_False.
Qed.

(** Untranslated memory is a window onto itself. *)
Lemma bare_window satp b len : 0 <= b -> b + len <= 2 ^ 64 -> window Bare satp b b len (fun _ => True).
Proof. intros Hb Hl. split; [|done]. intros h o _ _ Ho Ho'. cbn. by rewrite u64_small by lia. Qed.

(** ** swtch() *)

(** struct context. *)
Definition context_layout : layout :=
  [(ra, 0); (sp, 8); (s0, 16); (s1, 24); (s2, 32); (s3, 40); (s4, 48); (s5, 56); (s6, 64); (s7, 72); (s8, 80);
   (s9, 88); (s10, 96); (s11, 104)].
Definition regs_wf (h : hart) : Prop := forall r, 0 <= rg h r < 2 ^ 64.

Lemma swtch_run md satp P h : window md satp (rg h a0) (rg h a0) 112 P -> window md satp (rg h a1) (rg h a1) 112 P ->
  P (hm h) -> cs h SATP = satp ->
  exec md swtch_code h = Some (mkHart (load_all (store_all (hm h) (rg h a0) (rg h) context_layout) (rg h a1) context_layout (rg h))
    (cs h) (store_all (hm h) (rg h a0) (rg h) context_layout)).
Proof.
  intros Hw0 Hw1 HP Hs. unfold swtch_code. rewrite exec_app.
  destruct (exec_saves md satp _ 112 P a0 context_layout h Hw0 eq_refl HP Hs) as [E HP'].
  change swtch_save with (saves a0 context_layout). rewrite E. cbn [mbind option_bind].
  change swtch_load with (loads a1 context_layout).
  rewrite (exec_loads md satp (rg h a1) 112 P a1 context_layout (set_hm _ h)); try done.
  intros o Hin. by destruct (layout_free a1 context_layout o eq_refl).
Qed.

(** C31 swtch(old, new) stores ra, sp and the callee-saved registers in *old, loads
    them from *new, and touches nothing else; and a later swtch(x, old) that finds
    *old as it was left brings back exactly the registers of the first caller. *)
Theorem swtch_roundtrip md satp P h :
  regs_wf h -> cs h SATP = satp -> P (hm h) ->
  window md satp (rg h a0) (rg h a0) 112 P -> window md satp (rg h a1) (rg h a1) 112 P ->
  rg h a0 + 112 <= rg h a1 \/ rg h a1 + 112 <= rg h a0 ->
  exists h', exec md swtch_code h = Some h' /\
    (forall r o, (r, o) ∈ context_layout ->
       ld64 (hm h') (rg h a0 + o) = rg h r /\ rg h' r = ld64 (hm h) (rg h a1 + o)) /\
    (forall r, r ∉ context_layout.*1 -> rg h' r = rg h r) /\
    (forall a, a < rg h a0 \/ rg h a0 + 112 <= a -> ld8 (hm h') a = ld8 (hm h) a) /\
    forall h2, regs_wf h2 -> cs h2 SATP = satp -> P (hm h2) -> rg h2 a1 = rg h a0 ->
      window md satp (rg h2 a0) (rg h2 a0) 112 P ->
      rg h2 a0 + 112 <= rg h a0 \/ rg h a0 + 112 <= rg h2 a0 ->
      (forall a, rg h a0 <= a < rg h a0 + 112 -> ld8 (hm h2) a = ld8 (hm h') a) ->
      exists h3, exec md swtch_code h2 = Some h3 /\
        forall r, r ∈ context_layout.*1 -> rg h3 r = rg h r.
Proof.
  intros Hr Hs HP Hw0 Hw1 Hd. eexists. split; [by apply (swtch_run md satp P)|]. cbn [rg hm].
  set (m1 := store_all (hm h) (rg h a0) (rg h) context_layout).
  assert (forall r o, (r, o) ∈ context_layout -> ld64 m1 (rg h a0 + o) = rg h r) as Hold.
  { intros r o Hin. apply (store_all_get _ _ _ 112); [done|done|apply Hr]. }
  assert (forall a n, a + Z.of_nat n <= rg h a0 \/ rg h a0 + 112 <= a -> ld n m1 a = ld n (hm h) a) as Hout.
  { intros a n Ha. apply store_all_ne. intros r o Hin. destruct (slot_bounds 112 context_layout r o eq_refl Hin). lia. }
  split_and!.
  - intros r o Hin. split; [by apply Hold|]. rewrite (load_all_get _ _ 112 _ _ r o) by done.
    destruct (slot_bounds 112 context_layout r o eq_refl Hin) as (? & ? & _). apply Hout. cbn. lia.
  - intros r Hn. by apply load_all_other.
  - intros a Ha. rewrite <- !ld_1. apply Hout. cbn. lia.
  - intros h2 Hr2 Hs2 HP2 Ha1 Hw2 Hd2 Hkeep. rewrite <- Ha1 in Hw0. eexists. split; [by apply (swtch_run md satp P)|].
    intros r Hin. apply list_elem_of_fmap in Hin as ([r' o] & -> & Hin). cbn [rg fst].
    rewrite (load_all_get _ _ 112 _ _ r' o), Ha1 by done.
    destruct (slot_bounds 112 context_layout r' o eq_refl Hin) as (? & ? & _).
    rewrite (store_all_ne _ _ _ _ _ 8), <- (Hold r' o Hin).
    + apply ld_ext. intros b Hb. apply Hkeep. cbn in Hb. lia.
    + intros r2 o2 Hin2. destruct (slot_bounds 112 context_layout r2 o2 eq_refl Hin2) as (? & ? & _). cbn. lia.
Qed.

(** ** The trampoline *)

(** struct trapframe: the slots of the user registers. *)
Definition frame_saved : layout :=
  [(ra, 40); (sp, 48); (gp, 56); (tp, 64); (t0, 72); (t1, 80); (t2, 88); (s0, 96); (s1, 104); (a1, 120); (a2, 128);
   (a3, 136); (a4, 144); (a5, 152); (a6, 160); (a7, 168); (s2, 176); (s3, 184); (s4, 192); (s5, 200); (s6, 208);
   (s7, 216); (s8, 224); (s9, 232); (s10, 240); (s11, 248); (t3, 256); (t4, 264); (t5, 272); (t6, 280)].
(** The kernel fields user_vector loads. *)
Definition kernel_fields : layout := [(sp, 8); (tp, 32); (t0, 16); (t1, 0)].
Definition trapframe_layout : layout := (a0, 112) :: frame_saved.

(** The user table [root] maps the page at TRAPFRAME to the trapframe [tf], which
    is no table of [root]. *)
Record frame_mapped (m : memory) (root tf : Z) : Prop := {
  fr_pte : pte_of m root TRAPFRAME = leaf_pte tf RW;
  fr_page : tf mod PGSIZE = 0 /\ 0 <= tf < 2 ^ 43;
  fr_root : root mod PGSIZE = 0 /\ 0 <= root < 2 ^ 56;
  fr_apart : forall a, tf <= a < tf + PGSIZE -> ~ table_byte m root a;
}.

Lemma satp_root_make root : root mod PGSIZE = 0 -> 0 <= root < 2 ^ 56 -> satp_root (MAKE_SATP root) = root.
Proof.
  intros Hm Hr. unfold satp_root, MAKE_SATP. rewrite Z.land_lor_distr_l.
  change (Z.land SATP_SV39 (2 ^ 44 - 1)) with 0. rewrite Z.lor_0_l. change (2 ^ 44 - 1) with (Z.ones 44).
  rewrite Z.land_ones, Z.shiftr_div_pow2, Z.shiftl_mul_pow2 by lia. change (2 ^ 12) with PGSIZE.
  rewrite Z.mod_small by (unfold PGSIZE; split; [apply Z.div_pos; lia|apply Z.div_lt_upper_bound; lia]).
  pose proof (Z.div_mod root PGSIZE ltac:(done)). lia.
Qed.
Lemma frame_window m root tf : frame_mapped m root tf ->
  window Sv39 (MAKE_SATP root) TRAPFRAME tf PGSIZE (fun m' => tables_kept m m' root).
Proof.
  intros [Hpte [Htm Htb] [Hrm Hrb] Hap]. split.
  - intros h o K Hs Ho Ho'. unfold xlate. rewrite Hs, satp_root_make by done.
    rewrite u64_small by (change TRAPFRAME with (2 ^ 38 - 8192); unfold PGSIZE in *; lia).
    assert ((TRAPFRAME + o) / PGSIZE = TRAPFRAME / PGSIZE /\ (TRAPFRAME + o) mod PGSIZE = o) as [Hq Hmod].
    { change TRAPFRAME with ((2 ^ 26 - 2) * PGSIZE). rewrite Z.add_comm, Z.div_add, Z.mod_add, Z.div_mul by done.
      rewrite Z.div_small, Z.mod_small by (unfold PGSIZE in *; lia). done. }
    unfold uvalid, upa. rewrite (pte_page _ _ _ _ Hq), Hmod, (pte_frame _ _ _ K), Hpte.
    rewrite leaf_pte_valid, leaf_pte_pa by (done || lia). done.
  - intros m' o v K Ho Ho' a Ha. rewrite ld8_st_ne; [by apply K|].
    destruct (decide (tf <= a < tf + PGSIZE)) as [Hin|Hn]; [by destruct (Hap a Hin)|]. cbn. lia.
Qed.

Section trampoline.
Context (root tf : Z).

(** Memory after user_vector has stored the registers: [f] with a0 apart, then a0. *)
Definition frame_mem (m : memory) (f : reg -> Z) (v : Z) : memory :=
  st64 (store_all m tf f frame_saved) (tf + 112) v.
Lemma frame_mem_get m f v r o : (r, o) ∈ frame_saved -> 0 <= f r < 2 ^ 64 -> ld64 (frame_mem m f v) (tf + o) = f r.
Proof.
  intros Hin Hf. destruct (slot_bounds PGSIZE frame_saved r o eq_refl Hin) as (_ & _ & Hm).
  assert (o <> 112) as Hne.
  { intros ->. assert (bool_decide (112 ∈ frame_saved.*2) = false) as Hd by reflexivity. apply bool_decide_eq_false in Hd.
    apply Hd, list_elem_of_fmap. by exists (r, 112). }
  unfold frame_mem. rewrite ld64_st64_ne by (pose proof (slots_apart o 112 Hm eq_refl Hne); lia).
  by apply (store_all_get _ _ _ PGSIZE).
Qed.
Lemma frame_mem_a0 m f v : 0 <= v < 2 ^ 64 -> ld64 (frame_mem m f v) (tf + 112) = v.
Proof. apply ld64_st64_eq. Qed.
Lemma frame_mem_out m f v n a : a + Z.of_nat n <= tf + 40 \/ tf + 288 <= a -> ld n (frame_mem m f v) a = ld n m a.
Proof.
  intros Ha. unfold frame_mem. rewrite ld_st_ne by (cbn; lia). apply store_all_ne. intros r o Hin.
  assert (forallb (fun p => (40 <=? snd p) && (snd p + 8 <=? 288)) frame_saved = true) as Hall by reflexivity.
  rewrite forallb_forall in Hall. specialize (Hall (r, o)). rewrite <- list_elem_of_In in Hall. specialize (Hall Hin).
  cbn in Hall. bprop. lia.
Qed.

Lemma user_vector_run h : frame_mapped (hm h) root tf -> cs h SATP = MAKE_SATP root -> cs h SSCRATCH = TRAPFRAME ->
  regs_wf h ->
  exists h', exec Sv39 user_vector h = Some h' /\
    (forall r o, (r, o) ∈ trapframe_layout -> ld64 (hm h') (tf + o) = rg h r) /\
    rg h' sp = ld64 (hm h) (tf + 8) /\ rg h' tp = ld64 (hm h) (tf + 32) /\ rg h' t0 = ld64 (hm h) (tf + 16) /\
    cs h' SATP = ld64 (hm h) (tf + 0) /\
    (forall a, a < tf + 40 \/ tf + 288 <= a -> ld8 (hm h') a = ld8 (hm h) a).
Proof.
  intros Hf Hs Hss Hr. pose proof (frame_window _ _ _ Hf) as W.
  set (h0 := set_reg a0 TRAPFRAME (set_csr SSCRATCH (rg h a0) h)).
  assert (rg h0 a0 = TRAPFRAME) as Ha0 by done. rewrite <- Ha0 in W.
  destruct (exec_saves Sv39 _ tf PGSIZE _ a0 frame_saved h0 W eq_refl (fun a _ => eq_refl) Hs) as [E K].
  unfold user_vector. cbn [app exec exec1 wr_csr mbind option_bind]. rewrite Hss. fold h0. rewrite exec_app.
  change user_vector_save with (saves a0 frame_saved). rewrite E. cbn [mbind option_bind].
  set (h1 := set_reg t0 (rg h a0) (set_hm (store_all (hm h0) tf (rg h0) frame_saved) h0)).
  destruct (exec_saves Sv39 _ tf PGSIZE _ a0 [(t0, 112)] h1 W eq_refl K Hs) as [E2 K2].
  change [Csrr t0 SSCRATCH; Sd t0 112 a0; Ld sp 8 a0; Ld tp 32 a0; Ld t0 16 a0; Ld t1 0 a0; Csrw SATP t1; SfenceVma]
    with ([Csrr t0 SSCRATCH] ++ saves a0 [(t0, 112)] ++ loads a0 kernel_fields ++ [Csrw SATP t1; SfenceVma]).
  cbn [app exec exec1 wr_csr mbind option_bind]. change (set_reg t0 _ (set_hm _ h0)) with h1.
  rewrite exec_app, E2. cbn [mbind option_bind]. rewrite exec_app.
  change (store_all (hm h1) tf (rg h1) [(t0, 112)]) with (frame_mem (hm h) (rg h0) (rg h a0)) in *.
  set (m2 := frame_mem _ _ _) in *.
  rewrite (exec_loads Sv39 (MAKE_SATP root) tf PGSIZE _ a0 kernel_fields (set_hm m2 h1) W eq_refl K2 Hs)
    by (intros o Hin; by destruct (layout_free a0 kernel_fields o eq_refl)).
  cbn [mbind option_bind exec exec1 wr_csr]. eexists. split; [reflexivity|]. cbn [rg cs hm set_hm set_csr].
  split_and!; [|by apply frame_mem_out; cbn; lia..|].
  - intros r o Hin. apply elem_of_cons in Hin as [[= -> ->]|Hin]; [apply frame_mem_a0, Hr|].
    assert (rg h0 r = rg h r) as Heq.
    { unfold h0. cbn. rewrite decide_False; [done|]. intros ->. by destruct (layout_free a0 frame_saved o eq_refl). }
    unfold m2. rewrite (frame_mem_get _ _ _ r o) by (done || rewrite Heq; apply Hr). done.
  - intros a Ha. rewrite <- !ld_1. apply frame_mem_out. cbn. lia.
Qed.

Lemma user_return_run h : frame_mapped (hm h) root tf -> rg h a0 = TRAPFRAME -> rg h a1 = MAKE_SATP root ->
  exists h', exec Sv39 user_return h = Some h' /\
    (forall r o, (r, o) ∈ trapframe_layout -> rg h' r = ld64 (hm h) (tf + o)) /\
    cs h' SATP = MAKE_SATP root /\ cs h' SSCRATCH = TRAPFRAME /\ hm h' = hm h.
Proof.
  intros Hf Ha0 Ha1. pose proof (frame_window _ _ _ Hf) as W. rewrite <- Ha0 in W.
  unfold user_return. cbn [app exec exec1 wr_csr mbind option_bind].
  destruct W as [Wx Wp]. assert (window Sv39 (MAKE_SATP root) (rg h a0) tf PGSIZE (fun m' => tables_kept (hm h) m' root)) as W by done.
  change (rg (set_csr SATP (rg h a1) h) a0) with (rg h a0).
  rewrite (Wx (set_csr SATP (rg h a1) h) 112) by (done || by cbn). cbn [mbind option_bind].
  set (v := ld64 (hm h) (tf + 112)).
  set (h1 := set_csr SSCRATCH v (set_reg t0 v (set_csr SATP (rg h a1) h))).
  change (set_csr SSCRATCH _ _) with h1. rewrite exec_app. change user_return_load with (loads a0 frame_saved).
  rewrite (exec_loads Sv39 (MAKE_SATP root) tf PGSIZE _ a0 frame_saved h1 W eq_refl (fun a _ => eq_refl));
    [|done|intros o Hin; by destruct (layout_free a0 frame_saved o eq_refl)].
  cbn [mbind option_bind exec exec1 wr_csr]. eexists. split; [reflexivity|]. cbn [rg cs hm set_reg set_csr].
  split_and!; [|done| |done].
  - intros r o Hin. apply elem_of_cons in Hin as [[= -> ->]|Hin]; [done|].
    rewrite decide_False by (intros ->; by destruct (layout_free a0 frame_saved o eq_refl)).
    by rewrite (load_all_get _ _ PGSIZE _ _ r o).
  - rewrite load_all_other; [done|]. by apply (bool_decide_eq_false _), eq_refl.
Qed.
End trampoline.

Lemma frame_mapped_kept m m' root tf : frame_mapped m root tf -> tables_kept m m' root -> frame_mapped m' root tf.
Proof.
  intros [H1 H2 H3 H4] K. split; [by rewrite (pte_frame _ _ _ K)|done..|].
  intros a Ha Ht. by apply (H4 a Ha), (table_byte_frame _ _ _ K).
Qed.
Lemma trapframe_all r : exists o, (r, o) ∈ trapframe_layout.
Proof.
  assert (forallb (fun r => bool_decide (r ∈ trapframe_layout.*1))
    [ra; sp; gp; tp; t0; t1; t2; s0; s1; a0; a1; a2; a3; a4; a5; a6; a7; s2; s3; s4; s5; s6; s7; s8; s9; s10; s11; t3; t4; t5; t6]
    = true) as H by reflexivity.
  rewrite forallb_forall in H. assert (r ∈ trapframe_layout.*1) as Hr.
  { apply (bool_decide_eq_true_1 _), H. destruct r; cbn; tauto. }
  apply list_elem_of_fmap in Hr as ([r' o] & -> & Hin). by exists o.
Qed.

(** C29 A trap from user mode and the return to it: user_vector stores all 31 user
    registers in the trapframe through the user page table, and enters the kernel
    on the stack, hart id, handler and page table the frame names; user_return,
    run with the tables of the process intact, gives every register the content of
    its slot, so the registers whose slots the kernel left alone come back
    unchanged, and sscratch points to the trapframe again. *)
Theorem user_trap_roundtrip root tf h :
  frame_mapped (hm h) root tf -> cs h SATP = MAKE_SATP root -> cs h SSCRATCH = TRAPFRAME -> regs_wf h ->
  exists h1, exec Sv39 user_vector h = Some h1 /\
    rg h1 sp = ld64 (hm h) (tf + 8) /\ rg h1 tp = ld64 (hm h) (tf + 32) /\ rg h1 t0 = ld64 (hm h) (tf + 16) /\
    cs h1 SATP = ld64 (hm h) (tf + 0) /\
    (forall r o, (r, o) ∈ trapframe_layout -> ld64 (hm h1) (tf + o) = rg h r) /\
    forall h2, rg h2 a0 = TRAPFRAME -> rg h2 a1 = MAKE_SATP root -> tables_kept (hm h) (hm h2) root ->
      exists h3, exec Sv39 user_return h2 = Some h3 /\
        cs h3 SATP = MAKE_SATP root /\ cs h3 SSCRATCH = TRAPFRAME /\ hm h3 = hm h2 /\
        forall r, exists o, (r, o) ∈ trapframe_layout /\ rg h3 r = ld64 (hm h2) (tf + o) /\
          (ld64 (hm h2) (tf + o) = ld64 (hm h1) (tf + o) -> rg h3 r = rg h r).
Proof.
  intros Hf Hs Hss Hr. destruct (user_vector_run root tf h Hf Hs Hss Hr) as (h1 & E1 & Hg & Hsp & Htp & Ht0 & Hsa & _).
  exists h1. split_and!; try done. intros h2 Ha0 Ha1 K.
  destruct (user_return_run root tf h2 (frame_mapped_kept _ _ _ _ Hf K) Ha0 Ha1) as (h3 & E3 & Hg3 & Hs3 & Hss3 & Hm3).
  exists h3. split_and!; try done. intros r. destruct (trapframe_all r) as [o Hin]. exists o.
  split_and!; [done|by apply Hg3|]. intros Heq. rewrite (Hg3 r o Hin), Heq. by apply Hg.
Qed.

(** ** kernel_vector *)

Definition kstack_saved : layout :=
  [(ra, 0); (sp, 8); (gp, 16); (tp, 24); (t0, 32); (t1, 40); (t2, 48); (s0, 56); (s1, 64); (a0, 72); (a1, 80); (a2, 88);
   (a3, 96); (a4, 104); (a5, 112); (a6, 120); (a7, 128); (s2, 136); (s3, 144); (s4, 152); (s5, 160); (s6, 168);
   (s7, 176); (s8, 184); (s9, 192); (s10, 200); (s11, 208); (t3, 216); (t4, 224); (t5, 232); (t6, 240)].
Definition kstack_loaded : layout := filter (fun p => fst p <> tp) kstack_saved.

Lemma kstack_all r : r <> tp -> exists o, (r, o) ∈ kstack_loaded.
Proof.
  intros Htp. enough (r ∈ kstack_loaded.*1) as Hr.
  { apply list_elem_of_fmap in Hr as ([r' o] & -> & Hin). by exists o. }
  destruct r; try done; by apply (bool_decide_eq_true_1 _), eq_refl.
Qed.

(** An interrupt taken in the kernel is transparent: whatever the handler does,
    as long as it keeps its caller's stack frame and returns with the same sp,
    kernel_vector gives every register but tp its value at the interrupt; tp is
    left to the handler, which may come back on another hart. *)
Theorem kernel_vector_transparent md satp pa P h :
  regs_wf h -> 256 <= rg h sp -> cs h SATP = satp -> P (hm h) ->
  window md satp (rg h sp - 256) pa 256 P ->
  exists h1, exec md kernel_vector_entry h = Some h1 /\ rg h1 sp = rg h sp - 256 /\ cs h1 SATP = satp /\
    forall h2, rg h2 sp = rg h1 sp -> cs h2 SATP = satp -> P (hm h2) ->
      (forall a, pa <= a < pa + 256 -> ld8 (hm h2) a = ld8 (hm h1) a) ->
      exists h3, exec md kernel_vector_exit h2 = Some h3 /\ hm h3 = hm h2 /\
        rg h3 tp = rg h2 tp /\ forall r, r <> tp -> rg h3 r = rg h r.
Proof.
  intros Hr Hsp Hs HP W. set (h0 := set_reg sp (u64 (rg h sp + -256)) h).
  assert (rg h0 sp = rg h sp - 256) as Hsp0.
  { change (rg h0 sp) with (u64 (rg h sp + -256)). rewrite u64_small; [lia|]. specialize (Hr sp). lia. }
  rewrite <- Hsp0 in W. destruct (exec_saves md satp pa 256 P sp kstack_saved h0 W eq_refl HP Hs) as [E K].
  eexists. split; [exact E|]. split; [exact Hsp0|]. split; [exact Hs|]. cbn [rg hm set_hm]. set (m1 := store_all _ _ _ _) in *.
  assert (regs_wf h0) as Hr0.
  { intros r. unfold h0, set_reg. cbn [rg]. destruct (decide (r = sp)); [apply Z.mod_pos_bound; lia|apply Hr]. }
  intros h2 Hsp2 Hs2 HP2 Hkeep.
  assert (forall r o, (r, o) ∈ kstack_loaded -> ld64 (hm h2) (pa + o) = rg h0 r) as Hget.
  { intros r o Hin. apply list_elem_of_filter in Hin as [_ Hin].
    destruct (slot_bounds 256 kstack_saved r o eq_refl Hin) as (? & ? & _).
    rewrite (ld_ext 8 _ m1) by (intros b Hb; apply Hkeep; cbn in Hb; lia).
    apply (store_all_get _ _ _ 256); [done|done|apply Hr0]. }
  unfold kernel_vector_exit. rewrite exec_app. change kernel_vector_load with (loads sp kstack_loaded).
  rewrite <- Hsp2 in W. rewrite (exec_loads md satp pa 256 P sp kstack_loaded h2 W eq_refl HP2 Hs2)
    by (intros o Hin; rewrite (Hget sp o Hin); by rewrite Hsp2).
  cbn [mbind option_bind exec exec1 wr_csr]. eexists. split; [reflexivity|]. cbn [hm rg set_reg]. split; [done|].
  split; [apply load_all_other; by apply (bool_decide_eq_false _), eq_refl|].
  intros r Htp. destruct (kstack_all r Htp) as [o Hin]. destruct (decide (r = sp)) as [->|Hne].
  - rewrite (load_all_get _ _ 256 _ _ sp o), (Hget sp o), Hsp0 by done.
    replace (rg h sp - 256 + 256) with (rg h sp) by lia. apply u64_small, Hr.
  - rewrite (load_all_get _ _ 256 _ _ r o), (Hget r o) by done. unfold h0. cbn. by rewrite decide_False.
Qed.

(** ** timer_vector *)

(** The middle of the handler: CLINT_MTIMECMP += INTERVAL, sip = 2. *)
Lemma timer_advance f c m : 0 <= f a1 -> f a1 + 8 <= 2 ^ 64 ->
  exists f' c', exec Bare [Ld a3 0 a1; Add a3 a3 a2; Sd a3 0 a1; Li a1 2; Csrw SIP a1] (mkHart f c m)
    = Some (mkHart f' c' (st64 m (f a1) (u64 (ld64 m (f a1) + f a2)))) /\
    (forall r, r <> a1 -> r <> a3 -> f' r = f r) /\ c' SIP = 2 /\ c' MSCRATCH = c MSCRATCH /\ c' SATP = c SATP.
Proof.
  intros H0 H1. cbn [exec exec1 wr_csr mbind option_bind xlate rg hm cs set_reg set_hm set_csr].
  repeat first [rewrite decide_True by done|rewrite decide_False by done].
  rewrite Z.add_0_r, (u64_small (f a1)) by lia. do 2 eexists. split; [reflexivity|]. split_and!; try done.
  intros r Hr1 Hr3. cbn [rg set_reg set_hm]. by rewrite !decide_False by done.
Qed.

Lemma timer_vector_run h (scratch := cs h MSCRATCH) (cmp := ld64 (hm h) (scratch + 24)) :
  regs_wf h -> 0 <= scratch -> scratch + 40 <= 2 ^ 64 -> cmp + 8 <= 2 ^ 64 -> 0 <= cmp ->
  cmp + 8 <= scratch \/ scratch + 40 <= cmp ->
  exists h', exec Bare timer_vector h = Some h' /\
    (forall r, rg h' r = rg h r) /\ cs h' MSCRATCH = scratch /\ cs h' SIP = 2 /\ cs h' SATP = cs h SATP /\
    ld64 (hm h') cmp = u64 (ld64 (hm h) cmp + ld64 (hm h) (scratch + 32)) /\
    (forall a, ~ scratch <= a < scratch + 24 -> ~ cmp <= a < cmp + 8 -> ld8 (hm h') a = ld8 (hm h) a).
Proof.
  intros Hr Hs0 Hs1 Hc1 Hc0 Hd. pose proof (bare_window (cs h SATP) scratch 40 Hs0 Hs1) as W.
  set (h0 := set_reg a0 scratch (set_csr MSCRATCH (rg h a0) h)).
  change scratch with (rg h0 a0) in W at 1.
  set (l1 := [(a1, 0); (a2, 8); (a3, 16)]). set (l2 := [(a1, 24); (a2, 32)]). set (l3 := [(a3, 16); (a2, 8); (a1, 0)]).
  change timer_vector with ([Csrrw a0 MSCRATCH a0] ++ saves a0 l1 ++ loads a0 l2 ++
    [Ld a3 0 a1; Add a3 a3 a2; Sd a3 0 a1; Li a1 2; Csrw SIP a1] ++ loads a0 l3 ++ [Csrrw a0 MSCRATCH a0]).
  rewrite exec_app. change (exec Bare [Csrrw a0 MSCRATCH a0] h) with (Some h0). cbn [mbind option_bind].
  destruct (exec_saves Bare _ scratch 40 _ a0 l1 h0 W eq_refl I eq_refl) as [E _]. rewrite exec_app, E. clear E.
  cbn [mbind option_bind]. set (m1 := store_all _ _ _ l1).
  assert (forall a, a + 8 <= scratch \/ scratch + 24 <= a -> ld64 m1 a = ld64 (hm h) a) as Hm1.
  { intros a Ha. unfold m1, store_all. cbn [foldl fst snd l1]. by rewrite !ld64_st64_ne by lia. }
  rewrite exec_app, (exec_loads Bare (cs h SATP) scratch 40 _ a0 l2 (set_hm m1 h0) W eq_refl I eq_refl)
    by (intros o Hin; by destruct (layout_free a0 l2 o eq_refl)). cbn [mbind option_bind hm cs set_hm].
  set (f1 := load_all m1 scratch l2 _).
  assert (f1 a1 = cmp /\ f1 a2 = ld64 (hm h) (scratch + 32)) as [Hf1 Hf2].
  { unfold f1. rewrite (load_all_get _ _ 40 l2 _ a1 24), (load_all_get _ _ 40 l2 _ a2 32) by (done || set_solver).
    split; apply Hm1; lia. }
  destruct (timer_advance f1 (cs h0) m1) as (f2 & c2 & E & Hf & Hsip & Hms & Hsa); [lia..|].
  rewrite exec_app, E. clear E. cbn [mbind option_bind]. rewrite Hf1, Hf2, (Hm1 cmp) by lia.
  set (v := u64 _). set (m2 := st64 m1 cmp v).
  assert (f2 a0 = rg h0 a0) as Hb by (by rewrite Hf). rewrite <- Hb in W.
  rewrite exec_app, (exec_loads Bare (cs h SATP) scratch 40 _ a0 l3 (mkHart f2 c2 m2) W eq_refl I Hsa)
    by (intros o Hin; by destruct (layout_free a0 l3 o eq_refl)). cbn [mbind option_bind hm cs rg].
  assert (forall r o, (r, o) ∈ l1 -> ld64 m2 (scratch + o) = rg h r) as Hget.
  { intros r o Hin. destruct (slot_bounds 24 l1 r o eq_refl Hin) as (? & ? & _). unfold m2. rewrite ld64_st64_ne by lia.
    unfold m1. rewrite (store_all_get _ _ _ 40 l1 r o); [|done|done|].
    - unfold h0. cbn. rewrite decide_False; [done|]. intros ->. by destruct (layout_free a0 l1 o eq_refl).
    - unfold h0. cbn. destruct (decide (r = a0)); [lia|apply Hr]. }
  eexists. split; [reflexivity|]. cbn [rg cs hm set_reg set_csr exec1 wr_csr]. split_and!; try done.
  - intros r. destruct (decide (r = a0)) as [->|H0]; [by rewrite Hms|].
    destruct (decide (r ∈ l3.*1)) as [Hin|Hn].
    + apply list_elem_of_fmap in Hin as ([r' o] & -> & Hin). cbn [fst]. rewrite (load_all_get _ _ 40 l3 _ r' o) by done.
      apply Hget. set_solver.
    + rewrite load_all_other by done. rewrite Hf by set_solver. unfold f1. rewrite load_all_other by set_solver.
      unfold h0. cbn. by rewrite decide_False.
  - apply ld64_st64_eq. apply Z.mod_pos_bound. lia.
  - intros a Ha1 Ha2. unfold m2, m1, store_all. cbn [foldl fst snd l1]. by rewrite !ld8_st_ne by (cbn; lia).
Qed.

(** The machine-mode timer handler is transparent to what it interrupts: every
    register and mscratch keep their values; it only advances the compare register
    of the hart by the interval, raises the supervisor software interrupt, and
    uses the first three words of its scratch area. *)
Theorem timer_vector_transparent h (scratch := cs h MSCRATCH) (cmp := ld64 (hm h) (scratch + 24)) :
  regs_wf h -> 0 <= scratch -> scratch + 40 <= 2 ^ 64 -> cmp + 8 <= 2 ^ 64 -> 0 <= cmp ->
  cmp + 8 <= scratch \/ scratch + 40 <= cmp ->
  exists h', exec Bare timer_vector h = Some h' /\
    (forall r, rg h' r = rg h r) /\ cs h' MSCRATCH = scratch /\ cs h' SIP = 2 /\ cs h' SATP = cs h SATP /\
    ld64 (hm h') cmp = u64 (ld64 (hm h) cmp + ld64 (hm h) (scratch + 32)) /\
    (forall a, ~ scratch <= a < scratch + 24 -> ~ cmp <= a < cmp + 8 -> ld8 (hm h') a = ld8 (hm h) a).
Proof. apply timer_vector_run. Qed.

(** The stack of each hart.  _entry points sp at the end of the 4096 bytes of
    CPU_stack that belong to the hart and touches no memory. *)
Theorem entry_stack CPU_stack md h (id := cs h MHARTID) :
  0 <= CPU_stack -> CPU_stack + 4096 * NCPU < 2 ^ 64 -> 0 <= id < NCPU ->
  exists h', exec md (_entry CPU_stack) h = Some h' /\ rg h' sp = CPU_stack + 4096 * (id + 1) /\
    CPU_stack <= rg h' sp - 4096 /\ rg h' sp <= CPU_stack + 4096 * NCPU /\ hm h' = hm h /\
    (forall r, r <> sp -> r <> a0 -> r <> a1 -> rg h' r = rg h r).
Proof.
  intros Hs Hs' Hid. unfold NCPU in *. eexists. split; [reflexivity|]. cbn [rg hm set_reg].
  assert (forall x, u64 (CPU_stack + u64 (4096 * u64 (x + 1))) = CPU_stack + 4096 * (x + 1) \/ ~ 0 <= x < 2) as E.
  { intros x. destruct (decide (0 <= x < 2)); [left|by right]. rewrite (u64_small (x + 1)), (u64_small (4096 * (x + 1))), u64_small by lia. lia. }
  destruct (E id) as [E'|]; [|lia]. repeat (rewrite (decide_True _ _ eq_refl) || rewrite decide_False by done). cbn [cs set_reg]. fold id.
  rewrite E'. split_and!; try lia; [done|]. intros r H1 H2 H3. by rewrite !decide_False by done.
Qed.

(** ** A page table with one mapping: TRAPFRAME to the page at 0x80407000 *)

Definition dm_root : Z := 0x80400000.
Definition dm_tf : Z := 0x80407000.
Definition dm_mem : memory :=
  st64 (st64 (st64 ∅ (dm_root + 8 * 255) (Z.lor (PA_TO_PTE (dm_root + 0x1000)) PTE_V))
    (dm_root + 0x1000 + 8 * 511) (Z.lor (PA_TO_PTE (dm_root + 0x2000)) PTE_V))
    (dm_root + 0x2000 + 8 * 510) (leaf_pte dm_tf RW).
Lemma dm_entry a : a mod 8 = 0 -> a <> dm_root + 8 * 255 -> a <> dm_root + 0x1000 + 8 * 511 ->
  a <> dm_root + 0x2000 + 8 * 510 -> ld64 dm_mem a = 0.
Proof.
  intros Ha H1 H2 H3. unfold dm_mem. rewrite !ld64_st64_ne by (apply slots_apart; done). by apply ld_zero.
Qed.
Lemma dm_tables q t : prefix_ok q -> tbl_at dm_mem dm_root q = Some t -> dm_root <= t < dm_root + 0x3000 /\ t mod PGSIZE = 0.
Proof.
  assert (forall t k, t mod PGSIZE = 0 -> (t + 8 * k) mod 8 = 0) as Hal.
  { intros t' k Ht. unfold PGSIZE in Ht. pose proof (Z.div_mod t' 4096).
    replace (t' + 8 * k) with ((512 * (t' / 4096) + k) * 8) by lia. apply Z.mod_mul. lia. }
  intros Hq. unfold prefix_ok in Hq. destruct Hq as [Hlen Hq]. destruct q as [|i q]; cbn [tbl_at].
  { intros [= <-]. done. }
  apply Forall_cons in Hq as [Hi Hq]. destruct (decide (i = 255)) as [->|Hi'].
  2:{ rewrite dm_entry; [done|by apply Hal|unfold dm_root in *; lia..]. }
  replace (ld64 dm_mem (dm_root + 8 * 255)) with (Z.lor (PA_TO_PTE (dm_root + 0x1000)) PTE_V) by (by vm_compute).
  replace (pte_valid _) with true by (by vm_compute). replace (PTE_TO_PA _) with (dm_root + 0x1000) by (by vm_compute).
  destruct q as [|j q]; cbn [tbl_at]. { intros [= <-]. done. }
  apply Forall_cons in Hq as [Hj Hq]. destruct (decide (j = 511)) as [->|Hj'].
  2:{ rewrite dm_entry; [done|by apply Hal|unfold dm_root in *; lia..]. }
  replace (ld64 dm_mem (dm_root + 0x1000 + 8 * 511)) with (Z.lor (PA_TO_PTE (dm_root + 0x2000)) PTE_V) by (by vm_compute).
  replace (pte_valid _) with true by (by vm_compute). replace (PTE_TO_PA _) with (dm_root + 0x2000) by (by vm_compute).
  destruct q as [|k q]; cbn [tbl_at]; [intros [= <-]; done|]. cbn in Hlen. lia.
Qed.
Lemma dm_frame : frame_mapped dm_mem dm_root dm_tf.
Proof.
  split; [by vm_compute|by vm_compute|by vm_compute|]. intros a Ha (q & t & Hq & Ht & Hat).
  destruct (dm_tables q t Hq Ht) as [Hb _]. unfold dm_root, dm_tf, PGSIZE in *. lia.
Qed.

Definition dm_hart : hart :=
  mkHart (fun r => match r with a7 => 12 | sp => 0x3ff000 | _ => 5 end)
    (fun c => match c with SATP => MAKE_SATP dm_root | SSCRATCH => TRAPFRAME | _ => 0x80500000 end)
    (st64 dm_mem 0x80500018 0x2004000).
Lemma dm_kept : tables_kept dm_mem (hm dm_hart) dm_root.
Proof.
  intros a (q & t & Hq & Ht & Hat). cbn. apply ld8_st_ne. destruct (dm_tables q t Hq Ht) as [Hb _].
  unfold dm_root, PGSIZE in *. cbn. lia.
Qed.
Lemma dm_regs : regs_wf dm_hart.
Proof. intros []; cbn; lia. Qed.
Lemma user_trap_roundtrip_witness :
  exists h1, exec Sv39 user_vector dm_hart = Some h1 /\ ld64 (hm h1) (dm_tf + 168) = 12 /\
    exists h3, exec Sv39 user_return (set_reg a0 TRAPFRAME (set_reg a1 (MAKE_SATP dm_root) dm_hart)) = Some h3.
Proof.
  destruct (user_trap_roundtrip dm_root dm_tf dm_hart (frame_mapped_kept _ _ _ _ dm_frame dm_kept) eq_refl eq_refl dm_regs)
    as (h1 & E & _ & _ & _ & _ & Hg & Hret). exists h1. split; [exact E|].
  split; [exact (Hg a7 168 (bool_decide_eq_true_1 ((a7, 168) ∈ trapframe_layout) eq_refl))|].
  destruct (Hret (set_reg a0 TRAPFRAME (set_reg a1 (MAKE_SATP dm_root) dm_hart)) eq_refl eq_refl (fun a _ => eq_refl))
    as (h3 & E3 & _). by exists h3.
Defined.
Definition dm_switch : hart := set_reg a0 0x80600000 (set_reg a1 0x80600100 dm_hart).
Lemma dm_switch_regs : regs_wf dm_switch.
Proof. intros []; vm_compute; split; congruence. Qed.
Lemma swtch_roundtrip_witness : exists h', exec Bare swtch_code dm_switch = Some h' /\ ld64 (hm h') 0x80600008 = 0x3ff000.
Proof.
  destruct (swtch_roundtrip Bare (MAKE_SATP dm_root) (fun _ => True) dm_switch dm_switch_regs eq_refl I
    (bare_window _ 0x80600000 112 ltac:(lia) ltac:(lia)) (bare_window _ 0x80600100 112 ltac:(lia) ltac:(lia)))
    as (h' & E & Hg & _); [left; vm_compute; congruence|].
  exists h'. split; [exact E|]. exact (proj1 (Hg sp 8 (bool_decide_eq_true_1 ((sp, 8) ∈ context_layout) eq_refl))).
Defined.
Lemma kernel_vector_transparent_witness : exists h1, exec Bare kernel_vector_entry dm_hart = Some h1 /\
  exists h3, exec Bare kernel_vector_exit (set_reg t0 99 h1) = Some h3 /\ rg h3 t0 = 5 /\ rg h3 sp = 0x3ff000.
Proof.
  destruct (kernel_vector_transparent Bare (MAKE_SATP dm_root) 0x3fef00 (fun _ => True) dm_hart dm_regs) as (h1 & E & _ & Hsa & Hx);
    [vm_compute; congruence|reflexivity|exact I|exact (bare_window _ 0x3fef00 256 ltac:(lia) ltac:(lia))|].
  exists h1. split; [exact E|].
  destruct (Hx (set_reg t0 99 h1)) as (h3 & E3 & _ & _ & Hr); [reflexivity| |exact I|reflexivity|].
  - exact Hsa.
  - exists h3. split; [exact E3|]. split; [apply (Hr t0); discriminate|apply (Hr sp); discriminate].
Defined.
Lemma timer_vector_transparent_witness :
  exists h', exec Bare timer_vector dm_hart = Some h' /\ cs h' SIP = 2 /\ rg h' a1 = 5.
Proof.
  destruct (timer_vector_transparent dm_hart dm_regs) as (h' & E & Hr & _ & Hs & _);
    [vm_compute; congruence|vm_compute; congruence|vm_compute; congruence|vm_compute; congruence|left; vm_compute; congruence|].
  exists h'. split; [exact E|]. split; [exact Hs|apply (Hr a1)].
Defined.
Lemma entry_stack_witness : exists h', exec Bare (_entry 0x80010000)
    (mkHart (fun _ => 0) (fun _ => 1) ∅) = Some h' /\ rg h' sp = 0x80012000.
Proof.
  destruct (entry_stack 0x80010000 Bare (mkHart (fun _ => 0) (fun _ => 1) ∅)) as (h' & E & Hsp & _);
    [lia|vm_compute; reflexivity|vm_compute; split; congruence|]. exists h'. split; [exact E|exact Hsp].
Defined.
