(* ===== verification/Virtio.v ===== *)
(** * dev/virtio.c: the disk driver

    struct disk with its descriptor table, the available and the used ring, and
    the book-keeping of requests in flight.  The rings are typed views of
    disk.pages; headers, data and status bytes live in physical memory, where the
    device reads and writes them.  The device is any implementation of
    [VirtioBlk]; it runs while the driver waits, as a schedule says how many
    requests it completes in each interrupt window. *)

From S2P Require Import Prelude Machine Str Lock Pmem Kvm KvmSpec Mmap Uvm UvmSpec Proc Buf.

(** ** virtio.h *)

Definition VIRTIO_MMIO_MAGIC_VALUE : Z := 0x000.
Definition VIRTIO_MMIO_VERSION : Z := 0x004.
Definition VIRTIO_MMIO_DEVICE_ID : Z := 0x008.
Definition VIRTIO_MMIO_VENDOR_ID : Z := 0x00c.
Definition VIRTIO_MMIO_DEVICE_FEATURES : Z := 0x010.
Definition VIRTIO_MMIO_DRIVER_FEATURES : Z := 0x020.
Definition VIRTIO_MMIO_GUEST_PAGE_SIZE : Z := 0x028.
Definition VIRTIO_MMIO_QUEUE_SEL : Z := 0x030.
Definition VIRTIO_MMIO_QUEUE_NUM_MAX : Z := 0x034.
Definition VIRTIO_MMIO_QUEUE_NUM : Z := 0x038.
Definition VIRTIO_MMIO_QUEUE_PFN : Z := 0x040.
Definition VIRTIO_MMIO_QUEUE_NOTIFY : Z := 0x050.
Definition VIRTIO_MMIO_INTERRUPT_STATUS : Z := 0x060.
Definition VIRTIO_MMIO_INTERRUPT_ACK : Z := 0x064.
Definition VIRTIO_MMIO_STATUS : Z := 0x070.
Definition VIRTIO_CONFIG_S_ACKNOWLEDGE : Z := 1.
Definition VIRTIO_CONFIG_S_DRIVER : Z := 2.
Definition VIRTIO_CONFIG_S_DRIVER_OK : Z := 4.
Definition VIRTIO_CONFIG_S_FEATURES_OK : Z := 8.
Definition VIRTIO_BLK_F_RO : Z := 5.
Definition VIRTIO_BLK_F_SCSI : Z := 7.
Definition VIRTIO_BLK_F_CONFIG_WCE : Z := 11.
Definition VIRTIO_BLK_F_MQ : Z := 12.
Definition VIRTIO_F_ANY_LAYOUT : Z := 27.
Definition VIRTIO_RING_F_INDIRECT_DESC : Z := 28.
Definition VIRTIO_RING_F_EVENT_IDX : Z := 29.
Definition NUM : Z := 8.
Definition VRING_DESC_F_NEXT : Z := 1.
Definition VRING_DESC_F_WRITE : Z := 2.
Definition VIRTIO_BLK_T_IN : Z := 0.
Definition VIRTIO_BLK_T_OUT : Z := 1.

Record VRingDesc : Type := mkDesc { d_addr : Z; d_len : Z; d_flags : Z; d_next : Z }.
Definition blank_desc : VRingDesc := mkDesc 0 0 0 0.
(** The queue the driver and the device share: desc[], avail (index and ring) and
    used (index and elems[]). *)
Record vring : Type := mkRing {
  desc : list VRingDesc;
  avail_idx : Z;
  avail_ring : list Z;
  used_id : Z;
  used_elems : list (Z * Z);
}.
Definition zero_ring : vring :=
  mkRing (replicate (Z.to_nat NUM) blank_desc) 0 (replicate (Z.to_nat NUM) 0) 0 (replicate (Z.to_nat NUM) (0, 0)).

(** ** The device interface *)

(** The bytes [a, a+n) of memory, and a store of a byte sequence. *)
Definition mbytes (m : memory) (a : Z) (n : nat) : list Z := map (fun i => ld8 m (a + Z.of_nat i)) (seq 0 n).
Fixpoint store_bytes (m : memory) (a : Z) (l : list Z) : memory :=
  match l with [] => m | c :: l => store_bytes (st8 m a c) (a + 1) l end.

Definition has (flags bit : Z) : bool := negb (Z.land flags bit =? 0).
Record request : Type := mkReq { rq_write : bool; rq_sector : Z; rq_data : Z; rq_status : Z }.
(** The request whose chain starts at descriptor [h], as the virtio block
    specification lays it out: a 16-byte header the device reads, one block of
    data it reads or writes, a status byte it writes. *)
Definition chain_request (q : vring) (m : memory) (h : Z) : option request :=
  d0 ← desc q !! Z.to_nat h;
  d1 ← desc q !! Z.to_nat (d_next d0);
  d2 ← desc q !! Z.to_nat (d_next d1);
  if (d_len d0 =? 16) && has (d_flags d0) VRING_DESC_F_NEXT && negb (has (d_flags d0) VRING_DESC_F_WRITE) &&
     (d_len d1 =? BLOCK_SIZE) && has (d_flags d1) VRING_DESC_F_NEXT &&
     (d_len d2 =? 1) && negb (has (d_flags d2) VRING_DESC_F_NEXT) && has (d_flags d2) VRING_DESC_F_WRITE
  then
    let type := ld32 m (d_addr d0) in
    let sector := ld64 m (d_addr d0 + 8) in
    if (type =? VIRTIO_BLK_T_OUT) && negb (has (d_flags d1) VRING_DESC_F_WRITE)
    then Some (mkReq true sector (d_addr d1) (d_addr d2))
    else if (type =? VIRTIO_BLK_T_IN) && has (d_flags d1) VRING_DESC_F_WRITE
    then Some (mkReq false sector (d_addr d1) (d_addr d2))
    else None
  else None.

(** What the virtio specification promises the driver of a block device.  [seen]
    is the available index up to which requests were taken, [irq] the pending
    interrupt.  [serve] completes the next request: it moves the block, writes
    status 0, appends the head to the used ring and raises the interrupt. *)
Class VirtioBlk (D : Type) {HD : BlockDev D} : Type := {
  mmio_rd : Z -> D -> Z;
  mmio_wr : Z -> Z -> D -> D;
  seen : D -> Z;
  irq : D -> bool;
  serve : vring -> memory -> D -> vring * memory * D;
  serve_ok : forall q m d h r b,
    seen d <> avail_idx q -> avail_ring q !! Z.to_nat (seen d mod NUM) = Some h ->
    chain_request q m h = Some r -> rq_sector r = b * (BLOCK_SIZE / 512) ->
    exists len d', serve q m d =
      (mkRing (desc q) (avail_idx q) (avail_ring q) (u16 (used_id q + 1))
         (<[Z.to_nat (used_id q mod NUM) := (h, len)]> (used_elems q)),
       st8 (if rq_write r then m else store_bytes m (rq_data r) (blk_get d b)) (rq_status r) 0, d') /\
      seen d' = u16 (seen d + 1) /\ irq d' = true /\
      forall b', blk_get d' b' =
        if rq_write r && (b' =? b) then mbytes m (rq_data r) (Z.to_nat BLOCK_SIZE) else blk_get d b';
  status_irq : forall d, irq d = true -> Z.land (mmio_rd VIRTIO_MMIO_INTERRUPT_STATUS d) 0x3 <> 0;
  ack_irq : forall d v, irq d = true -> v = Z.land (mmio_rd VIRTIO_MMIO_INTERRUPT_STATUS d) 0x3 ->
    irq (mmio_wr VIRTIO_MMIO_INTERRUPT_ACK v d) = false;
  notify_irq : forall d v, irq (mmio_wr VIRTIO_MMIO_QUEUE_NOTIFY v d) = irq d;
  wr_seen : forall d r v, r = VIRTIO_MMIO_INTERRUPT_ACK \/ r = VIRTIO_MMIO_QUEUE_NOTIFY -> seen (mmio_wr r v d) = seen d;
  wr_blk : forall d r v b, r = VIRTIO_MMIO_INTERRUPT_ACK \/ r = VIRTIO_MMIO_QUEUE_NOTIFY ->
    blk_get (mmio_wr r v d) b = blk_get d b;
}.

(** ** struct disk *)

(** disk.info[i].status is a byte of memory the device writes; see [status_addr]. *)
Record vdisk : Type := mkDisk {
  ring : vring;
  dfree : list bool;
  used_idx : Z;
  info_b : list (option nat);
  vdisk_lock : spinlock;
}.
(** The fields of a buf_t the driver uses: block_num and disk. *)
Record vbuf : Type := mkVbuf { vb_num : Z; vb_disk : bool }.

Record vstate (D : Type) : Type := mkV { vk : kstate; vd : vdisk; vdev : D; vbufs : list vbuf }.
Arguments mkV {D}. Arguments vk {D}. Arguments vd {D}. Arguments vdev {D}. Arguments vbufs {D}.

Section virtio.
Context {D : Type} {HD : BlockDev D} {HV : VirtioBlk D}.
(** &disk.info[i].status, b->data, &buf0 on the kernel stack, and disk.pages. *)
Context (status_addr : nat -> Z) (buf_addr : nat -> Z) (buf0_addr : Z) (pages_addr : Z) (kernel_pagetable : Z).

Definition v_k : lens (vstate D) kstate := Lens vk (fun k s => mkV k (vd s) (vdev s) (vbufs s)).
Definition upd_vd (f : vdisk -> vdisk) (s : vstate D) : vstate D := mkV (vk s) (f (vd s)) (vdev s) (vbufs s).
Definition v_lk : lens (vstate D) (cpu * spinlock) :=
  Lens (fun s => (pcpu (kpm (vk s)), vdisk_lock (vd s)))
       (fun p s => let d := vd s in
          mkV (lset k_cpu (fst p) (vk s)) (mkDisk (ring d) (dfree d) (used_idx d) (info_b d) (snd p)) (vdev s) (vbufs s)).
Definition v_cpu : lens (vstate D) cpu :=
  Lens (fun s => pcpu (kpm (vk s))) (fun c s => mkV (lset k_cpu c (vk s)) (vd s) (vdev s) (vbufs s)).
Definition vmem (s : vstate D) : memory := pm (kpm (vk s)).
Definition set_vmem (m : memory) (s : vstate D) : vstate D :=
  mkV (set_kpm (set_pm m (kpm (vk s))) (vk s)) (vd s) (vdev s) (vbufs s).

Definition set_ring (r : vring) (d : vdisk) : vdisk := mkDisk r (dfree d) (used_idx d) (info_b d) (vdisk_lock d).
Definition set_dfree (l : list bool) (d : vdisk) : vdisk := mkDisk (ring d) l (used_idx d) (info_b d) (vdisk_lock d).
Definition set_used_idx (n : Z) (d : vdisk) : vdisk := mkDisk (ring d) (dfree d) n (info_b d) (vdisk_lock d).
Definition set_info_b (l : list (option nat)) (d : vdisk) : vdisk := mkDisk (ring d) (dfree d) (used_idx d) l (vdisk_lock d).
Definition set_desc (i : nat) (f : VRingDesc -> VRingDesc) (r : vring) : vring :=
  mkRing (alter f i (desc r)) (avail_idx r) (avail_ring r) (used_id r) (used_elems r).

(** *R(r) *)
Definition R_rd (r : Z) : M (vstate D) Z := gets (fun s => mmio_rd r (vdev s)).
Definition R_wr (r v : Z) : M (vstate D) unit := modify (fun s => mkV (vk s) (vd s) (mmio_wr r v (vdev s)) (vbufs s)).

Definition clear_bits (features : Z) (bits : list Z) : Z :=
  foldl (fun f b => Z.land f (Z.lnot (Z.shiftl 1 b))) features bits.

Definition virtio_disk_init : M (vstate D) unit :=
  modify (upd_vd (fun d => mkDisk (ring d) (dfree d) (used_idx d) (info_b d) (spinlock_init "virtio_disk")));;;
  let* magic := R_rd VIRTIO_MMIO_MAGIC_VALUE in
  let* version := R_rd VIRTIO_MMIO_VERSION in
  let* device := R_rd VIRTIO_MMIO_DEVICE_ID in
  let* vendor := R_rd VIRTIO_MMIO_VENDOR_ID in
  if negb (magic =? 0x74726976) || negb (version =? 1) || negb (device =? 2) || negb (vendor =? 0x554d4551)
  then panic "could not find virtio disk"
  else
    let status := VIRTIO_CONFIG_S_ACKNOWLEDGE in
    R_wr VIRTIO_MMIO_STATUS status;;;
    let status := Z.lor status VIRTIO_CONFIG_S_DRIVER in
    R_wr VIRTIO_MMIO_STATUS status;;;
    let* features := R_rd VIRTIO_MMIO_DEVICE_FEATURES in
    let features := clear_bits features [VIRTIO_BLK_F_RO; VIRTIO_BLK_F_SCSI; VIRTIO_BLK_F_CONFIG_WCE; VIRTIO_BLK_F_MQ;
                                         VIRTIO_F_ANY_LAYOUT; VIRTIO_RING_F_EVENT_IDX; VIRTIO_RING_F_INDIRECT_DESC] in
    R_wr VIRTIO_MMIO_DRIVER_FEATURES (u32 features);;;
    let status := Z.lor status VIRTIO_CONFIG_S_FEATURES_OK in
    R_wr VIRTIO_MMIO_STATUS status;;;
    let status := Z.lor status VIRTIO_CONFIG_S_DRIVER_OK in
    R_wr VIRTIO_MMIO_STATUS status;;;
    R_wr VIRTIO_MMIO_GUEST_PAGE_SIZE PGSIZE;;;
    R_wr VIRTIO_MMIO_QUEUE_SEL 0;;;
    let* max := R_rd VIRTIO_MMIO_QUEUE_NUM_MAX in
    if max =? 0 then panic "virtio disk has no queue 0"
    else if max <? NUM then panic "virtio disk max queue too short"
    else
      R_wr VIRTIO_MMIO_QUEUE_NUM NUM;;;
      modify (upd_vd (set_ring zero_ring));;;
      R_wr VIRTIO_MMIO_QUEUE_PFN (u32 (Z.shiftr pages_addr 12));;;
      for_ (Z.to_nat NUM) 0 1 (fun i => modify (upd_vd (fun d => set_dfree (<[Z.to_nat i := true]> (dfree d)) d))).

(** ** Descriptors *)

Definition alloc_desc : M (vstate D) Z :=
  let* r := for_exit (Z.to_nat NUM) 0 1 (fun i =>
    let* s := get in
    if default false (dfree (vd s) !! Z.to_nat i) then
      modify (upd_vd (fun d => set_dfree (<[Z.to_nat i := false]> (dfree d)) d));;;
      ret (Some i)
    else ret None) in
  ret (default (-1) r).

Definition free_desc (i : Z) : M (vstate D) unit :=
  when (NUM <=? i) (panic "virtio_disk_intr 1");;;
  let* s := get in
  when (default false (dfree (vd s) !! Z.to_nat i)) (panic "virtio_disk_intr 2");;;
  modify (upd_vd (fun d => set_ring (set_desc (Z.to_nat i) (fun x => mkDesc 0 (d_len x) (d_flags x) (d_next x)) (ring d)) d));;;
  modify (upd_vd (fun d => set_dfree (<[Z.to_nat i := true]> (dfree d)) d));;;
  zoom v_k (proc_wakeup ChDiskFree).

(** A chain of distinct descriptors has at most NUM of them; a descriptor met a
    second time is free and ends the loop in a panic. *)
Fixpoint free_chain (fuel : nat) (i : Z) : M (vstate D) unit :=
  match fuel with
  | O => no_fuel
  | S fuel =>
      free_desc i;;;
      let* s := get in
      let x := default blank_desc (desc (ring (vd s)) !! Z.to_nat i) in
      if has (d_flags x) VRING_DESC_F_NEXT then free_chain fuel (d_next x) else ret tt
  end.
Definition chain_fuel : nat := Z.to_nat (NUM + 1).

(** idx[] so far; on failure the ones taken are given back. *)
Fixpoint alloc3_loop (n : nat) (idx : list Z) : M (vstate D) (option (list Z)) :=
  match n with
  | O => ret (Some idx)
  | S n =>
      let* i := alloc_desc in
      if i <? 0 then
        for_ (length idx) 0 1 (fun j => free_desc (default 0 (idx !! Z.to_nat j)));;;
        ret None
      else alloc3_loop n (idx ++ [i])
  end.
Definition alloc3_desc : M (vstate D) (option (list Z)) := alloc3_loop 3 [].

(** ** The interrupt *)

Definition intr_one : M (vstate D) unit :=
  let* s := get in
  match used_elems (ring (vd s)) !! Z.to_nat (used_idx (vd s)) with
  | None => fault
  | Some (id, _) =>
      when (negb (ld8 (vmem s) (status_addr (Z.to_nat id)) =? 0)) (panic "virtio_disk_intr status");;;
      match info_b (vd s) !! Z.to_nat id with
      | Some (Some b) =>
          modify (fun s => mkV (vk s) (vd s) (vdev s) (alter (fun x => mkVbuf (vb_num x) false) b (vbufs s)));;;
          zoom v_k (proc_wakeup (ChDiskDone b));;;
          modify (upd_vd (fun d => set_used_idx ((used_idx d + 1) mod NUM) d))
      | _ => fault
      end
  end.
(** The two indices differ modulo NUM by less than NUM. *)
Definition virtio_disk_intr : M (vstate D) unit :=
  zoom v_lk spinlock_acquire;;;
  while_ (S (Z.to_nat NUM))
    (gets (fun s => negb (used_idx (vd s) mod NUM =? used_id (ring (vd s)) mod NUM)))
    intr_one;;;
  let* st := R_rd VIRTIO_MMIO_INTERRUPT_STATUS in
  R_wr VIRTIO_MMIO_INTERRUPT_ACK (Z.land st 0x3);;;
  zoom v_lk spinlock_release.

(** ** The environment of a waiting driver *)

(** The device completes up to [n] of the requests it has been told of. *)
Fixpoint serve_n (n : nat) : M (vstate D) unit :=
  match n with
  | O => ret tt
  | S n =>
      let* s := get in
      if seen (vdev s) =? avail_idx (ring (vd s)) then ret tt
      else
        let '(q, m, d) := serve (ring (vd s)) (vmem s) (vdev s) in
        modify (fun s => set_vmem m (mkV (vk s) (set_ring q (vd s)) d (vbufs s)));;;
        serve_n n
  end.
(** Between a release and the next acquire of vdisk_lock: the device runs, and if
    the hart has interrupts enabled a pending disk interrupt is taken. *)
Definition irq_window (n : nat) : M (vstate D) unit :=
  serve_n n;;;
  let* s := get in
  when (sie (pcpu (kpm (vk s))) && irq (vdev s))
    (zoom v_cpu intr_off;;; virtio_disk_intr;;; zoom v_cpu intr_on).

(** ** virtio_disk_rw() *)

(** while (alloc3_desc(idx) != 0) { release; acquire; }, along a schedule. *)
Fixpoint wait_desc (sched : list nat) : M (vstate D) (list Z) :=
  let* r := alloc3_desc in
  match r with
  | Some idx => ret idx
  | None =>
      match sched with
      | [] => no_fuel
      | n :: sched =>
          zoom v_lk spinlock_release;;;
          irq_window n;;;
          zoom v_lk spinlock_acquire;;;
          wait_desc sched
      end
  end.
(** while (b->disk == true) { release; acquire; } *)
Fixpoint wait_done (sched : list nat) (b : nat) : M (vstate D) unit :=
  let* s := get in
  if default false (vb_disk <$> vbufs s !! b) then
    match sched with
    | [] => no_fuel
    | n :: sched =>
        zoom v_lk spinlock_release;;;
        irq_window n;;;
        zoom v_lk spinlock_acquire;;;
        wait_done sched b
    end
  else ret tt.

Definition wr_desc (i : Z) (x : VRingDesc) : M (vstate D) unit :=
  modify (upd_vd (fun d => set_ring (set_desc (Z.to_nat i) (fun _ => x) (ring d)) d)).

(** The three descriptors, the status byte and the available ring. *)
Definition submit (b : nat) (write : bool) (sector i0 i1 i2 : Z) : M (vstate D) unit :=
  (* buf0, at the address its stack page has in kernel_pagetable *)
  modify (fun s => let a := upa (vmem s) kernel_pagetable buf0_addr in
    set_vmem (st64 (st32 (st32 (vmem s) a (if write then VIRTIO_BLK_T_OUT else VIRTIO_BLK_T_IN)) (a + 4) 0) (a + 8) sector) s);;;
  let addr := ALIGN_DOWN buf0_addr PGSIZE in
  let off := buf0_addr mod PGSIZE in
  let* pte := zoom v_k (zoom k_pmem (vm_getpte kernel_pagetable addr false)) in
  when (pte =? NULL) fault;;;
  let* v := zoom v_k (zoom k_pmem (peek64 pte)) in
  wr_desc i0 (mkDesc (u64 (PTE_TO_PA v + off)) 16 VRING_DESC_F_NEXT i1);;;
  wr_desc i1 (mkDesc (buf_addr b) BLOCK_SIZE (Z.lor (if write then 0 else VRING_DESC_F_WRITE) VRING_DESC_F_NEXT) i2);;;
  modify (fun s => set_vmem (st8 (vmem s) (status_addr (Z.to_nat i0)) 0) s);;;
  wr_desc i2 (mkDesc (status_addr (Z.to_nat i0)) 1 VRING_DESC_F_WRITE 0);;;
  modify (fun s => mkV (vk s) (vd s) (vdev s) (alter (fun x => mkVbuf (vb_num x) true) b (vbufs s)));;;
  modify (upd_vd (fun d => set_info_b (<[Z.to_nat i0 := Some b]> (info_b d)) d));;;
  modify (upd_vd (fun d => let r := ring d in
    set_ring (mkRing (desc r) (avail_idx r) (<[Z.to_nat (avail_idx r mod NUM) := i0]> (avail_ring r)) (used_id r) (used_elems r)) d));;;
  modify (upd_vd (fun d => let r := ring d in
    set_ring (mkRing (desc r) (u16 (avail_idx r + 1)) (avail_ring r) (used_id r) (used_elems r)) d));;;
  R_wr VIRTIO_MMIO_QUEUE_NOTIFY 0.

Definition virtio_disk_rw (b : nat) (write : bool) (sched1 sched2 : list nat) : M (vstate D) unit :=
  let* s := get in
  let sector := u32 (default 0 (vb_num <$> vbufs s !! b) * (BLOCK_SIZE / 512)) in
  zoom v_lk spinlock_acquire;;;
  let* idx := wait_desc sched1 in
  match idx with
  | [i0; i1; i2] =>
      submit b write sector i0 i1 i2;;;
      wait_done sched2 b;;;
      modify (upd_vd (fun d => set_info_b (<[Z.to_nat i0 := None]> (info_b d)) d));;;
      free_chain chain_fuel i0;;;
      zoom v_lk spinlock_release
  | _ => fault
  end.
End virtio.
