(* ===== verification/VirtioSpec.v ===== *)
(** * Properties of the disk driver

    One request from an idle queue, with interrupts enabled, moves exactly its
    block and leaves the queue idle: virtio_disk_rw() implements the transfer the
    buffer cache relies on.  A driver that waits with interrupts off waits for
    ever.  Descriptors are allocated three at a time or not at all. *)

From S2P Require Import Prelude Machine Str Lock Pmem Kvm KvmSpec Mmap Uvm UvmSpec Proc ProcSpec SleepSpec Buf BufSpec Virtio.

(** ** Bytes *)

Lemma store_bytes_out m a l b : b < a \/ a + Z.of_nat (length l) <= b -> ld8 (store_bytes m a l) b = ld8 m b.
Proof.
  revert m a. induction l as [|c l IH]; intros m a H; cbn [store_bytes length] in *; [done|].
  rewrite IH by lia. apply ld8_st8_ne. lia.
Qed.
Lemma store_bytes_in m a l i c : l !! i = Some c -> ld8 (store_bytes m a l) (a + Z.of_nat i) = u8 c.
Proof.
  revert m a i. induction l as [|x l IH]; intros m a i H; [done|]. cbn [store_bytes].
  destruct i as [|i]; cbn in H; simplify_eq.
  - rewrite Z.add_0_r, store_bytes_out by lia. apply ld8_st8_eq.
  - replace (a + Z.of_nat (S i)) with (a + 1 + Z.of_nat i) by lia. by apply IH.
Qed.
Lemma mbytes_lookup m a n i : (i < n)%nat -> mbytes m a n !! i = Some (ld8 m (a + Z.of_nat i)).
Proof. intros H. unfold mbytes. rewrite list_lookup_fmap, lookup_seq_lt by done. done. Qed.
Lemma mbytes_ext m m' a n : (forall b, a <= b < a + Z.of_nat n -> ld8 m b = ld8 m' b) -> mbytes m a n = mbytes m' a n.
Proof. intros H. unfold mbytes. apply map_ext_in. intros i Hi. apply in_seq in Hi. apply H. lia. Qed.
Lemma mbytes_store m a l : mbytes (store_bytes m a l) a (length l) = map u8 l.
Proof.
  apply list_eq. intros i. rewrite list_lookup_fmap. destruct (l !! i) as [c|] eqn:E.
  - rewrite mbytes_lookup by (by eapply lookup_lt_Some). by rewrite (store_bytes_in _ _ _ _ _ E).
  - apply lookup_ge_None_1 in E. apply lookup_ge_None_2. unfold mbytes. by rewrite length_map, length_seq.
Qed.

Section spec.
Context {D : Type} {HD : BlockDev D} {HV : VirtioBlk D}.

(** ** Wakeups *)

(** A kernel state in which nobody sleeps on the disk, whose code never sleeps. *)
Record disk_quiet (k : kstate) : Prop := {
  dq_len : length (procs k) = Z.to_nat NPROC;
  dq_free : forall i, lk_free (plk (proc_at k i));
  dq_wait : forall i ch, state (proc_at k i) = SLEEPING -> sleep_space (proc_at k i) = Some ch ->
    ch <> ChDiskFree /\ forall b, ch <> ChDiskDone b;
}.
Lemma wake_disk k ch (c : cpu) : disk_quiet k -> ch = ChDiskFree \/ (exists b, ch = ChDiskDone b) ->
  cpu_wf c -> synced c = c -> proc_wakeup ch (set_kcpu c k) = Ret tt (set_kcpu c k).
Proof.
  intros [H1 H2 H3] Hch Hc Hs. apply wakeup_none; try done. intros i Hst Hsp.
  destruct (H3 i ch Hst Hsp) as [Hn1 Hn2]. destruct Hch as [->|[b ->]]; [done|by destruct (Hn2 b)].
Qed.
Lemma quiet_mem k m : disk_quiet k -> disk_quiet (set_kpm (set_pm m (kpm k)) k).
Proof. by intros [H1 H2 H3]. Qed.
Lemma quiet_cpu k c : disk_quiet k -> disk_quiet (set_kcpu c k).
Proof. by intros [H1 H2 H3]. Qed.

(** ** Descriptors *)

Definition at_cpu (s : vstate D) : cpu := kcpu (vk s).
Definition locked_cpu (s : vstate D) : Prop := cpu_wf (at_cpu s) /\ synced (at_cpu s) = at_cpu s.

Definition freed (i : Z) (s : vstate D) : vstate D :=
  upd_vd (fun d => set_dfree (<[Z.to_nat i := true]> (dfree d))
    (set_ring (set_desc (Z.to_nat i) (fun x => mkDesc 0 (d_len x) (d_flags x) (d_next x)) (ring d)) d)) s.
Lemma free_desc_run i s : i < NUM -> dfree (vd s) !! Z.to_nat i = Some false -> disk_quiet (vk s) -> locked_cpu s ->
  free_desc i s = Ret tt (freed i s).
Proof.
  intros Hi Hf Hq [Hw Hs]. unfold free_desc. bcase (NUM <=? i); [lia|]. mstep. rewrite Hf. cbn [default from_option id]. mstep.
  erewrite zoom_run; [|cbn [lget v_k vk upd_vd]; rewrite <- (set_kcpu_id (vk s)) at 1;
    apply wake_disk; [exact Hq|by left|exact Hw|exact Hs]].
  unfold freed, upd_vd. cbn. by rewrite set_kcpu_id.
Qed.

(** The free descriptors, lowest first. *)
Definition free_list (l : list bool) : list nat := filter (fun i => l !! i = Some true) (seq 0 (length l)).
Definition taken (i : nat) (s : vstate D) : vstate D := upd_vd (fun d => set_dfree (<[i := false]> (dfree d)) d) s.

Lemma desc_scan n i s :
  for_exit n (Z.of_nat i) 1 (fun i =>
    let* s := get in
    if default false (dfree (vd s) !! Z.to_nat i) then
      modify (upd_vd (fun d => set_dfree (<[Z.to_nat i := false]> (dfree d)) d));;;
      ret (Some i)
    else ret None) s =
  match filter (fun i => dfree (vd s) !! i = Some true) (seq i n) with
  | [] => Ret None s
  | j :: _ => Ret (Some (Z.of_nat j)) (taken j s)
  end.
Proof.
  revert i. induction n as [|n IH]; intros i; cbn [for_exit seq]; [done|]. mstep. rewrite Nat2Z.id.
  rewrite filter_cons. destruct (dfree (vd s) !! i) as [[]|] eqn:E; cbn [default from_option id].
  - rewrite decide_True by done. mstep. done.
  - rewrite decide_False by done. mstep. replace (Z.of_nat i + 1) with (Z.of_nat (S i)) by lia. apply IH.
  - rewrite decide_False by done. mstep. replace (Z.of_nat i + 1) with (Z.of_nat (S i)) by lia. apply IH.
Qed.
Lemma alloc_desc_run s : length (dfree (vd s)) = Z.to_nat NUM ->
  alloc_desc s = match free_list (dfree (vd s)) with
                 | [] => Ret (-1) s
                 | j :: _ => Ret (Z.of_nat j) (taken j s)
                 end.
Proof.
  intros Hl. unfold alloc_desc, free_list. rewrite Hl.
  pose proof (desc_scan (Z.to_nat NUM) 0 s) as E. change (Z.of_nat 0) with 0 in E.
  destruct (filter _ _); by rewrite (bind_run _ _ _ _ _ E).
Qed.

Lemma free_list_elem l i : i ∈ free_list l <-> l !! i = Some true.
Proof.
  unfold free_list. rewrite list_elem_of_filter, elem_of_seq. split; [by intros []|].
  intros H. split; [done|]. apply lookup_lt_Some in H. lia.
Qed.
Lemma free_list_nodup l : NoDup (free_list l).
Proof. apply NoDup_filter, NoDup_seq. Qed.
Lemma free_list_take l j r : free_list l = j :: r -> free_list (<[j := false]> l) = r.
Proof.
  intros H. assert (free_list (<[j := false]> l) = filter (fun i => i <> j) (free_list l)) as ->.
  { unfold free_list. rewrite length_insert, list_filter_filter. apply list_filter_iff. intros i.
    destruct (decide (i = j)) as [->|Hne].
    - assert (j ∈ free_list l) as Hj by (rewrite H; by left). apply free_list_elem in Hj.
      rewrite list_lookup_insert_eq by (by eapply lookup_lt_Some). naive_solver.
    - rewrite list_lookup_insert_ne by done. naive_solver. }
  pose proof (free_list_nodup l) as Hnd. rewrite H in *. apply NoDup_cons in Hnd as [Hn _].
  rewrite filter_cons_False by auto. clear -Hn. induction r as [|x r IH]; [done|].
  apply not_elem_of_cons in Hn as [Hx Hn]. rewrite filter_cons_True by done. by rewrite IH.
Qed.
Lemma taken_dfree j s : dfree (vd (taken j s)) = <[j := false]> (dfree (vd s)).
Proof. done. Qed.

(** alloc3_desc() from any state of the free flags: the three lowest free
    descriptors, or none. *)
Lemma alloc3_enough s i0 i1 i2 rest : length (dfree (vd s)) = Z.to_nat NUM ->
  free_list (dfree (vd s)) = i0 :: i1 :: i2 :: rest ->
  alloc3_desc s = Ret (Some [Z.of_nat i0; Z.of_nat i1; Z.of_nat i2]) (taken i2 (taken i1 (taken i0 s))).
Proof.
  intros Hl H0. unfold alloc3_desc. cbn [alloc3_loop].
  assert (forall j s, length (dfree (vd s)) = Z.to_nat NUM -> length (dfree (vd (taken j s))) = Z.to_nat NUM) as Hlen.
  { intros j s' H. by rewrite taken_dfree, length_insert. }
  pose proof (free_list_take _ _ _ H0) as H1. pose proof (free_list_take _ _ _ H1) as H2.
  pose proof (alloc_desc_run s Hl) as A0. rewrite H0 in A0. rewrite (bind_run _ _ _ _ _ A0). bcase (Z.of_nat i0 <? 0); [lia|].
  pose proof (alloc_desc_run _ (Hlen i0 _ Hl)) as A1. rewrite taken_dfree, H1 in A1. rewrite (bind_run _ _ _ _ _ A1).
  bcase (Z.of_nat i1 <? 0); [lia|].
  pose proof (alloc_desc_run _ (Hlen i1 _ (Hlen i0 _ Hl))) as A2. rewrite !taken_dfree, H2 in A2. rewrite (bind_run _ _ _ _ _ A2).
  bcase (Z.of_nat i2 <? 0); [lia|]. done.
Qed.

(** Free descriptors have a cleared address, as free_desc() and the zeroed pages
    leave them. *)
Definition free_clear (s : vstate D) : Prop := forall i, dfree (vd s) !! i = Some true ->
  exists x, desc (ring (vd s)) !! i = Some x /\ d_addr x = 0.
Lemma freed_taken i s : dfree (vd s) !! i = Some true -> free_clear s -> freed (Z.of_nat i) (taken i s) = s.
Proof.
  intros Hi Hc. destruct (Hc i Hi) as (x & Hx & Ha). destruct s as [k [[ds ai ar ui ue] fr u inf lk] dv bs]. cbn in *.
  unfold freed, taken, upd_vd, set_dfree, set_ring, set_desc. cbn. rewrite Nat2Z.id. repeat f_equal.
  - apply list_eq. intros j. destruct (decide (j = i)) as [->|Hne].
    + rewrite list_lookup_alter_eq, Hx. cbn. destruct x. cbn in *. by subst.
    + by rewrite list_lookup_alter_ne.
  - rewrite list_insert_insert_eq. by apply list_insert_id.
Qed.
Lemma freed_taken_comm i j s : i <> j -> freed (Z.of_nat i) (taken j s) = taken j (freed (Z.of_nat i) s).
Proof. intros Hne. unfold freed, taken, upd_vd, set_dfree, set_ring. cbn. rewrite Nat2Z.id, list_insert_insert_ne by done. done. Qed.

Lemma alloc3_short s : length (dfree (vd s)) = Z.to_nat NUM -> (length (free_list (dfree (vd s))) < 3)%nat ->
  free_clear s -> disk_quiet (vk s) -> locked_cpu s -> alloc3_desc s = Ret None s.
Proof.
  intros Hl Hs Hc Hq Hcpu.
  assert (forall j s, length (dfree (vd s)) = Z.to_nat NUM -> length (dfree (vd (taken j s))) = Z.to_nat NUM) as Hlen.
  { intros j s' H. by rewrite taken_dfree, length_insert. }
  assert (forall i, i ∈ free_list (dfree (vd s)) -> dfree (vd s) !! i = Some true /\ (i < 8)%nat) as Hin.
  { intros i Hi. apply free_list_elem in Hi. split; [done|]. apply lookup_lt_Some in Hi. rewrite Hl in Hi. exact Hi. }
  pose proof (free_list_nodup (dfree (vd s))) as Hnd.
  unfold alloc3_desc. cbn [alloc3_loop app]. pose proof (alloc_desc_run s Hl) as A0.
  destruct (free_list (dfree (vd s))) as [|i0 [|i1 [|i2 r]]] eqn:H0; [| | |cbn in Hs; lia].
  { rewrite (bind_run _ _ _ _ _ A0). done. }
  all: rewrite (bind_run _ _ _ _ _ A0); bcase (Z.of_nat i0 <? 0); [lia|];
    pose proof (free_list_take _ _ _ H0) as H1; pose proof (alloc_desc_run _ (Hlen i0 _ Hl)) as A1;
    rewrite taken_dfree, H1 in A1; rewrite (bind_run _ _ _ _ _ A1); destruct (Hin i0 ltac:(by left)) as [Hi0 Hb0];
    assert (i0 < length (dfree (vd s)))%nat as Hl0 by (by eapply lookup_lt_Some).
  - change (-1 <? 0) with true. cbn [app length for_]. mstep. change (Z.to_nat 0) with O. cbn [lookup list_lookup default from_option id].
    rewrite (bind_run _ _ _ _ _ (free_desc_run (Z.of_nat i0) (taken i0 s) ltac:(unfold NUM; lia)
      ltac:(rewrite Nat2Z.id, taken_dfree; by apply list_lookup_insert_eq) Hq Hcpu)).
    mstep. by rewrite freed_taken.
  - bcase (Z.of_nat i1 <? 0); [lia|]. destruct (Hin i1 ltac:(right; by left)) as [Hi1 Hb1].
    assert (i0 <> i1) as Hne by (apply NoDup_cons in Hnd as [Hnd _]; set_solver).
    assert (i1 < length (dfree (vd s)))%nat as Hl1 by (by eapply lookup_lt_Some).
    pose proof (free_list_take _ _ _ H1) as H2. pose proof (alloc_desc_run _ (Hlen i1 _ (Hlen i0 _ Hl))) as A2.
    rewrite !taken_dfree, H2 in A2. rewrite (bind_run _ _ _ _ _ A2).
    change (-1 <? 0) with true. cbn [app length for_]. mstep. change (Z.to_nat 0) with O. change (Z.to_nat (0 + 1)) with 1%nat.
    cbn [lookup list_lookup default from_option id].
    rewrite (bind_run _ _ _ _ _ (free_desc_run (Z.of_nat i0) (taken i1 (taken i0 s)) ltac:(unfold NUM; lia)
      ltac:(rewrite Nat2Z.id, !taken_dfree, list_lookup_insert_ne by done; by apply list_lookup_insert_eq) Hq Hcpu)).
    rewrite freed_taken_comm, freed_taken by done. mstep.
    rewrite (bind_run _ _ _ _ _ (free_desc_run (Z.of_nat i1) (taken i1 s) ltac:(unfold NUM; lia)
      ltac:(rewrite Nat2Z.id, taken_dfree; by apply list_lookup_insert_eq) Hq Hcpu)).
    mstep. by rewrite freed_taken.
Qed.

(** alloc3_desc() takes the three lowest free descriptors, and when fewer than
    three are free it fails and puts every one back: the driver's state is exactly
    what it was, so that two callers cannot each keep a part and wait for the
    rest. *)
Theorem alloc3_desc_cases s : length (dfree (vd s)) = Z.to_nat NUM -> free_clear s -> disk_quiet (vk s) -> locked_cpu s ->
  match free_list (dfree (vd s)) with
  | i0 :: i1 :: i2 :: rest => exists s', alloc3_desc s = Ret (Some [Z.of_nat i0; Z.of_nat i1; Z.of_nat i2]) s' /\
      free_list (dfree (vd s')) = rest /\ ring (vd s') = ring (vd s) /\ vk s' = vk s
  | _ => alloc3_desc s = Ret None s
  end.
Proof.
  intros Hl Hc Hq Hcpu. destruct (free_list (dfree (vd s))) as [|i0 [|i1 [|i2 rest]]] eqn:E.
  4: { eexists. split; [by apply (alloc3_enough s i0 i1 i2 rest)|]. rewrite !taken_dfree. split; [|done].
       apply (free_list_take _ i2), (free_list_take _ i1), (free_list_take _ i0), E. }
  all: apply alloc3_short; try done; rewrite E; cbn; lia.
Qed.
(** ** One request *)

Context (status_addr : nat -> Z) (buf_addr : nat -> Z) (buf0_addr : Z) (kernel_pagetable : Z).

(** No request in flight. *)
Record settled (s : vstate D) : Prop := {
  id_desc : length (desc (ring (vd s))) = Z.to_nat NUM;
  id_avail : length (avail_ring (ring (vd s))) = Z.to_nat NUM;
  id_elems : length (used_elems (ring (vd s))) = Z.to_nat NUM;
  id_info : length (info_b (vd s)) = Z.to_nat NUM;
  id_lock : lk_free (vdisk_lock (vd s));
  id_seen : seen (vdev s) = avail_idx (ring (vd s));
  id_range : 0 <= avail_idx (ring (vd s)) < 2 ^ 16 /\ 0 <= used_id (ring (vd s)) < 2 ^ 16;
  id_used : used_idx (vd s) = used_id (ring (vd s)) mod NUM;
  id_irq : irq (vdev s) = false;
  id_quiet : disk_quiet (vk s);
}.
(** Every descriptor is free, too. *)
Record idle (s : vstate D) : Prop := {
  id_settled : settled s;
  id_free : dfree (vd s) = replicate (Z.to_nat NUM) true;
  id_clear : free_clear s;
}.
Lemma settled_taken i s : settled s -> settled (taken i s).
Proof. by intros [? ? ? ? ? ? ? ? ? ?]. Qed.

(** The header on the stack is mapped, and header, data and status byte share no
    byte with each other or with the kernel page table. *)
Definition header_addr (m : memory) : Z := upa m kernel_pagetable buf0_addr.
Record request_mem (m : memory) (b : nat) : Prop := {
  rm_va : 0 <= buf0_addr < VA_MAX;
  rm_valid : uvalid m kernel_pagetable buf0_addr = true;
  rm_nonnull : tables_nonnull m kernel_pagetable;
  rm_tables : forall a, table_byte m kernel_pagetable a ->
    ~ header_addr m <= a < header_addr m + 16 /\ ~ buf_addr b <= a < buf_addr b + BLOCK_SIZE /\ a <> status_addr 0;
  rm_header : header_addr m + 16 <= buf_addr b \/ buf_addr b + BLOCK_SIZE <= header_addr m;
  rm_status : ~ header_addr m <= status_addr 0 < header_addr m + 16 /\
    ~ buf_addr b <= status_addr 0 < buf_addr b + BLOCK_SIZE;
}.

Definition header_mem (m : memory) (write : bool) (sector : Z) : memory :=
  let a := header_addr m in
  st64 (st32 (st32 m a (if write then VIRTIO_BLK_T_OUT else VIRTIO_BLK_T_IN)) (a + 4) 0) (a + 8) sector.
Definition request_mem_after (m : memory) (write : bool) (sector : Z) : memory :=
  st8 (header_mem m write sector) (status_addr 0) 0.
Definition d0 (m : memory) : VRingDesc := mkDesc (header_addr m) 16 VRING_DESC_F_NEXT 1.
Definition d1 (b : nat) (write : bool) : VRingDesc :=
  mkDesc (buf_addr b) BLOCK_SIZE (Z.lor (if write then 0 else VRING_DESC_F_WRITE) VRING_DESC_F_NEXT) 2.
Definition d2 : VRingDesc := mkDesc (status_addr 0) 1 VRING_DESC_F_WRITE 0.
(** The queue with the request at descriptors 0, 1, 2. *)
Definition queued (m : memory) (b : nat) (write : bool) (r : vring) : vring :=
  let r := set_desc 2 (fun _ => d2) (set_desc 1 (fun _ => d1 b write) (set_desc 0 (fun _ => d0 m) r)) in
  mkRing (desc r) (u16 (avail_idx r + 1)) (<[Z.to_nat (avail_idx r mod NUM) := 0]> (avail_ring r)) (used_id r) (used_elems r).
Definition submitted (b : nat) (write : bool) (sector : Z) (s : vstate D) : vstate D :=
  let m := vmem s in
  mkV (vk (set_vmem (request_mem_after m write sector) s))
    (set_info_b (<[O := Some b]> (info_b (vd s))) (set_ring (queued m b write (ring (vd s))) (vd s)))
    (mmio_wr VIRTIO_MMIO_QUEUE_NOTIFY 0 (vdev s))
    (alter (fun x => mkVbuf (vb_num x) true) b (vbufs s)).

Lemma header_kept m b write sector : request_mem m b -> tables_kept m (header_mem m write sector) kernel_pagetable.
Proof.
  intros R a Ha. destruct (rm_tables _ _ R a Ha) as (Hh & _). unfold header_mem.
  rewrite !ld8_st_ne by (cbn; lia). done.
Qed.
Lemma submit_run b write sector s : request_mem (vmem s) b ->
  submit status_addr buf_addr buf0_addr kernel_pagetable b write sector 0 1 2 s = Ret tt (submitted b write sector s).
Proof.
  intros R. unfold submit. mstep. fold (header_addr (vmem s)). fold (header_mem (vmem s) write sector).
  set (m1 := header_mem (vmem s) write sector). pose proof (header_kept _ _ write sector R) as K. fold m1 in K.
  assert (ALIGN_DOWN buf0_addr PGSIZE = PG_ROUND_DOWN buf0_addr) as -> by done.
  destruct (PG_ROUND_DOWN_bounds buf0_addr) as [Hb _]. pose proof (rm_va _ _ R) as Hva.
  erewrite bind_run; [|apply zoom_run, zoom_run, vm_getpte_read; lia]. cbn zeta.
  change (pm (lget k_pmem (lget v_k (set_vmem m1 s)))) with m1.
  pose proof (rm_valid _ _ R) as Hv. unfold uvalid in Hv. rewrite <- (pte_frame _ _ _ K), <- pte_round in Hv.
  assert (exists t, walk m1 kernel_pagetable (PG_ROUND_DOWN buf0_addr) = Some t /\ t <> NULL) as (t & Hw & Ht).
  { unfold pte_of in Hv. destruct (walk m1 _ _) as [t|] eqn:E; [|done]. exists t. split; [done|].
    rewrite walk_tbl in E. destruct (tbl_at m1 kernel_pagetable (vpns (PG_ROUND_DOWN buf0_addr))) as [q|] eqn:Hq; [|done].
    injection E as <-. pose proof (nonnull_kept _ _ _ K (rm_nonnull _ _ R) _ _ (vpns_ok _) Hq).
    pose proof (VPN_bound (PG_ROUND_DOWN buf0_addr) 0). unfold NULL. lia. }
  rewrite Hw. cbn [default from_option id]. bcase (t =? NULL); [done|]. mstep. unfold peek64.
  erewrite bind_run; [|apply zoom_run, zoom_run; reflexivity]. cbn zeta. unfold wr_desc, R_wr. mstep.
  assert (u64 (PTE_TO_PA (ld64 m1 t) + buf0_addr mod PGSIZE) = header_addr (vmem s)) as Ha.
  { replace (ld64 m1 t) with (pte_of m1 kernel_pagetable (PG_ROUND_DOWN buf0_addr)) by (unfold pte_of; by rewrite Hw).
    rewrite pte_round, (pte_frame _ _ _ K). unfold header_addr, upa. apply u64_small.
    pose proof (PTE_TO_PA_bound (pte_of (vmem s) kernel_pagetable buf0_addr)).
    pose proof (Z.mod_pos_bound buf0_addr PGSIZE ltac:(done)). lia. }
  destruct s as [[[c m kr ur] rp ps z g l] [[ds ai ar ui ue] fr u inf lk] dv bs]. cbn in *.
  unfold submitted, set_info_b, set_ring, queued, set_desc, d0. cbn. rewrite <- Ha. done.
Qed.

(** ** The lock and the hart around a state *)

Definition with_cpu (c : cpu) (s : vstate D) : vstate D := lset v_cpu c s.
Definition hold (c : cpu) (s : vstate D) : vstate D := lset v_lk (pushed c, lk_held c (vdisk_lock (vd s))) s.

Lemma acquire_run c s : lk_free (vdisk_lock (vd s)) -> zoom v_lk spinlock_acquire (with_cpu c s) = Ret tt (hold c s).
Proof. intros H. erewrite zoom_run by (by apply spinlock_acquire_run). done. Qed.
Lemma release_run c s : cpu_wf c -> lk_free (vdisk_lock (vd s)) ->
  zoom v_lk spinlock_release (hold c s) = Ret tt (with_cpu (synced c) s).
Proof.
  intros Hc H. erewrite zoom_run by (by apply spinlock_release_run).
  by destruct s as [[[? ? ? ?] ? ? ? ? ?] [? ? ? ? ?] ? ?].
Qed.
Lemma with_cpu_id s : with_cpu (at_cpu s) s = s.
Proof. by destruct s as [[[? ? ? ?] ? ? ? ? ?] ? ? ?]. Qed.
Lemma hold_cpu c s : cpu_wf c -> locked_cpu (hold c s).
Proof. intros Hc. split; [by apply pushed_wf|by apply synced_pushed]. Qed.
(** At depth 0 with interrupts enabled the remembered state does not matter. *)
Definition open_cpu (c : cpu) : Prop := noff c = 0 /\ sie c = true.
Lemma open_wf c : open_cpu c -> cpu_wf c.
Proof. intros [Hn Hs]. split; [lia|lia]. Qed.
Lemma pushed_open c c' : open_cpu c -> open_cpu c' -> cpu_id c = cpu_id c' -> cproc c = cproc c' -> pushed c = pushed c'.
Proof. intros [H1 H2] [H3 H4] H5 H6. unfold pushed. by rewrite H1, H2, H3, H4, H5, H6. Qed.
Lemma hold_open c c' s : open_cpu c -> open_cpu c' -> cpu_id c = cpu_id c' -> cproc c = cproc c' -> hold c s = hold c' s.
Proof. intros H1 H2 H3 H4. unfold hold, lk_held. by rewrite (pushed_open c c'), H3. Qed.

Lemma submitted_hold b w x c s : submitted b w x (hold c s) = hold c (submitted b w x s).
Proof. by destruct s as [[[? ? ? ?] ? ? ? ? ?] [? ? ? ? ?] ? ?]. Qed.

(** ** The device completes the request *)

Lemma header_fields m b write sector : request_mem m b -> 0 <= sector < 2 ^ 64 ->
  ld32 (request_mem_after m write sector) (header_addr m) = (if write then VIRTIO_BLK_T_OUT else VIRTIO_BLK_T_IN) /\
  ld64 (request_mem_after m write sector) (header_addr m + 8) = sector.
Proof.
  intros R Hs. pose proof (rm_status _ _ R). unfold request_mem_after. split.
  - rewrite (ld_ext 4 _ (header_mem m write sector)).
    + unfold header_mem. rewrite !ld_st_ne by (cbn; lia). rewrite ld_st_eq. by destruct write.
    + intros a Ha. apply ld8_st8_ne. cbn in Ha. lia.
  - rewrite (ld_ext 8 _ (header_mem m write sector)).
    + unfold header_mem. rewrite ld_st_eq. by apply Z.mod_small.
    + intros a Ha. apply ld8_st8_ne. cbn in Ha. lia.
Qed.
Lemma queued_request m b write sector r : length (desc r) = Z.to_nat NUM -> request_mem m b -> 0 <= sector < 2 ^ 64 ->
  chain_request (queued m b write r) (request_mem_after m write sector) 0 =
  Some (mkReq write sector (buf_addr b) (status_addr 0)).
Proof.
  intros Hl R Hs. destruct (header_fields m b write sector R Hs) as [H1 H2].
  unfold chain_request, queued, set_desc, d0. cbn [desc avail_idx avail_ring used_id used_elems].
  generalize dependent (request_mem_after m write sector). intros m' H1 H2.
  generalize dependent (header_addr m). intros h H1 H2.
  destruct (desc r) as [|x0 [|x1 [|x2 l]]]; [done..|]. cbn [alter list_alter].
  change (Z.to_nat 0) with 0%nat. cbn [lookup list_lookup mbind option_bind d_next].
  change (Z.to_nat 1) with 1%nat. cbn [lookup list_lookup mbind option_bind d_next d1].
  change (Z.to_nat 2) with 2%nat. cbn [lookup list_lookup mbind option_bind d_addr d_len d_flags d1 d2].
  rewrite H1, H2. by destruct write.
Qed.

(** Memory and queue after the device has served the request. *)
Definition served_mem (b : nat) (write : bool) (num : Z) (s : vstate D) : memory :=
  st8 (if write then vmem s else store_bytes (vmem s) (buf_addr b) (blk_get (vdev s) num)) (status_addr 0) 0.
Definition served_ring (len : Z) (r : vring) : vring :=
  mkRing (desc r) (avail_idx r) (avail_ring r) (u16 (used_id r + 1))
    (<[Z.to_nat (used_id r mod NUM) := (0, len)]> (used_elems r)).
Definition served (b : nat) (write : bool) (num len : Z) (d : D) (s : vstate D) : vstate D :=
  set_vmem (served_mem b write num s) (mkV (vk s) (set_ring (served_ring len (ring (vd s))) (vd s)) d (vbufs s)).

Lemma serve_run n b write num s : settled s -> request_mem (vmem s) b -> 0 <= num < 2 ^ 31 ->
  exists len d, serve_n (S n) (submitted b write (num * 2) s) = Ret tt (served b write num len d (submitted b write (num * 2) s)) /\
    seen d = u16 (seen (vdev s) + 1) /\ irq d = true /\
    forall b', blk_get d b' = if write && (b' =? num) then mbytes (vmem s) (buf_addr b) (Z.to_nat BLOCK_SIZE) else blk_get (vdev s) b'.
Proof.
  intros I R Hn. set (t := submitted b write (num * 2) s). cbn [serve_n]. mstep.
  assert (vmem t = request_mem_after (vmem s) write (num * 2)) as Hm by done.
  destruct (id_range _ I) as [Ha _]. pose proof (id_seen _ I) as Hsn.
  assert (seen (vdev t) = avail_idx (ring (vd s))) as Hst by (cbn; rewrite wr_seen; [done|by right]).
  assert (seen (vdev t) <> avail_idx (ring (vd t))) as Hne.
  { rewrite Hst. cbn. unfold u16. pose proof (Z.mod_pos_bound (avail_idx (ring (vd s)) + 1) (2 ^ 16)).
    destruct (decide (avail_idx (ring (vd s)) = 2 ^ 16 - 1)) as [->|]; [done|]. rewrite Z.mod_small by lia. lia. }
  destruct (serve_ok (ring (vd t)) (vmem t) (vdev t) 0 (mkReq write (num * 2) (buf_addr b) (status_addr 0)) num)
    as (len & d & E & Hseen & Hirq & Hblk); [done| | |done|].
  { rewrite Hst. cbn. apply list_lookup_insert_eq. rewrite (id_avail _ I).
    pose proof (Z.mod_pos_bound (avail_idx (ring (vd s))) NUM ltac:(done)). unfold NUM in *. lia. }
  { rewrite Hm. apply queued_request; [apply (id_desc _ I)|done|lia]. }
  bcase (seen (vdev t) =? avail_idx (ring (vd t))); [done|]. rewrite E. mstep. exists len, d. split.
  - destruct n as [|n]; [done|]. cbn [serve_n]. mstep.
    change (seen (vdev _)) with (seen d). change (avail_idx (ring (vd _))) with (u16 (avail_idx (ring (vd s)) + 1)).
    rewrite Hseen, Hst, Z.eqb_refl. done.
  - rewrite Hseen, Hst, Hsn. split_and!; [done|done|]. intros b'. rewrite Hblk. cbn [rq_write rq_data].
    destruct (write && (b' =? num)); [|cbn; apply wr_blk; by right].
    apply mbytes_ext. intros a Ha'. change (Z.of_nat (Z.to_nat BLOCK_SIZE)) with BLOCK_SIZE in Ha'. rewrite Hm.
    unfold request_mem_after, header_mem. pose proof (rm_status _ _ R). pose proof (rm_header _ _ R).
    rewrite ld8_st8_ne, !ld8_st_ne by (cbn; lia). done.
Qed.

(** ** The interrupt completes it *)

(** Modulo NUM the 16-bit used index counts without a jump. *)
Lemma u16_mod_NUM x : u16 x mod NUM = x mod NUM.
Proof.
  unfold u16, NUM. pose proof (Z.div_mod x (2 ^ 16) ltac:(lia)) as E.
  replace x with (x mod 2 ^ 16 + x / 2 ^ 16 * 8192 * 8) at 2 by lia. by rewrite Z.mod_add.
Qed.
Lemma mod_NUM_next x : (x mod NUM + 1) mod NUM = (x + 1) mod NUM /\ x mod NUM <> (x + 1) mod NUM.
Proof. unfold NUM. pose proof (Z.div_mod x 8 ltac:(lia)). pose proof (Z.mod_pos_bound x 8 ltac:(lia)).
  destruct (decide (x mod 8 = 7)) as [E|E].
  - rewrite E. assert ((x + 1) mod 8 = 0) as ->; [|by split]. replace (x + 1) with (0 + (x / 8 + 1) * 8) by lia. by rewrite Z.mod_add.
  - assert ((x + 1) mod 8 = x mod 8 + 1) as ->; [|rewrite Z.mod_small by lia; split; [done|lia]].
    replace (x + 1) with (x mod 8 + 1 + x / 8 * 8) by lia. rewrite Z.mod_add by lia. rewrite Z.mod_small; lia.
Qed.

Definition finished (b : nat) (s : vstate D) : vstate D :=
  let d := vdev s in
  mkV (vk s) (set_used_idx ((used_idx (vd s) + 1) mod NUM) (vd s))
    (mmio_wr VIRTIO_MMIO_INTERRUPT_ACK (Z.land (mmio_rd VIRTIO_MMIO_INTERRUPT_STATUS d) 0x3) d)
    (alter (fun x => mkVbuf (vb_num x) false) b (vbufs s)).

(** A used ring holding one new element, that of descriptor 0 with buffer [b]. *)
Record one_used (b : nat) (s : vstate D) : Prop := {
  ou_elem : exists len, used_elems (ring (vd s)) !! Z.to_nat (used_idx (vd s)) = Some (0, len);
  ou_new : used_idx (vd s) mod NUM <> used_id (ring (vd s)) mod NUM;
  ou_last : (used_idx (vd s) + 1) mod NUM = used_id (ring (vd s)) mod NUM;
  ou_status : ld8 (vmem s) (status_addr 0) = 0;
  ou_info : info_b (vd s) !! O = Some (Some b);
  ou_quiet : disk_quiet (vk s);
}.
Lemma intr_one_run b s : one_used b s -> locked_cpu s ->
  intr_one status_addr s =
  Ret tt (upd_vd (set_used_idx ((used_idx (vd s) + 1) mod NUM))
    (mkV (vk s) (vd s) (vdev s) (alter (fun x => mkVbuf (vb_num x) false) b (vbufs s)))).
Proof.
  intros O [Hw Hs]. unfold intr_one. mstep. destruct (ou_elem _ _ O) as [len ->]. change (Z.to_nat 0) with 0%nat.
  rewrite (ou_status _ _ O), (ou_info _ _ O). cbn [negb Z.eqb]. mstep.
  erewrite bind_run; [|apply zoom_run; cbn [lget v_k vk]; rewrite <- (set_kcpu_id (vk s)) at 1;
    apply wake_disk; [exact (ou_quiet _ _ O)|right; by exists b|exact Hw|exact Hs]].
  mstep. unfold upd_vd. cbn. by rewrite set_kcpu_id.
Qed.
Lemma one_used_hold b c s : one_used b s -> one_used b (hold c s).
Proof. intros [? ? ? ? ? ?]. constructor; try done. by apply quiet_cpu. Qed.

(** virtio_disk_intr() with one new element in the used ring. *)
Lemma virtio_disk_intr_run b c s : one_used b s -> lk_free (vdisk_lock (vd s)) -> cpu_wf c ->
  virtio_disk_intr status_addr (with_cpu c s) = Ret tt (with_cpu (synced c) (finished b s)).
Proof.
  intros O Hl Hc. unfold virtio_disk_intr. rewrite (bind_run _ _ _ _ _ (acquire_run c s Hl)).
  change (Z.to_nat NUM) with 8%nat. cbn [while_]. mstep.
  change (used_idx (vd (hold c s))) with (used_idx (vd s)). change (ring (vd (hold c s))) with (ring (vd s)).
  bcase (used_idx (vd s) mod NUM =? used_id (ring (vd s)) mod NUM); [by destruct (ou_new _ _ O)|]. cbn [negb]. mstep.
  rewrite (bind_run _ _ _ _ _ (intr_one_run b _ (one_used_hold _ _ _ O) (hold_cpu c s Hc))). mstep.
  cbn [vd upd_vd set_used_idx used_idx ring]. change (used_idx (vd (hold c s))) with (used_idx (vd s)).
  change (ring (vd (hold c s))) with (ring (vd s)).
  rewrite (ou_last _ _ O), Z.mod_mod, Z.eqb_refl by done. cbn [negb]. unfold R_rd, R_wr. mstep.
  pose proof (release_run c (finished b s) Hc Hl) as Hr. rewrite <- Hr. f_equal.
  unfold hold, finished, upd_vd, set_used_idx. cbn. by rewrite (ou_last _ _ O).
Qed.

(** ** Waiting *)

Lemma submitted_cpu b w x c s : submitted b w x (with_cpu c s) = with_cpu c (submitted b w x s).
Proof. done. Qed.
Lemma settled_cpu c s : settled s -> settled (with_cpu c s).
Proof. intros [? ? ? ? ? ? ? ? ? ?]. constructor; try done. by apply quiet_cpu. Qed.
Lemma served_one_used b w num len d s : settled s -> one_used b (served b w num len d (submitted b w (num * 2) s)).
Proof.
  intros I. destruct (mod_NUM_next (used_id (ring (vd s)))) as [E1 E2].
  pose proof (Z.mod_pos_bound (used_id (ring (vd s))) NUM ltac:(done)). pose proof (id_elems _ I) as He. pose proof (id_info _ I) as Hi.
  constructor.
  - exists len. cbn. rewrite (id_used _ I). apply list_lookup_insert_eq. rewrite He. unfold NUM in *. lia.
  - cbn. rewrite (id_used _ I), Z.mod_mod, u16_mod_NUM by done. done.
  - cbn. by rewrite (id_used _ I), E1, u16_mod_NUM.
  - apply ld8_st8_eq.
  - cbn. apply list_lookup_insert_eq. rewrite Hi. unfold NUM. lia.
  - apply quiet_mem, quiet_mem, (id_quiet _ I).
Qed.

Lemma irq_window_idle c b w x s : settled s -> irq_window status_addr 0 (with_cpu c (submitted b w x s)) = Ret tt (with_cpu c (submitted b w x s)).
Proof.
  intros I. unfold irq_window. cbn [serve_n]. mstep. change (vdev (with_cpu _ _)) with (mmio_wr VIRTIO_MMIO_QUEUE_NOTIFY 0 (vdev s)).
  rewrite notify_irq, (id_irq _ I), andb_false_r. done.
Qed.
(** What a completed request leaves of the device. *)
Definition completed (b : nat) (w : bool) (num : Z) (s : vstate D) (d : D) : Prop :=
  seen d = u16 (seen (vdev s) + 1) /\ irq d = true /\
  forall b', blk_get d b' = if w && (b' =? num) then mbytes (vmem s) (buf_addr b) (Z.to_nat BLOCK_SIZE) else blk_get (vdev s) b'.
Definition same_hart (c c' : cpu) : Prop := open_cpu c' /\ cpu_id c' = cpu_id c /\ cproc c' = cproc c.
Lemma irq_window_serves n c b w num s : settled s -> request_mem (vmem s) b -> 0 <= num < 2 ^ 31 -> open_cpu c ->
  exists len d c', irq_window status_addr (S n) (with_cpu c (submitted b w (num * 2) s)) =
      Ret tt (with_cpu c' (finished b (served b w num len d (submitted b w (num * 2) s)))) /\
    completed b w num s d /\ same_hart c c'.
Proof.
  intros I R Hn [Hn0 Hs]. destruct (serve_run n b w num (with_cpu c s)) as (len & d & E & Hd & Hi & Hb);
    [by apply settled_cpu|done|done|]. rewrite submitted_cpu in E.
  set (u := served b w num len d (submitted b w (num * 2) s)). exists len, d, (set_sie true (synced (set_sie false c))).
  split; [|by repeat split; rewrite ?synced_noff; cbn; rewrite ?synced_cproc; try done; unfold synced; cbn; rewrite Hn0].
  unfold irq_window. rewrite (bind_run _ _ _ _ _ E). mstep.
  change (sie _) with (sie c) at 1. change (irq _) with (irq d) at 1. rewrite Hs, Hi. cbn [andb]. unfold when.
  change (served b w num len d (with_cpu c (submitted b w (num * 2) s))) with (with_cpu c u).
  assert (zoom v_cpu intr_off (with_cpu c u) = Ret tt (with_cpu (set_sie false c) u)) as E1 by done.
  rewrite (bind_run _ _ _ _ _ E1).
  rewrite (bind_run _ _ _ _ _ (virtio_disk_intr_run b (set_sie false c) u (served_one_used b w num len d s I) (id_lock _ I)
    ltac:(split; cbn; [lia|done]))). done.
Qed.

Lemma synced_hart c : open_cpu c -> same_hart c (synced c).
Proof.
  intros [Hn Hs]. repeat split; rewrite ?synced_noff, ?synced_sie, ?synced_cproc; try done. unfold synced. by case_match.
Qed.
Lemma wait_done_false sched b s : vb_disk <$> vbufs s !! b = Some false -> wait_done status_addr sched b s = Ret tt s.
Proof. intros H. destruct sched; cbn [wait_done]; mstep; by rewrite H. Qed.
(** One round of the loop: nothing happened, or the request completed. *)
Lemma wait_done_round n sched c b w num s : settled s -> request_mem (vmem s) b -> 0 <= num < 2 ^ 31 -> open_cpu c ->
  is_Some (vbufs s !! b) ->
  match n with
  | O => wait_done status_addr (O :: sched) b (hold c (submitted b w (num * 2) s)) =
         wait_done status_addr sched b (hold c (submitted b w (num * 2) s))
  | S _ => exists len d, wait_done status_addr (n :: sched) b (hold c (submitted b w (num * 2) s)) =
      Ret tt (hold c (finished b (served b w num len d (submitted b w (num * 2) s)))) /\ completed b w num s d
  end.
Proof.
  intros I R Hn Hc [v Hv]. destruct (synced_hart c Hc) as (Ho & Hid & Hpr).
  assert (forall n, wait_done status_addr (n :: sched) b (hold c (submitted b w (num * 2) s)) =
    (irq_window status_addr n;;; zoom v_lk spinlock_acquire;;; wait_done status_addr sched b)
      (with_cpu (synced c) (submitted b w (num * 2) s))) as Hround.
  { intros n'. cbn [wait_done]. mstep. change (vbufs (hold _ _)) with (alter (fun x => mkVbuf (vb_num x) true) b (vbufs s)).
    rewrite list_lookup_alter_eq, Hv. cbn [fmap option_fmap option_map vb_disk default from_option id].
    by rewrite (bind_run _ _ _ _ _ (release_run c (submitted b w (num * 2) s) (open_wf _ Hc) (id_lock _ I))). }
  destruct n as [|n].
  - rewrite Hround, (bind_run _ _ _ _ _ (irq_window_idle _ b w (num * 2) s I)).
    rewrite (bind_run _ _ _ _ _ (acquire_run (synced c) (submitted b w (num * 2) s) (id_lock _ I))).
    by rewrite (hold_open (synced c) c) by (done || congruence).
  - destruct (irq_window_serves n (synced c) b w num s I R Hn Ho) as (len & d & c' & E & Hd & (Ho' & Hid' & Hpr')).
    exists len, d. split; [|done]. set (u := finished b _) in *. rewrite Hround, (bind_run _ _ _ _ _ E).
    rewrite (bind_run _ _ _ _ _ (acquire_run c' u (id_lock _ I))), (hold_open c' c) by (done || congruence).
    apply wait_done_false. change (vbufs (hold _ _)) with
      (alter (fun x => mkVbuf (vb_num x) false) b (alter (fun x => mkVbuf (vb_num x) true) b (vbufs s))).
    by rewrite !list_lookup_alter_eq, Hv.
Qed.
Lemma wait_done_run sched c b w num s : settled s -> request_mem (vmem s) b -> 0 <= num < 2 ^ 31 -> open_cpu c ->
  is_Some (vbufs s !! b) -> Exists (fun n => 0 < n)%nat sched ->
  exists len d, wait_done status_addr sched b (hold c (submitted b w (num * 2) s)) =
      Ret tt (hold c (finished b (served b w num len d (submitted b w (num * 2) s)))) /\ completed b w num s d.
Proof.
  intros I R Hn Hc Hv Hex. induction Hex as [n sched Hp|n sched Hex IH]; pose proof (wait_done_round n sched c b w num s I R Hn Hc Hv) as Hr.
  - by destruct n; [lia|].
  - destruct n; [|done]. by rewrite Hr.
Qed.

(** ** Giving the descriptors back *)

Lemma free_chain_run s x0 x1 x2 ds fr :
  desc (ring (vd s)) = x0 :: x1 :: x2 :: ds -> dfree (vd s) = false :: false :: false :: fr ->
  has (d_flags x0) VRING_DESC_F_NEXT = true -> d_next x0 = 1 ->
  has (d_flags x1) VRING_DESC_F_NEXT = true -> d_next x1 = 2 -> has (d_flags x2) VRING_DESC_F_NEXT = false ->
  disk_quiet (vk s) -> locked_cpu s ->
  free_chain chain_fuel 0 s = Ret tt (freed 2 (freed 1 (freed 0 s))).
Proof.
  intros Hd Hf F0 N0 F1 N1 F2 Hq Hc. change chain_fuel with 9%nat. cbn [free_chain].
  assert (disk_quiet (vk (freed 0 s)) /\ locked_cpu (freed 0 s)) as [Hq1 Hc1] by done.
  rewrite (bind_run _ _ _ _ _ (free_desc_run 0 s ltac:(done) ltac:(by rewrite Hf) Hq Hc)). mstep.
  assert (desc (ring (vd (freed 0 s))) = mkDesc 0 (d_len x0) (d_flags x0) (d_next x0) :: x1 :: x2 :: ds) as Hd1 by (cbn; by rewrite Hd).
  assert (dfree (vd (freed 0 s)) = true :: false :: false :: fr) as Hf1 by (cbn; by rewrite Hf).
  rewrite Hd1. change (Z.to_nat 0) with 0%nat. cbn [lookup list_lookup default from_option id d_flags d_next]. rewrite F0, N0.
  rewrite (bind_run _ _ _ _ _ (free_desc_run 1 _ ltac:(done) ltac:(by rewrite Hf1) Hq1 Hc1)). mstep.
  assert (desc (ring (vd (freed 1 (freed 0 s)))) = mkDesc 0 (d_len x0) (d_flags x0) (d_next x0) ::
    mkDesc 0 (d_len x1) (d_flags x1) (d_next x1) :: x2 :: ds) as Hd2 by (cbn; by rewrite Hd).
  assert (dfree (vd (freed 1 (freed 0 s))) = true :: true :: false :: fr) as Hf2 by (cbn; by rewrite Hf).
  rewrite Hd2. change (Z.to_nat 1) with 1%nat. cbn [lookup list_lookup default from_option id d_flags d_next]. rewrite F1, N1.
  rewrite (bind_run _ _ _ _ _ (free_desc_run 2 _ ltac:(done) ltac:(by rewrite Hf2) Hq Hc)). mstep.
  assert (desc (ring (vd (freed 2 (freed 1 (freed 0 s))))) !! 2%nat = Some (mkDesc 0 (d_len x2) (d_flags x2) (d_next x2))) as Hd3
    by (cbn; by rewrite Hd).
  change (Z.to_nat 2) with 2%nat. rewrite Hd3. cbn [default from_option id d_flags]. by rewrite F2.
Qed.

(** ** virtio_disk_rw() *)

Definition claimed (s : vstate D) : vstate D := taken 2 (taken 1 (taken 0 s)).
Definition transferred (b : nat) (w : bool) (num len : Z) (d : D) (s : vstate D) : vstate D :=
  let f := finished b (served b w num len d (submitted b w (num * 2) (claimed s))) in
  freed 2 (freed 1 (freed 0 (upd_vd (fun x => set_info_b (<[O := None]> (info_b x)) x) f))).

Notation rw := (virtio_disk_rw status_addr buf_addr buf0_addr kernel_pagetable).

(** Up to the wait: the lock taken, descriptors 0, 1 and 2, the request queued. *)
Lemma rw_submits b w num sched1 sched2 s : idle s -> request_mem (vmem s) b -> 0 <= num < 2 ^ 31 ->
  vb_num <$> vbufs s !! b = Some num ->
  rw b w sched1 sched2 s =
  (wait_done status_addr sched2 b;;;
   modify (upd_vd (fun d => set_info_b (<[O := None]> (info_b d)) d));;;
   free_chain chain_fuel 0;;; zoom v_lk spinlock_release)
   (hold (at_cpu s) (submitted b w (num * 2) (claimed s))).
Proof.
  intros I R Hn Hb. pose proof (id_settled _ I) as S. unfold virtio_disk_rw. mstep. rewrite Hb. cbn [default from_option id].
  change (BLOCK_SIZE / 512) with 2. rewrite u32_small by lia.
  rewrite <- (with_cpu_id s) at 1. rewrite (bind_run _ _ _ _ _ (acquire_run (at_cpu s) s (id_lock _ S))).
  assert (wait_desc status_addr sched1 (hold (at_cpu s) s) = Ret [0; 1; 2] (hold (at_cpu s) (claimed s))) as Ew.
  { assert (alloc3_desc (hold (at_cpu s) s) = Ret (Some [0; 1; 2]) (hold (at_cpu s) (claimed s))) as Ea.
    { apply (alloc3_enough (hold (at_cpu s) s) 0 1 2 [3; 4; 5; 6; 7]%nat); cbn; by rewrite (id_free _ I). }
    destruct sched1; cbn [wait_desc]; rewrite (bind_run _ _ _ _ _ Ea); done. }
  rewrite (bind_run _ _ _ _ _ Ew), (bind_run _ _ _ _ _ (submit_run b w (num * 2) (hold (at_cpu s) (claimed s)) R)).
  by rewrite submitted_hold.
Qed.

Lemma rw_run b w num sched1 sched2 s : idle s -> request_mem (vmem s) b -> 0 <= num < 2 ^ 31 -> open_cpu (at_cpu s) ->
  vb_num <$> vbufs s !! b = Some num -> Exists (fun n => 0 < n)%nat sched2 ->
  exists len d, rw b w sched1 sched2 s = Ret tt (with_cpu (synced (at_cpu s)) (transferred b w num len d s)) /\
    completed b w num s d.
Proof.
  intros I R Hn Ho Hb Hex. rewrite (rw_submits b w num) by done. pose proof (id_settled _ I) as S. set (c := at_cpu s) in *.
  destruct (wait_done_run sched2 c b w num (claimed s)) as (len & d & E & Hd);
    [by do 3 apply settled_taken|done|done|done|by apply fmap_is_Some in Hb || (destruct (vbufs s !! b) eqn:E; [by eexists|done])|done|].
  exists len, d. split; [|exact Hd]. rewrite (bind_run _ _ _ _ _ E). mstep.
  set (f := upd_vd _ _). pose proof (id_desc _ S) as Hl. destruct (desc (ring (vd s))) as [|x0 [|x1 [|x2 ds]]] eqn:Eds; [done..|].
  assert (free_chain chain_fuel 0 f = Ret tt (freed 2 (freed 1 (freed 0 f)))) as Ef.
  { apply (free_chain_run f (d0 (vmem s)) (d1 b w) d2 ds [true; true; true; true; true]); try done.
    - cbn. by rewrite Eds.
    - cbn. by rewrite (id_free _ I).
    - by destruct w.
    - apply quiet_cpu, quiet_mem, quiet_mem, (id_quiet _ S).
    - exact (hold_cpu c s (open_wf _ Ho)). }
  rewrite (bind_run _ _ _ _ _ Ef). exact (release_run c (transferred b w num len d s) (open_wf _ Ho) (id_lock _ S)).
Qed.

Lemma transferred_idle b w num len d s : idle s -> completed b w num s d -> idle (transferred b w num len d s).
Proof.
  intros I (Hs & Hi & _). pose proof (id_settled _ I) as St. destruct (id_range _ St) as [Ha Hu]. constructor.
  - constructor; cbn.
    + rewrite !length_alter. apply (id_desc _ St).
    + rewrite length_insert. apply (id_avail _ St).
    + rewrite length_insert. apply (id_elems _ St).
    + rewrite !length_insert. apply (id_info _ St).
    + apply (id_lock _ St).
    + rewrite wr_seen, Hs, (id_seen _ St) by (by left). done.
    + split; apply Z.mod_pos_bound; lia.
    + rewrite (id_used _ St), u16_mod_NUM. apply mod_NUM_next.
    + by apply ack_irq; [apply Hi|].
    + by destruct (id_quiet _ St) as [q1 q2 q3]; constructor.
  - cbn. by rewrite (id_free _ I).
  - intros i Hf. pose proof (id_desc _ St) as Hl. cbn in *.
    destruct (desc (ring (vd s))) as [|x0 [|x1 [|x2 ds]]] eqn:Eds; [done..|].
    destruct i as [|[|[|i]]]; cbn; [by eexists..|].
    destruct (id_clear _ I (S (S (S i)))) as (x & Hx & Hx0).
    + rewrite (id_free _ I). rewrite (id_free _ I) in Hf. exact Hf.
    + rewrite Eds in Hx. cbn in Hx. by exists x.
Qed.

(** ** The contract with the buffer cache *)

Lemma settled_idle_cpu c s : idle s -> idle (with_cpu c s).
Proof. intros [H1 H2 H3]. constructor; [by apply settled_cpu|done|done]. Qed.

(** Buffer [b] and the disk as the cache sees them in [r] and the driver in [s]. *)
Record same_disk (b : nat) (s : vstate D) (r : bstate D) : Prop := {
  sd_num : vb_num <$> vbufs s !! b = Some (block_num (buf_at r b));
  sd_data : data (buf_at r b) = mbytes (vmem s) (buf_addr b) (Z.to_nat BLOCK_SIZE);
  sd_blocks : forall n, blk_get (disk r) n = blk_get (vdev s) n;
  sd_bytes : forall n, Forall (fun c => 0 <= c < 256) (blk_get (vdev s) n);
}.
Lemma mbytes_range m a n : Forall (fun c => 0 <= c < 256) (mbytes m a n).
Proof. apply Forall_forall. intros c Hc. apply list_elem_of_In, in_map_iff in Hc as (i & <- & _). apply u8_bound. Qed.
Lemma mbytes_length m a n : length (mbytes m a n) = n.
Proof. unfold mbytes. by rewrite length_map, length_seq. Qed.
Lemma map_u8_id l : Forall (fun c => 0 <= c < 256) l -> map u8 l = l.
Proof. induction 1 as [|c l Hc _ IH]; [done|]. cbn. by rewrite u8_small, IH. Qed.

(** Memory after the call: the header, the status byte and, for a read, the data. *)
Definition after_mem (b : nat) (w : bool) (num : Z) (s : vstate D) : memory :=
  st8 (if w then request_mem_after (vmem s) w (num * 2)
       else store_bytes (request_mem_after (vmem s) w (num * 2)) (buf_addr b) (blk_get (vdev s) num)) (status_addr 0) 0.
Lemma transferred_mem b w num len d s : vmem (transferred b w num len d s) = after_mem b w num s.
Proof.
  unfold after_mem. rewrite <- (wr_blk (vdev s) VIRTIO_MMIO_QUEUE_NOTIFY 0) by (by right). done.
Qed.
Lemma request_mem_frame m w x a : ~ header_addr m <= a < header_addr m + 16 -> a <> status_addr 0 ->
  ld8 (request_mem_after m w x) a = ld8 m a.
Proof. intros H1 H2. unfold request_mem_after, header_mem. rewrite ld8_st8_ne, !ld8_st_ne by (cbn; lia). done. Qed.
Lemma after_mem_frame b w num s a : ~ header_addr (vmem s) <= a < header_addr (vmem s) + 16 -> a <> status_addr 0 ->
  (w = true \/ ~ buf_addr b <= a < buf_addr b + BLOCK_SIZE) -> ld8 (after_mem b w num s) a = ld8 (vmem s) a.
Proof.
  intros H1 H2 H3. unfold after_mem. rewrite ld8_st8_ne by done. pose proof (blk_len (vdev s) num).
  destruct w; [|rewrite store_bytes_out by (destruct H3; [done|lia])]; by apply request_mem_frame.
Qed.
Lemma after_mem_data b w num s : request_mem (vmem s) b ->
  mbytes (after_mem b w num s) (buf_addr b) (Z.to_nat BLOCK_SIZE) =
  if w then mbytes (vmem s) (buf_addr b) (Z.to_nat BLOCK_SIZE) else map u8 (blk_get (vdev s) num).
Proof.
  intros R. pose proof (rm_status _ _ R). pose proof (rm_header _ _ R). destruct w.
  - apply mbytes_ext. intros a Ha. apply after_mem_frame; [|lia|by left]. change (Z.of_nat (Z.to_nat BLOCK_SIZE)) with BLOCK_SIZE in Ha. lia.
  - rewrite <- (mbytes_store (request_mem_after (vmem s) false (num * 2)) (buf_addr b)).
    pose proof (blk_len (vdev s) num) as Hl. replace (length (blk_get (vdev s) num)) with (Z.to_nat BLOCK_SIZE) by lia.
    apply mbytes_ext. intros a Ha. change (Z.of_nat (Z.to_nat BLOCK_SIZE)) with BLOCK_SIZE in Ha. apply ld8_st8_ne. lia.
Qed.

Lemma with_cpu_cpu c s : at_cpu (with_cpu c s) = c.
Proof. done. Qed.
Lemma transferred_procs b w num len d s : procs (vk (transferred b w num len d s)) = procs (vk s).
Proof. done. Qed.
Lemma transferred_bufs b w num len d s v : vbufs s !! b = Some v ->
  vbufs (transferred b w num len d s) !! b = Some (mkVbuf (vb_num v) false).
Proof. intros Hv. cbn. by rewrite !list_lookup_alter_eq, Hv. Qed.
Lemma transferred_blocks b w num len d s n : completed b w num s d ->
  blk_get (vdev (transferred b w num len d s)) n =
  if w && (n =? num) then mbytes (vmem s) (buf_addr b) (Z.to_nat BLOCK_SIZE) else blk_get (vdev s) n.
Proof. intros (_ & _ & Hd). rewrite <- Hd. apply wr_blk. by left. Qed.

(** The whole call, by its effect. *)
Lemma rw_effect b w v sched1 sched2 s : idle s -> request_mem (vmem s) b -> 0 <= vb_num v < 2 ^ 31 -> open_cpu (at_cpu s) ->
  vbufs s !! b = Some v -> Exists (fun n => 0 < n)%nat sched2 ->
  exists s', rw b w sched1 sched2 s = Ret tt s' /\ idle s' /\ open_cpu (at_cpu s') /\
    vmem s' = after_mem b w (vb_num v) s /\ vbufs s' !! b = Some (mkVbuf (vb_num v) false) /\ procs (vk s') = procs (vk s) /\
    forall n, blk_get (vdev s') n =
      if w && (n =? vb_num v) then mbytes (vmem s) (buf_addr b) (Z.to_nat BLOCK_SIZE) else blk_get (vdev s) n.
Proof.
  intros I R Hn Ho Hv Hex.
  destruct (rw_run b w (vb_num v) sched1 sched2 s I R Hn Ho) as (len & d & E & Hd); [by rewrite Hv|done|].
  pose proof (transferred_idle b w (vb_num v) len d s I Hd) as It. pose proof (transferred_mem b w (vb_num v) len d s) as Hm.
  pose proof (transferred_bufs b w (vb_num v) len d s v Hv) as Hb. pose proof (transferred_procs b w (vb_num v) len d s) as Hp.
  pose proof (fun n => transferred_blocks b w (vb_num v) len d s n Hd) as Hk.
  generalize dependent (transferred b w (vb_num v) len d s). intros t E It Hm Hb Hp Hk. exists (with_cpu (synced (at_cpu s)) t).
  split; [exact E|]. split; [by apply settled_idle_cpu|]. split; [rewrite with_cpu_cpu; apply (synced_hart _ Ho)|]. done.
Qed.

(** C9 virtio_disk_rw() refines the transfer the buffer cache is proved against.
    From an idle queue, on a hart with interrupts enabled and no spin lock held,
    and along every schedule in which the device eventually runs, the call returns
    (it does not wait for ever); the block moved is the one disk_rw moves, every
    other block and all memory but the request header, the status byte and (for a
    read) the buffer keep their contents, b->disk is false, and the queue is idle
    again. *)
Theorem virtio_disk_rw_refines b w sched1 sched2 s r :
  idle s -> request_mem (vmem s) b -> open_cpu (at_cpu s) -> same_disk b s r -> 0 <= block_num (buf_at r b) < 2 ^ 31 ->
  (b < length (buf_cache r))%nat -> Exists (fun n => 0 < n)%nat sched2 ->
  exists s' r', rw b w sched1 sched2 s = Ret tt s' /\ disk_rw b w r = Ret tt r' /\ same_disk b s' r' /\
    idle s' /\ open_cpu (at_cpu s') /\ vb_disk <$> vbufs s' !! b = Some false /\
    (forall a, ~ header_addr (vmem s) <= a < header_addr (vmem s) + 16 -> a <> status_addr 0 ->
       w = true \/ ~ buf_addr b <= a < buf_addr b + BLOCK_SIZE -> ld8 (vmem s') a = ld8 (vmem s) a) /\
    procs (vk s') = procs (vk s).
Proof.
  intros I R Ho [Hnum Hdata Hblk Hbytes] Hn Hb Hex. destruct (vbufs s !! b) as [v|] eqn:Hv; [|done]. injection Hnum as Hnum.
  rewrite <- Hnum in Hn. destruct (rw_effect b w v sched1 sched2 s I R Hn Ho Hv Hex) as (s' & E & I' & Ho' & Hm & Hv' & Hp & Hk).
  eexists s', _. split; [exact E|]. split; [reflexivity|]. split; [|split_and!; [done|done|by rewrite Hv'| |done]].
  - destruct (lookup_lt_is_Some_2 _ _ Hb) as [nb Enb]. unfold buf_at, bnode_at in Hnum, Hdata. rewrite Enb in Hnum, Hdata.
    cbn [default from_option id] in Hnum, Hdata. unfold buf_at, bnode_at. rewrite Enb. cbn [default from_option id].
    constructor; [| | |intros n; rewrite Hk; case_match; [apply mbytes_range|apply Hbytes]].
    + rewrite Hv'. destruct w; unfold buf_at, bnode_at, upd_bnode; cbn; rewrite ?list_lookup_alter_eq, Enb; cbn; by f_equal.
    + rewrite Hm, (after_mem_data b w _ s R). destruct w; unfold buf_at, bnode_at, upd_bnode; cbn.
      * by rewrite Enb.
      * rewrite list_lookup_alter_eq, Enb. cbn. by rewrite Hblk, map_u8_id, Hnum.
    + intros n. rewrite Hk. destruct w; cbn [andb disk upd_bnode]; [|apply Hblk]. rewrite Hdata, <- Hnum. bcase (n =? vb_num v).
      * subst n. apply blk_get_eq. by rewrite mbytes_length.
      * rewrite blk_get_ne by done. apply Hblk.
  - intros a Ha1 Ha2 Ha3. rewrite Hm. by apply after_mem_frame.
Qed.

(** ** Waiting with interrupts off *)

(** Bookkeeping the device cannot change. *)
Definition unserved (t u : vstate D) : Prop :=
  vbufs u = vbufs t /\ vdisk_lock (vd u) = vdisk_lock (vd t) /\ at_cpu u = at_cpu t.
Lemma serve_n_unserved n t : exists u, serve_n n t = Ret tt u /\ unserved t u.
Proof.
  revert t. induction n as [|n IH]; intros t; cbn [serve_n]; [by exists t|]. mstep.
  case_match; [by exists t|]. destruct (serve _ _ _) as [[q m] d]. mstep.
  edestruct IH as (u & -> & H1 & H2 & H3). exists u. split; [done|]. unfold unserved. by rewrite H1, H2, H3.
Qed.
Lemma wait_done_stuck sched b c s : vb_disk <$> vbufs s !! b = Some true -> lk_free (vdisk_lock (vd s)) ->
  cpu_wf c -> 0 < noff c -> wait_done status_addr sched b (hold c s) = NoFuel.
Proof.
  revert c s. induction sched as [|n sched IH]; intros c s Hd Hl Hc Hn; cbn [wait_done]; mstep;
    change (vbufs (hold c s)) with (vbufs s); rewrite Hd; cbn [default from_option id]; [done|].
  rewrite (bind_run _ _ _ _ _ (release_run c s Hc Hl)).
  destruct (serve_n_unserved n (with_cpu (synced c) s)) as (u & Hu & H1 & H2 & H3). rewrite with_cpu_cpu in H3.
  assert (irq_window status_addr n (with_cpu (synced c) s) = Ret tt u) as Ei.
  { unfold irq_window. rewrite (bind_run _ _ _ _ _ Hu). mstep. unfold at_cpu, kcpu in H3. rewrite H3, synced_sie.
    destruct Hc as [_ Hc]. by rewrite (Hc Hn). }
  rewrite (bind_run _ _ _ _ _ Ei). rewrite <- (with_cpu_id u), H3.
  rewrite (bind_run _ _ _ _ _ (acquire_run (synced c) u ltac:(by rewrite H2))).
  apply IH; [by rewrite H1|by rewrite H2|by apply synced_wf|by rewrite synced_noff].
Qed.

(** C32 A caller that already holds a spin lock never gets its block: release()
    keeps interrupts off while the outer lock is held, so on this hart the
    completion interrupt is not taken, and the loop on b->disk has not ended after
    any number of rounds, whatever the device does between them. *)
Theorem virtio_disk_rw_stuck b w v sched1 sched2 s :
  idle s -> request_mem (vmem s) b -> vbufs s !! b = Some v -> 0 <= vb_num v < 2 ^ 31 ->
  cpu_wf (at_cpu s) -> 0 < noff (at_cpu s) ->
  rw b w sched1 sched2 s = NoFuel.
Proof.
  intros I R Hv Hn Hc Hnoff. rewrite (rw_submits b w (vb_num v)) by (try done; by rewrite Hv).
  unfold bind at 1. rewrite wait_done_stuck; [done| |apply (id_lock _ (id_settled _ I))|done|done].
  cbn. by rewrite list_lookup_alter_eq, Hv.
Qed.

End spec.

(** ** A device *)

(** A disk in memory that serves requests as the specification says. *)
Record ramdisk : Type := mkRam { rd_blocks : block_map; rd_seen : Z; rd_irq : bool }.
#[export] Instance ramdisk_blocks : BlockDev ramdisk := {
  blk_get d := bm_get (rd_blocks d);
  blk_put d b l := mkRam (bm_put (rd_blocks d) b l) (rd_seen d) (rd_irq d);
  blk_get_eq d := bm_get_eq (rd_blocks d);
  blk_get_ne d := bm_get_ne (rd_blocks d);
  blk_len d b := fit_len _;
}.
Definition ram_rd (r : Z) (d : ramdisk) : Z :=
  if r =? VIRTIO_MMIO_INTERRUPT_STATUS then Z.b2z (rd_irq d) else
  if r =? VIRTIO_MMIO_MAGIC_VALUE then 0x74726976 else if r =? VIRTIO_MMIO_VERSION then 1 else
  if r =? VIRTIO_MMIO_DEVICE_ID then 2 else if r =? VIRTIO_MMIO_VENDOR_ID then 0x554d4551 else
  if r =? VIRTIO_MMIO_QUEUE_NUM_MAX then 1024 else 0.
Definition ram_wr (r v : Z) (d : ramdisk) : ramdisk :=
  if r =? VIRTIO_MMIO_INTERRUPT_ACK then mkRam (rd_blocks d) (rd_seen d) (rd_irq d && negb (Z.odd v)) else d.
Definition ram_serve (q : vring) (m : memory) (d : ramdisk) : vring * memory * ramdisk :=
  match avail_ring q !! Z.to_nat (rd_seen d mod NUM) with
  | None => (q, m, d)
  | Some h =>
      match chain_request q m h with
      | None => (q, m, d)
      | Some r =>
          let b := rq_sector r / (BLOCK_SIZE / 512) in
          let data := mbytes m (rq_data r) (Z.to_nat BLOCK_SIZE) in
          (mkRing (desc q) (avail_idx q) (avail_ring q) (u16 (used_id q + 1))
             (<[Z.to_nat (used_id q mod NUM) := (h, BLOCK_SIZE)]> (used_elems q)),
           st8 (if rq_write r then m else store_bytes m (rq_data r) (bm_get (rd_blocks d) b)) (rq_status r) 0,
           mkRam (if rq_write r then bm_put (rd_blocks d) b data else rd_blocks d) (u16 (rd_seen d + 1)) true)
      end
  end.
Lemma ram_serve_ok q m d h r b :
  rd_seen d <> avail_idx q -> avail_ring q !! Z.to_nat (rd_seen d mod NUM) = Some h ->
  chain_request q m h = Some r -> rq_sector r = b * (BLOCK_SIZE / 512) ->
  exists len d', ram_serve q m d =
    (mkRing (desc q) (avail_idx q) (avail_ring q) (u16 (used_id q + 1))
       (<[Z.to_nat (used_id q mod NUM) := (h, len)]> (used_elems q)),
     st8 (if rq_write r then m else store_bytes m (rq_data r) (blk_get d b)) (rq_status r) 0, d') /\
    rd_seen d' = u16 (rd_seen d + 1) /\ rd_irq d' = true /\
    forall b', blk_get d' b' =
      if rq_write r && (b' =? b) then mbytes m (rq_data r) (Z.to_nat BLOCK_SIZE) else blk_get d b'.
Proof.
  intros _ Hh Hr Hs. unfold ram_serve. rewrite Hh, Hr, Hs, Z.div_mul by done. eexists _, _. split; [reflexivity|].
  split; [done|]. split; [done|]. intros b'. cbn. destruct (rq_write r); cbn [andb]; [|done].
  bcase (b' =? b); [subst; apply bm_get_eq|by apply bm_get_ne]. rewrite mbytes_length. done.
Qed.
Lemma ram_status_irq d : rd_irq d = true -> Z.land (ram_rd VIRTIO_MMIO_INTERRUPT_STATUS d) 0x3 <> 0.
Proof. unfold ram_rd. cbn. by intros ->. Qed.
Lemma ram_ack_irq d v : rd_irq d = true -> v = Z.land (ram_rd VIRTIO_MMIO_INTERRUPT_STATUS d) 0x3 ->
  rd_irq (ram_wr VIRTIO_MMIO_INTERRUPT_ACK v d) = false.
Proof. unfold ram_rd. cbn. by intros -> ->. Qed.
Lemma ram_wr_seen d r v : rd_seen (ram_wr r v d) = rd_seen d.
Proof. unfold ram_wr. by case_match. Qed.
Lemma ram_wr_blk d r v b : blk_get (ram_wr r v d) b = blk_get d b.
Proof. unfold ram_wr. by case_match. Qed.
#[export] Instance ramdisk_virtio : VirtioBlk ramdisk := {
  mmio_rd := ram_rd; mmio_wr := ram_wr; seen := rd_seen; irq := rd_irq; serve := ram_serve;
  serve_ok := ram_serve_ok; status_irq := ram_status_irq; ack_irq := ram_ack_irq;
  notify_irq d v := eq_refl; wr_seen d r v _ := ram_wr_seen d r v; wr_blk d r v b _ := ram_wr_blk d r v b;
}.

(** A machine with one buffer, holding block 7, and an idle queue. *)
Definition demo_status (i : nat) : Z := 0x80028000 + Z.of_nat i.
Definition demo_buf (i : nat) : Z := 0x80020000 + BLOCK_SIZE * Z.of_nat i.
Definition demo_disk (m : memory) (c : cpu) : vstate ramdisk :=
  mkV (set_kcpu c (set_kpm (set_pm m (kpm calm)) calm))
    (mkDisk zero_ring (replicate 8 true) 0 (replicate 8 None) (spinlock_init "virtio_disk"))
    (mkRam ∅ 0 false) [mkVbuf 7 true].
Definition demo_cache (m : memory) : bstate ramdisk :=
  mkB calm [mkBnode (mkBuf blank_sleep 7 (mbytes m 0x80020000 (Z.to_nat BLOCK_SIZE)) 1) None None] (spinlock_init "") (mkRam ∅ 0 false).

Lemma demo_request : exists m, request_mem demo_status demo_buf 0x1100 demo_root m 0.
Proof.
  destruct demo_heap as (s1 & l1 & Hr & Hs & Hp & Hg & _). destruct demo_vm_ok as (H1 & _ & _).
  destruct (grown_apart demo_root demo_vm demo_fl 0x1000 0x3000 s1 l1 H1 Hp ltac:(lia) ltac:(vm_compute; congruence) Hg)
    as (Hnn & Hv & Hap). pose proof demo_user_begin as Hub.
  destruct (Hap 0x1100 0x80020000 1024) as [Hk Hu]; [lia|lia|lia|rewrite Hub; lia|].
  destruct (Hap 0x1100 0x80028000 16) as [Hk2 Hu2]; [lia|lia|lia|rewrite Hub; lia|]. clear Hap Hr Hs Hp Hg.
  assert (forall i, 0 <= i < 16 -> upa (pm s1) demo_root (0x1100 + i) = header_addr 0x1100 demo_root (pm s1) + i) as Hh.
  { intros i Hi. apply (chunk_page (pm s1) demo_root 0x1100 16 i); [lia|]. exact Hi. }
  assert (forall i, 0 <= i < 16 -> uvalid (pm s1) demo_root (0x1100 + i) = true) as Hvi by (intros i Hi; apply Hv; lia).
  set (h := header_addr 0x1100 demo_root (pm s1)) in *.
  exists (pm s1). constructor; change (demo_buf 0) with 0x80020000; change (demo_status 0) with 0x80028000;
    change (header_addr _ _ _) with h; change BLOCK_SIZE with 1024.
  - vm_compute. split; congruence.
  - apply Hv. lia.
  - exact Hnn.
  - intros a Ha. split_and!; intros Hin.
    + destruct (Hu (a - h) ltac:(lia) (Hvi (a - h) ltac:(lia))) as [Ht _]. apply Ht. rewrite Hh by lia. by replace (h + (a - h)) with a by lia.
    + by apply (Hk a Hin).
    + subst a. by apply (Hk2 0x80028000 ltac:(lia)).
  - destruct (decide (h + 16 <= 0x80020000)); [by left|]. destruct (decide (0x80020000 + 1024 <= h)); [by right|]. exfalso.
    destruct (Hk (Z.max h 0x80020000) ltac:(lia)) as [_ Hne]. apply (Hne (Z.max h 0x80020000 - h)); [lia|]. rewrite Hh by lia. lia.
  - split; [intros Hin|lia]. destruct (Hk2 0x80028000 ltac:(lia)) as [_ Hne]. apply (Hne (0x80028000 - h)); [clearbody h; lia|]. rewrite Hh by (clearbody h; lia). lia.
Qed.
Lemma demo_quiet m c : disk_quiet (vk (demo_disk m c)).
Proof.
  constructor; [done|intros i..]; change (proc_at _ i) with (proc_at calm i); rewrite calm_proc; [by split|]. cbn. congruence.
Qed.
Lemma demo_idle m c : idle (demo_disk m c).
Proof.
  constructor; [|done|].
  - constructor; try done. apply demo_quiet.
  - intros i Hi. apply lookup_lt_Some in Hi. cbn in Hi. exists blank_desc. split; [|done]. by apply lookup_replicate_2.
Qed.
Lemma demo_same m c : same_disk demo_buf 0 (demo_disk m c) (demo_cache m).
Proof.
  constructor; [done|done|done|]. intros n. cbn. unfold bm_get. rewrite lookup_empty. cbn.
  unfold fit. apply Forall_take, Forall_app. split; [constructor|]. apply Forall_replicate. lia.
Qed.

Lemma virtio_disk_rw_refines_witness : exists m s' r',
  virtio_disk_rw demo_status demo_buf 0x1100 demo_root 0 true [] [0; 0; 1]%nat (demo_disk m (mkCpu 0 0 true true None)) = Ret tt s' /\
  disk_rw 0 true (demo_cache m) = Ret tt r' /\ same_disk demo_buf 0 s' r'.
Proof.
  destruct demo_request as [m R]. set (c := mkCpu 0 0 true true None).
  destruct (virtio_disk_rw_refines demo_status demo_buf 0x1100 demo_root 0 true [] [0; 0; 1]%nat (demo_disk m c) (demo_cache m))
    as (s' & r' & H1 & H2 & H3 & _).
  1: apply demo_idle.
  1: exact R.
  1: split; reflexivity.
  1: apply demo_same.
  1: cbn; lia.
  1: cbn; lia.
  1: right; right; left; lia.
  exists m, s', r'. split; [exact H1|]. split; [exact H2|exact H3].
Defined.
Lemma virtio_disk_rw_stuck_witness : exists m,
  virtio_disk_rw demo_status demo_buf 0x1100 demo_root 0 false [] [1; 1; 1; 1]%nat (demo_disk m (mkCpu 0 1 true false None)) = NoFuel.
Proof.
  destruct demo_request as [m R]. exists m.
  apply (virtio_disk_rw_stuck demo_status demo_buf 0x1100 demo_root 0 false (mkVbuf 7 true)).
  1: apply demo_idle.
  1: exact R.
  1: reflexivity.
  1: cbn; lia.
  1: split; cbn; [lia|reflexivity].
  cbn. lia.
Defined.
(** Two descriptors left: the call fails and keeps neither. *)
Definition short_disk : vstate ramdisk :=
  upd_vd (set_dfree [false; false; true; false; false; true; false; false]) (demo_disk ∅ (mkCpu 0 1 true false None)).
Lemma alloc3_desc_cases_witness : alloc3_desc short_disk = Ret None short_disk.
Proof.
  apply (alloc3_desc_cases short_disk).
  - reflexivity.
  - intros i Hi. assert (i < 8)%nat as Hlt by (apply lookup_lt_Some in Hi; exact Hi).
    exists blank_desc. split; [by apply lookup_replicate_2|reflexivity].
  - apply (demo_quiet ∅ (mkCpu 0 1 true false None)).
  - split; [split; cbn; [lia|reflexivity]|reflexivity].
Defined.
