(* ===== verification/Trap.v ===== *)
(** * trap/trap_kernel.c, trap/trap_user.c and dev/plic.c

    The supervisor's trap handlers on the whole kernel state: the system-call
    state, the disk driver, the console, the interrupt controller and the
    supervisor registers of the hart.  What the hardware does when a trap is taken
    and on sret is written out from the privileged architecture. *)

From S2P Require Import Prelude Machine Str Lock Pmem Kvm Mmap Uvm Proc Buf Bitmap Inode Dir File Syscall Print Virtio.

(** ** dev/plic.c: registers *)

Definition PLIC_PRIORITY (id : Z) : Z := PLIC_BASE + id * 4.
Definition PLIC_SENABLE (hart : Z) : Z := PLIC_BASE + 0x2080 + hart * 0x100.
Definition PLIC_SPRIORITY (hart : Z) : Z := PLIC_BASE + 0x201000 + hart * 0x2000.
Definition PLIC_SCLAIM (hart : Z) : Z := PLIC_BASE + 0x201004 + hart * 0x2000.

(** The controller: a read of the claim register takes the interrupt it returns,
    a source number below 1024. *)
Class Plic (P : Type) : Type := {
  plic_rd : Z -> P -> Z;
  plic_rd' : Z -> P -> P;
  plic_wr : Z -> Z -> P -> P;
  plic_src : forall h p, 0 <= plic_rd (PLIC_SCLAIM h) p < 1024;
}.

(** ** Supervisor registers *)

Definition SSTATUS_SPP : Z := Z.shiftl 1 8.
Definition SSTATUS_SPIE : Z := Z.shiftl 1 5.
Definition SSTATUS_SIE : Z := Z.shiftl 1 1.

(** sstatus.SIE is kept in the [cpu] record; [c_sstatus] holds the other bits. *)
Record csrs : Type := mkCsr {
  c_sstatus : Z;
  c_sepc : Z;
  c_scause : Z;
  c_stval : Z;
  c_stvec : Z;
  c_sip : Z;
  c_sscratch : Z;
  c_satp : Z;
}.
Definition set_c_sstatus v c := mkCsr v (c_sepc c) (c_scause c) (c_stval c) (c_stvec c) (c_sip c) (c_sscratch c) (c_satp c).
Definition set_c_sepc v c := mkCsr (c_sstatus c) v (c_scause c) (c_stval c) (c_stvec c) (c_sip c) (c_sscratch c) (c_satp c).
Definition set_c_stvec v c := mkCsr (c_sstatus c) (c_sepc c) (c_scause c) (c_stval c) v (c_sip c) (c_sscratch c) (c_satp c).
Definition set_c_sip v c := mkCsr (c_sstatus c) (c_sepc c) (c_scause c) (c_stval c) (c_stvec c) v (c_sscratch c) (c_satp c).
Definition set_c_sscratch v c := mkCsr (c_sstatus c) (c_sepc c) (c_scause c) (c_stval c) (c_stvec c) (c_sip c) v (c_satp c).
Definition set_c_satp v c := mkCsr (c_sstatus c) (c_sepc c) (c_scause c) (c_stval c) (c_stvec c) (c_sip c) (c_sscratch c) v.

(** ** The kernel state *)

(** [tflags] holds the field disk of the buffers. *)
Record tstate (D U P : Type) : Type := mkT {
  tsys : sysstate D;
  tdisk : vdisk;
  tflags : list bool;
  tprint : spinlock;
  tpanicked : bool;
  tuart : U;
  tplic : P;
  tcsr : csrs;
}.
Arguments mkT {D U P}. Arguments tsys {D U P}. Arguments tdisk {D U P}. Arguments tflags {D U P}. Arguments tprint {D U P}.
Arguments tpanicked {D U P}. Arguments tuart {D U P}. Arguments tplic {D U P}. Arguments tcsr {D U P}.

(** interrupt_info[] and exception_info[]. *)
Definition interrupt_info : list string :=
  ["U-mode software interrupt"; "S-mode software interrupt"; "reserved-1"; "M-mode software interrupt";
   "U-mode timer interrupt"; "S-mode timer interrupt"; "reserved-2"; "M-mode timer interrupt";
   "U-mode external interrupt"; "S-mode external interrupt"; "reserved-3"; "M-mode external interrupt";
   "reserved-4"; "reserved-5"; "reserved-6"; "reserved-7"]%string.
Definition exception_info : list string :=
  ["Instruction address misaligned"; "Instruction access fault"; "Illegal instruction"; "Breakpoint";
   "Load address misaligned"; "Load access fault"; "Store/AMO address misaligned"; "Store/AMO access fault";
   "Environment call from U-mode"; "Environment call from S-mode"; "reserved-1"; "Environment call from M-mode";
   "Instruction page fault"; "Load page fault"; "reserved-2"; "Store/AMO page fault"]%string.
Definition info_str (l : list string) (i : Z) : va := VStr (lit <$> l !! Z.to_nat i).

Section trap.
Context {D U P : Type} {HD : BlockDev D} {HV : VirtioBlk D} {HU : Uart16550 U} {HP : Plic P}.
(** The parameters of the system calls. *)
Context (sl_fuel : nat) (buf_addr : nat -> Z) (stack_name : list Z) (stat_addr : Z).
Context (trampoline trap_user_handler_addr fork_return_addr : Z) (exit_state_addr : nat -> Z).
Context (path_addr old_path_addr new_path_addr : Z) (wait_fuel : nat).
(** &disk.info[i].status, and the link-time addresses of the vectors. *)
Context (status_addr : nat -> Z) (kernel_vector_addr user_vector_addr user_return_addr : Z).

Notation T := (tstate D U P).
Definition upd_csr (f : csrs -> csrs) (s : T) : T :=
  mkT (tsys s) (tdisk s) (tflags s) (tprint s) (tpanicked s) (tuart s) (tplic s) (f (tcsr s)).
Definition t_sys : lens T (sysstate D) :=
  Lens tsys (fun y s => mkT y (tdisk s) (tflags s) (tprint s) (tpanicked s) (tuart s) (tplic s) (tcsr s)).
Definition t_k : lens T kstate := Lens (fun s => lget s_k (tsys s)) (fun k s => lset t_sys (lset s_k k (tsys s)) s).
Definition t_cpu : lens T cpu := Lens (fun s => pcpu (kpm (lget t_k s))) (fun c s => lset t_k (lset k_cpu c (lget t_k s)) s).
(** Physical memory. *)
Definition kmem (s : T) : memory := pm (kpm (lget t_k s)).
Definition set_kmem (m : memory) (s : T) : T := let k := lget t_k s in lset t_k (set_kpm (set_pm m (kpm k)) k) s.
Definition t_print : lens T (pstate U) :=
  Lens (fun s => mkPr (lget t_cpu s) (tprint s) (tpanicked s) (tuart s))
       (fun p s => let s := lset t_cpu (pr_cpu p) s in
          mkT (tsys s) (tdisk s) (tflags s) (print_lk p) (panicked p) (uart p) (tplic s) (tcsr s)).
(** The driver works on the disk behind the buffer cache and on the block_num and
    disk fields of its buffers. *)
Definition t_b (s : T) : bstate D := ib (fi (sf (tsys s))).
Definition set_t_b (b : bstate D) (s : T) : T :=
  lset t_sys (lset s_i (lset i_b b (fi (sf (tsys s)))) (tsys s)) s.
Definition t_virtio : lens T (vstate D) :=
  Lens (fun s => mkV (lget t_k s) (tdisk s) (disk (t_b s))
                   (zip_with (fun n f => mkVbuf (block_num (bbuf n)) f) (buf_cache (t_b s)) (tflags s)))
       (fun v s =>
          let s := lset t_k (vk v) s in
          let b := t_b s in
          let s := set_t_b (mkB (bk b) (buf_cache b) (lk_buf_cache b) (vdev v)) s in
          mkT (tsys s) (vd v) (map vb_disk (vbufs v)) (tprint s) (tpanicked s) (tuart s) (tplic s) (tcsr s)).

(** ** Register access *)

Definition rd_csr (f : csrs -> Z) : M T Z := gets (fun s => f (tcsr s)).
Definition wr_csr (f : csrs -> csrs) : M T unit := modify (upd_csr f).
Definition sstatus_of (s : T) : Z :=
  Z.lor (Z.land (c_sstatus (tcsr s)) (Z.lnot SSTATUS_SIE)) (if sie (lget t_cpu s) then SSTATUS_SIE else 0).
Definition r_sstatus : M T Z := gets sstatus_of.
Definition w_sstatus (x : Z) : M T unit :=
  wr_csr (set_c_sstatus x);;; zoom t_cpu (modify (set_sie (Z.testbit x 1))).
Definition kprintf (fmt : string) (ap : list va) : M T unit := zoom t_print (printf (lit fmt ++ [10]) ap).

(** ** dev/plic.c *)

Definition plic_reg (r v : Z) : M T unit :=
  modify (fun s => mkT (tsys s) (tdisk s) (tflags s) (tprint s) (tpanicked s) (tuart s) (plic_wr r v (tplic s)) (tcsr s)).
Definition plic_init : M T unit :=
  plic_reg (PLIC_PRIORITY UART_IRQ) 1;;;
  plic_reg (PLIC_PRIORITY VIRTIO_IRQ) 1.
Definition plic_inithart : M T unit :=
  let* hartid := zoom t_k mycpuid in
  plic_reg (PLIC_SENABLE hartid) (Z.lor (Z.shiftl 1 UART_IRQ) (Z.shiftl 1 VIRTIO_IRQ));;;
  plic_reg (PLIC_SPRIORITY hartid) 0.
Definition plic_claim : M T Z :=
  let* hartid := zoom t_k mycpuid in
  let* irq := gets (fun s => plic_rd (PLIC_SCLAIM hartid) (tplic s)) in
  modify (fun s => mkT (tsys s) (tdisk s) (tflags s) (tprint s) (tpanicked s) (tuart s) (plic_rd' (PLIC_SCLAIM hartid) (tplic s)) (tcsr s));;;
  ret (i32 irq).
Definition plic_complete (irq : Z) : M T unit :=
  let* hartid := zoom t_k mycpuid in
  plic_reg (PLIC_SCLAIM hartid) (u32 irq).

(** ** trap_kernel.c *)

Definition trap_kernel_init : M T unit := zoom t_sys timer_create.
Definition trap_kernel_inithart : M T unit := wr_csr (set_c_stvec kernel_vector_addr).

Definition external_interrupt_handler : M T unit :=
  let* irq := plic_claim in
  (if irq =? UART_IRQ then zoom t_print uart_intr
   else if irq =? VIRTIO_IRQ then zoom t_virtio (virtio_disk_intr status_addr)
   else when (negb (irq =? 0)) (kprintf "unexpected external interrupt irq=%d" [VInt irq]));;;
  when (negb (irq =? 0)) (plic_complete irq).

Definition timer_interrupt_handler : M T unit :=
  let* id := zoom t_k mycpuid in
  when (id =? 0) (zoom t_sys timer_update);;;
  let* sip := rd_csr c_sip in
  wr_csr (set_c_sip (Z.land sip (u64 (Z.lnot 2)))).

(** The timer case of the kernel handler: yield when a process runs. *)
Definition kernel_tick : M T unit :=
  timer_interrupt_handler;;;
  let* p := zoom t_k myproc_opt in
  match p with
  | None => ret tt
  | Some i =>
      let* pp := zoom t_k (rd_proc i) in
      when (bool_decide (state pp = RUNNING)) (zoom t_k proc_yield)
  end.

Definition trap_kernel_handler : M T unit :=
  let* sepc := rd_csr c_sepc in
  let* sstatus := r_sstatus in
  let* scause := rd_csr c_scause in
  let* stval := rd_csr c_stval in
  assert_ (negb (Z.land sstatus SSTATUS_SPP =? 0)) "trap_kernel_handler: not from s-mode";;;
  let* on := zoom t_cpu intr_get in
  assert_ (negb on) "trap_kernel_handler: interreput enabled";;;
  let trap_id := Z.land scause 0xf in
  let is_interrupt := Z.land (Z.shiftr scause 63) 1 in
  (if negb (is_interrupt =? 0) then
     if trap_id =? 1 then kernel_tick
     else if trap_id =? 5 then kernel_tick
     else if trap_id =? 9 then external_interrupt_handler
     else
       kprintf "unknown interrupt: %s (trap_id=%d)" [info_str interrupt_info trap_id; VInt trap_id];;;
       kprintf "scause=%p sepc=%p stval=%p" [VPtr scause; VPtr sepc; VPtr stval];;;
       panic "trap_kernel_handler: unexpected interrupt"
   else
     kprintf "kernel exception: %s (trap_id=%d)" [info_str exception_info trap_id; VInt trap_id];;;
     kprintf "scause=%p sepc=%p stval=%p" [VPtr scause; VPtr sepc; VPtr stval];;;
     panic "trap_kernel_handler: unexpected exception");;;
  wr_csr (set_c_sepc sepc);;;
  w_sstatus sstatus.

(** ** trap_user.c *)

(** The closing call of user_return_addr, which does not come back: the address jumped
    to and its two arguments. *)
Definition trap_user_return : M T (Z * Z * Z) :=
  let* p := zoom t_k myproc in
  zoom t_cpu intr_off;;;
  wr_csr (set_c_stvec (TRAMPOLINE + (user_vector_addr - trampoline)));;;
  let* satp := rd_csr c_satp in
  zoom t_k (tf_write p tf_kernel_satp satp);;;
  let* pp := zoom t_k (rd_proc p) in
  zoom t_k (tf_write p tf_kernel_sp (u64 (kstack pp + PGSIZE)));;;
  zoom t_k (tf_write p tf_kernel_trap trap_user_handler_addr);;;
  let* tp := zoom t_k mycpuid in
  zoom t_k (tf_write p tf_kernel_hartid tp);;;
  let* x := r_sstatus in
  let x := Z.land x (Z.lnot SSTATUS_SPP) in
  let x := Z.lor x SSTATUS_SPIE in
  w_sstatus x;;;
  let* epc := zoom t_k (tf_read p tf_epc) in
  wr_csr (set_c_sepc epc);;;
  let* pp := zoom t_k (rd_proc p) in
  let satp := MAKE_SATP (pgtbl pp) in
  let fn := TRAMPOLINE + (user_return_addr - trampoline) in
  wr_csr (set_c_sscratch TRAPFRAME);;;
  ret (fn, TRAPFRAME, satp).

(** fork_return() of proc.c, where a new process starts: the scheduler holds its lock. *)
Definition fork_return : M T (Z * Z * Z) :=
  let* p := zoom t_k myproc in
  zoom t_k (zoom (k_plk p) spinlock_release);;;
  trap_user_return.

Definition trap_user_handler : M T (Z * Z * Z) :=
  let* sepc := rd_csr c_sepc in
  let* sstatus := r_sstatus in
  let* scause := rd_csr c_scause in
  let* stval := rd_csr c_stval in
  let* p := zoom t_k myproc_opt in
  assert_ (Z.land sstatus SSTATUS_SPP =? 0) "trap_user_handler: not from u-mode";;;
  wr_csr (set_c_stvec kernel_vector_addr);;;
  match p with
  | None => zoom t_k fault
  | Some p =>
      zoom t_k (tf_write p tf_epc sepc);;;
      let trap_id := Z.land scause 0xf in
      let is_interrupt := Z.land (Z.shiftr scause 63) 1 in
      (if negb (is_interrupt =? 0) then
         if trap_id =? 1 then timer_interrupt_handler;;; zoom t_k proc_yield
         else if trap_id =? 5 then timer_interrupt_handler;;; zoom t_k proc_yield
         else if trap_id =? 9 then external_interrupt_handler
         else
           kprintf "unknown user interrupt: %s (trap_id=%d)" [info_str interrupt_info trap_id; VInt trap_id];;;
           kprintf "scause=%p sepc=%p stval=%p" [VPtr scause; VPtr sepc; VPtr stval];;;
           panic "trap_user_handler: unexpected interrupt"
       else if trap_id =? 8 then
         let* epc := zoom t_k (tf_read p tf_epc) in
         zoom t_k (tf_write p tf_epc (u64 (epc + 4)));;;
         zoom t_cpu intr_on;;;
         let* satp := rd_csr c_satp in
         zoom t_sys (syscall sl_fuel buf_addr stack_name stat_addr trampoline trap_user_handler_addr fork_return_addr satp
           exit_state_addr path_addr old_path_addr new_path_addr wait_fuel)
       else
         kprintf "user exception: %s (trap_id=%d)" [info_str exception_info trap_id; VInt trap_id];;;
         kprintf "scause=%p sepc=%p stval=%p" [VPtr scause; VPtr sepc; VPtr stval];;;
         panic "trap_user_handler: unexpected exception");;;
      trap_user_return
  end.

(** ** The hardware *)

(** A trap taken into supervisor mode from mode [super] at [pc]: SPP and SPIE
    remember the mode and SIE, SIE is cleared. *)
Definition trap_entry (super : bool) (pc cause val : Z) (s : T) : T :=
  let c := tcsr s in
  let st := Z.land (c_sstatus c) (Z.lnot (Z.lor SSTATUS_SPP SSTATUS_SPIE)) in
  let st := Z.lor st (Z.lor (if super then SSTATUS_SPP else 0) (if sie (lget t_cpu s) then SSTATUS_SPIE else 0)) in
  upd_csr (fun c => mkCsr st pc cause val (c_stvec c) (c_sip c) (c_sscratch c) (c_satp c))
    (lset t_cpu (set_sie false (lget t_cpu s)) s).
(** sret: the mode returned to (true for supervisor), the pc, and the new state. *)
Definition sret (s : T) : bool * Z * T :=
  let x := c_sstatus (tcsr s) in
  (negb (Z.land x SSTATUS_SPP =? 0), c_sepc (tcsr s),
   upd_csr (set_c_sstatus (Z.lor (Z.land x (Z.lnot SSTATUS_SPP)) SSTATUS_SPIE))
     (lset t_cpu (set_sie (negb (Z.land x SSTATUS_SPIE =? 0)) (lget t_cpu s)) s)).
End trap.
