(* ===== verification/TrapSpec.v ===== *)
(** * Properties of the trap handlers *)

From S2P Require Import Prelude Machine Str Lock Pmem Kvm KvmSpec Mmap Uvm UvmSpec Proc ProcSpec SleepSpec Buf BufSpec Bitmap Inode Dir File FileSpec Syscall Print PrintSpec Virtio VirtioSpec Asm AsmSpec Trap.

(** ** Bits of sstatus *)

Lemma land_bit x n : 0 <= n -> (Z.land x (Z.shiftl 1 n) =? 0) = negb (Z.testbit x n).
Proof.
  intros Hn. destruct (Z.testbit x n) eqn:E; cbn [negb].
  - apply Z.eqb_neq. intros H. assert (Z.testbit (Z.land x (Z.shiftl 1 n)) n = false) as Hb by (rewrite H; apply Z.bits_0).
    rewrite Z.land_spec, E, Z.shiftl_spec, Z.sub_diag in Hb by done. done.
  - apply Z.eqb_eq, Z.bits_inj'. intros k Hk. rewrite Z.land_spec, Z.bits_0, Z.shiftl_spec by done.
    destruct (decide (k = n)) as [->|Hne]; [by rewrite E|]. rewrite andb_comm.
    destruct (decide (k < n)); [by rewrite Z.testbit_neg_r by lia|]. by rewrite Z.bits_above_log2 by (cbn; lia).
Qed.
(** [sbits]: the tested bits of an expression over constants. *)
Ltac sbits :=
  unfold SSTATUS_SPP, SSTATUS_SPIE, SSTATUS_SIE in *;
  repeat first [rewrite land_bit by lia | rewrite Z.lor_spec | rewrite Z.land_spec | rewrite Z.lnot_spec by lia];
  cbn [negb andb orb]; repeat rewrite ?andb_false_r, ?orb_false_r, ?orb_true_r, ?andb_true_r.

Section spec.
Context {D U P : Type} {HD : BlockDev D} {HV : VirtioBlk D} {HU : Uart16550 U} {HP : Plic P}.
Context (sl_fuel : nat) (buf_addr : nat -> Z) (stack_name : list Z) (stat_addr : Z).
Context (trampoline trap_user_handler_addr fork_return_addr : Z) (exit_state_addr : nat -> Z).
Context (path_addr old_path_addr new_path_addr : Z) (wait_fuel : nat).
Context (status_addr : nat -> Z) (kernel_vector_addr user_vector_addr user_return_addr : Z).
Notation T := (tstate D U P).

Definition hcpu (s : T) : cpu := lget t_cpu s.

(** The end of the handler, followed by sret. *)
Lemma restores_run pc st (s : T) :
  (wr_csr (set_c_sepc pc);;; w_sstatus st) s =
  Ret tt (lset t_cpu (set_sie (Z.testbit st 1) (hcpu s)) (upd_csr (fun c => set_c_sstatus st (set_c_sepc pc c)) s)).
Proof. unfold w_sstatus, wr_csr. mstep. done. Qed.

(** Back at the interrupted instruction, in supervisor mode, with the interrupt enable of [s]. *)
Definition resumes (pc : Z) (s s' : T) : Prop := fst (sret s') = (true, pc) /\ sie (hcpu (snd (sret s'))) = sie (hcpu s).
(** Whatever the handler did and whatever happened to sepc and sstatus meanwhile. *)
Lemma restores_resume pc cause val (s t : T) : exists t',
  (wr_csr (set_c_sepc pc);;; w_sstatus (sstatus_of (trap_entry true pc cause val s))) t = Ret tt t' /\ resumes pc s t' /\
  tsys t' = tsys (lset t_cpu (hcpu t') t) /\ tplic t' = tplic t /\ c_sip (tcsr t') = c_sip (tcsr t).
Proof.
  rewrite restores_run. eexists. split; [done|]. split; [|done]. unfold resumes. cbn. unfold sstatus_of. cbn.
  split; [f_equal|]; sbits; by repeat case_match.
Qed.

(** ** The clock *)

Definition clock (s : T) : timer := sys_timer (tsys s).
Definition ticked (c : cpu) (s : T) : T :=
  let s := lset t_cpu c s in
  lset t_sys (mkSys (sf (tsys s)) (mkTimer (u64 (ticks (clock s) + 1)) (timer_lk (clock s)))) s.
Lemma timer_update_run (s : T) : lk_free (timer_lk (clock s)) -> cpu_wf (hcpu s) ->
  zoom t_sys timer_update s = Ret tt (ticked (synced (hcpu s)) s).
Proof.
  intros Hl Hc. erewrite zoom_run; [reflexivity|]. unfold timer_update.
  erewrite bind_run; [|apply zoom_run, (spinlock_acquire_run (hcpu s) (timer_lk (clock s)) Hl)]. mstep.
  erewrite zoom_run by (by apply (spinlock_release_run (hcpu s) (timer_lk (clock s)))). done.
Qed.

Definition sip_cleared (s : T) : T := upd_csr (fun c => set_c_sip (Z.land (c_sip c) (u64 (Z.lnot 2))) c) s.
Lemma timer_interrupt_run (s : T) : lk_free (timer_lk (clock s)) -> cpu_wf (hcpu s) ->
  timer_interrupt_handler s =
  Ret tt (sip_cleared (if cpu_id (hcpu s) =? 0 then ticked (synced (hcpu s)) s else s)).
Proof.
  intros Hl Hc. unfold timer_interrupt_handler. erewrite bind_run; [|by apply zoom_run].
  replace (lset t_k (lget t_k s) s) with s by (by destruct s as [[[[[? ? ? ?] ? ? ?] ? ? ?] ?] ? ? ? ? ? ? ?]).
  unfold rd_csr, wr_csr. cbn [lget t_k]. fold (hcpu s).
  change (cpu_id (pcpu (kpm (lget s_k (tsys s))))) with (cpu_id (hcpu s)). destruct (cpu_id (hcpu s) =? 0); unfold when.
  - rewrite (bind_run _ _ _ _ _ (timer_update_run s Hl Hc)). done.
  - done.
Qed.

(** What a timer interrupt does to the clock and to the pending bits. *)
Definition tick_counted (s s' : T) : Prop :=
  ticks (clock s') = (if cpu_id (hcpu s) =? 0 then u64 (ticks (clock s) + 1) else ticks (clock s)) /\
  forall n, 0 <= n < 64 -> Z.testbit (c_sip (tcsr s')) n = Z.testbit (c_sip (tcsr s)) n && negb (n =? 1).
Lemma sip_bits x n : 0 <= n < 64 -> Z.testbit (Z.land x (u64 (Z.lnot 2))) n = Z.testbit x n && negb (n =? 1).
Proof.
  intros Hn. rewrite Z.land_spec. f_equal. unfold u64. rewrite Z.mod_pow2_bits_low by lia. rewrite Z.lnot_spec by lia.
  f_equal. bcase (n =? 1); [by subst|]. change 2 with (2 ^ 1). apply Z.pow2_bits_false. lia.
Qed.
Lemma tick_counted_run (s : T) : tick_counted s (sip_cleared (if cpu_id (hcpu s) =? 0 then ticked (synced (hcpu s)) s else s)).
Proof.
  unfold tick_counted. destruct (cpu_id (hcpu s) =? 0); (split; [done|]); intros n Hn; cbn [sip_cleared upd_csr tcsr];
    match goal with |- context [c_sip (set_c_sip ?x ?c)] => change (c_sip (set_c_sip x c)) with x end; by apply sip_bits.
Qed.

(** The causes of a timer interrupt: the software interrupt timer_vector raises,
    and the supervisor timer. *)
Definition timer_cause (cause : Z) : Prop := cause = 2 ^ 63 + 1 \/ cause = 2 ^ 63 + 5.
(** The two assertions at the start of the kernel handler hold after trap_entry. *)
Lemma entry_asserts pc cause val (s : T) : let e := trap_entry true pc cause val s in
  negb (Z.land (sstatus_of e) SSTATUS_SPP =? 0) = true /\ sie (hcpu e) = false.
Proof. split; [|done]. unfold sstatus_of. cbn. sbits. by repeat case_match. Qed.

Lemma kernel_handler_timer pc cause val (s : T) : timer_cause cause ->
  trap_kernel_handler status_addr (trap_entry true pc cause val s) =
  (kernel_tick;;; wr_csr (set_c_sepc pc);;; w_sstatus (sstatus_of (trap_entry true pc cause val s))) (trap_entry true pc cause val s).
Proof.
  intros Hc. destruct (entry_asserts pc cause val s) as [H1 H2]. set (e := trap_entry true pc cause val s) in *.
  unfold trap_kernel_handler, rd_csr, r_sstatus. mstep. rewrite H1. mstep.
  assert (zoom t_cpu intr_get e = Ret false e) as Hg.
  { by destruct s as [[[[[? ? ? ?] ? ? ?] ? ? ?] ?] ? ? ? ? ? ? ?]. }
  rewrite (bind_run _ _ _ _ _ Hg). cbn [negb]. mstep. change (c_scause (tcsr e)) with cause. change (c_sepc (tcsr e)) with pc.
  destruct Hc as [-> | ->]; reflexivity.
Qed.

(** A timer interrupt taken in the kernel while no process runs: the handler
    returns; hart 0 advances the clock by one (modulo 2^64), other harts leave it;
    the pending software interrupt is acknowledged, no other pending bit changes;
    and the process table is what it was, so nobody who sleeps on the clock is
    woken. *)
Theorem kernel_timer_tick pc cause val (s : T) : timer_cause cause ->
  lk_free (timer_lk (clock s)) -> 0 <= noff (hcpu s) -> cproc (hcpu s) = None ->
  exists s', trap_kernel_handler status_addr (trap_entry true pc cause val s) = Ret tt s' /\
    ticks (clock s') = (if cpu_id (hcpu s) =? 0 then u64 (ticks (clock s) + 1) else ticks (clock s)) /\
    timer_lk (clock s') = timer_lk (clock s) /\
    (forall n, 0 <= n < 64 -> Z.testbit (c_sip (tcsr s')) n = Z.testbit (c_sip (tcsr s)) n && negb (n =? 1)) /\
    procs (lget t_k s') = procs (lget t_k s) /\ pm (kpm (lget t_k s')) = pm (kpm (lget t_k s)).
Proof.
  intros Hc Hl Hn Hp. rewrite kernel_handler_timer by done. set (e := trap_entry true pc cause val s).
  unfold kernel_tick. mstep.
  rewrite (bind_run _ _ _ _ _ (timer_interrupt_run e Hl ltac:(split; cbn; [exact Hn|done]))).
  change (cpu_id (hcpu e)) with (cpu_id (hcpu s)). set (t := sip_cleared _).
  assert (zoom t_k myproc_opt t = Ret None t) as Hm.
  { erewrite zoom_run; [|reflexivity]. unfold t, e. f_equal.
    - destruct (cpu_id (hcpu s) =? 0); [|exact Hp]. cbn. unfold synced. by case_match.
    - destruct s as [[[[[? ? ? ?] ? ? ?] ? ? ?] ?] ? ? ? ? ? ? ?]. by case_match. }
  rewrite bind_assoc, (bind_run _ _ _ _ _ Hm). cbn iota. rewrite bind_ret, restores_run. eexists. split; [reflexivity|].
  split_and!; [by destruct (cpu_id (hcpu s) =? 0)..| |by destruct (cpu_id (hcpu s) =? 0)|by destruct (cpu_id (hcpu s) =? 0)].
  intros n Hn64. assert (c_sip (tcsr t) = Z.land (c_sip (tcsr s)) (u64 (Z.lnot 2))) as Hsip by (unfold t; by case_match).
  change (c_sip (tcsr (lset _ _ _))) with (c_sip (tcsr t)). rewrite Hsip. by apply sip_bits.
Qed.

(** ** Returning to user mode *)

Definition tf_of (p : nat) (s : T) : Z := tf (proc_at (lget t_k s) p).

Lemma t_tf_write p off v (s : T) : tf_of p s <> NULL ->
  zoom t_k (tf_write p off v) s = Ret tt (set_kmem (st64 (kmem s) (tf_of p s + off) v) s).
Proof.
  intros H. erewrite zoom_run; [reflexivity|]. unfold tf_write, rd_proc. mstep. fold (tf_of p s). bcase (tf_of p s =? NULL); [done|].
  unfold wr_mem. erewrite zoom_run; [|reflexivity]. done.
Qed.
Lemma t_tf_read p off (s : T) : tf_of p s <> NULL -> zoom t_k (tf_read p off) s = Ret (ld64 (kmem s) (tf_of p s + off)) s.
Proof.
  intros H. erewrite zoom_run; [|unfold tf_read, rd_proc; mstep; fold (tf_of p s); bcase (tf_of p s =? NULL); [done|reflexivity]].
  f_equal. by destruct s as [[[[[? ? ? ?] ? ? ?] ? ? ?] ?] ? ? ? ? ? ? ?].
Qed.
Lemma t_k_gets {A} (f : kstate -> A) (s : T) : zoom t_k (gets f) s = Ret (f (lget t_k s)) s.
Proof. by destruct s as [[[[[? ? ? ?] ? ? ?] ? ? ?] ?] ? ? ? ? ? ? ?]. Qed.
Lemma t_myproc p (s : T) : cproc (hcpu s) = Some p -> zoom t_k myproc s = Ret p s.
Proof.
  intros H. unfold myproc, myproc_opt, zoom. unfold bind, gets. cbn [obind]. change (cproc (pcpu (kpm (lget t_k s)))) with (cproc (hcpu s)).
  rewrite H. by destruct s as [[[[[? ? ? ?] ? ? ?] ? ? ?] ?] ? ? ? ? ? ? ?].
Qed.

(** The trapframe with the four kernel fields set. *)
Definition frame_armed (p : nat) (s : T) : memory :=
  let a := tf_of p s in
  st64 (st64 (st64 (st64 (kmem s) (a + tf_kernel_satp) (c_satp (tcsr s)))
    (a + tf_kernel_sp) (u64 (kstack (proc_at (lget t_k s) p) + PGSIZE))) (a + tf_kernel_trap) trap_user_handler_addr)
    (a + tf_kernel_hartid) (cpu_id (hcpu s)).
Definition user_sstatus (s : T) : Z :=
  Z.lor (Z.land (Z.lor (Z.land (c_sstatus (tcsr s)) (Z.lnot SSTATUS_SIE)) 0) (Z.lnot SSTATUS_SPP)) SSTATUS_SPIE.
Definition returned (p : nat) (s : T) : T :=
  let c := tcsr s in
  upd_csr (fun _ => mkCsr (user_sstatus s) (ld64 (kmem s) (tf_of p s + tf_epc)) (c_scause c) (c_stval c)
      (TRAMPOLINE + (user_vector_addr - trampoline)) (c_sip c) TRAPFRAME (c_satp c))
    (lset t_cpu (set_sie false (hcpu s)) (set_kmem (frame_armed p s) s)).

Lemma trap_user_return_run p (s : T) : cproc (hcpu s) = Some p -> tf_of p s <> NULL ->
  trap_user_return trampoline trap_user_handler_addr user_vector_addr user_return_addr s =
  Ret (TRAMPOLINE + (user_return_addr - trampoline), TRAPFRAME, MAKE_SATP (pgtbl (proc_at (lget t_k s) p))) (returned p s).
Proof.
  intros Hp Ht. unfold trap_user_return. rewrite (bind_run _ _ _ _ _ (t_myproc p s Hp)).
  unfold w_sstatus, wr_csr, rd_csr, r_sstatus, rd_proc, mycpuid.
  assert (zoom t_cpu intr_off s = Ret tt (lset t_cpu (set_sie false (hcpu s)) s)) as Hoff by done.
  rewrite (bind_run _ _ _ _ _ Hoff). mstep.
  erewrite bind_run; [|apply t_tf_write; exact Ht]. rewrite (bind_run _ _ _ _ _ (t_k_gets _ _)).
  do 2 (erewrite bind_run; [|apply t_tf_write; exact Ht]). rewrite (bind_run _ _ _ _ _ (t_k_gets _ _)).
  erewrite bind_run; [|apply t_tf_write; exact Ht].
  set (t := upd_csr (set_c_stvec (TRAMPOLINE + (user_vector_addr - trampoline))) (lset t_cpu (set_sie false (hcpu s)) s)).
  match goal with |- _ ?st = _ => change st with (set_kmem (frame_armed p s) t) end. mstep.
  assert (sstatus_of (set_kmem (frame_armed p s) t) = Z.lor (Z.land (c_sstatus (tcsr s)) (Z.lnot SSTATUS_SIE)) 0) as -> by done.
  fold (user_sstatus s). set (u := upd_csr (set_c_sstatus (user_sstatus s)) (set_kmem (frame_armed p s) t)).
  assert (Z.testbit (user_sstatus s) 1 = false) as Hb by (unfold user_sstatus; sbits; done).
  assert (zoom t_cpu (modify (set_sie (Z.testbit (user_sstatus s) 1))) u = Ret tt u) as Hu
    by (rewrite Hb; by destruct s as [[[[[? ? ? ?] ? ? ?] ? ? ?] ?] ? ? ? ? ? ? ?]).
  rewrite (bind_run _ _ _ _ _ Hu). erewrite bind_run; [|apply t_tf_read; exact Ht]. mstep.
  rewrite (bind_run _ _ _ _ _ (t_k_gets _ _)). mstep. unfold returned.
  assert (ld64 (kmem u) (tf_of p u + tf_epc) = ld64 (kmem s) (tf_of p s + tf_epc)) as ->.
  { change (kmem u) with (frame_armed p s). change (tf_of p u) with (tf_of p s). unfold frame_armed, tf_kernel_satp, tf_kernel_sp,
      tf_kernel_trap, tf_kernel_hartid, tf_epc. by rewrite !ld_st_ne by (cbn; lia). }
  done.
Qed.

Lemma armed_fields p (s : T) : 0 <= c_satp (tcsr s) < 2 ^ 64 -> 0 <= trap_user_handler_addr < 2 ^ 64 -> 0 <= cpu_id (hcpu s) < 2 ^ 64 ->
  ld64 (frame_armed p s) (tf_of p s + 0) = c_satp (tcsr s) /\
  ld64 (frame_armed p s) (tf_of p s + 8) = u64 (kstack (proc_at (lget t_k s) p) + PGSIZE) /\
  ld64 (frame_armed p s) (tf_of p s + 16) = trap_user_handler_addr /\
  ld64 (frame_armed p s) (tf_of p s + 32) = cpu_id (hcpu s).
Proof.
  intros H1 H2 H3. unfold frame_armed, tf_kernel_satp, tf_kernel_sp, tf_kernel_trap, tf_kernel_hartid.
  set (v := u64 _). assert (0 <= v < 2 ^ 64) as Hv by (apply Z.mod_pos_bound; lia).
  split_and!; rewrite ?ld64_st64_ne by lia; by rewrite ld64_st64_eq.
Qed.
Lemma armed_frame p (s : T) n a : a + Z.of_nat n <= tf_of p s \/ tf_of p s + 40 <= a ->
  ld n (frame_armed p s) a = ld n (kmem s) a.
Proof.
  intros Ha. unfold frame_armed, tf_kernel_satp, tf_kernel_sp, tf_kernel_trap, tf_kernel_hartid. by rewrite !ld_st_ne by (cbn; lia).
Qed.
Lemma sret_returned p (s : T) : fst (sret (returned p s)) = (false, ld64 (kmem s) (tf_of p s + tf_epc)) /\
  sie (hcpu (snd (sret (returned p s)))) = true.
Proof. cbn. unfold user_sstatus. split; [f_equal|]; by sbits. Qed.

(** C14 The way out of the kernel and back in.  trap_user_return() hands the
    trapframe and the table of the current process to user_return, which gives the
    user all its registers; sret then runs the user at the saved epc, in user mode
    with interrupts enabled.  The next trap from there, whatever the user did to
    its registers and its own memory, enters through user_vector at
    trap_user_handler on the kernel stack of the process, with this hart's id and
    the kernel page table. *)
Theorem user_return_reentry p root (s : T) (frame := tf_of p s) :
  cproc (hcpu s) = Some p -> pgtbl (proc_at (lget t_k s) p) = root -> frame <> NULL -> frame_mapped (kmem s) root frame ->
  0 <= c_satp (tcsr s) < 2 ^ 64 -> 0 <= trap_user_handler_addr < 2 ^ 64 -> 0 <= cpu_id (hcpu s) < 2 ^ 64 ->
  exists s', trap_user_return trampoline trap_user_handler_addr user_vector_addr user_return_addr s =
      Ret (TRAMPOLINE + (user_return_addr - trampoline), TRAPFRAME, MAKE_SATP root) s' /\
    fst (sret s') = (false, ld64 (kmem s) (frame + tf_epc)) /\ sie (hcpu (snd (sret s'))) = true /\
    c_stvec (tcsr s') = TRAMPOLINE + (user_vector_addr - trampoline) /\
    forall h, hm h = kmem s' -> rg h a0 = TRAPFRAME -> rg h a1 = MAKE_SATP root ->
      exists h1, exec Sv39 user_return h = Some h1 /\
        (forall r o, (r, o) ∈ trapframe_layout -> rg h1 r = ld64 (kmem s) (frame + o)) /\
        forall h2, tables_kept (hm h1) (hm h2) root -> (forall a, frame <= a < frame + 40 -> ld8 (hm h2) a = ld8 (hm h1) a) ->
          cs h2 = cs h1 -> regs_wf h2 ->
          exists h3, exec Sv39 user_vector h2 = Some h3 /\ rg h3 t0 = trap_user_handler_addr /\
            rg h3 sp = u64 (kstack (proc_at (lget t_k s) p) + PGSIZE) /\ rg h3 tp = cpu_id (hcpu s) /\
            cs h3 SATP = c_satp (tcsr s).
Proof.
  intros Hp Hroot Ht Hf Hsatp Hh Hid. exists (returned p s). rewrite (trap_user_return_run p s Hp Ht), Hroot.
  destruct (sret_returned p s) as [Hs1 Hs2]. split_and!; [done|done|done|done|]. change (kmem (returned p s)) with (frame_armed p s).
  assert (tables_kept (kmem s) (frame_armed p s) root) as K.
  { intros a Ha. rewrite <- !ld_1. apply armed_frame. fold frame. cbn. pose proof (fr_apart _ _ _ Hf a) as Hn.
    unfold PGSIZE in Hn. destruct (decide (frame <= a < frame + 4096)); [by destruct Hn|lia]. }
  intros h Hm Ha0 Ha1. destruct (user_return_run root frame h) as (h1 & E1 & Hg1 & Hs & Hss & Hm1);
    [rewrite Hm; by apply (frame_mapped_kept (kmem s))|done|done|]. exists h1. split; [done|]. split.
  - intros r o Hin. rewrite (Hg1 r o Hin), Hm. apply (armed_frame p s 8). right. fold frame. enough (40 <= o) by lia.
    assert (forallb (fun p => 40 <=? snd p) trapframe_layout = true) as Hall by reflexivity. rewrite forallb_forall in Hall.
    specialize (Hall (r, o)). rewrite <- list_elem_of_In in Hall. specialize (Hall Hin). cbn in Hall. by bprop.
  - intros h2 K2 Hk Hcs Hr. rewrite Hm1, Hm in K2. destruct (armed_fields p s Hsatp Hh Hid) as (F0 & F8 & F16 & F32). fold frame in F0, F8, F16, F32.
    assert (forall o, 0 <= o -> o + 8 <= 40 -> ld64 (hm h2) (frame + o) = ld64 (frame_armed p s) (frame + o)) as Hld.
    { intros o Ho Ho'. apply ld_ext. intros a Ha. cbn in Ha. rewrite Hk, Hm1, Hm by lia. done. }
    destruct (user_vector_run root frame h2) as (h3 & E3 & _ & Hsp & Htp & Ht0 & Hsa & _); [|by rewrite Hcs|by rewrite Hcs|done|].
    { eapply frame_mapped_kept; [eapply frame_mapped_kept; [exact Hf|exact K]|exact K2]. }
    exists h3. rewrite Hld in Hsp, Htp, Ht0, Hsa by lia. rewrite Ht0, Hsp, Htp, Hsa. by rewrite F0, F8, F16, F32.
Qed.

(** ** System calls *)

(** What syscall() puts into a0. *)
Definition syscall_fun (satp num : Z) : M (sysstate D) Z :=
  match (if (0 <=? num) && (num <=? SYS_MAX) then
           syscalls sl_fuel buf_addr stack_name stat_addr trampoline trap_user_handler_addr fork_return_addr satp
             exit_state_addr path_addr old_path_addr new_path_addr wait_fuel num
         else None) with
  | Some f => f
  | None => ret U64_FAIL
  end.
(** The state the system call starts in. *)
Definition sys_entry (p : nat) (pc val : Z) (s : T) : T :=
  let e := upd_csr (set_c_stvec kernel_vector_addr) (trap_entry false pc 8 val s) in
  let m := st64 (st64 (kmem s) (tf_of p s + tf_epc) pc) (tf_of p s + tf_epc) (u64 (pc + 4)) in
  lset t_cpu (set_sie true (hcpu s)) (set_kmem m e).

Notation handler := (trap_user_handler sl_fuel buf_addr stack_name stat_addr trampoline trap_user_handler_addr fork_return_addr
  exit_state_addr path_addr old_path_addr new_path_addr wait_fuel status_addr kernel_vector_addr user_vector_addr user_return_addr).
Notation ureturn := (trap_user_return trampoline trap_user_handler_addr user_vector_addr user_return_addr).

Notation do_syscall satp := (syscall sl_fuel buf_addr stack_name stat_addr trampoline trap_user_handler_addr fork_return_addr satp
  exit_state_addr path_addr old_path_addr new_path_addr wait_fuel).

Lemma user_entry_spp pc cause val (s : T) : (Z.land (sstatus_of (trap_entry false pc cause val s)) SSTATUS_SPP =? 0) = true.
Proof. unfold sstatus_of. cbn. sbits. by repeat case_match. Qed.
Lemma user_handler_syscall p pc val (s : T) : cproc (hcpu s) = Some p -> tf_of p s <> NULL -> 0 <= pc < 2 ^ 64 ->
  handler (trap_entry false pc 8 val s) = (zoom t_sys (do_syscall (c_satp (tcsr s)));;; ureturn) (sys_entry p pc val s).
Proof.
  intros Hp Ht Hpc. pose proof (user_entry_spp pc 8 val s) as Hs. set (e := trap_entry false pc 8 val s) in *.
  unfold trap_user_handler, rd_csr, r_sstatus, wr_csr, myproc_opt. mstep. rewrite (bind_run _ _ _ _ _ (t_k_gets _ _)). rewrite Hs. mstep.
  change (cproc (pcpu (kpm (lget t_k e)))) with (cproc (hcpu s)). rewrite Hp. cbn iota.
  erewrite bind_run; [|apply t_tf_write; exact Ht]. set (u1 := set_kmem _ _).
  assert (ld64 (kmem u1) (tf_of p u1 + tf_epc) = pc) as E by (apply ld64_st64_eq; exact Hpc).
  change (c_scause (tcsr e)) with 8. change (negb (Z.land (8 ≫ 63) 1 =? 0)) with false. change (Z.land 8 15 =? 8) with true. cbn iota. mstep.
  erewrite bind_run; [|apply t_tf_read; exact Ht]. rewrite E, bind_assoc.
  erewrite bind_run; [|apply t_tf_write; exact Ht]. rewrite bind_assoc.
  set (v := set_kmem _ _). assert (zoom t_cpu intr_on v = Ret tt (sys_entry p pc val s)) as Hon by reflexivity.
  rewrite (bind_run _ _ _ _ _ Hon). mstep. reflexivity.
Qed.

(** syscall() is the dispatched routine followed by the store to a0. *)
Lemma syscall_run p satp r y (s : T) : cproc (hcpu s) = Some p -> tf_of p s <> NULL ->
  syscall_fun satp (i32 (ld64 (kmem s) (tf_of p s + tf_a 7))) (tsys s) = Ret r y -> tf_of p (lset t_sys y s) <> NULL ->
  zoom t_sys (do_syscall satp) s =
  Ret tt (set_kmem (st64 (kmem (lset t_sys y s)) (tf_of p (lset t_sys y s) + tf_a 0) r) (lset t_sys y s)).
Proof.
  intros Hp Ht Hf Ht'. set (s2 := lset t_sys y s) in *. erewrite zoom_run; [reflexivity|].
  change (lget t_sys s) with (tsys s). unfold syscall.
  rewrite (bind_run _ _ _ _ _ (s_myproc p (tsys s) Hp)), (bind_run _ _ _ _ _ (s_tf_read p (tf_a 7) (tsys s) Ht)).
  assert (zoom s_k (tf_write p (tf_a 0) r) y = Ret tt (tsys (set_kmem (st64 (kmem s2) (tf_of p s2 + tf_a 0) r) s2))) as Hw.
  { unfold zoom, tf_write, rd_proc. rewrite bind_gets. change (tf (proc_at (lget s_k y) p)) with (tf_of p s2).
    bcase (tf_of p s2 =? NULL); [done|]. reflexivity. }
  unfold syscall_fun in Hf. destruct (if (0 <=? _) && _ then _ else _) as [f|].
  - rewrite (bind_run _ _ _ _ _ Hf). exact Hw.
  - injection Hf as <- <-. exact Hw.
Qed.

(** A system call from user mode.  The number in a7 selects the routine, a
    number outside the table gives -1; the routine runs with interrupts enabled and
    kernel_vector installed.  When it returns, its result is in the user's a0, the
    other registers of the frame are as the routine left them, and the process goes
    on in user mode at the instruction after the ecall with interrupts enabled. *)
Lemma syscall_trap_run p pc val r y (s : T) (frame := tf_of p s) (s1 := sys_entry p pc val s) (s2 := lset t_sys y s1) :
  cproc (hcpu s) = Some p -> frame <> NULL -> 0 <= pc < 2 ^ 64 ->
  syscall_fun (c_satp (tcsr s)) (i32 (ld64 (kmem s) (frame + tf_a 7))) (tsys s1) = Ret r y -> 0 <= r < 2 ^ 64 ->
  cproc (hcpu s2) = Some p -> tf_of p s2 = frame -> ld64 (kmem s2) (frame + tf_epc) = ld64 (kmem s1) (frame + tf_epc) ->
  sie (hcpu s1) = true /\ c_stvec (tcsr s1) = kernel_vector_addr /\
  exists s', handler (trap_entry false pc 8 val s) =
      Ret (TRAMPOLINE + (user_return_addr - trampoline), TRAPFRAME, MAKE_SATP (pgtbl (proc_at (lget t_k s2) p))) s' /\
    fst (sret s') = (false, u64 (pc + 4)) /\ sie (hcpu (snd (sret s'))) = true /\ ld64 (kmem s') (frame + tf_a 0) = r /\
    (forall o, 40 <= o -> o + 8 <= tf_a 0 \/ tf_a 1 <= o -> ld64 (kmem s') (frame + o) = ld64 (kmem s2) (frame + o)) /\
    (forall a, a < frame \/ frame + PGSIZE <= a -> ld8 (kmem s') a = ld8 (kmem s2) a).
Proof.
  intros Hp Ht Hpc Hf Hr Hp2 Ht2 He. split; [done|]. split; [done|].
  rewrite (user_handler_syscall p pc val s Hp Ht Hpc). fold s1.
  assert (ld64 (kmem s1) (frame + tf_a 7) = ld64 (kmem s) (frame + tf_a 7)) as Ha7.
  { unfold s1. cbn. fold frame. unfold tf_epc, tf_a. by rewrite !ld64_st64_ne by lia. }
  assert (syscall_fun (c_satp (tcsr s)) (i32 (ld64 (kmem s1) (tf_of p s1 + tf_a 7))) (tsys s1) = Ret r y) as Hf1.
  { change (tf_of p s1) with frame. by rewrite Ha7. }
  assert (tf_of p s2 <> NULL) as Hnn by (by rewrite Ht2).
  rewrite (bind_run _ _ _ _ _ (syscall_run p _ r y s1 Hp Ht Hf1 Hnn)). fold s2. rewrite Ht2.
  set (s3 := set_kmem _ s2). assert (tf_of p s3 = frame) as Ht3 by exact Ht2.
  eexists. split; [apply (trap_user_return_run p s3); [exact Hp2|by rewrite Ht3]|].
  destruct (sret_returned p s3) as [Hs1 Hs2]. rewrite Hs1, Ht3. change (kmem (returned p s3)) with (frame_armed p s3).
  change (kmem s3) with (st64 (kmem s2) (frame + tf_a 0) r). split_and!.
  - f_equal. unfold tf_epc, tf_a in *. rewrite ld64_st64_ne by lia. rewrite He. unfold s1. cbn. fold frame. unfold tf_epc.
    apply ld64_st64_eq, Z.mod_pos_bound. lia.
  - exact Hs2.
  - rewrite (armed_frame p s3 8) by (rewrite Ht3; right; unfold tf_a; lia). by apply ld64_st64_eq.
  - intros o Ho Ho'. rewrite (armed_frame p s3 8) by (rewrite Ht3; right; lia). apply ld64_st64_ne. unfold tf_a in *. lia.
  - intros a Ha. unfold PGSIZE in Ha. rewrite <- !ld_1, (armed_frame p s3 1) by (rewrite Ht3; cbn; lia).
    rewrite !ld_1. apply ld8_st_ne. unfold tf_a. cbn. lia.
Qed.

(** ** Preemption *)

(** The user handler up to the yield of a timer interrupt. *)
Definition timer_entry (p : nat) (pc cause val : Z) (s : T) : T :=
  let u := set_kmem (st64 (kmem s) (tf_of p s + tf_epc) pc) (upd_csr (set_c_stvec kernel_vector_addr) (trap_entry false pc cause val s)) in
  sip_cleared (if cpu_id (hcpu s) =? 0 then ticked (synced (hcpu u)) u else u).
Lemma user_handler_timer p pc cause val (s : T) : timer_cause cause -> running p (lget t_k s) -> tf_of p s <> NULL ->
  lk_free (timer_lk (clock s)) ->
  handler (trap_entry false pc cause val s) = (zoom t_k proc_yield;;; ureturn) (timer_entry p pc cause val s).
Proof.
  intros Hc Hr Ht Hl. pose proof (user_entry_spp pc cause val s) as Hs. pose proof Hr as (_ & Hp & Hn & _ & _).
  set (e := trap_entry false pc cause val s) in *.
  unfold trap_user_handler, rd_csr, r_sstatus, wr_csr, myproc_opt. mstep. rewrite (bind_run _ _ _ _ _ (t_k_gets _ _)). rewrite Hs. mstep.
  change (cproc (pcpu (kpm (lget t_k e)))) with (cproc (kcpu (lget t_k s))). rewrite Hp. cbn iota.
  erewrite bind_run; [|apply t_tf_write; exact Ht]. set (u := set_kmem _ _). change (c_scause (tcsr e)) with cause.
  assert (timer_interrupt_handler u = Ret tt (timer_entry p pc cause val s)) as Ht1.
  { rewrite timer_interrupt_run; [reflexivity|exact Hl|]. split; [|done]. change (noff (hcpu u)) with (noff (kcpu (lget t_k s))). lia. }
  destruct Hc as [-> | ->].
  all: match goal with |- context [negb (?x =? 0)] => change (negb (x =? 0)) with true end; cbn iota.
  all: match goal with |- context [(?x =? 1)] => let v := eval vm_compute in (x =? 1) in change (x =? 1) with v end; cbn iota.
  all: try match goal with |- context [(?x =? 5)] => let v := eval vm_compute in (x =? 5) in change (x =? 5) with v end; cbn iota.
  all: by rewrite bind_assoc, (bind_run _ _ _ _ _ Ht1).
Qed.
Lemma timer_entry_k p pc cause val (s : T) : exists c, (c = set_sie false (hcpu s) \/ c = synced (set_sie false (hcpu s))) /\
  lget t_k (timer_entry p pc cause val s) =
  set_kcpu c (set_kpm (set_pm (st64 (kmem s) (tf_of p s + tf_epc) pc) (kpm (lget t_k s))) (lget t_k s)).
Proof.
  unfold timer_entry. destruct (cpu_id (hcpu s) =? 0).
  - eexists. split; [by right|]. reflexivity.
  - eexists. split; [by left|]. reflexivity.
Qed.
Lemma timer_entry_running p pc cause val (s : T) : running p (lget t_k s) ->
  running p (lget t_k (timer_entry p pc cause val s)).
Proof.
  intros (Hi & Hp & Hn & Hw & Hl). destruct (timer_entry_k p pc cause val s) as (c & Hc & ->).
  change (kcpu (lget t_k s)) with (hcpu s) in *.
  assert (noff c = 0 /\ cproc c = Some p) as [Hcn Hcp].
  { destruct Hc as [-> | ->]; rewrite ?synced_noff, ?synced_cproc; done. }
  split_and!; [done|done|done|split; [cbn; lia|cbn; lia]|done].
Qed.

Lemma tick_running p (e t : T) : t = sip_cleared (if cpu_id (hcpu e) =? 0 then ticked (synced (hcpu e)) e else e) ->
  running p (lget t_k e) -> running p (lget t_k t).
Proof.
  intros -> (Hi & Hp & Hn & Hw & Hl). change (kcpu (lget t_k e)) with (hcpu e) in *.
  destruct (cpu_id (hcpu e) =? 0); [|done]. split_and!; [done| | |by apply synced_wf|done].
  - change (cproc (synced (hcpu e)) = Some p). by rewrite synced_cproc.
  - change (noff (synced (hcpu e)) = 0). by rewrite synced_noff.
Qed.

(** The way out of a process that has just been given the CPU and unlocked itself:
    the state is [s2] but for the hart, the lock and a running process table. *)
Lemma resumed_return p k3 (s2 : T) (frame := tf_of p s2) (s3 := returned p (lset t_k k3 s2)) :
  running p k3 -> (forall l, set_plk l (proc_at k3 p) = set_plk l (proc_at (lget t_k s2) p)) -> pm (kpm k3) = kmem s2 -> frame <> NULL ->
  ureturn (lset t_k k3 s2) = Ret (TRAMPOLINE + (user_return_addr - trampoline), TRAPFRAME, MAKE_SATP (pgtbl (proc_at (lget t_k s2) p))) s3 /\
  fst (sret s3) = (false, ld64 (kmem s2) (frame + tf_epc)) /\ sie (hcpu (snd (sret s3))) = true /\
  forall o, 40 <= o -> ld64 (kmem s3) (frame + o) = ld64 (kmem s2) (frame + o).
Proof.
  intros Hr Hk Hm Ht. set (u := lset t_k k3 s2) in *.
  assert (forall A (f : proc -> A), (forall l q, f (set_plk l q) = f q) -> f (proc_at (lget t_k u) p) = f (proc_at (lget t_k s2) p)) as Hsame.
  { intros A f Hf. rewrite <- (Hf (spinlock_init "") (proc_at (lget t_k u) p)), <- (Hf (spinlock_init "") (proc_at (lget t_k s2) p)).
    f_equal. apply Hk. }
  assert (tf_of p u = frame) as Htu by (by apply (Hsame _ tf)).
  assert (kmem u = kmem s2) as Hmu by exact Hm. split.
  { rewrite (trap_user_return_run p u); [|exact (proj1 (proj2 Hr))|by rewrite Htu]. by rewrite (Hsame _ pgtbl). }
  destruct (sret_returned p u) as [Hs1 Hs2]. unfold s3. rewrite Hs1, Htu, Hmu. split_and!; [done|done|].
  intros o Ho. change (kmem (returned p u)) with (frame_armed p u). rewrite (armed_frame p u 8) by (rewrite Htu; lia). by rewrite Hmu.
Qed.

(** C17 Preemption is invisible to the user.  A timer interrupt in user mode takes
    the CPU from the process: the handler switches away with the process RUNNABLE,
    its lock held and its pc in the trapframe, a tick counted on hart 0 and the
    pending bit cleared.  Whenever it is resumed, on any
    hart and in any state that meets the hand-over condition and has the frame, it
    returns to user mode at the interrupted instruction with interrupts enabled and
    every register slot of the frame as it was found. *)
Theorem user_timer_preempts p pc cause val (s : T) (frame := tf_of p s) :
  timer_cause cause -> running p (lget t_k s) -> frame <> NULL -> lk_free (timer_lk (clock s)) -> 0 <= pc < 2 ^ 64 ->
  exists s1 cont, handler (trap_entry false pc cause val s) = Swtch s1 cont /\
    handover p (lget t_k s1) /\ state (proc_at (lget t_k s1) p) = RUNNABLE /\ tf_of p s1 = frame /\
    kmem s1 = st64 (kmem s) (frame + tf_epc) pc /\ tick_counted s s1 /\
    forall s2, handover p (lget t_k s2) -> tf_of p s2 = frame -> ld64 (kmem s2) (frame + tf_epc) = pc ->
      exists s3, cont s2 = Ret (TRAMPOLINE + (user_return_addr - trampoline), TRAPFRAME, MAKE_SATP (pgtbl (proc_at (lget t_k s2) p))) s3 /\
        fst (sret s3) = (false, pc) /\ sie (hcpu (snd (sret s3))) = true /\
        forall o, 40 <= o -> ld64 (kmem s3) (frame + o) = ld64 (kmem s2) (frame + o).
Proof.
  intros Hc Hr Ht Hl Hpc. rewrite (user_handler_timer p pc cause val s Hc Hr Ht Hl).
  set (t := timer_entry p pc cause val s).
  destruct (proc_yield_run p (lget t_k t) (timer_entry_running p pc cause val s Hr)) as (k1 & cont & Hy & Hh & [l Hst] & Hm & Hres).
  eexists _, _. split; [apply obind_Swtch, (zoom_Swtch t_k), Hy|]. split; [done|]. split; [change (lget t_k (lset t_k k1 t)) with k1; by rewrite Hst|]. split.
  { unfold tf_of. change (lget t_k (lset t_k k1 t)) with k1. rewrite Hst. unfold t.
    by destruct (timer_entry_k p pc cause val s) as (c & _ & ->). }
  split.
  { change (kmem (lset t_k k1 t)) with (pm (kpm k1)). rewrite Hm. unfold t.
    destruct (timer_entry_k p pc cause val s) as (c & _ & ->). done. }
  split; [exact (tick_counted_run (set_kmem (st64 (kmem s) (tf_of p s + tf_epc) pc) (upd_csr (set_c_stvec kernel_vector_addr) (trap_entry false pc cause val s))))|].
  intros s2 Hh2 Ht2 He. cbn beta. destruct (Hres _ Hh2) as (k3 & Hc3 & Hr3 & _ & Hk3 & Hm3 & _). rewrite Hc3. cbn [ozoom obind].
  destruct (resumed_return p k3 s2 Hr3 Hk3 Hm3) as (E & Hs & Hsie & Hk); [by rewrite Ht2|].
  rewrite Ht2 in *. rewrite He in Hs. eexists. split; [exact E|]. done.
Qed.

(** The first run of a process.  The scheduler switches to fork_return() with the
    lock of the process held; it releases the lock and leaves for user mode at the
    pc of the trapframe with interrupts enabled, every register slot of the frame
    as it was found (for a forked child the copy of its parent's frame). *)
Theorem fork_return_first_run p (s : T) (frame := tf_of p s) : handover p (lget t_k s) -> frame <> NULL ->
  exists s', fork_return trampoline trap_user_handler_addr user_vector_addr user_return_addr s =
      Ret (TRAMPOLINE + (user_return_addr - trampoline), TRAPFRAME, MAKE_SATP (pgtbl (proc_at (lget t_k s) p))) s' /\
    lk_free (plk (proc_at (lget t_k s') p)) /\
    fst (sret s') = (false, ld64 (kmem s) (frame + tf_epc)) /\ sie (hcpu (snd (sret s'))) = true /\
    forall o, 40 <= o -> ld64 (kmem s') (frame + o) = ld64 (kmem s) (frame + o).
Proof.
  intros Hh Ht. destruct (resume_unlock p (lget t_k s) (origin (kcpu (lget t_k s))) Hh) as (k3 & E & Hr & _ & Hk & Hm & _).
  assert (forall k, set_kcpu (set_origin (origin (kcpu k)) (kcpu k)) k = k) as Hid by (intros [[[] ? ? ?] ? ? ? ? ?]; done).
  rewrite Hid in E. destruct (resumed_return p k3 s Hr Hk Hm Ht) as (E2 & Hs & Hsie & Hf).
  exists (returned p (lset t_k k3 s)). unfold fork_return. rewrite (bind_run _ _ _ _ _ (t_myproc p s (proj1 (proj2 Hh)))).
  rewrite (bind_run _ _ _ _ _ (zoom_run _ _ _ _ _ E)). split; [exact E2|]. split; [apply Hr|]. done.
Qed.

(** ** Causes nobody handles *)

Definition console_ok (s : T) : Prop := cpu_wf (hcpu s) /\ lk_free (tprint s) /\ tpanicked s = false.
Lemma console_entry b pc cause val (s : T) : console_ok s -> console_ok (trap_entry b pc cause val s).
Proof. intros ([Hn _] & Hl & Hp). split_and!; [split; [exact Hn|done]|done|done]. Qed.
Lemma kprintf_run fmt ap (s : T) : console_ok s -> Forall va_ok ap -> is_Some (render (lit fmt ++ [10]) ap) ->
  exists u, let s' := lset t_print (mkPr (synced (hcpu s)) (tprint s) false u) s in kprintf fmt ap s = Ret tt s' /\ console_ok s'.
Proof.
  intros (Hc & Hl & Hp) Hap [text Hr].
  destruct (printf_run (lit fmt ++ [10]) ap text (lget t_print s)) as (u & E & _); try done.
  { apply Forall_app. split; [apply lit_bytes|]. by repeat constructor. }
  exists u. split; [by apply zoom_run|]. split_and!; [by apply synced_wf|done|done].
Qed.
Lemma report_panics f1 f2 info id c e v msg (s : T) : console_ok s -> 0 <= c < 2 ^ 64 -> 0 <= e < 2 ^ 64 -> 0 <= v < 2 ^ 64 ->
  is_Some (render (lit f1 ++ [10]) [info_str info id; VInt id]) -> is_Some (render (lit f2 ++ [10]) [VPtr c; VPtr e; VPtr v]) ->
  forall A, (kprintf f1 [info_str info id; VInt id];;; kprintf f2 [VPtr c; VPtr e; VPtr v];;; panic (A := A) msg) s = Panic msg.
Proof.
  intros Hs Hc He Hv H1 H2 A. destruct (kprintf_run f1 [info_str info id; VInt id] s Hs) as (u1 & E1 & Hs1); [|done|].
  { repeat constructor. unfold info_str. cbn. destruct (info !! Z.to_nat id); [apply lit_bytes|constructor]. }
  destruct (kprintf_run f2 [VPtr c; VPtr e; VPtr v] _ Hs1) as (u2 & E2 & _); [by rewrite !Forall_cons|done|].
  by rewrite (bind_run _ _ _ _ _ E1), (bind_run _ _ _ _ _ E2).
Qed.

Definition is_interrupt (cause : Z) : bool := negb (Z.land (Z.shiftr cause 63) 1 =? 0).
Definition trap_id (cause : Z) : Z := Z.land cause 0xf.
(** The causes the kernel handler and the user handler know. *)
Definition known_interrupt (cause : Z) : bool :=
  is_interrupt cause && ((trap_id cause =? 1) || (trap_id cause =? 5) || (trap_id cause =? 9)).

Lemma kernel_trap_unexpected pc cause val (s : T) :
  0 <= pc < 2 ^ 64 -> 0 <= cause < 2 ^ 64 -> 0 <= val < 2 ^ 64 -> known_interrupt cause = false -> console_ok (trap_entry true pc cause val s) ->
  trap_kernel_handler status_addr (trap_entry true pc cause val s) =
    Panic (if is_interrupt cause then "trap_kernel_handler: unexpected interrupt" else "trap_kernel_handler: unexpected exception").
Proof.
  intros Hpc Hca Hv Hk Hs. unfold known_interrupt in Hk. fold (is_interrupt cause) in *.
  destruct (entry_asserts pc cause val s) as [H1 H2]. set (e := trap_entry true pc cause val s) in *.
  unfold trap_kernel_handler, rd_csr, r_sstatus. mstep. rewrite H1. mstep.
  assert (zoom t_cpu intr_get e = Ret false e) as Hg by (by destruct s as [[[[[? ? ? ?] ? ? ?] ? ? ?] ?] ? ? ? ? ? ? ?]).
  rewrite (bind_run _ _ _ _ _ Hg). cbn [negb]. mstep. change (c_scause (tcsr e)) with cause. change (c_sepc (tcsr e)) with pc.
  change (c_stval (tcsr e)) with val. fold (is_interrupt cause). fold (trap_id cause). destruct (is_interrupt cause); cbn [andb] in Hk.
  + apply orb_false_iff in Hk as [[-> ->]%orb_false_iff ->].
    apply bind_panic, report_panics; first [exact Hs|done|by eexists].
  + apply bind_panic, report_panics; first [exact Hs|done|by eexists].
Qed.
(** Every other cause is reported on the console and stops the kernel in
    panic(): in the kernel every exception and every interrupt but the timer and
    the external one, from user mode every exception but the system call, so a
    user program that faults takes the whole system down. *)
Theorem unexpected_trap_panics pc cause val (s : T) :
  0 <= pc < 2 ^ 64 -> 0 <= cause < 2 ^ 64 -> 0 <= val < 2 ^ 64 -> known_interrupt cause = false ->
  0 <= noff (hcpu s) -> lk_free (tprint s) -> tpanicked s = false ->
  trap_kernel_handler status_addr (trap_entry true pc cause val s) =
    Panic (if is_interrupt cause then "trap_kernel_handler: unexpected interrupt" else "trap_kernel_handler: unexpected exception") /\
  forall p, cproc (hcpu s) = Some p -> tf_of p s <> NULL -> (is_interrupt cause = false -> trap_id cause <> 8) ->
    handler (trap_entry false pc cause val s) =
    Panic (if is_interrupt cause then "trap_user_handler: unexpected interrupt" else "trap_user_handler: unexpected exception").
Proof.
  intros Hpc Hca Hv Hk Hn Hl Hp. assert (forall b, console_ok (trap_entry b pc cause val s)) as Hcon.
  { intros b. split_and!; [split; [exact Hn|done]|done|done]. }
  unfold known_interrupt in Hk. fold (is_interrupt cause) in *. split.
  - apply kernel_trap_unexpected; try done.
  - intros p Hcp Ht H8. pose proof (user_entry_spp pc cause val s) as Hs. set (e := trap_entry false pc cause val s) in *.
    unfold trap_user_handler, rd_csr, r_sstatus, wr_csr, myproc_opt. mstep. rewrite (bind_run _ _ _ _ _ (t_k_gets _ _)). rewrite Hs. mstep.
    change (cproc (pcpu (kpm (lget t_k e)))) with (cproc (hcpu s)). rewrite Hcp. cbn iota.
    erewrite bind_run; [|apply t_tf_write; exact Ht]. set (u := set_kmem _ _). assert (console_ok u) as Hu by apply (Hcon false).
    change (c_scause (tcsr e)) with cause. change (c_sepc (tcsr e)) with pc. change (c_stval (tcsr e)) with val.
    fold (is_interrupt cause). fold (trap_id cause). destruct (is_interrupt cause); cbn [andb] in Hk.
    + apply orb_false_iff in Hk as [[-> ->]%orb_false_iff ->]. apply bind_panic, report_panics; first [exact Hu|done|by eexists].
    + bcase (trap_id cause =? 8); [by destruct H8|]. apply bind_panic, report_panics; first [exact Hu|done|by eexists].
Qed.

(** ** External interrupts *)

Definition claimed_plic (s : T) : P := plic_rd' (PLIC_SCLAIM (cpu_id (hcpu s))) (tplic s).
Definition set_plic (q : P) (s : T) : T :=
  mkT (tsys s) (tdisk s) (tflags s) (tprint s) (tpanicked s) (tuart s) q (tcsr s).
Definition completed_plic (s : T) (irq : Z) : P := plic_wr (PLIC_SCLAIM (cpu_id (hcpu s))) irq (claimed_plic s).
Lemma i32_small x : 0 <= x < 1024 -> i32 x = x.
Proof. intros H. unfold i32. rewrite u32_small by lia. bcase (x <? 2 ^ 31); lia. Qed.
Lemma plic_claim_run (s : T) : plic_claim s = Ret (plic_rd (PLIC_SCLAIM (cpu_id (hcpu s))) (tplic s)) (set_plic (claimed_plic s) s).
Proof.
  unfold plic_claim, mycpuid. rewrite (bind_run _ _ _ _ _ (t_k_gets _ _)). mstep. rewrite i32_small by apply plic_src. reflexivity.
Qed.
Lemma plic_complete_run irq (s : T) : 0 <= irq < 1024 ->
  plic_complete irq s = Ret tt (set_plic (plic_wr (PLIC_SCLAIM (cpu_id (hcpu s))) irq (tplic s)) s).
Proof.
  intros H. unfold plic_complete, mycpuid, plic_reg. rewrite (bind_run _ _ _ _ _ (t_k_gets _ _)). rewrite u32_small by lia. reflexivity.
Qed.
Lemma synced_id c : cpu_id (synced c) = cpu_id c.
Proof. unfold synced. by case_match. Qed.
(** The handler around the routine [m] of the claimed source. *)
Lemma external_around irq m (s s' : T) : plic_rd (PLIC_SCLAIM (cpu_id (hcpu s))) (tplic s) = irq -> irq <> 0 ->
  (if irq =? UART_IRQ then zoom t_print uart_intr
   else if irq =? VIRTIO_IRQ then zoom t_virtio (virtio_disk_intr status_addr)
   else when (negb (irq =? 0)) (kprintf "unexpected external interrupt irq=%d" [VInt irq])) = m ->
  m (set_plic (claimed_plic s) s) = Ret tt s' -> tplic s' = claimed_plic s -> cpu_id (hcpu s') = cpu_id (hcpu s) ->
  external_interrupt_handler status_addr s = Ret tt (set_plic (completed_plic s irq) s').
Proof.
  intros Hi Hne Hm E Hq Hid. pose proof (plic_src (cpu_id (hcpu s)) (tplic s)) as Hb. rewrite Hi in Hb.
  unfold external_interrupt_handler. rewrite (bind_run _ _ _ _ _ (plic_claim_run s)), Hi, Hm, (bind_run _ _ _ _ _ E).
  bcase (irq =? 0); [done|]. cbn [negb when]. rewrite plic_complete_run, Hid, Hq by done. done.
Qed.

(** External interrupts reach their device and are completed.  With nothing
    pending the handler does nothing.  A UART interrupt echoes every received byte;
    a disk interrupt ends the one finished request, so that b->disk is false, the
    used ring is caught up with and the device's interrupt is acknowledged; any
    other source is reported.  In each case the controller is told that exactly the
    claimed source is done, and the hart's interrupt enable is as before. *)
Theorem external_interrupt_dispatch (s : T) (irq := plic_rd (PLIC_SCLAIM (cpu_id (hcpu s))) (tplic s)) : console_ok s ->
  (irq = 0 -> external_interrupt_handler status_addr s = Ret tt (set_plic (claimed_plic s) s)) /\
  (irq = UART_IRQ -> exists s', external_interrupt_handler status_addr s = Ret tt s' /\ tplic s' = completed_plic s irq /\
     sent (tuart s') = sent (tuart s) ++ waiting (tuart s) /\ waiting (tuart s') = [] /\ sie (hcpu s') = sie (hcpu s)) /\
  (irq = VIRTIO_IRQ -> forall b, one_used status_addr b (lget t_virtio s) -> lk_free (vdisk_lock (tdisk s)) ->
     is_Some (vbufs (lget t_virtio s) !! b) -> Virtio.irq (disk (t_b s)) = true ->
     exists s', external_interrupt_handler status_addr s = Ret tt s' /\ tplic s' = completed_plic s irq /\
       tflags s' !! b = Some false /\ used_idx (tdisk s') = used_id (ring (tdisk s')) mod NUM /\
       Virtio.irq (disk (t_b s')) = false /\ sie (hcpu s') = sie (hcpu s)) /\
  (irq <> 0 -> irq <> UART_IRQ -> irq <> VIRTIO_IRQ -> exists s', external_interrupt_handler status_addr s = Ret tt s' /\
     tplic s' = completed_plic s irq /\ tdisk s' = tdisk s /\ sie (hcpu s') = sie (hcpu s)).
Proof.
  intros Hcon. pose proof Hcon as (Hc & Hl & Hp). split_and!.
  - intros H0. unfold external_interrupt_handler. rewrite (bind_run _ _ _ _ _ (plic_claim_run s)). fold irq. rewrite H0. done.
  - intros Hu. destruct (uart_intr_run (lget t_print s)) as (s' & E & Hcpu & Hs1 & Hs2); [by split|].
    assert (cpu_id (pr_cpu s') = cpu_id (hcpu s) /\ sie (pr_cpu s') = sie (hcpu s)) as [Hid Hsie]
      by (destruct Hcpu as [->| ->]; rewrite ?synced_id, ?synced_sie; done).
    eexists. split; [apply (external_around irq (zoom t_print uart_intr) s (lset t_print s' (set_plic (claimed_plic s) s)) eq_refl);
      [by rewrite Hu|by rewrite Hu|by apply zoom_run|done|exact Hid]|]. done.
  - intros Hvi b O Hlk [v Hv] Hirq. set (vs := lget t_virtio s) in *.
    assert (virtio_disk_intr status_addr vs = Ret tt (with_cpu (synced (hcpu s)) (finished b vs))) as E
      by (rewrite <- (virtio_disk_intr_run status_addr b (hcpu s) vs O Hlk Hc); by rewrite (with_cpu_id vs : with_cpu (hcpu s) vs = vs)).
    eexists. split; [apply (external_around irq (zoom t_virtio (virtio_disk_intr status_addr)) s
      (lset t_virtio (with_cpu (synced (hcpu s)) (finished b vs)) (set_plic (claimed_plic s) s)) eq_refl);
      [by rewrite Hvi|by rewrite Hvi|by apply zoom_run|done|apply synced_id]|].
    split_and!; [done| | | |by apply synced_sie].
    + change (tflags _) with (map vb_disk (alter (fun x => mkVbuf (vb_num x) false) b (vbufs vs))).
      rewrite list_lookup_fmap, list_lookup_alter_eq, Hv. done.
    + exact (ou_last _ _ _ O).
    + apply ack_irq; [exact Hirq|done].
  - intros H0 H1 H2. destruct (kprintf_run "unexpected external interrupt irq=%d" [VInt irq] (set_plic (claimed_plic s) s))
      as (u & E & _); [done|by repeat constructor|by eexists|].
    eexists. split; [apply (external_around irq _ s (lset t_print (mkPr (synced (hcpu s)) (tprint s) false u) (set_plic (claimed_plic s) s))
      eq_refl H0 eq_refl)|].
    + bcase (irq =? UART_IRQ); [done|]. bcase (irq =? VIRTIO_IRQ); [done|]. bcase (irq =? 0); [done|]. exact E.
    + done.
    + apply synced_id.
    + split_and!; [done|done|apply synced_sie].
Qed.
(** ** Every trap in the kernel *)

(** The kernel handler after its assertions, on an external interrupt. *)
Lemma kernel_handler_external pc val (s : T) :
  trap_kernel_handler status_addr (trap_entry true pc (2 ^ 63 + 9) val s) =
  (external_interrupt_handler status_addr;;; wr_csr (set_c_sepc pc);;; w_sstatus (sstatus_of (trap_entry true pc (2 ^ 63 + 9) val s)))
    (trap_entry true pc (2 ^ 63 + 9) val s).
Proof.
  destruct (entry_asserts pc (2 ^ 63 + 9) val s) as [H1 H2]. set (e := trap_entry true pc (2 ^ 63 + 9) val s) in *.
  unfold trap_kernel_handler, rd_csr, r_sstatus. mstep. rewrite H1. mstep.
  assert (zoom t_cpu intr_get e = Ret false e) as Hg by (by destruct s as [[[[[? ? ? ?] ? ? ?] ? ? ?] ?] ? ? ? ? ? ? ?]).
  rewrite (bind_run _ _ _ _ _ Hg). cbn [negb]. mstep. reflexivity.
Qed.
(** The timer case yields exactly when the current process is RUNNING. *)
Lemma kernel_tick_run (e : T) (t := sip_cleared (if cpu_id (hcpu e) =? 0 then ticked (synced (hcpu e)) e else e)) :
  lk_free (timer_lk (clock e)) -> cpu_wf (hcpu e) ->
  ((forall p, cproc (hcpu e) = Some p -> state (proc_at (lget t_k e) p) <> RUNNING) -> kernel_tick e = Ret tt t) /\
  (forall p, cproc (hcpu e) = Some p -> state (proc_at (lget t_k e) p) = RUNNING -> kernel_tick e = zoom t_k proc_yield t).
Proof.
  intros Hl Hc. unfold kernel_tick, myproc_opt, rd_proc.
  assert (cproc (hcpu t) = cproc (hcpu e)) as Hp by (unfold t; destruct (cpu_id (hcpu e) =? 0); [apply synced_cproc|done]).
  assert (forall p, proc_at (lget t_k t) p = proc_at (lget t_k e) p) as Hat by (intros p; unfold t; by destruct (cpu_id (hcpu e) =? 0)).
  rewrite !(bind_run _ _ _ _ _ (timer_interrupt_run e Hl Hc)). fold t. rewrite !(bind_run _ _ _ _ _ (t_k_gets _ _)).
  change (cproc (pcpu (kpm (lget t_k t)))) with (cproc (hcpu t)). rewrite Hp. split.
  - intros Hs. destruct (cproc (hcpu e)) as [p|]; [|done]. rewrite (bind_run _ _ _ _ _ (t_k_gets _ _)), Hat.
    by rewrite bool_decide_eq_false_2 by (by apply Hs).
  - intros p -> Hst. rewrite (bind_run _ _ _ _ _ (t_k_gets _ _)), Hat. by rewrite bool_decide_eq_true_2.
Qed.
(** The device whose interrupt is pending is in order: the disk has one finished request. *)
Definition serviceable (s : T) : Prop :=
  plic_rd (PLIC_SCLAIM (cpu_id (hcpu s))) (tplic s) = VIRTIO_IRQ ->
  exists b, one_used status_addr b (lget t_virtio s) /\ lk_free (vdisk_lock (tdisk s)) /\
    is_Some (vbufs (lget t_virtio s) !! b) /\ Virtio.irq (disk (t_b s)) = true.
Lemma external_serviced (s : T) (irq := plic_rd (PLIC_SCLAIM (cpu_id (hcpu s))) (tplic s)) : console_ok s -> serviceable s ->
  exists s', external_interrupt_handler status_addr s = Ret tt s' /\
    tplic s' = if irq =? 0 then claimed_plic s else completed_plic s irq.
Proof.
  intros Hc Hs. destruct (external_interrupt_dispatch s Hc) as (H0 & H1 & H2 & H3). fold irq in H0, H1, H2, H3.
  bcase (irq =? 0); [eexists; split; [by apply H0|done]|].
  destruct (decide (irq = UART_IRQ)) as [Hu|Hu]; [destruct (H1 Hu) as (s' & E1 & E2 & _); by exists s'|].
  destruct (decide (irq = VIRTIO_IRQ)) as [Hv|Hv].
  - destruct (Hs Hv) as (b & O & Hl & Hb & Hi). destruct (H2 Hv b O Hl Hb Hi) as (s' & E1 & E2 & _). by exists s'.
  - destruct (H3 ltac:(lia) Hu Hv) as (s' & E1 & E2 & _). by exists s'.
Qed.

(** C30 A trap taken in the kernel.  A timer interrupt counts a tick on hart 0 and
    clears its pending bit; without a RUNNING process on the hart the handler
    returns, and with one it gives the CPU away with the process RUNNABLE and
    returns once the process is resumed.  An external interrupt is served, the
    controller told so, and the handler returns.  Each of these returns is to the
    interrupted instruction, in supervisor mode and with the interrupt enable it had,
    whatever happened to sepc and sstatus meanwhile.  Every other interrupt and every
    exception panics. *)
Theorem kernel_trap_resumes pc cause val (s : T) (e := trap_entry true pc cause val s) (o := trap_kernel_handler status_addr e) :
  0 <= pc < 2 ^ 64 -> 0 <= cause < 2 ^ 64 -> 0 <= val < 2 ^ 64 -> console_ok s -> lk_free (timer_lk (clock s)) ->
  (timer_cause cause -> (forall p, cproc (hcpu s) = Some p -> state (proc_at (lget t_k s) p) <> RUNNING) ->
     exists s', o = Ret tt s' /\ resumes pc s s' /\ tick_counted s s') /\
  (timer_cause cause -> forall p, running p (lget t_k s) -> state (proc_at (lget t_k s) p) = RUNNING ->
     exists s1 cont, o = Swtch s1 cont /\ handover p (lget t_k s1) /\ state (proc_at (lget t_k s1) p) = RUNNABLE /\ tick_counted s s1 /\
       forall s2, handover p (lget t_k s2) -> exists s3, cont s2 = Ret tt s3 /\ resumes pc s s3) /\
  (cause = 2 ^ 63 + 9 -> serviceable e -> exists s', o = Ret tt s' /\ resumes pc s s' /\
     let irq := plic_rd (PLIC_SCLAIM (cpu_id (hcpu s))) (tplic s) in
     tplic s' = if irq =? 0 then claimed_plic s else completed_plic s irq) /\
  (known_interrupt cause = false -> exists msg, o = Panic msg).
Proof.
  intros Hpc Hca Hv Hcon Hl. pose proof Hcon as ([Hn Hn'] & Hpl & Hpp). assert (cpu_wf (hcpu e)) as Hc by (split; [exact Hn|done]).
  destruct (kernel_tick_run e Hl Hc) as [K1 K2]. pose proof (tick_counted_run e) as Kt. set (t := sip_cleared _) in *.
  assert (tick_counted s t) as Kt' by exact Kt. split_and!.
  - intros Hcause Hno. unfold o, e. rewrite kernel_handler_timer by done. fold e. rewrite (bind_run _ _ _ _ _ (K1 Hno)).
    destruct (restores_resume pc cause val s t) as (t' & E & Hr & Hy & _ & Hs). exists t'. split; [exact E|]. split; [exact Hr|]. split.
    + unfold clock. rewrite Hy. exact (proj1 Kt').
    + rewrite Hs. exact (proj2 Kt').
  - intros Hcause p Hr Hst. unfold o, e. rewrite kernel_handler_timer by done. fold e.
    assert (running p (lget t_k t)) as Hrt by (apply (tick_running p e t eq_refl); destruct Hr as (R1 & R2 & R3 & _ & R5); split_and!; [exact R1|exact R2|exact R3|exact Hc|exact R5]).
    destruct (proc_yield_run p (lget t_k t) Hrt) as (k1 & cont & Hy & Hh & [l Hl1] & _ & Hres).
    eexists _, _. split; [apply obind_Swtch; rewrite (K2 p (proj1 (proj2 Hr)) Hst); apply (zoom_Swtch t_k), Hy|].
    split; [done|]. split; [change (lget t_k (lset t_k k1 t)) with k1; by rewrite Hl1|]. split; [exact Kt'|].
    intros s2 Hh2. cbn beta. destruct (Hres _ Hh2) as (k3 & Hc3 & _). rewrite Hc3. cbn [ozoom obind].
    destruct (restores_resume pc cause val s (lset t_k k3 s2)) as (t' & E & Hr' & _). by exists t'.
  - intros Hcause Hs. unfold o, e in *. subst cause. rewrite kernel_handler_external.
    destruct (external_serviced _ (console_entry true pc (2 ^ 63 + 9) val s Hcon) Hs) as (s1 & E1 & Hq). rewrite (bind_run _ _ _ _ _ E1).
    destruct (restores_resume pc (2 ^ 63 + 9) val s s1) as (t' & E & Hr & _ & Hp & _). exists t'. split; [exact E|]. split; [exact Hr|].
    cbn zeta. rewrite Hp. exact Hq.
  - intros Hk. eexists. by apply kernel_trap_unexpected.
Qed.
End spec.

(** ** A machine *)

(** A controller with one pending source, and the sources completed so far. *)
Record pins : Type := mkPins { pin : Z; pins_done : list Z }.
#[export, refine] Instance pins_plic : Plic pins := {
  plic_rd _ p := if (0 <=? pin p) && (pin p <? 1024) then pin p else 0;
  plic_rd' _ p := mkPins 0 (pins_done p);
  plic_wr _ v p := mkPins (pin p) (pins_done p ++ [v]);
}.
Proof. intros _ p. bif; lia. Defined.

(** Process 1 of [family] in user mode on hart 0, with its trapframe and table. *)
Definition user_k : kstate :=
  upd_procs 1 (fun p => set_kstack (KSTACK 1) (set_pgtbl dm_root (set_tf dm_tf p)))
    (set_kpm (set_pm (st64 dm_mem (dm_tf + 168) 99) (kpm family)) family).
Definition mk_machine (k : kstate) (disk : vdisk) (irq : Z) : tstate ramdisk line pins :=
  mkT (mkSys (mkF (mkI (mkB k [mkBnode (mkBuf blank_sleep 7 [] 1) None None] (spinlock_init "") (mkRam ∅ 0 true))
                (mkSb 0 0 0 0 0 0 0 0 0) [] (spinlock_init "")) [] (spinlock_init "") [])
         (mkTimer 41 (spinlock_init "timer")))
    disk [true] (spinlock_init "print") false (mkLine [] [104; 105] 0) (mkPins irq [])
    (mkCsr 0 0 0 0 0 2 TRAPFRAME (MAKE_SATP 0x80200000)).
Definition quiet_disk : vdisk := mkDisk zero_ring (replicate 8 true) 0 (replicate 8 None) (spinlock_init "virtio_disk").
Definition user_machine : tstate ramdisk line pins := mk_machine user_k quiet_disk 10.
Definition idle_machine : tstate ramdisk line pins := mk_machine (on_cpu idle_cpu user_k) quiet_disk 0.

Lemma user_running : running 1 (lget t_k user_machine).
Proof. split_and!; [vm_compute; lia|reflexivity|reflexivity|unfold cpu_wf; cbn; lia|split; reflexivity]. Qed.
Lemma user_frame : frame_mapped (kmem user_machine) dm_root dm_tf.
Proof.
  apply (frame_mapped_kept dm_mem); [apply dm_frame|]. intros a (q & t & Hq & Ht & Hat). cbn. apply ld8_st_ne.
  destruct (dm_tables q t Hq Ht) as [Hb _]. unfold dm_root, dm_tf, PGSIZE in *. cbn. lia.
Qed.

Lemma kernel_timer_tick_witness : exists s',
  trap_kernel_handler demo_status (trap_entry true 0x80001000 (2 ^ 63 + 1) 0 idle_machine) = Ret tt s' /\
  ticks (clock s') = 42.
Proof.
  destruct (kernel_timer_tick demo_status 0x80001000 (2 ^ 63 + 1) 0 idle_machine) as (s' & E & Ht & _).
  1: left; reflexivity.
  1: split; reflexivity.
  1: cbn; lia.
  1: reflexivity.
  exists s'. split; [exact E|exact Ht].
Defined.
(** A tick without a process, a tick with process 1 RUNNING, and the interrupt of the console. *)
Lemma kernel_trap_resumes_witness :
  (exists s', trap_kernel_handler demo_status (trap_entry true 0x80001000 (2 ^ 63 + 1) 0 idle_machine) = Ret tt s' /\ fst (sret s') = (true, 0x80001000)) /\
  (exists s1 cont s3, trap_kernel_handler demo_status (trap_entry true 0x80001000 (2 ^ 63 + 5) 0 user_machine) = Swtch s1 cont /\
     ticks (clock s1) = 42 /\ cont s1 = Ret tt s3 /\ fst (sret s3) = (true, 0x80001000)) /\
  (exists s', trap_kernel_handler demo_status (trap_entry true 0x80001000 (2 ^ 63 + 9) 0 user_machine) = Ret tt s' /\ pins_done (tplic s') = [10]).
Proof.
  assert (forall s, s = idle_machine \/ s = user_machine -> console_ok s /\ lk_free (timer_lk (clock s))) as Hok.
  { intros s [->| ->]; (split; [split_and!; [unfold cpu_wf; cbn; lia|split; reflexivity|reflexivity]|split; reflexivity]). }
  split; [|split].
  - destruct (Hok idle_machine (or_introl eq_refl)) as [H1 H2].
    destruct (kernel_trap_resumes demo_status 0x80001000 (2 ^ 63 + 1) 0 idle_machine) as (H & _).
    1-3: vm_compute; split; congruence. 1: exact H1. 1: exact H2.
    destruct H as (s' & E & [Hs _] & _); [left; reflexivity|intros p Hp; discriminate|]. exists s'. split; [exact E|exact Hs].
  - destruct (Hok user_machine (or_intror eq_refl)) as [H1 H2].
    destruct (kernel_trap_resumes demo_status 0x80001000 (2 ^ 63 + 5) 0 user_machine) as (_ & H & _).
    1-3: vm_compute; split; congruence. 1: exact H1. 1: exact H2.
    destruct (H (or_intror eq_refl) 1%nat user_running eq_refl) as (s1 & cont & E & Hh & _ & [Ht _] & Hres).
    destruct (Hres s1 Hh) as (s3 & E3 & [Hs _]). exists s1, cont, s3. split; [exact E|]. split; [exact Ht|]. split; [exact E3|exact Hs].
  - destruct (Hok user_machine (or_intror eq_refl)) as [H1 H2].
    destruct (kernel_trap_resumes demo_status 0x80001000 (2 ^ 63 + 9) 0 user_machine) as (_ & _ & H & _).
    1-3: vm_compute; split; congruence. 1: exact H1. 1: exact H2.
    destruct (H eq_refl) as (s' & E & _ & Hp); [discriminate|]. exists s'. split; [exact E|]. rewrite Hp. reflexivity.
Defined.
Lemma user_return_reentry_witness : exists s',
  trap_user_return 0x80003000 0x80004000 0x80003000 0x80003090 user_machine =
    Ret (TRAMPOLINE + 0x90, TRAPFRAME, MAKE_SATP dm_root) s' /\ fst (sret s') = (false, 0).
Proof.
  destruct (user_return_reentry 0x80003000 0x80004000 0x80003000 0x80003090 1 dm_root user_machine) as (s' & E & Hs & _).
  1: reflexivity.
  1: reflexivity.
  1: vm_compute; congruence.
  1: exact user_frame.
  1-3: vm_compute; split; congruence.
  exists s'. split; [exact E|]. rewrite Hs. vm_compute. reflexivity.
Defined.
Notation demo_handler := (trap_user_handler 8 demo_buf [] 0 0x80003000 0x80004000 0x80005000 (fun _ => 0) 0 0 0 8 demo_status
  0x80006000 0x80003000 0x80003090).
(** Process 1 on hart 0 as the scheduler hands it the CPU. *)
Definition fresh_machine : tstate ramdisk line pins := mk_machine (locked_state 1 user_k) quiet_disk 0.
Lemma fork_return_first_run_witness : exists s',
  fork_return 0x80003000 0x80004000 0x80003000 0x80003090 fresh_machine = Ret (TRAMPOLINE + 0x90, TRAPFRAME, MAKE_SATP dm_root) s' /\
  lk_free (plk (proc_at (lget t_k s') 1)) /\ fst (sret s') = (false, 0).
Proof.
  destruct (fork_return_first_run 0x80003000 0x80004000 0x80003000 0x80003090 1 fresh_machine) as (s' & E & Hl & Hs & _).
  1: split_and!; [vm_compute; lia|reflexivity|reflexivity|reflexivity|eexists; reflexivity].
  1: vm_compute; congruence.
  exists s'. split; [exact E|]. split; [exact Hl|exact Hs].
Defined.
Lemma user_timer_preempts_witness : exists s1 cont s3,
  demo_handler (trap_entry false 0x1000 (2 ^ 63 + 1) 0 user_machine) = Swtch s1 cont /\
  state (proc_at (lget t_k s1) 1) = RUNNABLE /\
  cont s1 = Ret (TRAMPOLINE + 0x90, TRAPFRAME, MAKE_SATP (pgtbl (proc_at (lget t_k s1) 1))) s3 /\ fst (sret s3) = (false, 0x1000).
Proof.
  destruct (user_timer_preempts 8 demo_buf [] 0 0x80003000 0x80004000 0x80005000 (fun _ => 0) 0 0 0 8 demo_status
    0x80006000 0x80003000 0x80003090 1 0x1000 (2 ^ 63 + 1) 0 user_machine) as (s1 & cont & E & Hh & Hst & Ht & Hm & _ & Hres).
  1: left; reflexivity.
  1: exact user_running.
  1: vm_compute; congruence.
  1: split; reflexivity.
  1: vm_compute; split; congruence.
  destruct (Hres s1 Hh Ht) as (s3 & E3 & Hs & _); [rewrite Hm; vm_compute; reflexivity|].
  exists s1, cont, s3. split; [exact E|]. split; [exact Hst|]. split; [exact E3|exact Hs].
Defined.
Lemma unexpected_trap_panics_witness :
  demo_handler (trap_entry false 0x1000 13 0x0 user_machine) = Panic "trap_user_handler: unexpected exception".
Proof.
  destruct (unexpected_trap_panics 8 demo_buf [] 0 0x80003000 0x80004000 0x80005000 (fun _ => 0) 0 0 0 8 demo_status
    0x80006000 0x80003000 0x80003090 0x1000 13 0 user_machine) as [_ H].
  1-3: vm_compute; split; congruence.
  1: reflexivity.
  1: cbn; lia.
  1: split; reflexivity.
  1: reflexivity.
  apply (H 1%nat); [reflexivity|vm_compute; congruence|intros _; vm_compute; congruence].
Defined.
Lemma external_interrupt_dispatch_witness : exists s', external_interrupt_handler demo_status user_machine = Ret tt s' /\
  l_out (tuart s') = [104; 105] /\ pins_done (tplic s') = [10].
Proof.
  destruct (external_interrupt_dispatch demo_status user_machine) as (_ & H & _).
  1: split_and!; [unfold cpu_wf; cbn; lia|split; reflexivity|reflexivity].
  destruct (H eq_refl) as (s' & E & Hp & Hs & _). exists s'. split; [exact E|]. split; [exact Hs|]. rewrite Hp. reflexivity.
Defined.
