(* ===== verification/Boot.v ===== *)
(** * boot/: from power-on to the first file-system call

    start() and timer_init() in machine mode, on the machine registers and memory
    of one hart (the CLINT's registers are memory here, as they are for
    timer_vector), and main() in supervisor mode on the kernel state. *)

From S2P Require Import Prelude Machine Str Lock Pmem Kvm Mmap Uvm Proc Buf Bitmap Inode Dir File Fs Syscall Print Virtio Trap.

(** ** Machine mode *)

Definition INTERVAL : Z := 1000000.
Definition CLINT_MTIMECMP (hartid : Z) : Z := CLINT_BASE + 0x4000 + 8 * hartid.
Definition CLINT_MTIME : Z := CLINT_BASE + 0xBFF8.
Definition MSTATUS_MPP_MASK : Z := Z.shiftl 3 11.
Definition MSTATUS_MPP_S : Z := Z.shiftl 1 11.
Definition MSTATUS_MIE : Z := Z.shiftl 1 3.
Definition MIE_MTIE : Z := Z.shiftl 1 7.
Definition SIE_SEIE : Z := Z.shiftl 1 9.
Definition SIE_STIE : Z := Z.shiftl 1 5.
Definition SIE_SSIE : Z := Z.shiftl 1 1.

Inductive mreg : Type :=
| Mstatus | Mepc | Mtvec | Mscratch | Mie | Medeleg | Mideleg | Satp | Sie | Pmpaddr0 | Pmpcfg0 | Tp | Mhartid.

(** The registers of a hart, by name. *)
Record mregs : Type := mkRegs {
  mstatus : Z; mepc : Z; mtvec : Z; mscratch : Z; mie : Z; medeleg : Z; mideleg : Z; m_satp : Z; m_sie : Z; pmpaddr0 : Z; pmpcfg0 : Z; m_tp : Z; mhartid : Z }.
Definition get_m (r : mreg) (c : mregs) : Z :=
  match r with
  | Mstatus => mstatus c
  | Mepc => mepc c
  | Mtvec => mtvec c
  | Mscratch => mscratch c
  | Mie => mie c
  | Medeleg => medeleg c
  | Mideleg => mideleg c
  | Satp => m_satp c
  | Sie => m_sie c
  | Pmpaddr0 => pmpaddr0 c
  | Pmpcfg0 => pmpcfg0 c
  | Tp => m_tp c
  | Mhartid => mhartid c
  end.
Definition set_m (r : mreg) (v : Z) (c : mregs) : mregs :=
  let pick r' := match r, r' with
    | Mstatus, Mstatus
    | Mepc, Mepc
    | Mtvec, Mtvec
    | Mscratch, Mscratch
    | Mie, Mie
    | Medeleg, Medeleg
    | Mideleg, Mideleg
    | Satp, Satp
    | Sie, Sie
    | Pmpaddr0, Pmpaddr0
    | Pmpcfg0, Pmpcfg0
    | Tp, Tp
    | Mhartid, Mhartid => v
    | _, r' => get_m r' c
    end in
  mkRegs (pick Mstatus) (pick Mepc) (pick Mtvec) (pick Mscratch) (pick Mie) (pick Medeleg) (pick Mideleg) (pick Satp) (pick Sie) (pick Pmpaddr0) (pick Pmpcfg0) (pick Tp) (pick Mhartid).

Record mhart : Type := mkM { mr' : mregs; mm : memory }.
Definition mr (h : mhart) (r : mreg) : Z := get_m r (mr' h).
Definition r_m (r : mreg) : M mhart Z := gets (fun h => mr h r).
Definition w_m (r : mreg) (v : Z) : M mhart unit :=
  modify (fun h => mkM (set_m r v (mr' h)) (mm h)).
Definition m_load (a : Z) : M mhart Z := gets (fun h => ld64 (mm h) a).
Definition m_store (a v : Z) : M mhart unit := modify (fun h => mkM (mr' h) (st64 (mm h) a v)).

Section machine.
(** &mscratch[0][0], and the addresses of timer_vector and main. *)
Context (mscratch_addr timer_vector_addr main_addr : Z).

Definition scratch_of (id : Z) : Z := mscratch_addr + 40 * id.

Definition timer_init : M mhart unit :=
  let* id := r_m Mhartid in
  let id := i32 id in
  let* mtime := m_load CLINT_MTIME in
  m_store (CLINT_MTIMECMP id) (u64 (mtime + INTERVAL));;;
  let scratch := scratch_of id in
  m_store (scratch + 8 * 3) (CLINT_MTIMECMP id);;;
  m_store (scratch + 8 * 4) INTERVAL;;;
  w_m Mscratch scratch;;;
  w_m Mtvec timer_vector_addr;;;
  let* mstatus := r_m Mstatus in
  w_m Mstatus (Z.lor mstatus MSTATUS_MIE);;;
  let* mie := r_m Mie in
  w_m Mie (Z.lor mie MIE_MTIE).

Definition start : M mhart unit :=
  let* x := r_m Mstatus in
  let x := Z.land x (Z.lnot MSTATUS_MPP_MASK) in
  let x := Z.lor x MSTATUS_MPP_S in
  w_m Mstatus x;;;
  w_m Mepc main_addr;;;
  w_m Satp 0;;;
  w_m Medeleg 0xffff;;;
  w_m Mideleg 0xffff;;;
  let* sie := r_m Sie in
  w_m Sie (Z.lor (Z.lor (Z.lor sie SIE_SEIE) SIE_STIE) SIE_SSIE);;;
  w_m Pmpaddr0 0x3fffffffffffff;;;
  w_m Pmpcfg0 0xf;;;
  let* id := r_m Mhartid in
  w_m Tp (u64 (i32 id));;;
  timer_init.

(** The closing mret: the mode (1 is supervisor) and the pc it goes on at. *)
Definition mret (h : mhart) : Z * Z := (Z.land (Z.shiftr (mr h Mstatus) 11) 3, mr h Mepc).
End machine.

(** ** main() *)

Section main.
Context {D U P : Type} {HD : BlockDev D} {HV : VirtioBlk D} {HU : Uart16550 U} {HP : Plic P}.
Context (sl_fuel : nat) (buf_addr : nat -> Z).
(** ALLOC_BEGIN, ALLOC_END, etext and trampoline of kernel.ld, kernel_vector, and
    disk.pages. *)
Context (alloc_begin alloc_end etext trampoline kernel_vector_addr pages_addr : Z).
Notation T := (tstate D U P).

Definition t_i : lens T (istate D) := Lens (fun s => fi (sf (tsys s))) (fun i s => lset t_sys (lset s_i i (tsys s)) s).

(** kvm_init() and kvm_inithart(); kernel_pagetable is passed on. *)
Definition kvm_init : M T Z := zoom t_k (zoom k_pmem (kvm_make etext trampoline)).
Definition kvm_inithart (kernel_pagetable : Z) : M T unit := wr_csr (set_c_satp (MAKE_SATP kernel_pagetable)).

(** The initialisation by CPU 0, up to intr_on(). *)
Definition main_init : M T unit :=
  zoom t_print print_init;;;
  zoom t_k (zoom k_pmem (pmem_init alloc_begin alloc_end));;;
  let* kernel_pagetable := kvm_init in
  trap_kernel_init;;;
  trap_kernel_inithart kernel_vector_addr;;;
  kvm_inithart kernel_pagetable;;;
  plic_init;;;
  plic_inithart;;;
  zoom t_print uart_init;;;
  zoom t_virtio (virtio_disk_init pages_addr);;;
  zoom t_k (zoom k_repo mmap_init);;;
  zoom t_k proc_init;;;
  zoom t_cpu intr_on.

Definition main : M T Z :=
  let* cpuid := zoom t_k mycpuid in
  if cpuid =? 0 then
    main_init;;;
    kprintf "" [];;;
    kprintf "  xv6-riscv Lab7 - File System Test" [];;;
    kprintf "=====================================" [];;;
    kprintf "[main] calling virtio_disk_init..." [];;;
    zoom t_virtio (virtio_disk_init pages_addr);;;
    kprintf "[main] virtio_disk_init done" [];;;
    kprintf "[main] calling fs_init..." [];;;
    zoom t_i (fs_init sl_fuel buf_addr);;;
    panic "fs_init returned"
  else ret 0.
End main.
