(* ===== verification/BootSpec.v ===== *)
(** * Properties of the boot

    start() leaves each hart ready to enter main() in supervisor mode with its own
    timer armed; main() brings every component into the state the theorems about
    it start from. *)

From S2P Require Import Prelude Machine Str Lock Pmem Kvm KvmSpec Mmap Uvm UvmSpec Proc ProcSpec Buf BufSpec Bitmap Inode Dir File Fs Syscall Print PrintSpec Virtio VirtioSpec Asm AsmSpec Trap TrapSpec Boot.

(** ** Machine mode *)

Section machine.
Context (mscratch_addr timer_vector_addr main_addr : Z).

(** The registers and memory start() leaves. *)
Lemma start_run h (id := i32 (mr h Mhartid)) (sc := scratch_of mscratch_addr id) (c := mr' h) :
  start mscratch_addr timer_vector_addr main_addr h =
  Ret tt (mkM (mkRegs (Z.lor (Z.lor (Z.land (mstatus c) (Z.lnot MSTATUS_MPP_MASK)) MSTATUS_MPP_S) MSTATUS_MIE) main_addr
      timer_vector_addr sc (Z.lor (mie c) MIE_MTIE) 0xffff 0xffff 0
      (Z.lor (Z.lor (Z.lor (m_sie c) SIE_SEIE) SIE_STIE) SIE_SSIE) 0x3fffffffffffff 0xf (u64 id) (mhartid c))
    (st64 (st64 (st64 (mm h) (CLINT_MTIMECMP id) (u64 (ld64 (mm h) CLINT_MTIME + INTERVAL))) (sc + 24) (CLINT_MTIMECMP id)) (sc + 32) INTERVAL)).
Proof. destruct h as [[] m]. reflexivity. Qed.

(** After start(), mret enters main() in supervisor mode; paging is off, all
    traps that can be are delegated, tp holds the hart number; and the timer is
    armed one interval ahead.  The first timer interrupt, through timer_vector,
    changes no register, sets the compare register of this hart to two intervals
    after the boot time and raises the supervisor software interrupt; it touches
    nothing but that register and the scratch area of this hart, so that the harts
    do not disturb each other. *)
Theorem start_arms_timer h (id := mr h Mhartid) (mtime := ld64 (mm h) CLINT_MTIME) :
  0 <= id < NCPU -> KERNEL_BASE <= mscratch_addr -> mscratch_addr + 40 * NCPU <= PHYSTOP ->
  exists h', start mscratch_addr timer_vector_addr main_addr h = Ret tt h' /\
    mret h' = (1, main_addr) /\ mr h' Satp = 0 /\ mr h' Tp = id /\ mr h' Medeleg = 0xffff /\ mr h' Mideleg = 0xffff /\
    mr h' Mtvec = timer_vector_addr /\ ld64 (mm h') (CLINT_MTIMECMP id) = u64 (mtime + INTERVAL) /\
    forall g, hm g = mm h' -> cs g MSCRATCH = mr h' Mscratch -> regs_wf g ->
      exists g', exec Bare timer_vector g = Some g' /\ (forall r, rg g' r = rg g r) /\ cs g' SIP = 2 /\
        ld64 (hm g') (CLINT_MTIMECMP id) = u64 (mtime + 2 * INTERVAL) /\
        forall a, ~ scratch_of mscratch_addr id <= a < scratch_of mscratch_addr id + 24 ->
          ~ CLINT_MTIMECMP id <= a < CLINT_MTIMECMP id + 8 -> ld8 (hm g') a = ld8 (mm h') a.
Proof.
  intros Hid Hs Hs'. unfold NCPU in *. change PHYSTOP with 0x88000000 in *. change KERNEL_BASE with 0x80000000 in *.
  assert (i32 id = id /\ u64 id = id) as [Hi Hu].
  { rewrite u64_small by lia. unfold i32. rewrite u32_small by lia. bcase (id <? 2 ^ 31); [done|lia]. }
  set (cmp := CLINT_MTIMECMP id). assert (0x2004000 <= cmp < 0x2004010) as Hcmp by (unfold cmp, CLINT_MTIMECMP; change CLINT_BASE with 0x2000000; lia).
  set (sc := scratch_of mscratch_addr id). assert (0x80000000 <= sc <= 0x88000000 - 40) as Hsc by (unfold sc, scratch_of; lia).
  set (t := u64 (mtime + INTERVAL)). assert (0 <= t < 2 ^ 64) as Ht by (apply Z.mod_pos_bound; lia).
  set (m := st64 (st64 (st64 (mm h) cmp t) (sc + 24) cmp) (sc + 32) INTERVAL).
  pose proof (start_run h) as E. cbv zeta in E. fold id in E. rewrite Hi, Hu in E. fold cmp sc mtime t m in E.
  eexists. split; [exact E|]. clear E. split.
  { unfold mret. cbn [mr get_m mr' mstatus mepc]. f_equal. apply Z.bits_inj'. intros n Hn. rewrite Z.land_spec, Z.shiftr_spec by done.
    rewrite !Z.lor_spec, Z.land_spec, Z.lnot_spec by lia. unfold MSTATUS_MPP_MASK, MSTATUS_MPP_S, MSTATUS_MIE.
    rewrite !Z.shiftl_spec by lia. replace (n + 11 - 11) with n by lia. replace (n + 11 - 3) with (n + 8) by lia.
    assert (Z.testbit 1 (n + 8) = false) as -> by (apply Z.bits_above_log2; cbn; lia).
    destruct (decide (n = 0)) as [->|]; [by rewrite andb_false_r|]. destruct (decide (n = 1)) as [->|]; [by rewrite andb_false_r|].
    assert (Z.testbit 3 n = false /\ Z.testbit 1 n = false) as [-> ->] by (split; apply Z.bits_above_log2; cbn; lia). by rewrite andb_false_r. }
  split_and!; try done.
  { cbn [mm]. unfold m. rewrite !ld64_st64_ne by lia. by apply ld64_st64_eq. }
  intros g Hg Hgs Hr.
  assert (ld64 m (sc + 24) = cmp) as F3 by (unfold m; rewrite ld64_st64_ne by lia; apply ld64_st64_eq; lia).
  assert (ld64 m (sc + 32) = INTERVAL) as F4 by (unfold m; by apply ld64_st64_eq).
  assert (ld64 m cmp = t) as Fc by (unfold m; rewrite !ld64_st64_ne by lia; by apply ld64_st64_eq).
  destruct (timer_vector_run g) as (g' & E' & Hrg & _ & Hsip & _ & Hadv & Hfr); rewrite ?Hgs, ?Hg in *; cbn [mr get_m mr' mscratch mm] in *; rewrite ?F3 in *; [done|lia..|].
  exists g'. split_and!; [done|done|done| |done]. rewrite Hadv, Fc, F4. unfold t, u64. rewrite Zplus_mod_idemp_l. f_equal. lia.
Qed.
End machine.

(** ** Supervisor mode *)

(** proc_init(): every slot gets its lock, its kernel stack and the state UNUSED. *)
Definition fresh_slot (i : nat) (p : proc) : proc :=
  set_state UNUSED (set_kstack (KSTACK (Z.of_nat i)) (set_plk (spinlock_init "proc") p)).
Definition fresh_upto (n : nat) (l : list proc) : list proc := imap (fun i p => if (i <? n)%nat then fresh_slot i p else p) l.
Lemma fresh_step n l : alter (set_state UNUSED) n (alter (set_kstack (KSTACK (Z.of_nat n))) n
  (alter (set_plk (spinlock_init "proc")) n (fresh_upto n l))) = fresh_upto (S n) l.
Proof.
  unfold fresh_upto. apply list_eq. intros i. destruct (decide (i = n)) as [->|Hne].
  - rewrite !list_lookup_alter_eq, !list_lookup_imap. destruct (l !! n) as [p|]; [|done]. cbn [fmap option_fmap option_map].
    destruct (Nat.ltb_spec n n); [lia|]. destruct (Nat.ltb_spec n (S n)); [done|lia].
  - rewrite !list_lookup_alter_ne, !list_lookup_imap by done. destruct (l !! i) as [p|]; [|done]. cbn [fmap option_fmap option_map].
    destruct (Nat.ltb_spec i n), (Nat.ltb_spec i (S n)); (done || lia).
Qed.
Definition procs_ready (k : kstate) : kstate :=
  mkK (kpm k) (krepo k) (fresh_upto (Z.to_nat NPROC) (procs k)) (proczero k) (global_pid k) (spinlock_init "pid").
Lemma proc_init_run k : proc_init k = Ret tt (procs_ready k).
Proof.
  unfold proc_init. mstep.
  edestruct (for_inv (fun n s => s = mkK (kpm k) (krepo k) (fresh_upto n (procs k)) (proczero k) (global_pid k) (spinlock_init "pid"))
    (Z.to_nat NPROC) 0 1) as (s' & E & ->); [| |exact E].
  - f_equal. unfold fresh_upto. symmetry. apply list_eq. intros i. rewrite list_lookup_imap. by destruct (procs k !! i).
  - intros n s Hn ->. eexists. split; [unfold wr_proc; mstep; reflexivity|]. unfold upd_procs, set_procs. cbn [procs kpm krepo proczero global_pid lk_pid].
    replace (Z.to_nat (0 + Z.of_nat n * 1)) with n by lia. replace (0 + Z.of_nat n * 1) with (Z.of_nat n) by lia. by rewrite fresh_step.
Qed.

Section main.
Context {D U P : Type} {HD : BlockDev D} {HV : VirtioBlk D} {HU : Uart16550 U} {HP : Plic P}.
Context (alloc_begin alloc_end etext trampoline kernel_vector_addr pages_addr : Z).
Notation T := (tstate D U P).

(** The read-only registers of a block device of the legacy interface. *)
Definition device_present : Prop := forall d : D,
  mmio_rd VIRTIO_MMIO_MAGIC_VALUE d = 0x74726976 /\ mmio_rd VIRTIO_MMIO_VERSION d = 1 /\ mmio_rd VIRTIO_MMIO_DEVICE_ID d = 2 /\
  mmio_rd VIRTIO_MMIO_VENDOR_ID d = 0x554d4551 /\ NUM <= mmio_rd VIRTIO_MMIO_QUEUE_NUM_MAX d.

(** One step of a run on explicit states. *)
Ltac vstep := cbv beta iota delta [upd_vd vk vd vdev vbufs ring dfree used_idx info_b vdisk_lock set_ring].

Lemma free_all_run (s : vstate D) : length (dfree (vd s)) = Z.to_nat NUM ->
  for_ (Z.to_nat NUM) 0 1 (fun i => modify (upd_vd (fun d => set_dfree (<[Z.to_nat i := true]> (dfree d)) d))) s =
  Ret tt (upd_vd (set_dfree (replicate (Z.to_nat NUM) true)) s).
Proof.
  intros Hl. destruct s as [k [r fr u inf lk] d bs]. cbn in Hl. do 8 (destruct fr as [|? fr]; [done|]). destruct fr; [|done]. reflexivity.
Qed.
Lemma virtio_init_run (s : vstate D) : device_present -> length (dfree (vd s)) = Z.to_nat NUM ->
  exists d, virtio_disk_init pages_addr s =
    Ret tt (mkV (vk s) (mkDisk zero_ring (replicate (Z.to_nat NUM) true) (used_idx (vd s)) (info_b (vd s)) (spinlock_init "virtio_disk")) d (vbufs s)).
Proof.
  intros Hdev Hl. destruct s as [k [r fr u inf lk] d bs]. cbn [vd vk vbufs dfree used_idx info_b] in *.
  unfold virtio_disk_init, R_rd, R_wr. destruct (Hdev d) as (H1 & H2 & H3 & H4 & _).
  set (loop := for_ _ _ _ _). assert (forall s, length (dfree (vd s)) = Z.to_nat NUM ->
    loop s = Ret tt (upd_vd (set_dfree (replicate (Z.to_nat NUM) true)) s)) as Hloop by apply free_all_run. clearbody loop.
  rewrite bind_modify. vstep. do 4 (rewrite bind_gets; vstep). rewrite H1, H2, H3, H4. cbn [negb orb Z.eqb Pos.eqb].
  do 2 (rewrite bind_modify; vstep). rewrite bind_gets. vstep. do 5 (rewrite bind_modify; vstep). rewrite bind_gets. vstep.
  match goal with |- context [mmio_rd VIRTIO_MMIO_QUEUE_NUM_MAX ?x] => destruct (Hdev x) as (_ & _ & _ & _ & Hq); set (d1 := x) in * end.
  bcase (mmio_rd VIRTIO_MMIO_QUEUE_NUM_MAX d1 =? 0); [unfold NUM in *; lia|].
  bcase (mmio_rd VIRTIO_MMIO_QUEUE_NUM_MAX d1 <? NUM); [unfold NUM in *; lia|].
  do 3 (rewrite bind_modify; vstep). rewrite Hloop by done. eexists. reflexivity.
Qed.

Definition cpu_ids_kept (c c' : cpu) : Prop := synced c' = synced c.

(** The memory half of the initialisation: allocator, then kernel page table. *)
Lemma memory_init_run (m : pmem) : cpu_wf (pcpu m) ->
  0 < alloc_begin -> alloc_begin mod PGSIZE = 0 -> alloc_end mod PGSIZE = 0 -> alloc_begin <= alloc_end -> alloc_end <= 2 ^ 43 ->
  etext mod PGSIZE = 0 -> KERNEL_BASE < etext < PHYSTOP -> 0 <= trampoline < 2 ^ 43 ->
  300 <= Z.of_nat (length (init_lists alloc_begin alloc_end false)) ->
  exists m1 m2 root k0 k1 fl, pmem_init alloc_begin alloc_end m = Ret tt m1 /\ kvm_make etext trampoline m1 = Ret root m2 /\
    pmem_ok m2 fl /\ pt_ok (pm m2) root (user_region m2) (fl false) /\ holds m2 root (kvm_table etext trampoline k0 k1) /\
    cpu_ids_kept (pcpu m) (pcpu m2).
Proof.
  intros Hc HB HBm HEm HBE HE Het Hetb Htr Hlen.
  destruct (pmem_init_ok alloc_begin alloc_end m HB HBm HEm HBE HE Hc) as (m1 & E1 & Hok & Hcpu & _).
  destruct (kvm_make_ok etext trampoline m1 _ Hok Het Hetb Htr Hlen) as (root & k0 & k1 & m2 & fl & E2 & Hok2 & Hpt & Hh & _ & _ & Hc2).
  exists m1, m2, root, k0, k1, fl. split_and!; try done. unfold cpu_ids_kept. by rewrite Hc2, Hcpu.
Qed.

(** The state main_init leaves, from its parts. *)
Definition initialised (s : T) (m : pmem) (root : Z) (r : mrepo) (u : U) (q : P) (d : D) : T :=
  let y := tsys s in let f := sf y in let i := fi f in let b := ib i in
  let k := procs_ready (mkK (set_pcpu (set_sie true (pcpu m)) m) r (procs (bk b)) (proczero (bk b)) (global_pid (bk b)) (lk_pid (bk b))) in
  mkT (mkSys (mkF (mkI (mkB k (buf_cache b) (lk_buf_cache b) d) (isb i) (icache i) (lk_icache i)) (ftable f) (lk_ftable f) (devlist f))
        (mkTimer 0 (spinlock_init "timer")))
    (mkDisk zero_ring (replicate (Z.to_nat NUM) true) (used_idx (tdisk s)) (info_b (tdisk s)) (spinlock_init "virtio_disk"))
    (tflags s) (spinlock_init "print") (tpanicked s) u q
    (let c := tcsr s in mkCsr (c_sstatus c) (c_sepc c) (c_scause c) (c_stval c) kernel_vector_addr (c_sip c) (c_sscratch c) (MAKE_SATP root)).

Lemma zip_flags (bc : list buf_node) fl : length bc = length fl ->
  map vb_disk (zip_with (fun n f => mkVbuf (block_num (bbuf n)) f) bc fl) = fl.
Proof. revert fl. induction bc as [|n bc IH]; intros [|b fl] H; cbn in *; try done. f_equal. apply IH. lia. Qed.
Lemma t_pmem_run {A} (f : M pmem A) (s : T) a m : f (kpm (lget t_k s)) = Ret a m ->
  zoom t_k (zoom k_pmem f) s = Ret a (lset t_k (set_kpm m (lget t_k s)) s).
Proof. intros H. exact (zoom_run t_k (zoom k_pmem f) s a _ (zoom_run k_pmem f (lget t_k s) a m H)). Qed.
Lemma main_init_run (s : T) m1 m2 root r : device_present -> length (dfree (tdisk s)) = Z.to_nat NUM ->
  length (buf_cache (t_b s)) = length (tflags s) ->
  pmem_init alloc_begin alloc_end (kpm (lget t_k s)) = Ret tt m1 -> kvm_make etext trampoline m1 = Ret root m2 ->
  mmap_init (pcpu m2, krepo (lget t_k s)) = Ret tt (pcpu m2, r) ->
  exists u q d, main_init alloc_begin alloc_end etext trampoline kernel_vector_addr pages_addr s = Ret tt (initialised s m2 root r u q d).
Proof.
  intros Hdev Hdf Hbl E1 E2 E3.
  destruct s as [[[[[[[c m kr ur] rp ps z g l] bc lkb dk] sb ic lki] ft lkf dl] tm] [r0 df ui ib0 lk0] fl plk pan ua pl cs].
  destruct m2 as [c2 mem2 kr2 ur2]. cbn in Hdf, Hbl, E3.
  set (mk := fun pm rp ps l dk tm vd plk ua pl cs =>
    mkT (mkSys (mkF (mkI (mkB (mkK pm rp ps z g l) bc lkb dk) sb ic lki) ft lkf dl) tm) vd fl plk pan ua pl cs : T).
  set (vd0 := mkDisk r0 df ui ib0 lk0). set (m2 := mkPmem c2 mem2 kr2 ur2) in *. set (m0 := mkPmem c m kr ur) in *.
  set (pl' := spinlock_init "print"). set (tm' := mkTimer 0 (spinlock_init "timer")).
  set (cs' := mkCsr (c_sstatus cs) (c_sepc cs) (c_scause cs) (c_stval cs) kernel_vector_addr (c_sip cs) (c_sscratch cs) (MAKE_SATP root)).
  assert (zoom t_print print_init (mk m0 rp ps l dk tm vd0 plk ua pl cs) = Ret tt (mk m0 rp ps l dk tm vd0 pl' ua pl cs)) as H1 by reflexivity.
  assert (zoom t_k (zoom k_pmem (pmem_init alloc_begin alloc_end)) (mk m0 rp ps l dk tm vd0 pl' ua pl cs) =
    Ret tt (mk m1 rp ps l dk tm vd0 pl' ua pl cs)) as H2
    by exact (t_pmem_run (pmem_init alloc_begin alloc_end) (mk m0 rp ps l dk tm vd0 pl' ua pl cs) tt m1 E1).
  assert (kvm_init etext trampoline (mk m1 rp ps l dk tm vd0 pl' ua pl cs) = Ret root (mk m2 rp ps l dk tm vd0 pl' ua pl cs)) as H3
    by exact (t_pmem_run (kvm_make etext trampoline) (mk m1 rp ps l dk tm vd0 pl' ua pl cs) root m2 E2).
  assert (exists q, forall X (k : M T X),
    (trap_kernel_init;;; trap_kernel_inithart kernel_vector_addr;;; kvm_inithart root;;; plic_init;;; plic_inithart;;; k)
    (mk m2 rp ps l dk tm vd0 pl' ua pl cs) = k (mk m2 rp ps l dk tm' vd0 pl' ua q cs')) as [q H4] by (eexists; intros; reflexivity).
  assert (exists u, zoom t_print uart_init (mk m2 rp ps l dk tm' vd0 pl' ua q cs') = Ret tt (mk m2 rp ps l dk tm' vd0 pl' u q cs')) as [u H5]
    by (eexists; reflexivity).
  destruct (virtio_init_run (lget t_virtio (mk m2 rp ps l dk tm' vd0 pl' u q cs')) Hdev Hdf) as [d Ev].
  set (vd1 := mkDisk zero_ring (replicate (Z.to_nat NUM) true) ui ib0 (spinlock_init "virtio_disk")).
  assert (zoom t_virtio (virtio_disk_init pages_addr) (mk m2 rp ps l dk tm' vd0 pl' u q cs') =
    Ret tt (mk m2 rp ps l d tm' vd1 pl' u q cs')) as H6.
  { erewrite zoom_run by exact Ev. unfold mk. cbn. by rewrite zip_flags. }
  assert (zoom t_k (zoom k_repo mmap_init) (mk m2 rp ps l d tm' vd1 pl' u q cs') = Ret tt (mk m2 r ps l d tm' vd1 pl' u q cs')) as H7
    by exact (zoom_run t_k (zoom k_repo mmap_init) (mk m2 rp ps l d tm' vd1 pl' u q cs') tt _
      (zoom_run k_repo mmap_init (lget t_k (mk m2 rp ps l d tm' vd1 pl' u q cs')) tt _ E3)).
  exists u, q, d. unfold main_init. rewrite (bind_run _ _ _ _ _ H1), (bind_run _ _ _ _ _ H2), (bind_run _ _ _ _ _ H3), H4.
  rewrite (bind_run _ _ _ _ _ H5), (bind_run _ _ _ _ _ H6), (bind_run _ _ _ _ _ H7).
  erewrite bind_run; [|apply zoom_run, proc_init_run]. reflexivity.
Qed.

Lemma procs_ready_at k i : (i < length (procs k))%nat -> length (procs k) = Z.to_nat NPROC ->
  proc_at (procs_ready k) i = fresh_slot i (proc_at k i).
Proof.
  intros Hi Hl. unfold proc_at, procs_ready, fresh_upto. cbn [procs]. rewrite list_lookup_imap.
  destruct (lookup_lt_is_Some_2 _ _ Hi) as [p ->]. cbn [fmap option_fmap option_map default from_option id].
  destruct (Nat.ltb_spec i (Z.to_nat NPROC)); [done|lia].
Qed.

(** C18 The initialisation by CPU 0 returns and brings every component into the
    state its theorems start from: every page of memory on a free list or in the
    kernel page table, which is the documented one and is in satp; traps go to
    kernel_vector; the clock stands at 0; the disk queue is empty with all
    descriptors free; the mmap nodes are all in the pool; all process slots are
    UNUSED with a free lock and their kernel stack address; and interrupts are
    enabled at depth 0. *)
Theorem main_initialises (s : T) : device_present -> length (dfree (tdisk s)) = Z.to_nat NUM ->
  length (buf_cache (t_b s)) = length (tflags s) -> noff (hcpu s) = 0 ->
  length (list_mmap_region_node (krepo (lget t_k s))) = Z.to_nat N_MMAP -> length (procs (lget t_k s)) = Z.to_nat NPROC ->
  0 < alloc_begin -> alloc_begin mod PGSIZE = 0 -> alloc_end mod PGSIZE = 0 -> alloc_begin <= alloc_end -> alloc_end <= 2 ^ 43 ->
  etext mod PGSIZE = 0 -> KERNEL_BASE < etext < PHYSTOP -> 0 <= trampoline < 2 ^ 43 ->
  300 <= Z.of_nat (length (init_lists alloc_begin alloc_end false)) ->
  exists s' root k0 k1 fl, main_init alloc_begin alloc_end etext trampoline kernel_vector_addr pages_addr s = Ret tt s' /\
    (let k := lget t_k s' in
     pmem_ok (kpm k) fl /\ pt_ok (pm (kpm k)) root (user_region (kpm k)) (fl false) /\
     holds (kpm k) root (kvm_table etext trampoline k0 k1) /\ repo_ok (krepo k) (reverse (seq 1 255)) /\
     length (procs k) = Z.to_nat NPROC /\
     forall i, (i < Z.to_nat NPROC)%nat -> state (proc_at k i) = UNUSED /\ lk_free (plk (proc_at k i)) /\
       kstack (proc_at k i) = KSTACK (Z.of_nat i)) /\
    c_satp (tcsr s') = MAKE_SATP root /\ c_stvec (tcsr s') = kernel_vector_addr /\
    clock s' = mkTimer 0 (spinlock_init "timer") /\ lk_free (tprint s') /\
    ring (tdisk s') = zero_ring /\ dfree (tdisk s') = replicate (Z.to_nat NUM) true /\ lk_free (vdisk_lock (tdisk s')) /\
    open_cpu (hcpu s').
Proof.
  intros Hdev Hdf Hbl Hn Hml Hpl HB HBm HEm HBE HE Het Hetb Htr Hlen.
  assert (cpu_wf (pcpu (kpm (lget t_k s)))) as Hc by (change (pcpu _) with (hcpu s); split; lia).
  destruct (memory_init_run _ Hc HB HBm HEm HBE HE Het Hetb Htr Hlen) as (m1 & m2 & root & k0 & k1 & fl & E1 & E2 & Hok & Hpt & Hh & Hcpu).
  destruct (mmap_init_ok (pcpu m2) _ Hml) as (r & E3 & Hr).
  destruct (main_init_run s m1 m2 root r Hdev Hdf Hbl E1 E2 E3) as (u & q & d & E).
  exists (initialised s m2 root r u q d), root, k0, k1, fl. split; [exact E|].
  assert (noff (pcpu m2) = 0) as Hn2.
  { rewrite <- synced_noff, Hcpu, synced_noff. exact Hn. }
  change (lget t_k (initialised s m2 root r u q d)) with
    (procs_ready (mkK (set_pcpu (set_sie true (pcpu m2)) m2) r (procs (lget t_k s)) (proczero (lget t_k s)) (global_pid (lget t_k s)) (lk_pid (lget t_k s)))).
  set (k := mkK _ _ _ _ _ _). split; [|by repeat split].
  split_and!; [|exact Hpt|exact Hh|exact Hr| |].
  - destruct Hok as [H1 H2 H3]. constructor; [exact H1|exact H2|]. split; cbn; rewrite Hn2; lia.
  - unfold procs_ready, fresh_upto. cbn [procs]. by rewrite length_imap.
  - intros i Hi. rewrite procs_ready_at by (change (procs k) with (procs (lget t_k s)); lia). by repeat split.
Qed.
End main.

(** ** Witnesses *)

Lemma start_arms_timer_witness : exists h',
  start 0x80010000 0x80000100 0x80000200 (mkM (mkRegs 0 0 0 0 0 0 0 0 0 0 0 0 1) (st64 ∅ CLINT_MTIME 5)) = Ret tt h' /\
  mret h' = (1, 0x80000200) /\ ld64 (mm h') (CLINT_MTIMECMP 1) = 1000005.
Proof.
  destruct (start_arms_timer 0x80010000 0x80000100 0x80000200 (mkM (mkRegs 0 0 0 0 0 0 0 0 0 0 0 0 1) (st64 ∅ CLINT_MTIME 5)))
    as (h' & E & Hm & _ & _ & _ & _ & _ & Ht & _).
  1-3: vm_compute; try split; congruence.
  exists h'. split; [exact E|]. split; [exact Hm|]. etransitivity; [exact Ht|]. vm_compute. reflexivity.
Defined.

Lemma ram_present : @device_present ramdisk _ _.
Proof. intros d. vm_compute. repeat split. congruence. Qed.
Definition powered_on : tstate ramdisk line pins :=
  mk_machine (mkK blank_pmem demo_repo (replicate 64 dummy_proc) None 1 (spinlock_init "")) quiet_disk 0.
Lemma main_initialises_witness : exists s' root,
  main_init demo_begin 0x805a0000 0x80008000 0x80007000 0x80006000 0x80030000 powered_on = Ret tt s' /\
  c_satp (tcsr s') = MAKE_SATP root /\ sie (hcpu s') = true.
Proof.
  destruct (main_initialises demo_begin 0x805a0000 0x80008000 0x80007000 0x80006000 0x80030000 powered_on ram_present)
    as (s' & root & k0 & k1 & fl & E & _ & Hs & _ & _ & _ & _ & _ & _ & _ & Hsie).
  1-5: reflexivity.
  1: unfold demo_begin; lia.
  1-2: reflexivity.
  1: unfold demo_begin; lia.
  1: lia.
  1: reflexivity.
  1-2: vm_compute; split; congruence.
  1: vm_compute; congruence.
  exists s', root. split; [exact E|]. split; [exact Hs|exact Hsie].
Defined.
