(* ===== verification/UserLib.v ===== *)
(** * user/user_lib.c: the library of the user programs

    Byte routines on the memory of the process; output as the sequence of the
    buffers handed to sys_write(STD_OUT). *)

From S2P Require Import Prelude Machine Str Print.

(** ** Bytes and strings *)

Definition umemset (m : memory) (begin data n : Z) : memory :=
  foldl (fun m i => st8 m (begin + Z.of_nat i) data) m (seq 0 (Z.to_nat n)).

(** while (n--) *d++ = *s++: always from low to high addresses. *)
Fixpoint umemmove (n : nat) (m : memory) (dst src : Z) : memory :=
  match n with
  | O => m
  | S n => umemmove n (st8 m dst (ld8 m src)) (dst + 1) (src + 1)
  end.

Fixpoint ustrncmp (n : nat) (m : memory) (p q : Z) : Z :=
  match n with
  | O => 0
  | S n => if negb (ld8 m p =? 0) && (ld8 m p =? ld8 m q) then ustrncmp n m (p + 1) (q + 1)
           else ld8 m p - ld8 m q
  end.

(** Within [fuel] bytes. *)
Fixpoint ustrlen (fuel : nat) (m : memory) (str : Z) : option Z :=
  match fuel with
  | O => None
  | S fuel => if ld8 m str =? 0 then Some 0 else (Z.add 1) <$> ustrlen fuel m (str + 1)
  end.

(** ** Output *)

Definition out : Type := list (list Z).
Definition stdout (str : list Z) : M out unit := modify (fun o => o ++ [str]).

(** buf[i--] = c on the 16 places of buf; the text built so far is [buf]. *)
Definition upush (buf : list Z) (c : Z) : M out (list Z) :=
  if (length buf <? 16)%nat then ret (c :: buf) else panic "printint: store outside buf".
Fixpoint udigit_loop (fuel : nat) (x base : Z) (buf : list Z) : M out (list Z) :=
  match fuel with
  | O => no_fuel
  | S fuel =>
      let* buf := upush buf (digit (x mod base)) in
      let x := x / base in
      if x =? 0 then ret buf else udigit_loop fuel x base buf
  end.
Definition uprintint (xx base : Z) (sign : bool) : M out unit :=
  let neg := sign && (xx <? 0) in
  let x := if neg then u32 (- xx) else u32 xx in
  let* buf := udigit_loop 32 x base [] in
  let* buf := (if neg then upush buf (ch "-") else ret buf) in
  stdout buf.

Fixpoint uhex (n : nat) (x : Z) : list Z :=
  match n with O => [] | S n => digit (Z.shiftr x 60) :: uhex n (u64 (Z.shiftl x 4)) end.
Definition uprintptr (x : Z) : M out unit := stdout (lit "0x" ++ uhex 16 x).

(** The scan of for (a = s; *s && *s != '%'; s++), and the pairs behind it. *)
Fixpoint plain (s : list Z) : list Z * list Z :=
  match s with
  | c :: s' => if c =? ch "%" then ([], s) else let '(a, r) := plain s' in (c :: a, r)
  | [] => ([], [])
  end.
Fixpoint pairs (s : list Z) : nat * list Z :=
  match s with
  | c :: d :: s' => if (c =? ch "%") && (d =? ch "%") then let '(n, r) := pairs s' in (S n, r) else (O, s)
  | _ => (O, s)
  end.

(** The bytes of a string argument before its NUL are the list itself. *)
Fixpoint uprintf_loop (fuel : nat) (s : list Z) (ap : list va) : M out unit :=
  match fuel with
  | O => no_fuel
  | S fuel =>
      match s with
      | [] => ret tt
      | _ =>
          let '(a, s) := plain s in
          let '(n, s) := pairs s in
          let text := a ++ replicate n (ch "%") in
          stdout text;;;
          if negb (length text =? 0)%nat then uprintf_loop fuel s ap
          else
            match s with
            | _ :: c :: s' =>
                if c =? ch "d" then
                  match ap with
                  | VInt x :: ap => uprintint (i32 x) 10 true;;; uprintf_loop fuel s' ap
                  | _ => panic "va_arg"
                  end
                else if c =? ch "x" then
                  match ap with
                  | VInt x :: ap => uprintint (i32 x) 16 true;;; uprintf_loop fuel s' ap
                  | _ => panic "va_arg"
                  end
                else if c =? ch "p" then
                  match ap with
                  | VPtr x :: ap => uprintptr x;;; uprintf_loop fuel s' ap
                  | _ => panic "va_arg"
                  end
                else if c =? ch "s" then
                  match ap with
                  | VStr str :: ap => stdout (default (lit "(null)") str);;; uprintf_loop fuel s' ap
                  | _ => panic "va_arg"
                  end
                else stdout [ch "%"];;; stdout [c];;; uprintf_loop fuel s' ap
            | _ => ret tt
            end
      end
  end.
(** Each round consumes a character. *)
Definition uprintf (fmt : list Z) (ap : list va) : M out unit := uprintf_loop (S (length fmt)) fmt ap.
Definition uprintfs (fmt : string) (ap : list va) : M out unit := uprintf (lit fmt) ap.
Definition uprintln (fmt : string) (ap : list va) : M out unit := uprintf (lit fmt ++ [10]) ap.

(** ** Tables *)

Record udirent : Type := mkUdirent { ud_inode_num : Z; ud_name : list Z }.
Fixpoint print_dirent_loop (dir : list udirent) : M out unit :=
  match dir with
  | [] => ret tt
  | d :: dir =>
      uprintln "inum = %d, dirname = %s" [VInt (ud_inode_num d); VStr (Some (ud_name d))];;;
      print_dirent_loop dir
  end.
Definition print_dirents (dir : list udirent) : M out unit :=
  uprintln "dirents information:" [];;;
  print_dirent_loop dir;;;
  uprintln "" [].

Record ufstat : Type := mkUfstat { uf_type : Z; uf_inode_num : Z; uf_nlink : Z; uf_size : Z }.
Definition file_type : list string := ["UNUSED"; "DIRECTOR"; "FILE"; "DEVICE"; "PIPE"]%string.
Definition print_filestate (file : ufstat) : M out unit :=
  uprintln "file state:" [];;;
  uprintfs "inum = %d " [VInt (uf_inode_num file)];;;
  uprintfs "nlink = %d " [VInt (uf_nlink file)];;;
  uprintfs "size = %d " [VInt (uf_size file)];;;
  match file_type !! Z.to_nat (uf_type file) with
  | Some t => uprintln "type = %s" [VStr (Some (lit t))]
  | None => panic "file_type: index outside the table"
  end.
