(* ===== verification/UserLibSpec.v ===== *)
(** * Properties of the user library *)

From S2P Require Import Prelude Machine Str Lock Print PrintSpec UserLib.

(** ** memmove() *)

Lemma umemmove_snoc n m d s :
  umemmove (S n) m d s = let m' := umemmove n m d s in st8 m' (d + Z.of_nat n) (ld8 m' (s + Z.of_nat n)).
Proof.
  revert m d s. induction n as [|n IH]; intros m d s.
  - cbn. by rewrite !Z.add_0_r.
  - change (umemmove (S (S n)) m d s) with (umemmove (S n) (st8 m d (ld8 m s)) (d + 1) (s + 1)). rewrite IH. cbn zeta.
    replace (d + 1 + Z.of_nat n) with (d + Z.of_nat (S n)) by lia. replace (s + 1 + Z.of_nat n) with (s + Z.of_nat (S n)) by lia. done.
Qed.
Lemma umemmove_out n m d s a : a < d \/ d + Z.of_nat n <= a -> ld8 (umemmove n m d s) a = ld8 m a.
Proof.
  revert a. induction n as [|n IH]; intros a Ha; [done|]. rewrite umemmove_snoc. cbn zeta. rewrite ld8_st8_ne by lia. apply IH. lia.
Qed.
Lemma ld8_idem m a : u8 (ld8 m a) = ld8 m a.
Proof. apply u8_idem. Qed.

(** memmove() of the user library copies upwards.  When the destination does
    not start inside the source it moves the bytes as memmove() must; when it does
    (src < dst < src + n) it fills the destination with repetitions of the first
    dst - src bytes of the source.  No other byte changes. *)
Theorem umemmove_upwards n m dst src :
  (dst <= src -> forall i, 0 <= i < Z.of_nat n -> ld8 (umemmove n m dst src) (dst + i) = ld8 m (src + i)) /\
  (src < dst -> forall i, 0 <= i < Z.of_nat n -> ld8 (umemmove n m dst src) (dst + i) = ld8 m (src + i mod (dst - src))) /\
  (forall a, a < dst \/ dst + Z.of_nat n <= a -> ld8 (umemmove n m dst src) a = ld8 m a).
Proof.
  split_and!; [| |apply umemmove_out].
  - intros Hle. induction n as [|n IH]; intros i Hi; [lia|]. rewrite umemmove_snoc. cbn zeta.
    destruct (decide (i = Z.of_nat n)) as [->|Hne].
    + rewrite ld8_st8_eq, ld8_idem. apply umemmove_out. lia.
    + rewrite ld8_st8_ne by lia. apply IH. lia.
  - intros Hlt. induction n as [|n IH]; intros i Hi; [lia|]. rewrite umemmove_snoc. cbn zeta.
    destruct (decide (i = Z.of_nat n)) as [->|Hne]; [|rewrite ld8_st8_ne by lia; apply IH; lia].
    rewrite ld8_st8_eq, ld8_idem. destruct (decide (Z.of_nat n < dst - src)).
    + rewrite umemmove_out by lia. by rewrite Z.mod_small by lia.
    + replace (src + Z.of_nat n) with (dst + (Z.of_nat n - (dst - src))) by lia. rewrite IH by lia.
      f_equal. f_equal. replace (Z.of_nat n) with (Z.of_nat n - (dst - src) + 1 * (dst - src)) at 2 by lia. by rewrite Z.mod_add by lia.
Qed.

(** ** printf() *)

Definition ushow_int (xx base : Z) : list Z :=
  (if xx <? 0 then [ch "-"] else []) ++ map digit (numeral base (Z.abs xx)).
Definition uconversion (c : Z) (ap : list va) : option (list Z * list va) :=
  if c =? ch "d" then match ap with VInt x :: ap => Some (ushow_int (i32 x) 10, ap) | _ => None end
  else if c =? ch "x" then match ap with VInt x :: ap => Some (ushow_int (i32 x) 16, ap) | _ => None end
  else if c =? ch "p" then match ap with VPtr x :: ap => Some (show_ptr x, ap) | _ => None end
  else if c =? ch "s" then match ap with VStr s :: ap => Some (default (lit "(null)") s, ap) | _ => None end
  else if c =? ch "%" then Some ([ch "%"], ap)
  else Some ([ch "%"; c], ap).
(** The text of a format, character by character. *)
Fixpoint urender (fmt : list Z) (ap : list va) : option (list Z) :=
  match fmt with
  | [] => Some []
  | c :: fmt =>
      if negb (c =? ch "%") then (cons c) <$> urender fmt ap
      else match fmt with
           | [] => Some []
           | c :: fmt =>
               match uconversion c ap with
               | Some (t, ap) => (app t) <$> urender fmt ap
               | None => None
               end
           end
  end.

(** [wr m t]: the routine returns and what it writes spells [t]. *)
Definition wr (m : M out unit) (t : list Z) : Prop := forall o, exists o', m o = Ret tt (o ++ o') /\ concat o' = t.
Lemma wr_ret : wr (ret tt) [].
Proof. intros o. exists []. by rewrite app_nil_r. Qed.
Lemma wr_stdout t : wr (stdout t) t.
Proof. intros o. exists [t]. cbn. by rewrite app_nil_r. Qed.
Lemma wr_bind m1 m2 t1 t2 : wr m1 t1 -> wr m2 t2 -> wr (m1;;; m2) (t1 ++ t2).
Proof.
  intros H1 H2 o. destruct (H1 o) as (o1 & E1 & <-). destruct (H2 (o ++ o1)) as (o2 & E2 & <-).
  exists (o1 ++ o2). split; [rewrite (bind_run _ _ _ _ _ E1), E2; by rewrite app_assoc|]. by rewrite concat_app.
Qed.

Lemma udigit_loop_ok fuel k x base buf o : 2 <= base -> (k <= fuel)%nat -> (1 <= k)%nat -> 0 <= x < base ^ Z.of_nat k ->
  (length buf + k <= 16)%nat ->
  udigit_loop fuel x base buf o = Ret (map digit (rev (digits_le fuel base x)) ++ buf) o.
Proof.
  revert k x buf. induction fuel as [|fuel IH]; intros k x buf Hb Hk Hk1 Hx Hl; [lia|]. cbn [udigit_loop digits_le]. unfold upush.
  destruct (Nat.ltb_spec (length buf) 16); [|lia]. mstep. bcase (x / base =? 0).
  - cbn. done.
  - assert (x / base < base ^ Z.of_nat (k - 1)) as Hlt.
    { apply Z.div_lt_upper_bound; [lia|]. rewrite <- Z.pow_succ_r by lia. replace (Z.succ (Z.of_nat (k - 1))) with (Z.of_nat k) by lia. lia. }
    assert (0 <= x / base) by (apply Z.div_pos; lia).
    destruct (decide (k = 1)%nat) as [->|]; [cbn in Hlt; lia|].
    rewrite (IH (k - 1)%nat) by (try done; cbn [length]; lia). cbn [rev]. rewrite map_app. cbn. by rewrite <- app_assoc.
Qed.
Lemma digits_le_fuel f1 f2 k base x : 2 <= base -> (k <= f1)%nat -> (k <= f2)%nat -> (1 <= k)%nat -> 0 <= x < base ^ Z.of_nat k ->
  digits_le f1 base x = digits_le f2 base x.
Proof.
  intros Hb. revert f1 f2 x. induction k as [|k IH]; intros [|f1] [|f2] x H1 H2 Hk Hx; try lia. cbn [digits_le]. f_equal.
  bcase (x / base =? 0); [done|]. assert (x / base < base ^ Z.of_nat k).
  { apply Z.div_lt_upper_bound; [lia|]. rewrite <- Z.pow_succ_r by lia. replace (Z.succ (Z.of_nat k)) with (Z.of_nat (S k)) by lia. lia. }
  assert (0 <= x / base) by (apply Z.div_pos; lia). destruct k as [|k]; [cbn in *; lia|]. apply IH; lia.
Qed.
Lemma uprintint_wr xx base : base = 10 \/ base = 16 -> - 2 ^ 31 <= xx < 2 ^ 31 -> wr (uprintint xx base true) (ushow_int xx base).
Proof.
  intros Hb Hxx o. unfold uprintint, ushow_int. cbn [andb]. set (x := if xx <? 0 then u32 (- xx) else u32 xx).
  assert (x = Z.abs xx) as Hx by (unfold x; bcase (xx <? 0); rewrite u32_small; lia).
  assert (0 <= x < base ^ Z.of_nat 10) as Hr by (rewrite Hx; destruct Hb as [-> | ->]; lia).
  rewrite (bind_run _ _ _ _ _ (udigit_loop_ok 32 10 x base [] o ltac:(lia) ltac:(lia) ltac:(lia) Hr ltac:(cbn; lia))), app_nil_r.
  pose proof (digits_le_len 32 base x 10 ltac:(lia) ltac:(lia) Hr) as Hl. rewrite <- Hx. unfold numeral.
  rewrite (digits_le_fuel 64 32 10 base x) by lia. set (ds := digits_le 32 base x) in *.
  destruct (xx <? 0).
  - unfold upush. rewrite length_map, length_rev. destruct (Nat.ltb_spec (length ds) 16); [|lia]. mstep.
    exists [ch "-" :: map digit (rev ds)]. split; [done|]. cbn. by rewrite app_nil_r.
  - mstep. exists [map digit (rev ds)]. split; [done|]. cbn. by rewrite app_nil_r.
Qed.
Lemma uhex_ok n k y : (n + k = 16)%nat ->
  uhex n ((y * 16 ^ Z.of_nat k) mod 2 ^ 64) = map digit (map (fun i => (y / 16 ^ (15 - Z.of_nat i)) mod 16) (seq k n)).
Proof.
  revert k. induction n as [|n IH]; intros k Hk; [done|]. cbn [uhex seq map]. rewrite top_digit, next_digits by lia. f_equal. apply IH. lia.
Qed.
Lemma uprintptr_wr x : 0 <= x < 2 ^ 64 -> wr (uprintptr x) (show_ptr x).
Proof.
  intros Hx. unfold uprintptr, show_ptr, hex16. rewrite <- (uhex_ok 16 0 x) by done. rewrite Z.mul_1_r, Z.mod_small by done. apply wr_stdout.
Qed.

Lemma app_nil_fmap (o : option (list Z)) : o = (app []) <$> o.
Proof. by destruct o. Qed.
(** What a plain run and the pairs behind it contribute. *)
Lemma plain_spec s a r ap : plain s = (a, r) ->
  urender s ap = (app a) <$> urender r ap /\ length s = (length a + length r)%nat /\ (s <> [] -> a = [] -> exists r', r = ch "%" :: r').
Proof.
  revert a r. induction s as [|c s IH]; intros a r; cbn [plain].
  - intros [= <- <-]. split_and!; [apply app_nil_fmap|done|done].
  - bcase (c =? ch "%").
    + intros [= <- <-]. subst c. split_and!; [apply app_nil_fmap|done|by eexists].
    + destruct (plain s) as [a' r'] eqn:Ep. intros [= <- <-]. destruct (IH a' r' eq_refl) as (H1 & H2 & _).
      split_and!; [|cbn; lia|done]. cbn [urender]. bcase (c =? ch "%"); [done|]. cbn [negb]. rewrite H1. by destruct (urender r' ap).
Qed.
Lemma pairs_spec fuel s n r ap : (length s <= fuel)%nat -> pairs s = (n, r) ->
  urender s ap = (app (replicate n (ch "%"))) <$> urender r ap /\ length s = (2 * n + length r)%nat /\
  (forall c r', r = c :: r' -> n = O -> s = r) /\ (forall d r', r = ch "%" :: d :: r' -> d <> ch "%").
Proof.
  revert s n r. induction fuel as [|fuel IH]; intros [|c [|d s]] n r Hl; cbn [length] in Hl; try lia; cbn [pairs].
  1-3: intros [= <- <-]; split_and!; [apply app_nil_fmap|done|done|done].
  destruct ((c =? ch "%") && (d =? ch "%")) eqn:E.
  - bprop. subst c d. destruct (pairs s) as [n' r'] eqn:Ep. intros [= <- <-].
    destruct (IH s n' r' ltac:(lia) Ep) as (H1 & H2 & H3 & H4). split_and!; [|cbn; lia|done|done].
    change (urender (ch "%" :: ch "%" :: s) ap) with ((app [ch "%"]) <$> urender s ap). rewrite H1. by destruct (urender r' ap).
  - intros [= <- <-]. split_and!; [apply app_nil_fmap|done|done|].
    intros d' r' [= -> -> ->] ->. done.
Qed.
Lemma uconversion_args c ap t ap' : uconversion c ap = Some (t, ap') -> Forall va_ok ap -> Forall va_ok ap'.
Proof.
  unfold uconversion. intros H Hap. repeat case_match; simplify_eq; try done; by apply Forall_cons in Hap as [_ ?].
Qed.

Lemma uprintf_loop_wr fuel s ap t : (length s < fuel)%nat -> Forall va_ok ap -> urender s ap = Some t -> wr (uprintf_loop fuel s ap) t.
Proof.
  revert s ap t. induction fuel as [|fuel IH]; intros s ap t Hl Hap Ht; [lia|]. cbn [uprintf_loop].
  destruct s as [|c0 s0]; [injection Ht as <-; apply wr_ret|]. set (s := c0 :: s0) in *.
  destruct (plain s) as [a s1] eqn:Ea. destruct (plain_spec s a s1 ap Ea) as (P1 & P2 & P3).
  destruct (pairs s1) as [n s2] eqn:En. destruct (pairs_spec (length s1) s1 n s2 ap ltac:(lia) En) as (Q1 & Q2 & Q3 & Q4).
  rewrite P1, Q1 in Ht. destruct (urender s2 ap) as [t2|] eqn:Et2; [|done]. cbn in Ht. injection Ht as <-.
  rewrite app_assoc. apply wr_bind; [apply wr_stdout|]. destruct (Nat.eqb_spec (length (a ++ replicate n (ch "%"))) 0) as [H0|H0]; cbn [negb].
  2:{ apply IH; [rewrite length_app, length_replicate in H0; lia|done|done]. }
  rewrite length_app, length_replicate in H0. assert (n = O) as -> by lia. destruct a; [|cbn in H0; lia].
  destruct (P3 ltac:(done) eq_refl) as [r' Hr]. subst s1. cbn [length] in Q2.
  destruct s2 as [|p s2]; [cbn in Q2; lia|]. pose proof (Q3 p s2 eq_refl eq_refl) as Heq. injection Heq as <- <-.
  destruct r' as [|c r]; [vm_compute in Et2; injection Et2 as <-; apply wr_ret|]. pose proof (Q4 c r eq_refl) as Hc.
  change (urender (ch "%" :: c :: r) ap) with
    (match uconversion c ap with Some (t, ap) => (app t) <$> urender r ap | None => None end) in Et2.
  destruct (uconversion c ap) as [[t1 ap']|] eqn:Ec; [|done]. destruct (urender r ap') as [t3|] eqn:Er; [|done].
  cbn in Et2. injection Et2 as <-.
  assert (wr (uprintf_loop fuel r ap') t3) as Hrest.
  { apply IH; [cbn [length] in *; lia|by eapply uconversion_args|done]. }
  unfold uconversion in Ec. destruct (c =? ch "d"); [|destruct (c =? ch "x"); [|destruct (c =? ch "p"); [|destruct (c =? ch "s")]]].
  - destruct ap as [|[x| |] ap]; simplify_eq. apply wr_bind; [|done]. apply uprintint_wr; [auto|apply i32_range].
  - destruct ap as [|[x| |] ap]; simplify_eq. apply wr_bind; [|done]. apply uprintint_wr; [auto|apply i32_range].
  - destruct ap as [|[|x|] ap]; simplify_eq. apply Forall_cons in Hap as [Hx _]. apply wr_bind; [|done]. by apply uprintptr_wr.
  - destruct ap as [|[| |str] ap]; simplify_eq. apply wr_bind; [apply wr_stdout|done].
  - bcase (c =? ch "%"); [done|]. simplify_eq. apply (wr_bind _ _ [_] (_ :: _)); [apply wr_stdout|].
    apply (wr_bind _ _ [_]); [apply wr_stdout|done].
Qed.

(** The user printf(), which scans for runs of plain text and %% pairs and
    writes each run at once, terminates on every format and writes exactly the
    text a reader of the format character by character expects: every conversion
    replaced by its argument (a null string by "(null)", %x with a sign), %% by %,
    an unknown conversion by itself, a trailing % by nothing. *)
Theorem uprintf_renders fmt ap text o : Forall va_ok ap -> urender fmt ap = Some text ->
  exists o', uprintf fmt ap o = Ret tt (o ++ o') /\ concat o' = text.
Proof. intros Hap Ht. apply (uprintf_loop_wr (S (length fmt)) fmt ap text); [lia|done|done]. Qed.

(** ** Witnesses *)

Lemma uprintf_renders_witness : exists o', uprintf (lit "%d%% of %s") [VInt (-7); VStr None] [] = Ret tt o' /\
  concat o' = lit "-7% of (null)".
Proof.
  destruct (uprintf_renders (lit "%d%% of %s") [VInt (-7); VStr None] (lit "-7% of (null)") []) as (o' & E & H).
  - repeat constructor.
  - vm_compute. reflexivity.
  - exists o'. split; [exact E|exact H].
Defined.
