(* ===== verification/UserSys.v ===== *)
(** * user/user_syscall.c and user/syscall_arch.h: the system call stubs

    A stub puts the number into a7 and its arguments, converted to long, into a0 to
    a5, executes ecall and converts a0 to its return type.  [user_ecall] is the
    ecall as the process sees it: user_vector, trap_user_handler(), user_return and
    sret, on the registers of the hart and the kernel state that shares its memory. *)

From S2P Require Import Prelude Machine Str Lock Pmem Kvm Mmap Uvm Proc Buf Bitmap Inode Dir File Syscall Print Virtio Asm Trap.

(** The number, the argument registers and the conversion of the result. *)
Record ucall : Type := mkUcall { u_num : Z; u_args : list Z; u_conv : Z -> Z }.

(** syscall(n, ...): __scc makes every argument a long. *)
Definition usyscall (n : Z) (args : list Z) (conv : Z -> Z) : ucall := mkUcall n (map u64 args) conv.

(** ** The stubs: int results are truncated and signed, uint32 ones truncated *)

Definition usys_exec (path argv : Z) : ucall := usyscall SYS_exec [path; argv] i32.
Definition usys_brk (new_heap_top : Z) : ucall := usyscall SYS_brk [new_heap_top] u64.
Definition usys_mmap (start len : Z) : ucall := usyscall SYS_mmap [start; len] u64.
Definition usys_munmap (start len : Z) : ucall := usyscall SYS_munmap [start; len] u64.
Definition usys_fork : ucall := usyscall SYS_fork [] i32.
Definition usys_wait (addr : Z) : ucall := usyscall SYS_wait [addr] i32.
Definition usys_exit (exit_state : Z) : ucall := usyscall SYS_exit [exit_state] i32.
Definition usys_sleep (seconds : Z) : ucall := usyscall SYS_sleep [seconds] i32.
Definition usys_open (path open_mode : Z) : ucall := usyscall SYS_open [path; open_mode] i32.
Definition usys_close (fd : Z) : ucall := usyscall SYS_close [fd] i32.
Definition usys_read (fd len addr : Z) : ucall := usyscall SYS_read [fd; len; addr] u32.
Definition usys_write (fd len addr : Z) : ucall := usyscall SYS_write [fd; len; addr] u32.
Definition usys_lseek (fd offset flags : Z) : ucall := usyscall SYS_lseek [fd; offset; flags] u32.
Definition usys_dup (fd : Z) : ucall := usyscall SYS_dup [fd] i32.
Definition usys_fstat (fd state : Z) : ucall := usyscall SYS_fstat [fd; state] i32.
Definition usys_getdir (fd addr len : Z) : ucall := usyscall SYS_getdir [fd; addr; len] u32.
Definition usys_mkdir (path : Z) : ucall := usyscall SYS_mkdir [path] i32.
Definition usys_chdir (path : Z) : ucall := usyscall SYS_chdir [path] i32.
Definition usys_link (old_path new_path : Z) : ucall := usyscall SYS_link [old_path; new_path] i32.
Definition usys_unlink (path : Z) : ucall := usyscall SYS_unlink [path] i32.

(** ** __syscall0 to __syscall6 *)

Definition arg_regs : list reg := [a0; a1; a2; a3; a4; a5].
Fixpoint set_args (rs : list reg) (args : list Z) (h : hart) : hart :=
  match rs, args with
  | r :: rs, v :: args => set_reg r v (set_args rs args h)
  | _, _ => h
  end.
(** The registers at the ecall; a stub with no argument leaves a0 as it is. *)
Definition ecall_regs (c : ucall) (h : hart) : hart := set_reg a7 (u_num c) (set_args arg_regs (u_args c) h).

Section ecall.
Context {D U P : Type} {HD : BlockDev D} {HV : VirtioBlk D} {HU : Uart16550 U} {HP : Plic P}.
Context (sl_fuel : nat) (buf_addr : nat -> Z) (stack_name : list Z) (stat_addr : Z).
Context (trampoline trap_user_handler_addr fork_return_addr : Z) (exit_state_addr : nat -> Z).
Context (path_addr old_path_addr new_path_addr : Z) (wait_fuel : nat).
Context (status_addr : nat -> Z) (kernel_vector_addr user_vector_addr user_return_addr : Z).
Notation T := (tstate D U P).

(** The kernel state when trap_user_handler() is entered: user_vector has stored
    the registers and loaded satp. *)
Definition after_vector (h : hart) (s : T) : T :=
  upd_csr (set_c_satp (cs h SATP)) (set_kmem (hm h) s).

(** The ecall at [pc]: the value of the stub, the mode and pc returned to, the
    registers and the kernel state; [None] when the call does not come back by
    itself (it panics, waits, or gives the CPU away first). *)
Definition user_ecall (c : ucall) (pc : Z) (h : hart) (s : T) : option (Z * (bool * Z) * hart * T) :=
  h1 ← exec Sv39 user_vector (ecall_regs c h);
  match trap_user_handler sl_fuel buf_addr stack_name stat_addr trampoline trap_user_handler_addr fork_return_addr exit_state_addr
          path_addr old_path_addr new_path_addr wait_fuel status_addr kernel_vector_addr user_vector_addr user_return_addr
          (trap_entry false pc 8 0 (after_vector h1 s)) with
  | Ret (_, frame, satp) s' =>
      h2 ← exec Sv39 user_return (set_reg a0 frame (set_reg a1 satp (set_hm (kmem s') h1)));
      Some (u_conv c (rg h2 a0), fst (sret s'), h2, snd (sret s'))
  | _ => None
  end.
End ecall.
