(* ===== verification/UserSysSpec.v ===== *)
(** * Properties of the system call stubs

    A system call seen from the process, through the stub, the trampoline, the
    handler and back. *)

From S2P Require Import Prelude Machine Str Lock Pmem Kvm KvmSpec Mmap Uvm UvmSpec Proc ProcSpec SleepSpec Buf BufSpec Bitmap Inode Dir File FileSpec Syscall Print PrintSpec Virtio VirtioSpec Asm AsmSpec Trap TrapSpec UserSys.

(** ** Registers *)

Lemma set_args_at rs args h k r v : NoDup rs -> rs !! k = Some r -> args !! k = Some v -> rg (set_args rs args h) r = v.
Proof.
  revert args k. induction rs as [|r0 rs IH]; intros args k Hnd Hr Hv; [done|].
  apply NoDup_cons in Hnd as [Hn0 Hnd]. destruct args as [|v0 args]; [done|]. destruct k as [|k]; cbn in *.
  - injection Hr as ->. injection Hv as ->. by rewrite decide_True.
  - rewrite decide_False; [by eapply IH|]. intros ->. apply Hn0. by eapply list_elem_of_lookup_2.
Qed.
Lemma set_args_wf rs args h : regs_wf h -> Forall (fun v => 0 <= v < 2 ^ 64) args -> regs_wf (set_args rs args h).
Proof.
  intros Hh. revert args. induction rs as [|r rs IH]; intros [|v args] Ha; try done.
  apply Forall_cons in Ha as [Hv Ha]. intros r'. cbn. destruct (decide (r' = r)); [done|]. by apply IH.
Qed.
Lemma set_args_rest rs args h : hm (set_args rs args h) = hm h /\ cs (set_args rs args h) = cs h.
Proof. revert args. induction rs as [|r rs IH]; intros [|v args]; try done. apply (IH args). Qed.
Lemma arg_slot k r : arg_regs !! k = Some r -> (r, tf_a (Z.of_nat k)) ∈ trapframe_layout /\ r <> a7 /\ (k < 6)%nat.
Proof.
  intros Hr. do 6 (destruct k as [|k]; [injection Hr as <-; split; [by apply (bool_decide_unpack _); vm_compute|split; [done|lia]]|]). done.
Qed.

(** A call: its number is in the table and its arguments are 64-bit values for the
    six argument registers. *)
Record ucall_ok (c : ucall) : Prop := {
  uc_num : 0 <= u_num c <= SYS_MAX;
  uc_args : Forall (fun v => 0 <= v < 2 ^ 64) (u_args c);
  uc_count : (length (u_args c) <= 6)%nat }.
Lemma ecall_wf c h : regs_wf h -> ucall_ok c -> regs_wf (ecall_regs c h).
Proof.
  intros Hh [Hn Ha _] r. unfold SYS_MAX in Hn. unfold ecall_regs. cbn [rg set_reg]. destruct (decide (r = a7)); [lia|]. by apply set_args_wf.
Qed.
Lemma ecall_arg c h k v : ucall_ok c -> u_args c !! k = Some v ->
  exists r, rg (ecall_regs c h) r = v /\ (r, tf_a (Z.of_nat k)) ∈ trapframe_layout /\ (k < 6)%nat.
Proof.
  intros [_ _ Hl] Hv. pose proof (lookup_lt_Some _ _ _ Hv) as Hk.
  destruct (lookup_lt_is_Some_2 arg_regs k) as [r Hr]; [cbn; lia|]. exists r. destruct (arg_slot k r Hr) as (Hin & Hne & H6).
  split; [|done]. unfold ecall_regs. cbn [rg set_reg]. rewrite decide_False by done. eapply set_args_at; [|done|done]. apply (bool_decide_unpack _). by vm_compute.
Qed.

Section spec.
Context {D U P : Type} {HD : BlockDev D} {HV : VirtioBlk D} {HU : Uart16550 U} {HP : Plic P}.
Context (sl_fuel : nat) (buf_addr : nat -> Z) (stack_name : list Z) (stat_addr : Z).
Context (trampoline trap_user_handler_addr fork_return_addr : Z) (exit_state_addr : nat -> Z).
Context (path_addr old_path_addr new_path_addr : Z) (wait_fuel : nat).
Context (status_addr : nat -> Z) (kernel_vector_addr user_vector_addr user_return_addr : Z).
Notation T := (tstate D U P).
Notation ecall := (user_ecall sl_fuel buf_addr stack_name stat_addr trampoline trap_user_handler_addr fork_return_addr exit_state_addr
  path_addr old_path_addr new_path_addr wait_fuel status_addr kernel_vector_addr user_vector_addr user_return_addr).
Notation table satp := (syscalls sl_fuel buf_addr stack_name stat_addr trampoline trap_user_handler_addr fork_return_addr satp
  exit_state_addr path_addr old_path_addr new_path_addr wait_fuel).

(** Process [p] with table [root] in user mode: the hart [h] and the kernel state
    [s] share memory, the trapframe is mapped and armed. *)
Record user_mode (p : nat) (root : Z) (h : hart) (s : T) : Prop := {
  um_proc : cproc (hcpu s) = Some p;
  um_root : pgtbl (proc_at (lget t_k s) p) = root;
  um_frame : tf_of p s <> NULL;
  um_mapped : frame_mapped (hm h) root (tf_of p s);
  um_mem : kmem s = hm h;
  um_satp : cs h SATP = MAKE_SATP root;
  um_scratch : cs h SSCRATCH = TRAPFRAME;
  um_regs : regs_wf h }.
(** What a routine leaves alone of the process that called it. *)
Record caller_kept (p : nat) (root : Z) (s s' : T) : Prop := {
  ck_proc : cproc (hcpu s') = Some p;
  ck_tf : tf_of p s' = tf_of p s;
  ck_root : pgtbl (proc_at (lget t_k s') p) = root;
  ck_frame : forall o, 24 <= o -> o + 8 <= 288 -> ld64 (kmem s') (tf_of p s + o) = ld64 (kmem s) (tf_of p s + o);
  ck_tables : tables_kept (kmem s) (kmem s') root }.

(** The stores of the handler to the epc slot. *)
Lemma sys_entry_slots p pc (s : T) o : 32 <= o ->
  ld64 (kmem (sys_entry kernel_vector_addr p pc 0 s)) (tf_of p s + o) = ld64 (kmem s) (tf_of p s + o).
Proof. intros Ho. cbn. unfold tf_epc. by rewrite !ld64_st64_ne by lia. Qed.
Lemma sys_entry_outside p pc (s : T) a : a < tf_of p s \/ tf_of p s + PGSIZE <= a ->
  ld8 (kmem (sys_entry kernel_vector_addr p pc 0 s)) a = ld8 (kmem s) a.
Proof. intros Ha. unfold PGSIZE in Ha. cbn. unfold tf_epc. by rewrite !ld8_st_ne by (cbn; lia). Qed.
Lemma layout_slot r o : (r, o) ∈ trapframe_layout -> 40 <= o /\ o + 8 <= 288 /\ (r = a0 /\ o = tf_a 0 \/ r <> a0 /\ (o + 8 <= tf_a 0 \/ tf_a 1 <= o)).
Proof.
  intros Hin. unfold trapframe_layout, frame_saved in Hin.
  repeat (apply elem_of_cons in Hin as [Hin|Hin];
    [injection Hin as -> ->; split; [lia|split; [lia|first [left; split; reflexivity|right; split; [done|unfold tf_a; lia]]]]|]).
  by apply not_elem_of_nil in Hin.
Qed.
Lemma entered_same p pc h1 (s : T) (s1 := sys_entry kernel_vector_addr p pc 0 (after_vector h1 s)) :
  cproc (hcpu s1) = cproc (hcpu s) /\ tf_of p s1 = tf_of p s /\ c_satp (tcsr s1) = cs h1 SATP.
Proof. by destruct s as [[[[[? ? ? ?] ? ? ?] ? ? ?] ?] ? ? ? ? ? ? ?]. Qed.
Lemma caller_kept_refl p root (s : T) : cproc (hcpu s) = Some p -> pgtbl (proc_at (lget t_k s) p) = root ->
  caller_kept p root s (lset t_sys (tsys s) s).
Proof.
  intros Hp Hr. assert (lset t_sys (tsys s) s = s) as -> by (by destruct s). split; try done.
Qed.
(** Changes outside the page of the frame's slots keep the mapping of the frame. *)
Lemma frame_mapped_outside m m' root tf : frame_mapped m root tf ->
  (forall a, a < tf \/ tf + PGSIZE <= a -> ld8 m' a = ld8 m a) -> frame_mapped m' root tf.
Proof.
  intros Hf Ho. apply (frame_mapped_kept m); [done|]. intros a Ha. apply Ho.
  destruct (decide (tf <= a < tf + PGSIZE)) as [Hin|Hin]; [by destruct (fr_apart _ _ _ Hf a Hin)|lia].
Qed.

(** C15 A system call end to end.  The stub called in user mode enters the kernel
    through user_vector; there the k-th argument of the stub is what the routine of
    its number reads as argument k.  When that routine returns [r] and leaves the
    caller's frame and table alone, the stub returns [r], converted to its type, at
    the instruction after the ecall, in user mode with interrupts enabled, with
    every register but a0 as it was at the ecall. *)
Theorem user_syscall_end_to_end p root c pc h (s : T) : user_mode p root h s -> ucall_ok c -> 0 <= pc < 2 ^ 64 ->
  exists h1, exec Sv39 user_vector (ecall_regs c h) = Some h1 /\
    let s1 := sys_entry kernel_vector_addr p pc 0 (after_vector h1 s) in
    (forall k v, u_args c !! k = Some v -> arg_raw (Z.of_nat k) (tsys s1) = Ret v (tsys s1)) /\
    forall f r y, table (c_satp (tcsr s1)) (u_num c) = Some f -> f (tsys s1) = Ret r y -> 0 <= r < 2 ^ 64 ->
      caller_kept p root s1 (lset t_sys y s1) ->
      exists h3 s3, ecall c pc h s = Some (u_conv c r, (false, u64 (pc + 4)), h3, s3) /\
        (forall x, x <> a0 -> rg h3 x = rg (ecall_regs c h) x) /\
        cs h3 SATP = MAKE_SATP root /\ cs h3 SSCRATCH = TRAPFRAME /\ sie (hcpu s3) = true.
Proof.
  intros [Hp Hroot Ht Hf Hm Hsa Hss Hr] Hc Hpc. set (g := ecall_regs c h). set (frame := tf_of p s) in *.
  destruct (set_args_rest arg_regs (u_args c) h) as [Gm Gc]. change (hm g = hm h) in Gm. change (cs g = cs h) in Gc.
  rewrite <- Gm in Hf. rewrite <- Gc in Hsa, Hss.
  destruct (user_vector_run root frame g Hf Hsa Hss (ecall_wf c h Hr Hc)) as (h1 & E1 & Hslots & _ & _ & _ & _ & Hout).
  exists h1. split; [exact E1|]. set (s0 := after_vector h1 s). set (s1 := sys_entry kernel_vector_addr p pc 0 s0).
  destruct (entered_same p pc h1 s) as (Sp & St & Ss). fold s0 s1 in Sp, St, Ss. fold frame in St.
  assert (forall o, 32 <= o -> ld64 (kmem s1) (frame + o) = ld64 (hm h1) (frame + o)) as H1 by (apply sys_entry_slots).
  split.
  - intros k v Hv. destruct (ecall_arg c h k v Hc Hv) as (x & Hx & Hin & Hk). unfold arg_raw.
    rewrite (bind_run _ _ _ _ _ (s_myproc p (tsys s1) (eq_trans Sp Hp))). bcase (0 <=? Z.of_nat k); [|lia]. bcase (Z.of_nat k <=? 5); [|lia]. cbn [andb].
    assert (tf (proc_at (lget s_k (tsys s1)) p) = frame) as St' by exact St.
    rewrite (s_tf_read p (tf_a (Z.of_nat k)) (tsys s1)) by (by rewrite St'). rewrite St'. f_equal. rewrite <- Hx. fold g. rewrite <- (Hslots _ _ Hin).
    apply H1. unfold tf_a. lia.
  - intros f r y Hfun Hret Hrr [Kp Kt Kr Kf Kk]. rewrite St in *. set (s2 := lset t_sys y s1) in *.
    assert (ld64 (kmem s0) (frame + tf_a 7) = u_num c) as Ha7.
    { apply (Hslots a7 168). apply (bool_decide_unpack _). by vm_compute. }
    destruct (syscall_trap_run sl_fuel buf_addr stack_name stat_addr trampoline trap_user_handler_addr fork_return_addr exit_state_addr
      path_addr old_path_addr new_path_addr wait_fuel status_addr kernel_vector_addr user_vector_addr user_return_addr
      p pc 0 r y s0 Hp Ht Hpc) as (_ & _ & s' & E2 & Hsr & Hsie & Hr0 & Hsl & Hou); [|done|done|exact Kt|by apply (Kf 24)|].
    { change (tf_of p s0) with frame. rewrite Ha7. unfold syscall_fun. destruct Hc as [[Hn1 Hn2] _ _].
      rewrite i32_small by (unfold SYS_MAX in *; lia). bcase (0 <=? u_num c); [|lia]. bcase (u_num c <=? SYS_MAX); [|lia].
      cbn [andb]. rewrite Ss in Hfun. change (c_satp (tcsr s0)) with (cs h1 SATP). by rewrite Hfun. }
    change (tf_of p s0) with frame in *. fold s1 in E2, Hsl, Hou. fold s2 in E2, Hsl, Hou. rewrite Kr in E2.
    assert (frame_mapped (kmem s') root frame) as Hf'.
    { eapply frame_mapped_outside; [|exact Hou]. eapply frame_mapped_kept; [|exact Kk].
      eapply frame_mapped_outside; [|intros a Ha; by apply (sys_entry_outside p pc s0)].
      eapply frame_mapped_outside; [exact Hf|]. intros a Ha. unfold PGSIZE in Ha. apply Hout. lia. }
    destruct (user_return_run root frame (set_reg a0 TRAPFRAME (set_reg a1 (MAKE_SATP root) (set_hm (kmem s') h1))) Hf' eq_refl eq_refl)
      as (h3 & E3 & Hg & Hsa3 & Hss3 & _).
    exists h3, (snd (sret s')). unfold user_ecall. fold g. rewrite E1. cbn [mbind option_bind]. fold s0. rewrite E2, E3. cbn [mbind option_bind].
    assert (rg h3 a0 = r) as -> by (rewrite (Hg a0 (tf_a 0)); [exact Hr0|left]). rewrite Hsr. split; [done|]. split; [|done].
    intros x Hx. destruct (trapframe_all x) as [o Ho]. destruct (layout_slot x o Ho) as (Hlo & Hhi & [[? _]|[_ Hoff]]); [done|].
    rewrite (Hg x o Ho). cbn [hm set_reg set_hm]. rewrite (Hsl o Hlo Hoff), (Kf o) by lia. rewrite H1 by lia. by apply Hslots.
Qed.
End spec.

(** ** A call of sys_exec(), which the kernel answers with -1 *)

Definition user_hart : hart :=
  mkHart (fun _ => 7) (fun c => match c with SATP => MAKE_SATP dm_root | SSCRATCH => TRAPFRAME | _ => 0 end) (kmem user_machine).
Lemma user_hart_mode : user_mode 1 dm_root user_hart user_machine.
Proof.
  split; try reflexivity; [vm_compute; congruence|exact user_frame|]. intros r. cbn. lia.
Qed.
Lemma user_syscall_end_to_end_witness : exists h3 s3,
  user_ecall 8 demo_buf [] 0 0x80003000 0x80004000 0x80005000 (fun _ => 0) 0 0 0 8 demo_status 0x80006000 0x80003000 0x80003090
    (usys_exec 0x1000 0x2000) 0x1000 user_hart user_machine = Some (-1, (false, 0x1004), h3, s3) /\ rg h3 s0 = 7.
Proof.
  destruct (user_syscall_end_to_end 8 demo_buf [] 0 0x80003000 0x80004000 0x80005000 (fun _ => 0) 0 0 0 8 demo_status 0x80006000
    0x80003000 0x80003090 1 dm_root (usys_exec 0x1000 0x2000) 0x1000 user_hart user_machine user_hart_mode) as (h1 & _ & _ & H).
  1: split; [cbn; unfold SYS_exec, SYS_MAX; lia|repeat (apply Forall_cons; split; [vm_compute; split; congruence|]); apply Forall_nil; exact I|cbn; lia].
  1: lia.
  destruct (H _ U64_FAIL _ eq_refl eq_refl) as (h3 & s3 & E & Hg & _).
  1: vm_compute; split; congruence.
  1: apply caller_kept_refl; reflexivity.
  exists h3, s3. split; [exact E|]. rewrite (Hg s0) by discriminate. reflexivity.
Defined.
