(* ===== verification/UserProg.v ===== *)
(** * user/test.c, user/initcode.c and the shell of a program in user/user_lib.c

    The two programs of the repository.  The echo loop of test.c runs on the memory
    of the process, the input still to come and the output so far; initcode.c and
    _main() are the sequence of the system calls they make. *)

From S2P Require Import Prelude Machine Str Print UserLib UserSys Syscall.

(** ** Input and output of a process *)

Record uio : Type := mkUio { um : memory; uin : list (list Z); uout : out }.

(** What read() delivers: a chunk of the input at a time, at most [len] bytes; with
    no input left the call does not return. *)
Definition next_input (len : Z) (l : list (list Z)) : option (list Z * list (list Z)) :=
  match l with
  | [] => None
  | c :: l => let n := Z.to_nat len in
              Some (take n c, match drop n c with [] => l | c' => c' :: l end)
  end.
Fixpoint put_bytes (m : memory) (a : Z) (l : list Z) : memory :=
  match l with [] => m | c :: l => put_bytes (st8 m a c) (a + 1) l end.
Definition stdin (str len : Z) : M uio Z := fun s =>
  match next_input len (uin s) with
  | None => Spin s
  | Some (c, l) => Ret (Z.of_nat (length c)) (mkUio (put_bytes (um s) str c) l (uout s))
  end.
Definition stdout_at (str len : Z) : M uio unit :=
  modify (fun s => mkUio (um s) (uin s) (uout s ++ [bytes_at (um s) str (Z.to_nat len)])).

(** ** test.c *)

(** One round of while(1); [fuel] bounds strlen(). *)
Definition test_round (fuel : nat) (tmp : Z) : M uio unit :=
  modify (fun s => mkUio (umemset (um s) tmp 0 128) (uin s) (uout s));;;
  stdin tmp 128;;;
  let* m := gets um in
  match ustrlen fuel m tmp with
  | Some n => stdout_at tmp n
  | None => no_fuel
  end.
(** The first [rounds] rounds of main(). *)
Fixpoint test_main (rounds fuel : nat) (tmp : Z) : M uio unit :=
  match rounds with
  | O => no_fuel
  | S rounds => test_round fuel tmp;;; test_main rounds fuel tmp
  end.

(** ** initcode.c and _main() *)

(** The calls made so far; [answer] gives the value each call returns. *)
Definition call (answer : ucall -> Z) (c : ucall) : M (list ucall) Z :=
  modify (fun l => l ++ [c]);;; ret (u_conv c (answer c)).

Definition initcode_fail : string := "initcode: fork fail
".
Definition initcode_start : string := "
-----test start-----
".
Definition initcode_over : string := "
-----test over-----
".
(** The addresses the strings have in the program. *)
Record initcode_data : Type := mkInit { d_path : Z; d_argv : Z; d_fail : Z; d_start : Z; d_over : Z }.
Definition initcode_main (d : initcode_data) (answer : ucall -> Z) : M (list ucall) Z :=
  let* pid := call answer (usyscall SYS_fork [] i32) in
  if pid <? 0 then
    call answer (usyscall SYS_write [0; 20; d_fail d] i32);;;
    ret 0
  else if pid =? 0 then
    call answer (usyscall SYS_write [0; 22; d_start d] i32);;;
    call answer (usyscall SYS_exec [d_path d; d_argv d] i32);;;
    ret 0
  else
    call answer (usyscall SYS_wait [0] i32);;;
    call answer (usyscall SYS_write [0; 21; d_over d] i32);;;
    spin.

(** _main(): the result of main() is the exit state. *)
Definition _main (main : M (list ucall) Z) (answer : ucall -> Z) : M (list ucall) Z :=
  let* exit_state := main in
  call answer (usys_exit exit_state).

(** ** Memory under the loop *)

Lemma put_bytes_out m a l b : b < a \/ a + Z.of_nat (length l) <= b -> ld8 (put_bytes m a l) b = ld8 m b.
Proof.
  revert m a. induction l as [|c l IH]; intros m a Hb; [done|]. cbn [put_bytes length] in *. rewrite IH by lia. apply ld8_st8_ne. lia.
Qed.
Lemma put_bytes_at m a l : Forall (fun b => 0 <= b < 256) l -> bytes_at (put_bytes m a l) a (length l) = l.
Proof.
  revert m a. induction l as [|c l IH]; intros m a Hl; [done|]. apply Forall_cons in Hl as [Hc Hl]. cbn [put_bytes length].
  rewrite bytes_at_S, IH by done. rewrite put_bytes_out by lia. rewrite ld8_st8_eq. f_equal. apply u8_small. lia.
Qed.
Lemma umemset_at m b d n a : ld8 (umemset m b d n) a = if (b <=? a) && (a <? b + Z.max 0 n) then u8 d else ld8 m a.
Proof.
  unfold umemset. assert (Z.max 0 n = Z.of_nat (Z.to_nat n)) as -> by lia. induction (Z.to_nat n) as [|k IH].
  - cbn [seq foldl]. bcase (b <=? a); bcase (a <? b + Z.of_nat 0); cbn [andb]; try done; lia.
  - rewrite seq_S, foldl_app. cbn [foldl]. destruct (decide (a = b + Z.of_nat (0 + k))) as [->|Hne].
    + rewrite ld8_st8_eq. bcase (b <=? b + Z.of_nat (0 + k)); bcase (b + Z.of_nat (0 + k) <? b + Z.of_nat (S k)); cbn [andb]; try done; lia.
    + rewrite ld8_st8_ne by lia. rewrite IH. bcase (b <=? a); bcase (a <? b + Z.of_nat k); bcase (a <? b + Z.of_nat (S k)); cbn [andb]; try done; lia.
Qed.
(** strlen() past a run of nonzero bytes. *)
Lemma ustrlen_run n : forall fuel m a k, Forall (fun b => b <> 0) (bytes_at m a n) -> ustrlen fuel m (a + Z.of_nat n) = Some k ->
  ustrlen (n + fuel) m a = Some (Z.of_nat n + k).
Proof.
  induction n as [|n IH]; intros fuel m a k Hn Hk; [cbn; by rewrite Z.add_0_r in Hk|].
  rewrite bytes_at_S in Hn. apply Forall_cons in Hn as [H0 Hn]. cbn [Nat.add ustrlen]. bcase (ld8 m a =? 0); [lia|].
  rewrite (IH fuel m (a + 1) k Hn); [cbn; f_equal; lia|]. rewrite <- Hk. f_equal. lia.
Qed.
Lemma bytes_at_app n k m a : bytes_at m a (n + k) = bytes_at m a n ++ bytes_at m (a + Z.of_nat n) k.
Proof.
  revert a. induction n as [|n IH]; intros a; [cbn; by rewrite Z.add_0_r|]. cbn [Nat.add]. rewrite !bytes_at_S, IH. cbn. do 2 f_equal. f_equal. lia.
Qed.

(** One round that reads [c], of at most 128 nonzero bytes. *)
Lemma test_round_run fuel tmp c rest m o k (m' := put_bytes (umemset m tmp 0 128) tmp c) :
  (length c <= 128)%nat -> Forall (fun b => 0 < b < 256) c -> ustrlen fuel m' (tmp + Z.of_nat (length c)) = Some k -> 0 <= k ->
  test_round (length c + fuel) tmp (mkUio m (c :: rest) o) =
    Ret tt (mkUio m' rest (o ++ [c ++ bytes_at m' (tmp + Z.of_nat (length c)) (Z.to_nat k)])).
Proof.
  intros Hlen Hc Hk Hk0. unfold test_round. rewrite bind_modify. cbn [um uin uout].
  assert (bytes_at m' tmp (length c) = c) as Hb by (apply put_bytes_at; eapply Forall_impl; [exact Hc|]; cbn; lia).
  assert (stdin tmp 128 (mkUio (umemset m tmp 0 128) (c :: rest) o) = Ret (Z.of_nat (length c)) (mkUio m' rest o)) as E.
  { unfold stdin. cbn [uin next_input]. rewrite take_ge, drop_ge by (change (Z.to_nat 128) with 128%nat; lia). done. }
  rewrite (bind_run _ _ _ _ _ E), bind_gets. cbn [um].
  rewrite (ustrlen_run (length c) fuel m' tmp k); [|rewrite Hb; eapply Forall_impl; [exact Hc|]; cbn; lia|done].
  unfold stdout_at, modify. cbn [um uin uout]. replace (Z.to_nat (Z.of_nat (length c) + k)) with (length c + Z.to_nat k)%nat by lia.
  by rewrite bytes_at_app, Hb.
Qed.

(** ** Properties *)

(** test.c echoes its input: as long as every chunk read is shorter than the
    buffer and holds no NUL, each round writes exactly the chunk it read, and the
    program waits for more input once all of it is echoed. *)
Theorem test_echoes tmp inputs : forall rounds fuel m o, (length inputs < rounds)%nat -> (128 <= fuel)%nat ->
  Forall (fun c => (length c < 128)%nat /\ Forall (fun b => 0 < b < 256) c) inputs ->
  exists m', test_main rounds fuel tmp (mkUio m inputs o) = Spin (mkUio m' [] (o ++ inputs)).
Proof.
  induction inputs as [|c inputs IH]; intros [|rounds] fuel m o Hr Hf Hi; cbn [length] in Hr; try lia; cbn [test_main].
  - eexists. rewrite app_nil_r. reflexivity.
  - apply Forall_cons in Hi as [[Hlen Hc] Hi].
    assert (exists f, fuel = length c + S f)%nat as (f & ->) by (exists (fuel - length c - 1)%nat; lia).
    set (m1 := put_bytes (umemset m tmp 0 128) tmp c).
    assert (ustrlen (S f) m1 (tmp + Z.of_nat (length c)) = Some 0) as Hs.
    { cbn [ustrlen]. unfold m1. rewrite put_bytes_out by lia. rewrite umemset_at.
      bcase (tmp <=? tmp + Z.of_nat (length c)); [|lia]. bcase (tmp + Z.of_nat (length c) <? tmp + Z.max 0 128); [done|lia]. }
    rewrite (bind_run _ _ _ _ _ (test_round_run (S f) tmp c inputs m o 0 ltac:(lia) Hc Hs ltac:(lia))). fold m1.
    change (bytes_at m1 _ (Z.to_nat 0)) with (@nil Z). rewrite app_nil_r.
    destruct (IH rounds (length c + S f)%nat m1 (o ++ [c])) as (m' & E); [lia|lia|done|].
    exists m'. rewrite E. by rewrite <- app_assoc.
Qed.
Lemma test_echoes_witness : exists m', test_main 3 128 0x1000 (mkUio ∅ [lit "hello"; lit "world"] []) = Spin (mkUio m' [] [lit "hello"; lit "world"]).
Proof.
  apply (test_echoes 0x1000 [lit "hello"; lit "world"] 3 128 ∅ []); [cbn; lia|lia|].
  repeat (apply Forall_cons; split); [split; [cbn; lia|]|split; [cbn; lia|]|apply Forall_nil_2];
    vm_compute; repeat (apply Forall_cons; split; [split; reflexivity|]); apply Forall_nil_2.
Defined.

(** A chunk that fills the buffer leaves no room for a NUL: strlen() runs on
    into the memory behind tmp, and the round writes those bytes as well. *)
Theorem test_overread fuel tmp c rest m o k :
  length c = 128%nat -> Forall (fun b => 0 < b < 256) c -> ustrlen fuel m (tmp + 128) = Some k -> 0 <= k < 2 ^ 32 ->
  exists m', test_round (128 + fuel) tmp (mkUio m (c :: rest) o) =
    Ret tt (mkUio m' rest (o ++ [c ++ bytes_at m (tmp + 128) (Z.to_nat k)])).
Proof.
  intros Hlen Hc Hk Hk0. set (m' := put_bytes (umemset m tmp 0 128) tmp c). exists m'.
  assert (forall b, tmp + 128 <= b -> ld8 m' b = ld8 m b) as Hout.
  { intros b Hb. unfold m'. rewrite put_bytes_out by lia. rewrite umemset_at. bcase (tmp <=? b); bcase (b <? tmp + Z.max 0 128); cbn [andb]; try done; lia. }
  assert (forall f b, tmp + 128 <= b -> ustrlen f m' b = ustrlen f m b) as Hs.
  { induction f as [|f IH]; intros b Hb; [done|]. cbn [ustrlen]. rewrite Hout, IH by lia. done. }
  pose proof (test_round_run fuel tmp c rest m o k) as E. fold m' in E. rewrite Hlen in E. rewrite E; [|lia|done|by rewrite Hs by lia|lia].
  do 4 f_equal. f_equal. apply bytes_at_ext. intros b Hb. apply Hout. lia.
Qed.
Lemma test_overread_witness : exists m', test_round 136 0x1000 (mkUio (put_bytes ∅ 0x1080 (lit "key")) [replicate 128 65] []) =
  Ret tt (mkUio m' [] [replicate 128 65 ++ lit "key"]).
Proof.
  destruct (test_overread 8 0x1000 (replicate 128 65) [] (put_bytes ∅ 0x1080 (lit "key")) [] 3) as (m' & E);
    [reflexivity|apply Forall_replicate; lia|vm_compute; reflexivity|lia|]. exists m'. rewrite <- (app_nil_l [_]).
  assert (bytes_at (put_bytes ∅ 0x1080 (lit "key")) (0x1000 + 128) (Z.to_nat 3) = lit "key") as Eb by (vm_compute; reflexivity).
  rewrite <- Eb at 2. exact E.
Defined.

(** What initcode does on each answer of fork(): the text of the right length, and
    then it returns, runs the test program or waits for it and stops. *)
Theorem initcode_calls d answer l (pid := i32 (answer (usyscall SYS_fork [] i32))) :
  let text n a := usyscall SYS_write [0; n; a] i32 in
  initcode_main d answer l =
    (if pid <? 0 then Ret 0 (l ++ [usys_fork; text (Z.of_nat (String.length initcode_fail)) (d_fail d)])
     else if pid =? 0 then
       Ret 0 (l ++ [usys_fork; text (Z.of_nat (String.length initcode_start)) (d_start d); usys_exec (d_path d) (d_argv d)])
     else Spin (l ++ [usys_fork; usys_wait 0; text (Z.of_nat (String.length initcode_over)) (d_over d)])).
Proof.
  cbn zeta. unfold initcode_main. unfold call at 1. rewrite bind_assoc, bind_modify, bind_ret.
  change (u_conv (usyscall SYS_fork [] i32) (answer (usyscall SYS_fork [] i32))) with pid.
  destruct (pid <? 0); [|destruct (pid =? 0)]; unfold call; repeat (rewrite ?bind_assoc, ?bind_modify, ?bind_ret);
    unfold ret, spin; by rewrite <- !app_assoc.
Qed.
