(* ===== verification/VmPrint.v ===== *)
(** * mem/kvm.c: the listings of a page table

    vm_print() and vm_print_2() read the table and print; the memory they read is
    an argument.  What they print is stated as text, and both return. *)

From S2P Require Import Prelude Machine Str Lock Pmem Kvm Print PrintSpec.

Section print.
Context {U : Type} {HU : Uart16550 U}.
Notation S := (pstate U).

Definition say (fmt : string) (ap : list va) : M S unit := printf (lit fmt) ap.
Definition sayln (fmt : string) (ap : list va) : M S unit := printf (lit fmt ++ [10]) ap.
Definition pte_has (pte bit : Z) : bool := negb (Z.land pte bit =? 0).

Fixpoint vm_print_recursive (m : memory) (level : nat) (pgtbl : Z) : M S unit :=
  for_ 512 0 1 (fun i =>
    let pte := ld64 m (pgtbl + 8 * i) in
    when (pte_valid pte)
      (for_ (2 - level) 0 1 (fun _ => say " " []);;;
       say "..%d: pte 0x%p pa 0x%p" [VInt i; VPtr pte; VPtr (PTE_TO_PA pte)];;;
       when (pte_has pte PTE_R) (say " R" []);;;
       when (pte_has pte PTE_W) (say " W" []);;;
       when (pte_has pte PTE_X) (say " X" []);;;
       when (pte_has pte PTE_U) (say " U" []);;;
       sayln "" [];;;
       match level with
       | O => ret tt
       | Datatypes.S level => when (PTE_CHECK pte) (vm_print_recursive m level (PTE_TO_PA pte))
       end)).
Definition vm_print (m : memory) (pgtbl : Z) : M S unit :=
  sayln "page table 0x%p" [VPtr pgtbl];;;
  vm_print_recursive m 2 pgtbl.

(** The innermost loop of vm_print_2, the middle one and the outer one; the middle
    one prints the address of the top table for every lowest table. *)
Definition print_level0 (m : memory) (pgtbl_0 : Z) : M S unit :=
  for_ 512 0 1 (fun k =>
    let pte := ld64 m (pgtbl_0 + 8 * k) in
    when (pte_valid pte)
      (assert_ (negb (PTE_CHECK pte)) "vm_print: pte check fail (3)";;;
       sayln ".. .. .. physical page %d: pa = %p flags = %d" [VInt k; VPtr (PTE_TO_PA pte); VInt (i32 (PTE_FLAGS pte))])).
Definition print_level1 (m : memory) (pgtbl_2 pgtbl_1 : Z) : M S unit :=
  for_ 512 0 1 (fun j =>
    let pte := ld64 m (pgtbl_1 + 8 * j) in
    when (pte_valid pte)
      (assert_ (PTE_CHECK pte) "vm_print: pte check fail (2)";;;
       sayln ".. .. level-0 pgtbl %d: pa = %p" [VInt j; VPtr pgtbl_2];;;
       print_level0 m (PTE_TO_PA pte))).
Definition vm_print_2 (m : memory) (pgtbl : Z) : M S unit :=
  sayln "level-2 pgtbl: pa = %p" [VPtr pgtbl];;;
  for_ 512 0 1 (fun i =>
    let pte := ld64 m (pgtbl + 8 * i) in
    when (pte_valid pte)
      (assert_ (PTE_CHECK pte) "vm_print: pte check fail (1)";;;
       sayln ".. level-1 pgtbl %d: pa = %p" [VInt i; VPtr (PTE_TO_PA pte)];;;
       print_level1 m pgtbl (PTE_TO_PA pte))).

(** ** What is printed *)

(** [m] returns and sends [text], leaving the console in order. *)
Definition con_ok (s : S) : Prop := cpu_wf (pr_cpu s) /\ lk_free (print_lk s) /\ panicked s = false.
Definition prints (m : M S unit) (text : list Z) : Prop :=
  forall s, con_ok s -> exists s', m s = Ret tt s' /\ con_ok s' /\ sent (uart s') = sent (uart s) ++ text.

Lemma prints_ret : prints (ret tt) [].
Proof. intros s Hs. exists s. by rewrite app_nil_r. Qed.
Lemma prints_bind m1 m2 t1 t2 : prints m1 t1 -> prints m2 t2 -> prints (m1;;; m2) (t1 ++ t2).
Proof.
  intros H1 H2 s Hs. destruct (H1 s Hs) as (s1 & E1 & C1 & T1). destruct (H2 s1 C1) as (s2 & E2 & C2 & T2).
  exists s2. rewrite (bind_run _ _ _ _ _ E1). split; [done|]. split; [done|]. by rewrite T2, T1, app_assoc.
Qed.
Lemma prints_when b m t : (b = true -> prints m t) -> prints (when b m) (if b then t else []).
Proof. destruct b; intros H; [by apply H|apply prints_ret]. Qed.
Lemma prints_for n body t : (forall k, prints (body (Z.of_nat k)) (t k)) -> prints (for_ n 0 1 body) (flat_map t (seq 0 n)).
Proof.
  intros H. change 0 with (Z.of_nat 0) at 1. generalize 0%nat at 1 2 as j. induction n as [|n IH]; intros j; [apply prints_ret|].
  cbn [for_ seq flat_map]. apply prints_bind; [apply H|]. replace (Z.of_nat j + 1) with (Z.of_nat (Datatypes.S j)) by lia. apply IH.
Qed.
Lemma prints_printf fmt ap text : bytes fmt -> Forall va_ok ap -> render fmt ap = Some text -> prints (printf fmt ap) text.
Proof.
  intros Hb Ha Hr s (Hc & Hl & Hp). destruct (printf_run fmt ap text s Hc Hl Hp Hb Ha Hr) as (u & E & Hs & _).
  eexists. split; [exact E|]. split; [|exact Hs]. split_and!; [by apply synced_wf|done|done].
Qed.

(** The text of a printf() call. *)
Definition text (fmt : string) (ap : list va) : list Z := default [] (render (lit fmt) ap).
Definition textln (fmt : string) (ap : list va) : list Z := default [] (render (lit fmt ++ [10]) ap).
Lemma prints_say fmt ap : Forall va_ok ap -> is_Some (render (lit fmt) ap) -> prints (say fmt ap) (text fmt ap).
Proof. intros Ha [t Ht]. unfold text. rewrite Ht. by apply prints_printf; [apply lit_bytes|..]. Qed.
Lemma prints_sayln fmt ap : Forall va_ok ap -> is_Some (render (lit fmt ++ [10]) ap) -> prints (sayln fmt ap) (textln fmt ap).
Proof.
  intros Ha [t Ht]. unfold textln. rewrite Ht. apply prints_printf; [|done..]. apply Forall_app. split; [apply lit_bytes|by repeat constructor].
Qed.
Lemma pte_va m a : va_ok (VPtr (ld64 m a)) /\ va_ok (VPtr (PTE_TO_PA (ld64 m a))).
Proof. split; [apply (ld_range 8)|]. apply Z.mod_pos_bound. lia. Qed.

(** The lines of the table [pgtbl]: one per valid entry, followed by the lines of
    the table it points to. *)
Fixpoint table_text (m : memory) (level : nat) (pgtbl : Z) : list Z :=
  flat_map (fun k =>
    let i := Z.of_nat k in
    let pte := ld64 m (pgtbl + 8 * i) in
    if pte_valid pte then
      concat (replicate (2 - level) (text " " [])) ++ text "..%d: pte 0x%p pa 0x%p" [VInt i; VPtr pte; VPtr (PTE_TO_PA pte)] ++
      (if pte_has pte PTE_R then text " R" [] else []) ++ (if pte_has pte PTE_W then text " W" [] else []) ++
      (if pte_has pte PTE_X then text " X" [] else []) ++ (if pte_has pte PTE_U then text " U" [] else []) ++ textln "" [] ++
      match level with
      | O => []
      | Datatypes.S level => if PTE_CHECK pte then table_text m level (PTE_TO_PA pte) else []
      end
    else []) (seq 0 512).

Lemma prints_indent n : prints (for_ n 0 1 (fun _ => say " " [])) (concat (replicate n (text " " []))).
Proof.
  assert (forall i, prints (for_ n i 1 (fun _ => say " " [])) (concat (replicate n (text " " [])))) as H; [|apply H].
  induction n as [|n IH]; intros i; [apply prints_ret|]. apply prints_bind; [by apply prints_say|apply IH].
Qed.

(** vm_print() returns for every content of memory, also for a table that is not
    well formed, and prints one line per valid entry, in depth-first order. *)
Theorem vm_print_lists m pgtbl : 0 <= pgtbl < 2 ^ 64 ->
  prints (vm_print m pgtbl) (textln "page table 0x%p" [VPtr pgtbl] ++ table_text m 2 pgtbl).
Proof.
  intros Hb. apply prints_bind; [apply prints_sayln; [by rewrite !Forall_cons, Forall_nil|by eexists]|].
  generalize 2%nat as level. intros level. revert pgtbl Hb. induction level as [|level IH]; intros pgtbl Hb.
  all: cbn [vm_print_recursive table_text].
  all: apply prints_for; intros k; apply prints_when; intros _.
  all: destruct (pte_va m (pgtbl + 8 * Z.of_nat k)) as [V1 V2].
  all: apply prints_bind; [apply prints_indent|].
  all: apply prints_bind; [apply prints_say; [by rewrite !Forall_cons, Forall_nil|by eexists]|].
  all: do 4 (apply prints_bind; [apply prints_when; intros _; by apply prints_say|]).
  all: apply prints_bind; [by apply prints_sayln|].
  - apply prints_ret.
  - apply prints_when. intros _. apply IH. exact V2.
Qed.
End print.
